(* ===== verification/_CoqProject ===== *)
-Q . S2P
Prelude.v
CppString.v
OrdMap.v
FsPath.v
AllowedPaths.v
Network.v
Remap.v
Config.v
FromArgs.v
Effect.v
Tinykvm.v
Vm.v
Debugger.v
Fork.v
Equiv.v
Files.v
Snapshot.v
Warmup.v
Initialize.v
GuestLib.v
Main.v
Threads.v
Server.v
