(* ===== verification/Prelude.v ===== *)
(** * kvmserver: a verification development

    kvmserver runs a Linux program as a guest of the [tinykvm] library and serves
    requests with copies of it.  The guest is not trusted: which files it opens
    and which addresses it uses is decided by callbacks of the server, and in an
    ephemeral server every request is served by a fork of the guest that is
    reset afterwards.  This development models the server, the files of
    [src/src], and proves what it promises.

    ** The program and the files of the development

    - [Configuration] is filled from the command line ([config.cpp]) by
      [FromArgs]: CLI11 stores the options and calls the callbacks.  [FromArgs]
      has the options, the order of the callbacks and the exits; [Remap]
      ([add_remapping]), [Network] ([parse_addresses]), [AllowedPaths]
      ([ensure_path], [fake_path]) and [Config] ([lookup_program], volumes,
      environment, memory sizes, and the final callback as [app_callback]) have the parts.
    - The permission map is a [std::map] from [std::filesystem::path] in the
      order of [ComparePathSegments].  [OrdMap] models the map as a sorted
      association list, [FsPath] the path class (parsing, [/], iteration,
      [lexically_normal], [parent_path]), [CppString] the [std::string]
      functions that are used.  [AllowedPaths] has [lookup_allowed_path] of
      [vm.cpp] and its specification, a search for the longest key.
    - [VirtualMachine] ([vm.hpp], [vm.cpp]) is the record of [Vm]: its two
      constructors, the callbacks it installs, the system calls it handles.
      [Debugger] has [open_debugger], [Initialize] has [initialize] with the
      branches of [DEBUG], [SAMPLING] and [BENCH], [Warmup] has [warmup.cpp],
      [Snapshot] has [vm_state.cpp], [Fork] has [reset_to], [resume_fork] and the
      loop of a thread of [main] that serves with a fork.
    - [Threads] cuts that loop into steps and interleaves the threads of a server,
      which share the main object, the reset counters and, without [--1-to-1], the
      storage machine.  [Equiv] relates objects nothing can tell apart.
    - [Files] has [file.cpp] and [mmap_file.hpp]; [Main] has [main.cpp] from the
      command line to the exit status, with [init_kvm], the mapped binaries and their
      destructors; [Server] puts the theorems together for a process [main] started.
    - [GuestLib] has the library of the guests, [api/libkvmserverguest.c], and
      its handshake with the handlers of [Vm].
    - [tinykvm] and the kernel are not part of the program.  [Tinykvm] states as
      the class [TinyKVM] the operations the server uses, and as [TinyKVMLaws]
      what it relies on; [Snapshots] and [SnapshotLaws] do it for snapshots,
      [MachineEquiv] for indistinguishable machines and [RemoteLaws] for machines that
      are connected to no storage machine.
      Each has an instance, [ToyMachine] and [SnapToy], on which the examples
      are evaluated.  The C library's [inet_pton], [getaddrinfo], [stat],
      [mmap], socket calls and so on are parameters that give their answers, and
      so is what CLI11 reads from the command line ([Options]).

    ** How it is modelled

    A function that throws returns [result]; one that also changes an object is
    a function of the monad [st] of [Effect], which keeps the changes made
    before a throw.  Undefined behaviour (a null [char*], an index past the end) is
    the exception [Undefined], which no handler catches.  Fixed-width integers
    are [Z] with [wrap] where the code stores into them.

    The guest is the environment.  A run of the machine is a list of [Event]s:
    [EvGuest f] changes the machine in any way, the others are the calls
    [tinykvm] makes to the server's callbacks, each with the arguments and the
    answers of the host it needs.  [handle] is what the callback does;
    [run_events] handles events until a callback stops the machine; [machine_run]
    adds how the run ends otherwise.  Which function a callback slot holds is
    part of the object ([FdCallbacks]), as [initialize], [warmup] and the
    constructors install different ones; a closure of [warmup] whose locals are gone
    is a value of its own, and calling it is undefined.  The theorems quantify over all event
    lists, so they hold for every guest.  Operations of [tinykvm] may throw.

    Endless loops ([resume_fork], the thread of a fork, the single machine, the debugger, the
    sampler, the client) take the list of what happens in their turns;
    the loop goes on as long as the list does ([Serving]), and the theorems hold for lists of every
    length.  The loop of [lookup_allowed_path] is bounded by the fail-safe
    counter of the code itself, which starts at the size of the map and is
    proved sufficient; that of [split] by the length of its string.

    Threads: a fork is only used by its own thread, and the main object does not
    change once there are forks.  A thread's state is its [World]; in [Threads] a
    server is the map of its threads with the counters they share, and an execution
    follows a schedule, a list of steps each with its thread.

    The storage machine: a machine may be connected to another one ([remote()]), on
    which the handlers of [vm.cpp] work through a reference.  [on_remote] is such
    work on it.  A reset does not restore it.  Without [--1-to-1] the forks are connected
    to one storage machine: it is a component of [System], which a step of a thread
    gets ([attach]) and gives back as it leaves it ([publish]).  The storage guest is resumed
    in one of two modes, by [permanent_resume] or by [resume_with].

    ** What the theorems show

    - The server as a whole ([Server]): in a process that [main] started the guest
      opens, connects and binds exactly what the grants and network entries of the
      configuration allow, and under every interleaving of the threads every fork
      is the main machine again at the head of its loop.
    - File access ([AllowedPaths], [Config], [Vm]): the lookup is the longest-prefix
      search, never leaves the granted directories and is exact for the
      command line's grants; in any run of any guest every path that is allowed
      is below a granted directory.
    - Network access ([Network], [Vm]): an address is on a list ([listed]) when an
      entry has its family, address and port; lists of IPv4 rules allow exactly what
      they name, lists with other values do not always; in any run exactly the listed
      addresses are allowed.
    - Requests ([Fork], [Equiv], [Threads]): a fork implements the abstract [phase_step], one
      connection at a time; it asks to be reset exactly when the connection is
      closed; after a reset it is as new, whatever happened, and exceptions do
      not end its thread; two forks answer alike whatever they served before, when
      their storage machines are alike; threads that share no storage machine do not
      interfere, and the shared counters lose nothing.
    - Life cycle ([Initialize], [Warmup], [Snapshot], [Main], [Files]): how the guest
      is started; a server that starts to serve is ready to be forked, a warm-up that returns
      has served its connections, a snapshot restores the listening socket, the binaries
      stay mapped while a guest can run and are unmapped once, and which exit status means
      what.
    - The command line ([FromArgs], [Remap], [Config], [CppString], [Network]):
      the configuration is well typed and what the options say, options are read back as
      written, and where sizes wrap.
    - The guests' library ([GuestLib]): a buffer is handed over to the waiting storage
      guest, in both modes of resuming it.

    Some theorems state behaviour that differs from the intent of the code: the
    rule with only a port ([port_only_rule_opens_ipv6]), bracketed addresses with
    a port, the port range check, sizes that wrap, [reset_to] in a verbose
    server of more than 64 forks and after a reset that failed, threads that nobody joins when a warm-up
    fails, sampling that never ends, the exit status of a server without forks.

    ** What is not modelled

    CLI11's parsing of [argv] and of [kvmserver.toml], the protocol of the GDB server
    behind [open_debugger], time measurements, messages, the resident size printed at start, the
    callback that lets a fork duplicate read-only descriptors of the main machine (it only
    reads [tinykvm]'s table), and the programs of [src/examples].  The
    mutex that serialises the calls to a shared storage machine is only represented by
    callbacks being one step of a thread.  Times are rationals ([Q]) where the code has
    [float].  The warm-up client and the server are modelled apart: the client's
    connections are among the events of the server's run. *)

From Stdlib Require Export Ascii String ZArith QArith_base Lia.
From stdpp Require Export base list strings gmap sets.

(** ** Exceptions and fallible code

    C++ code that throws is modelled by [result]: [Ok] is a normal return and
    [Err] the exception that leaves the function.  [CLI::ValidationError] and
    the standard exceptions keep their constructor arguments. *)

Inductive exn : Type :=
  | ValidationError (name what : string)   (**r [CLI::ValidationError] *)
  | RuntimeError (what : string)           (**r [std::runtime_error] *)
  | InvalidArgument (what : string)        (**r [std::invalid_argument] *)
  | OutOfRange (what : string)             (**r [std::out_of_range] *)
  | MachineTimeout (what : string)         (**r [tinykvm::MachineTimeoutException] *)
  | MachineError (what : string)           (**r another [tinykvm] exception *)
  | Undefined (what : string).             (**r undefined behaviour, e.g. a null [char*] *)

Inductive result (A : Type) : Type :=
  | Ok (a : A)
  | Err (e : exn).
Arguments Ok {A} a.
Arguments Err {A} e.

(** Undefined behaviour is not an exception: no handler catches it. *)
Definition catchable (e : exn) : bool := match e with Undefined _ => false | _ => true end.

#[export] Instance exn_eq_dec : EqDecision exn.
Proof. solve_decision. Defined.

#[export] Instance result_eq_dec `{EqDecision A} : EqDecision (result A).
Proof. solve_decision. Defined.

#[export] Instance result_ret : MRet result := @Ok.
#[export] Instance result_bind : MBind result :=
  λ _ _ f r, match r with Ok a => f a | Err e => Err e end.
#[export] Instance result_fmap : FMap result :=
  λ _ _ f r, match r with Ok a => Ok (f a) | Err e => Err e end.

Definition throw {A} (e : exn) : result A := Err e.

Definition is_Ok {A} (r : result A) : bool :=
  match r with Ok _ => true | Err _ => false end.

(** A [for] loop over a vector whose body may throw. *)
Fixpoint foldM {A S} (f : S → A → result S) (l : list A) (s : S) : result S :=
  match l with
  | [] => Ok s
  | x :: l => s' ← f s x; foldM f l s'
  end.

(** ** Fixed-width unsigned integers

    A [w]-bit unsigned value is an integer in [0, 2^w); [wrap w] is the
    conversion every store into such a variable performs. *)

Definition wrap (w z : Z) : Z := (z mod 2 ^ w)%Z.
Abbreviation u16 := (wrap 16).
Abbreviation u32 := (wrap 32).
Abbreviation u64 := (wrap 64).

Section wrap.
Local Open Scope Z_scope.

Lemma wrap_bound w z : 0 <= w → 0 <= wrap w z < 2 ^ w.
Proof. intros. apply Z.mod_pos_bound. lia. Qed.

Lemma wrap_id w z : 0 <= z < 2 ^ w → wrap w z = z.
Proof. apply Z.mod_small. Qed.

Lemma wrap_exact w z : 0 <= w → 0 <= z → wrap w z = z ↔ z < 2 ^ w.
Proof.
  intros Hw Hz; split; [|by intros; apply wrap_id].
  intros <-. apply wrap_bound, Hw.
Qed.
End wrap.

(** ** Strict orders as boolean comparators *)

Class StrictTotal {A} (ltb : A → A → bool) : Prop := {
  st_irrefl x : ltb x x = false;
  st_trans x y z : ltb x y = true → ltb y z = true → ltb x z = true;
  st_total x y : ltb x y = false → ltb y x = false → x = y
}.

Lemma st_asym {A} (ltb : A → A → bool) `{!StrictTotal ltb} x y :
  ltb x y = true → ltb y x = false.
Proof.
  intros H1. destruct (ltb y x) eqn:H2; [|done].
  pose proof (st_trans _ _ _ H1 H2). by rewrite st_irrefl in H.
Qed.

(** Lexicographic comparison; a proper prefix is the smaller list. *)
Section lex.
Context {A} (ltb : A → A → bool).

Fixpoint lex_ltb (l k : list A) : bool :=
  match l, k with
  | _, [] => false
  | [], _ :: _ => true
  | x :: l, y :: k => ltb x y || (negb (ltb y x) && lex_ltb l k)
  end.

Context `{!StrictTotal ltb}.

Lemma lex_irrefl l : lex_ltb l l = false.
Proof. induction l as [|x l IH]; simpl; [done|]. by rewrite st_irrefl, IH. Qed.

Lemma lex_trans l k j : lex_ltb l k = true → lex_ltb k j = true → lex_ltb l j = true.
Proof.
  revert k j. induction l as [|x l IH]; intros [|y k] [|z j]; simpl; try done.
  rewrite !orb_true_iff, !andb_true_iff, !negb_true_iff.
  intros [Hxy|[Hyx Hlk]] [Hyz|[Hzy Hkj]].
  - left. by eapply st_trans.
  - left. destruct (ltb y z) eqn:Hyz; [by eapply st_trans|].
    by rewrite <-(st_total y z Hyz Hzy).
  - left. destruct (ltb x y) eqn:Hxy; [by eapply st_trans|].
    by rewrite (st_total x y Hxy Hyx).
  - destruct (ltb x y) eqn:Hxy; [left|right].
    + destruct (ltb y z) eqn:Hyz; [by eapply st_trans|].
      by rewrite <-(st_total y z Hyz Hzy).
    + rewrite (st_total x y Hxy Hyx). eauto.
Qed.

Lemma lex_total l k : lex_ltb l k = false → lex_ltb k l = false → l = k.
Proof.
  revert k. induction l as [|x l IH]; intros [|y k]; simpl; try done.
  rewrite !orb_false_iff, !andb_false_iff, !negb_false_iff.
  intros [Hxy [?|H1]] [Hyx [?|H2]]; try congruence.
  by rewrite (st_total x y Hxy Hyx), (IH k).
Qed.

#[export] Instance lex_strict_total : StrictTotal lex_ltb.
Proof. split; eauto using lex_irrefl, lex_trans, lex_total. Qed.

Lemma lex_prefix_ltb l k : k ≠ [] → lex_ltb l (l ++ k) = true.
Proof.
  intros Hk. induction l as [|x l IH]; simpl; [by destruct k|].
  by rewrite IH, st_irrefl.
Qed.

Lemma lex_app_l l k j : lex_ltb (l ++ k) (l ++ j) = lex_ltb k j.
Proof. induction l as [|x l IH]; simpl; [done|]. by rewrite IH, st_irrefl. Qed.
End lex.

(** Pulling a strict total order back along an injection. *)
Lemma st_inj {A B} (f : A → B) (ltb : B → B → bool) `{!StrictTotal ltb} :
  (∀ x y, f x = f y → x = y) → StrictTotal (λ x y, ltb (f x) (f y)).
Proof.
  intros Hf. split.
  - intros x. apply st_irrefl.
  - intros x y z. apply st_trans.
  - intros x y H1 H2. by apply Hf, st_total.
Qed.

(** ** Lists *)

(** [removelast] through [last]. *)
Lemma removelast_snoc {A} (l : list A) x : removelast (l ++ [x]) = l.
Proof. rewrite removelast_app by done. simpl. apply app_nil_r. Qed.

Lemma list_snoc_cases {A} (l : list A) : l = [] ∨ ∃ k x, l = k ++ [x].
Proof. induction l using rev_ind; eauto. Qed.

Lemma forallb_false {A} (f : A → bool) l : forallb f l = false → ∃ x, x ∈ l ∧ f x = false.
Proof.
  induction l as [|x l IH]; simpl; [done|]. destruct (f x) eqn:Hx; simpl.
  - intros (y & Hy & Hf)%IH. exists y. split; [by right|done].
  - intros _. exists x. split; [by left|done].
Qed.

Lemma prefix_length_eq {A} (l k : list A) : l `prefix_of` k → length k ≤ length l → l = k.
Proof. intros [j ->]. rewrite length_app. destruct j; simpl; [by rewrite app_nil_r|lia]. Qed.

Lemma prefix_take {A} (l k : list A) : l `prefix_of` k → l = take (length l) k.
Proof. intros [j ->]. by rewrite take_app_length. Qed.

Lemma take_prefix_of {A} n (l : list A) : take n l `prefix_of` l.
Proof. exists (drop n l). by rewrite take_drop. Qed.

Lemma prefix_of_take {A} n (l k : list A) :
  l `prefix_of` k → length l ≤ n → l `prefix_of` take n k.
Proof.
  intros [j ->] Hn. exists (take (n - length l) j). rewrite take_app. f_equal.
  by rewrite take_ge.
Qed.

(** Two prefixes of one list are comparable, the shorter first. *)
Lemma prefix_prefix_length {A} (l1 l2 k : list A) :
  l1 `prefix_of` k → l2 `prefix_of` k → length l1 ≤ length l2 → l1 `prefix_of` l2.
Proof.
  intros H1 H2 Hl. rewrite (prefix_take _ _ H2). by apply prefix_of_take.
Qed.

(** ** Tactics of the development *)

(** Case analysis on every [match]/[if] scrutinee of the goal or a hypothesis. *)
Ltac break_match :=
  match goal with
  | |- context [match ?x with _ => _ end] => destruct x eqn:?
  | H : context [match ?x with _ => _ end] |- _ => destruct x eqn:?
  end.

(** Turn boolean connectives in hypotheses and goal into propositions. *)
Ltac breflect :=
  repeat match goal with
  | H : _ && _ = true |- _ => apply andb_true_iff in H as [??]
  | H : _ || _ = false |- _ => apply orb_false_iff in H as [??]
  | H : negb _ = true |- _ => apply negb_true_iff in H
  | H : negb _ = false |- _ => apply negb_false_iff in H
  | H : bool_decide _ = true |- _ => apply bool_decide_eq_true_1 in H
  | H : bool_decide _ = false |- _ => apply bool_decide_eq_false_1 in H
  | H : (_ =? _)%Z = true |- _ => apply Z.eqb_eq in H
  | H : (_ =? _)%Z = false |- _ => apply Z.eqb_neq in H
  | H : (_ <? _)%Z = true |- _ => apply Z.ltb_lt in H
  | H : (_ <? _)%Z = false |- _ => apply Z.ltb_ge in H
  | H : (_ <=? _)%Z = true |- _ => apply Z.leb_le in H
  | H : (_ <=? _)%Z = false |- _ => apply Z.leb_gt in H
  end.

Ltac crush := repeat first [done | progress simplify_eq/= | progress breflect | break_match].

Create HintDb kvm discriminated.
#[export] Hint Resolve wrap_bound wrap_id prefix_of_take prefix_take : kvm.
