(* ===== verification/CppString.v ===== *)
(** * [std::string] operations used by the configuration code

    Strings are byte strings ([String.string]); a [size_type] is a [nat] and
    [npos] is [None].  The file also has [split] of [config.cpp], with the
    reference definition it is proved equal to. *)

From S2P Require Import Prelude.

Local Open Scope string_scope.
Local Open Scope list_scope.
Local Open Scope nat_scope.

(** ** Positions *)

Abbreviation str_len := String.length.

Fixpoint str_drop (n : nat) (s : string) : string :=
  match n, s with
  | S n, String _ s => str_drop n s
  | _, _ => s
  end.

Fixpoint str_take (n : nat) (s : string) : string :=
  match n, s with
  | S n, String a s => String a (str_take n s)
  | _, _ => ""
  end.

(** [s.substr(pos, n)] for [pos <= s.size()]. *)
Definition substr (s : string) (pos n : nat) : string := str_take n (str_drop pos s).

(** First position of a character. *)
Fixpoint index_of (c : ascii) (s : string) : option nat :=
  match s with
  | "" => None
  | String a s => if decide (a = c) then Some 0 else S <$> index_of c s
  end.

(** [s.find(c, pos)]. *)
Definition find_from (s : string) (c : ascii) (pos : nat) : option nat :=
  Nat.add pos <$> index_of c (str_drop pos s).

Definition in_set (set : string) (a : ascii) : bool := bool_decide (is_Some (index_of a set)).

(** [s.find_first_not_of(set)]. *)
Fixpoint find_first_not_of (set s : string) : option nat :=
  match s with
  | "" => None
  | String a s => if in_set set a then S <$> find_first_not_of set s else Some 0
  end.

(** [s.find_last_not_of(set)]. *)
Fixpoint find_last_not_of (set s : string) : option nat :=
  match s with
  | "" => None
  | String a s =>
      match find_last_not_of set s with
      | Some i => Some (S i)
      | None => if in_set set a then None else Some 0
      end
  end.

Definition str_get (s : string) (i : nat) : option ascii := String.get i s.

(** [s.back()]; undefined for the empty string. *)
Fixpoint str_back (s : string) : option ascii :=
  match s with
  | "" => None
  | String a "" => Some a
  | String _ s => str_back s
  end.

Definition str_front (s : string) : option ascii := str_get s 0.

(** [s.starts_with(p)]; also [strncmp(s, p, p.size()) == 0]. *)
Definition starts_with (s p : string) : bool := String.prefix p s.

(** ** Splitting at a separator *)

(** Reference definition: the fields between the separators. *)
Fixpoint split_on (c : ascii) (s : string) : list string :=
  match s with
  | "" => [""]
  | String a s =>
      if decide (a = c) then "" :: split_on c s
      else match split_on c s with
           | h :: t => String a h :: t
           | [] => [String a ""]
           end
  end.

(** Fields put together again with the separator between them. *)
Fixpoint join_with (c : ascii) (l : list string) : string :=
  match l with
  | [] => ""
  | [x] => x
  | x :: l => x +:+ String c (join_with c l)
  end.

(** [split] of [config.cpp]: the loop keeps [prev_pos] and [pos] as the source
    does; [fuel] bounds the iterations. *)
Fixpoint split_loop (fuel : nat) (s : string) (seperator : ascii)
    (prev_pos pos : nat) (output : list string) : option (list string) :=
  match fuel with
  | 0 => None
  | S fuel =>
      match find_from s seperator pos with
      | Some pos' =>
          split_loop fuel s seperator (S pos') (S pos')
            (output ++ [substr s prev_pos (pos' - prev_pos)])
      | None => Some (output ++ [substr s prev_pos (str_len s)])
      end
  end.

(** One iteration per separator and the last, failing, [find]. *)
Definition split (s : string) (seperator : ascii) : list string :=
  default [] (split_loop (S (str_len s)) s seperator 0 0 []).

(** ** Numbers

    [std::stoul] and [std::stoull] on a 64-bit [unsigned long (long)]: leading
    white space and a sign are accepted, conversion stops at the first
    character that is not a digit of the base, no digit at all throws
    [std::invalid_argument] and a magnitude above [2^64 - 1] throws
    [std::out_of_range].  Base [0] takes the base from a [0x] or [0] prefix. *)

Definition is_space (a : ascii) : bool :=
  let n := N_of_ascii a in ((n =? 32) || ((9 <=? n) && (n <=? 13)))%N.

Definition digit_val (a : ascii) : Z :=
  let n := Z.of_N (N_of_ascii a) in
  (if (48 <=? n) && (n <=? 57) then n - 48
   else if (97 <=? n) && (n <=? 122) then n - 87
   else if (65 <=? n) && (n <=? 90) then n - 55
   else 99)%Z.

Fixpoint read_digits (base : Z) (s : string) (acc : Z) (n : nat) : Z * nat :=
  match s with
  | String a s =>
      if (digit_val a <? base)%Z then read_digits base s (acc * base + digit_val a)%Z (S n)
      else (acc, n)
  | "" => (acc, n)
  end.

Fixpoint skip_spaces (s : string) : string :=
  match s with
  | String a s' => if is_space a then skip_spaces s' else s
  | "" => ""
  end.

Definition split_sign (s : string) : bool * string :=
  match s with
  | String "-" s => (true, s)
  | String "+" s => (false, s)
  | _ => (false, s)
  end.

(** The base and the digits that remain after a base prefix. *)
Definition split_base (base : Z) (s : string) : Z * string :=
  let hex := match s with
             | String "0" (String x (String d s)) =>
                 if ((Ascii.eqb x "x" || Ascii.eqb x "X") && (digit_val d <? 16)%Z)%bool
                 then Some (String d s) else None
             | _ => None
             end in
  match hex with
  | Some s' => if ((base =? 0) || (base =? 16))%Z then (16%Z, s') else (base, s)
  | None =>
      if (base =? 0)%Z then
        match s with String "0" _ => (8%Z, s) | _ => (10%Z, s) end
      else (base, s)
  end.

Definition stoull (s : string) (base : Z) : result Z :=
  let '(neg, s) := split_sign (skip_spaces s) in
  let '(base, s) := split_base base s in
  let '(v, n) := read_digits base s 0%Z 0 in
  if decide (n = 0) then Err (InvalidArgument "stoull")
  else if (2 ^ 64 <=? v)%Z then Err (OutOfRange "stoull")
  else Ok (if neg then u64 (- v) else v).

(** [unsigned long] has 64 bits too. *)
Definition stoul (s : string) : result Z := stoull s 10.

(** ** Properties *)

Lemma str_app_assoc s t u : (s +:+ t) +:+ u = s +:+ (t +:+ u).
Proof. induction s as [|a s IH]; [done|]. by apply (f_equal (String a)) in IH. Qed.

Lemma str_app_nil_r s : s +:+ "" = s.
Proof. induction s as [|a s IH]; [done|]. by apply (f_equal (String a)) in IH. Qed.

Lemma str_drop_0 s : str_drop 0 s = s.
Proof. by destruct s. Qed.

Lemma str_drop_drop i j s : str_drop i (str_drop j s) = str_drop (j + i) s.
Proof.
  revert s. induction j as [|j IH]; intros s; simpl; [done|].
  destruct s; simpl; [by destruct i|apply IH].
Qed.

Lemma str_len_drop n s : str_len (str_drop n s) = str_len s - n.
Proof. revert s. induction n as [|n IH]; intros [|a s]; simpl; auto. Qed.

Lemma str_take_ge n s : str_len s ≤ n → str_take n s = s.
Proof.
  revert s. induction n as [|n IH]; intros [|a s]; simpl; try done; [lia|].
  intros. f_equal. apply IH. lia.
Qed.

Lemma index_of_lt c s i : index_of c s = Some i → i < str_len s.
Proof.
  revert i. induction s as [|a s IH]; intros i; simpl; [done|].
  case_decide; intros; simplify_eq/=; [lia|].
  destruct (index_of c s) as [j|]; simplify_eq/=. pose proof (IH j eq_refl). lia.
Qed.

Lemma str_back_snoc s a : str_back (s +:+ String a "") = Some a.
Proof.
  induction s as [|b s IH]; [done|].
  change (String b s +:+ String a "") with (String b (s +:+ String a "")).
  simpl. rewrite IH. by destruct s.
Qed.

(** The reference definition, unfolded at the first separator. *)
Lemma split_on_index c s :
  split_on c s = match index_of c s with
                 | Some i => str_take i s :: split_on c (str_drop (S i) s)
                 | None => [s]
                 end.
Proof.
  induction s as [|a s IH]; [done|]. cbn [split_on index_of].
  case_decide; [done|].
  rewrite IH. by destruct (index_of c s).
Qed.

Lemma split_loop_spec fuel s c pos output :
  str_len s - pos < fuel →
  split_loop fuel s c pos pos output = Some (output ++ split_on c (str_drop pos s)).
Proof.
  revert pos output. induction fuel as [|fuel IH]; intros pos output Hf; [lia|].
  cbn [split_loop]. unfold find_from. rewrite split_on_index.
  destruct (index_of c (str_drop pos s)) as [i|] eqn:Hi; cbn [fmap option_fmap option_map].
  - pose proof (index_of_lt _ _ _ Hi) as Hlt. rewrite str_len_drop in Hlt.
    rewrite IH by lia. unfold substr. rewrite <-app_assoc; cbn [app].
    rewrite (str_drop_drop (S i)). do 3 f_equal; [f_equal; lia|]. do 2 f_equal. lia.
  - unfold substr. rewrite str_take_ge; [done|]. rewrite str_len_drop. lia.
Qed.

Lemma split_is_split_on s c : split s c = split_on c s.
Proof. unfold split. rewrite split_loop_spec by lia. done. Qed.

Lemma split_on_not_nil c s : split_on c s ≠ [].
Proof. rewrite split_on_index. by destruct (index_of c s). Qed.

Lemma join_split_on c s : join_with c (split_on c s) = s.
Proof.
  induction s as [|a s IH]; [done|]. cbn [split_on].
  pose proof (split_on_not_nil c s) as Hn. case_decide; subst.
  - destruct (split_on c s) as [|h t]; [done|]. simpl in *. by rewrite IH.
  - destruct (split_on c s) as [|h [|h' t]]; [done| |]; simpl in *; by subst.
Qed.

(** No field of a split holds the separator. *)
Lemma split_on_fields c s : Forall (λ x, index_of c x = None) (split_on c s).
Proof.
  induction s as [|a s IH]; [by repeat constructor|]. cbn [split_on].
  case_decide; [by constructor|].
  destruct (split_on c s) as [|h t]; [by repeat constructor; simpl; case_decide|].
  apply Forall_cons in IH as [Hh Ht]. constructor; [|done].
  simpl. case_decide; [done|]. by rewrite Hh.
Qed.

Lemma index_of_app_None c s t :
  index_of c (s +:+ t) = None ↔ index_of c s = None ∧ index_of c t = None.
Proof.
  induction s as [|a s IH]; simpl; [naive_solver|]. case_decide; [naive_solver|].
  destruct (index_of c (s +:+ t)), (index_of c s), (index_of c t); naive_solver.
Qed.

Lemma split_on_app c s t :
  index_of c s = None → split_on c (s +:+ String c t) = s :: split_on c t.
Proof.
  induction s as [|a s IH]; simpl; [by case_decide|].
  case_decide; [done|]. intros Hs. rewrite IH; [done|]. by destruct (index_of c s).
Qed.

Lemma split_on_None c s : index_of c s = None → split_on c s = [s].
Proof. intros H. by rewrite split_on_index, H. Qed.

(** Splitting what was joined gives the fields back. *)
Lemma split_join c l :
  l ≠ [] → Forall (λ x, index_of c x = None) l → split_on c (join_with c l) = l.
Proof.
  intros Hn Hl. induction Hl as [|x [|y l] Hx Hl IH]; [done|by apply split_on_None|].
  change (join_with c (x :: y :: l)) with (x +:+ String c (join_with c (y :: l))).
  rewrite split_on_app by done. by rewrite IH.
Qed.

Lemma read_digits_nonneg base s acc n :
  (0 ≤ base)%Z → (0 ≤ acc)%Z → (0 ≤ (read_digits base s acc n).1)%Z.
Proof.
  intros Hb. revert acc n. induction s as [|a s IH]; intros acc n Hacc; simpl; [done|].
  case_match eqn:E; [|done]. apply IH.
  assert (0 ≤ digit_val a)%Z; [|nia].
  unfold digit_val. repeat case_match; breflect; lia.
Qed.

(** Every value [stoull] returns fits 64 bits. *)
Lemma stoull_bound s base v : (0 ≤ base)%Z → stoull s base = Ok v → (0 ≤ v < 2 ^ 64)%Z.
Proof.
  intros Hb. unfold stoull. destruct (split_sign _) as [neg s1].
  destruct (split_base base s1) as [b s2] eqn:Eb.
  assert (0 ≤ b)%Z as Hb'.
  { unfold split_base in Eb. repeat case_match; simplify_eq; lia. }
  pose proof (read_digits_nonneg b s2 0 0 Hb' ltac:(lia)) as Hv.
  destruct (read_digits b s2 0 0) as [v' n]. simpl in Hv.
  case_decide; [done|]. case_match eqn:E; [done|]. intros; simplify_eq. breflect.
  destruct neg; [|lia]. apply wrap_bound. lia.
Qed.

(** ** Theorem *)

(** [split] terminates within one iteration per character and one more,
    and returns the fields between the separators: there is always at least
    one, none contains the separator, and putting the separator between them
    gives the string back; conversely splitting a joined list of such fields
    returns the list. *)
Lemma split_correct s c :
  split_loop (S (str_len s)) s c 0 0 [] = Some (split s c) ∧
  split s c ≠ [] ∧ Forall (λ x, index_of c x = None) (split s c) ∧
  join_with c (split s c) = s ∧
  ∀ l, l ≠ [] → Forall (λ x, index_of c x = None) l → split (join_with c l) c = l.
Proof.
  rewrite split_is_split_on. split_and!.
  - rewrite split_loop_spec by lia. by rewrite str_drop_0.
  - apply split_on_not_nil.
  - apply split_on_fields.
  - apply join_split_on.
  - intros l. rewrite split_is_split_on. apply split_join.
Qed.
