(* ===== verification/OrdMap.v ===== *)
(** * The part of [std::map] the program uses

    A [std::map<K, V, Compare>] is its in-order sequence of entries, a list
    sorted by the comparator.  An iterator is a position in that list:
    [begin()] is [0], [end()] the length, [--it] the predecessor.  The
    operations are [upper_bound], [find], [emplace] and in-place update of the
    mapped value; the laws are proved for every strict weak order, the
    requirement the standard puts on [Compare]. *)

From Stdlib Require Import Sorted.
From S2P Require Import Prelude.

(** What [std::map] asks of its comparator. *)
Class StrictWeak {K} (comp : K → K → bool) : Prop := {
  sw_irrefl x : comp x x = false;
  sw_trans x y z : comp x y = true → comp y z = true → comp x z = true;
  sw_negtrans x y z : comp x z = true → comp x y = true ∨ comp y z = true
}.

(** A comparator that compares images under [f] in a strict total order. *)
Lemma strict_weak_image {K S} (f : K → S) (ltb : S → S → bool) `{!StrictTotal ltb} comp :
  (∀ x y, comp x y = ltb (f x) (f y)) → StrictWeak comp.
Proof.
  intros Hc. split; setoid_rewrite Hc.
  - intros x. apply st_irrefl.
  - intros x y z. apply st_trans.
  - intros x y z Hxz. destruct (ltb (f x) (f y)) eqn:Hxy; [by left|right].
    destruct (ltb (f y) (f x)) eqn:Hyx; [by eapply st_trans|].
    by rewrite <-(st_total _ _ Hxy Hyx).
Qed.

Section ordmap.
Context {K V : Type} (comp : K → K → bool).
Implicit Types (m : list (K * V)) (k : K).

(** Position of the first entry whose key is greater than [k]. *)
Fixpoint upper_bound m k : nat :=
  match m with
  | [] => 0
  | (k', _) :: m => if comp k k' then 0 else S (upper_bound m k)
  end.

(** Keys neither of which is less than the other are the same key. *)
Definition key_equiv k k' : bool := negb (comp k k') && negb (comp k' k).

(** [m.find(k)]: the mapped value of the entry, [None] for [end()]. *)
Fixpoint map_find m k : option V :=
  match m with
  | [] => None
  | (k', v) :: m => if key_equiv k k' then Some v else map_find m k
  end.

(** [m.emplace(k, v)] for a key that is not in the map. *)
Fixpoint map_emplace m k v : list (K * V) :=
  match m with
  | [] => [(k, v)]
  | (k', v') :: m' => if comp k k' then (k, v) :: m else (k', v') :: map_emplace m' k v
  end.

(** Assignment through the iterator [find] returned. *)
Fixpoint map_update m k (f : V → V) : list (K * V) :=
  match m with
  | [] => []
  | (k', v) :: m => if key_equiv k k' then (k', f v) :: m else (k', v) :: map_update m k f
  end.

(** The representation invariant of the container. *)
Definition map_sorted m : Prop := StronglySorted (λ e e', comp e.1 e'.1 = true) m.

Context `{!StrictWeak comp}.

Lemma comp_asym k k' : comp k k' = true → comp k' k = false.
Proof.
  intros H. destruct (comp k' k) eqn:H'; [|done].
  pose proof (sw_trans _ _ _ H H') as Hk. by rewrite (sw_irrefl (comp:=comp)) in Hk.
Qed.

Lemma key_equiv_refl k : key_equiv k k = true.
Proof. unfold key_equiv. by rewrite (sw_irrefl (comp:=comp)). Qed.

Lemma key_equiv_comp_r k k' x : key_equiv k k' = true → comp x k = comp x k'.
Proof.
  unfold key_equiv. rewrite andb_true_iff, !negb_true_iff. intros [H1 H2].
  destruct (comp x k) eqn:E1, (comp x k') eqn:E2; try done.
  - by destruct (sw_negtrans _ k' _ E1); congruence.
  - by destruct (sw_negtrans _ k _ E2); congruence.
Qed.

Lemma key_equiv_comp_l k k' x : key_equiv k k' = true → comp k x = comp k' x.
Proof.
  unfold key_equiv. rewrite andb_true_iff, !negb_true_iff. intros [H1 H2].
  destruct (comp k x) eqn:E1, (comp k' x) eqn:E2; try done.
  - by destruct (sw_negtrans _ k' _ E1); congruence.
  - by destruct (sw_negtrans _ k _ E2); congruence.
Qed.

Lemma upper_bound_length m k : upper_bound m k ≤ length m.
Proof using Type. induction m as [|[k' v] m IH]; simpl; [lia|]. case_match; lia. Qed.

(** Entries below the bound are not greater than [k], the others are. *)
Lemma upper_bound_spec m k i e :
  map_sorted m → m !! i = Some e → (comp k e.1 = false ↔ i < upper_bound m k).
Proof.
  intros Hs. revert i. induction Hs as [|[k' v] m Hs IH Hall]; intros i Hi; [done|].
  simpl. destruct (comp k k') eqn:Hk.
  - split; [|lia]. intros He. destruct i as [|i]; simplify_eq/=; [congruence|].
    apply list_elem_of_lookup_2 in Hi. rewrite Forall_forall in Hall.
    pose proof (Hall _ Hi) as Hlt. simpl in Hlt.
    pose proof (sw_trans _ _ _ Hk Hlt). congruence.
  - destruct i as [|i]; simplify_eq/=; [split; [lia|done]|].
    rewrite (IH _ Hi). lia.
Qed.

(** [--upper_bound(k)] is the greatest entry not greater than [k]. *)
Lemma upper_bound_prev m k i :
  map_sorted m → upper_bound m k = S i →
  ∃ e, m !! i = Some e ∧ comp k e.1 = false ∧
       ∀ j e', m !! j = Some e' → comp k e'.1 = false → j ≤ i.
Proof.
  intros Hs Hub.
  destruct (lookup_lt_is_Some_2 m i) as [e He].
  { pose proof (upper_bound_length m k). lia. }
  exists e. split_and!; [done| |].
  - apply (upper_bound_spec m k i e); [done..|lia].
  - intros j e' Hj Hc. apply (upper_bound_spec m k j e') in Hc; [lia|done..].
Qed.

Lemma upper_bound_mono m k' i e :
  map_sorted m → m !! i = Some e → comp k' e.1 = true → upper_bound m k' ≤ i.
Proof.
  intros Hs Hi Hc. destruct (decide (upper_bound m k' ≤ i)) as [|Hn]; [done|].
  assert (comp k' e.1 = false); [|congruence].
  apply (upper_bound_spec m k' i e); [done..|lia].
Qed.

(** Positions order as their keys do. *)
Lemma sorted_lookup_lt m i j e e' :
  map_sorted m → m !! i = Some e → m !! j = Some e' → i < j → comp e.1 e'.1 = true.
Proof.
  intros Hs. revert i j. induction Hs as [|a m Hs IH Hall]; [done|].
  intros [|i] [|j] Hi Hj Hij; simplify_eq/=; try lia.
  - rewrite Forall_forall in Hall. by apply Hall, list_elem_of_lookup_2 with j.
  - eapply IH; eauto; lia.
Qed.

Lemma sorted_lookup_inj m i j e e' :
  map_sorted m → m !! i = Some e → m !! j = Some e' → key_equiv e.1 e'.1 = true → i = j.
Proof.
  unfold key_equiv. rewrite andb_true_iff, !negb_true_iff. intros Hs Hi Hj [H1 H2].
  destruct (lt_eq_lt_dec i j) as [[Hlt| ->]|Hlt]; [|done|].
  - pose proof (sorted_lookup_lt m i j e e' Hs Hi Hj Hlt). congruence.
  - pose proof (sorted_lookup_lt m j i e' e Hs Hj Hi Hlt). congruence.
Qed.

(** *** Entries of the map *)

Lemma map_find_elem m k v : map_find m k = Some v → ∃ k', (k', v) ∈ m ∧ key_equiv k k' = true.
Proof using Type.
  induction m as [|[k' v'] m IH]; simpl; [done|]. case_match; intros; simplify_eq.
  - exists k'. split; [left|done].
  - destruct IH as (k'' & ? & ?); [done|]. exists k''. split; [by right|done].
Qed.

Lemma map_find_None m k : map_find m k = None ↔ ∀ e, e ∈ m → key_equiv k e.1 = false.
Proof using Type.
  induction m as [|[k' v'] m IH]; simpl.
  - split; [|done]. intros _ e He. by apply elem_of_nil in He.
  - case_match eqn:E.
    + split; [done|]. intros H. specialize (H (k', v') (list_elem_of_here _ _)). simpl in H. congruence.
    + rewrite IH. split; [|intros H e He; apply H; by right].
      intros H e He. apply elem_of_cons in He as [->|He]; [done|by apply H].
Qed.

Lemma elem_of_map_emplace m k v e : e ∈ map_emplace m k v ↔ e = (k, v) ∨ e ∈ m.
Proof using Type.
  clear StrictWeak0. induction m as [|[k' v'] m IH]; simpl; [set_solver|]. case_match; set_solver.
Qed.

Lemma map_emplace_sorted m k v :
  map_sorted m → map_find m k = None → map_sorted (map_emplace m k v).
Proof.
  intros Hs. rewrite map_find_None. induction Hs as [|[k' v'] m Hs IH Hall]; intros Hn; simpl.
  { repeat constructor. }
  destruct (comp k k') eqn:Hk.
  - constructor; [by constructor|]. constructor; [done|].
    eapply Forall_impl; [exact Hall|]. intros [k'' v''] Hlt; simpl in *. by eapply sw_trans.
  - assert (comp k' k = true) as Hk'.
    { specialize (Hn (k', v') (list_elem_of_here _ _)). unfold key_equiv in Hn.
      simpl in Hn. rewrite Hk in Hn. simpl in Hn. by apply negb_false_iff in Hn. }
    constructor; [by apply IH; intros e He; apply Hn; right|].
    apply Forall_forall. intros e [->|He]%elem_of_map_emplace; [done|].
    rewrite Forall_forall in Hall. by apply Hall.
Qed.

Lemma map_update_keys m k f : (map_update m k f).*1 = m.*1.
Proof using Type. induction m as [|[k' v] m IH]; simpl; [done|]. case_match; simpl; by f_equal. Qed.

Lemma map_sorted_keys m m' : m.*1 = m'.*1 → map_sorted m → map_sorted m'.
Proof using Type.
  intros Hk Hs. revert m' Hk.
  induction Hs as [|[k v] m Hs IH Hall]; intros [|[k' v'] m'] Hk; try discriminate; constructor;
    injection Hk as <- Hk';
    change (m.*1 = m'.*1) in Hk'.
  - by apply IH.
  - apply Forall_forall. intros e He.
    assert (e.1 ∈ m.*1) as (e0 & He0 & Hin)%list_elem_of_fmap.
    { rewrite Hk'. by apply list_elem_of_fmap_2. }
    rewrite Forall_forall in Hall. simpl. rewrite He0. by apply (Hall e0).
Qed.

Lemma map_update_sorted m k f : map_sorted m → map_sorted (map_update m k f).
Proof using Type. apply map_sorted_keys. by rewrite map_update_keys. Qed.

(** The entries after an update: the one found is changed, all others stay. *)
Lemma elem_of_map_update m k f e :
  map_sorted m →
  e ∈ map_update m k f ↔
    (e ∈ m ∧ key_equiv k e.1 = false) ∨
    (∃ v, (e.1, v) ∈ m ∧ key_equiv k e.1 = true ∧ e.2 = f v).
Proof.
  intros Hs. induction Hs as [|[k' v'] m Hs IH Hall]; simpl; [set_solver|].
  destruct (key_equiv k k') eqn:E.
  - assert (∀ e, e ∈ m → key_equiv k e.1 = false) as Hm.
    { intros e' He'. rewrite Forall_forall in Hall. specialize (Hall _ He'). simpl in Hall.
      unfold key_equiv. by rewrite (key_equiv_comp_l _ _ _ E), Hall. }
    rewrite elem_of_cons. split.
    + intros [->|He]; [right|left]; simpl.
      * exists v'. split_and!; [left|done..].
      * split; [by right|by apply Hm].
    + intros [[[->|He]%elem_of_cons Hf]|(v & [Hv|Hv]%elem_of_cons & Hk & Hf)]; simpl in *.
      * congruence.
      * by right.
      * left. destruct e; simplify_eq/=. done.
      * specialize (Hm _ Hv). simpl in Hm. congruence.
  - rewrite elem_of_cons, IH. split.
    + intros [->|[[He Hf]|(v & Hv & Hk & Hf)]].
      * left. split; [left|done].
      * left. split; [by right|done].
      * right. exists v. split_and!; [by right|done..].
    + intros [[[->|He]%elem_of_cons Hf]|(v & [Hv|Hv]%elem_of_cons & Hk & Hf)].
      * by left.
      * right. by left.
      * simplify_eq. congruence.
      * right. right. eauto.
Qed.

Lemma map_find_update m k f v :
  map_find m k = Some v → map_find (map_update m k f) k = Some (f v).
Proof using Type.
  induction m as [|[k' v'] m IH]; simpl; [done|].
  destruct (key_equiv k k') eqn:E; simpl; rewrite E; [by intros; simplify_eq|done].
Qed.

Lemma map_find_emplace m k v :
  map_find m k = None → map_find (map_emplace m k v) k = Some v.
Proof.
  induction m as [|[k' v'] m IH]; simpl; [by rewrite key_equiv_refl|].
  destruct (key_equiv k k') eqn:E; [done|]. intros Hm.
  destruct (comp k k'); simpl; [by rewrite key_equiv_refl|]. rewrite E. by apply IH.
Qed.
End ordmap.

#[export] Hint Resolve map_update_sorted map_emplace_sorted : kvm.
