(* ===== verification/FsPath.v ===== *)
(** * [std::filesystem::path] on POSIX, as the program uses it

    A path is kept as its decomposition: a root directory, the file names, and
    whether it ends in a separator.  Redundant separators are dropped, so two
    pathnames that [operator==] identifies have one representation.  [segments]
    is the sequence [begin()..end()] iterates over.  The file has [operator/],
    [parent_path], [lexically_normal], [std::mismatch] on segments and
    [Configuration::ComparePathSegments], and the expression
    [(p / "").lexically_normal().parent_path()] that [vm.cpp] and [config.cpp]
    both normalise paths with. *)

From S2P Require Import Prelude CppString OrdMap.

Local Open Scope string_scope.
Local Open Scope list_scope.
Local Open Scope nat_scope.

(** ** Data *)

Record path := Path { root_dir : bool; names : list string; trailing : bool }.

(** An element of the iteration: the root directory or a file name, which is
    empty for the element after a trailing separator. *)
Inductive segment := Root | Name (s : string).

#[export] Instance segment_eq_dec : EqDecision segment.
Proof. solve_decision. Defined.

#[export] Instance path_eq_dec : EqDecision path.
Proof. solve_decision. Defined.

Definition is_nil {A} (l : list A) : bool := match l with [] => true | _ => false end.

Definition empty_path : path := Path false [] false.
Definition root_path : path := Path true [] false.

Definition segments (p : path) : list segment :=
  (if root_dir p then [Root] else []) ++ (Name <$> names p) ++
  (if trailing p then [Name ""] else []).

(** The path that consists of one element of an iteration. *)
Definition segment_path (e : segment) : path :=
  match e with
  | Root => root_path
  | Name s => if decide (s = "") then empty_path else Path false [s] false
  end.

(** ** Pathnames *)

Definition slash : ascii := "/".

Definition path_of_string (s : string) : path :=
  let fields := split_on slash s in
  let ns := filter (λ x, x ≠ "") fields in
  Path (bool_decide (str_front s = Some slash)) ns
       (negb (is_nil ns) && bool_decide (last fields = Some "")).

Definition string_of_path (p : path) : string :=
  (if root_dir p then String slash "" else "") +:+
  join_with slash (names p) +:+
  (if trailing p then String slash "" else "").

(** A file name of a parsed pathname. *)
Definition name_ok (s : string) : Prop := s ≠ "" ∧ index_of slash s = None.

Definition path_wf (p : path) : Prop :=
  Forall name_ok (names p) ∧ (trailing p = true → names p ≠ []).

(** ** Operations *)

Definition is_absolute (p : path) : bool := root_dir p.
Definition is_relative (p : path) : bool := negb (is_absolute p).

(** [p / q]. *)
Definition append (p q : path) : path :=
  if root_dir q then q
  else if is_nil (names q) then Path (root_dir p) (names p) (negb (is_nil (names p)))
  else Path (root_dir p) (names p ++ names q) (trailing q).

(** [std::accumulate(first, last, p, std::divides{})]. *)
Definition accumulate (p : path) (es : list segment) : path :=
  foldl (λ acc e, append acc (segment_path e)) p es.

Definition parent_path (p : path) : path :=
  if trailing p then Path (root_dir p) (names p) false
  else Path (root_dir p) (removelast (names p)) false.

Definition is_dot (s : string) : bool := bool_decide (s = ".").
Definition is_dotdot (s : string) : bool := bool_decide (s = "..").

(** One element of the loop of [lexically_normal] over [*this]. *)
Definition norm_step (ret : path) (e : segment) : path :=
  match e with
  | Root => append ret root_path
  | Name s =>
      if is_dotdot s then
        match last (names ret) with
        | None => if root_dir ret then ret else append ret (segment_path e)
        | Some n =>
            if is_dotdot n then append ret (segment_path e)
            else let ns := removelast (names ret) in
                 Path (root_dir ret) ns (negb (is_nil ns))
        end
      else if is_dot s then append ret empty_path
      else append ret (segment_path e)
  end.

Definition lexically_normal (p : path) : path :=
  if decide (segments p = []) then p
  else
    let ret := foldl norm_step empty_path (segments p) in
    if trailing ret && bool_decide (last (names ret) = Some "..") then parent_path ret
    else if decide (segments ret = []) then Path false ["."] false
    else ret.

(** [(p / "").lexically_normal().parent_path()]. *)
Definition normalize (p : path) : path :=
  parent_path (lexically_normal (append p empty_path)).

(** [std::mismatch(l.begin(), l.end(), k.begin(), k.end())]: what is left of
    the two ranges at the first position where they differ. *)
Fixpoint mismatch (l k : list segment) : list segment * list segment :=
  match l, k with
  | x :: l', y :: k' => if decide (x = y) then mismatch l' k' else (l, k)
  | _, _ => (l, k)
  end.

(** ** Order *)

Definition ascii_ltb (a b : ascii) : bool := (N_of_ascii a <? N_of_ascii b)%N.

(** [std::string::compare] compares bytes as unsigned characters. *)
Definition string_ltb (s t : string) : bool :=
  lex_ltb ascii_ltb (list_ascii_of_string s) (list_ascii_of_string t).

(** [operator<] on one-element paths: a path without a root directory is less
    than one with a root directory. *)
Definition segment_ltb (e f : segment) : bool :=
  match e, f with
  | Root, _ => false
  | Name _, Root => true
  | Name s, Name t => string_ltb s t
  end.

(** [Configuration::ComparePathSegments::operator()]. *)
Definition ComparePathSegments (left right : path) : bool :=
  match mismatch (segments left) (segments right) with
  | ([], right_it) => negb (is_nil right_it)
  | (_ :: _, []) => false
  | (x :: _, y :: _) => segment_ltb x y
  end.

(** ** The orders are strict *)

#[local] Instance N_ltb_strict : StrictTotal N.ltb.
Proof.
  split; intros *; rewrite ?N.ltb_lt, ?N.ltb_ge; lia.
Qed.

#[export] Instance ascii_ltb_strict : StrictTotal ascii_ltb.
Proof.
  apply (st_inj N_of_ascii N.ltb).
  intros x y H. rewrite <-(ascii_N_embedding x), <-(ascii_N_embedding y). by f_equal.
Qed.

#[export] Instance string_ltb_strict : StrictTotal string_ltb.
Proof.
  apply (st_inj list_ascii_of_string (lex_ltb ascii_ltb)).
  intros x y H. rewrite <-(string_of_list_ascii_of_string x), H.
  apply string_of_list_ascii_of_string.
Qed.

#[export] Instance segment_ltb_strict : StrictTotal segment_ltb.
Proof.
  split.
  - intros []; simpl; [done|apply st_irrefl].
  - intros [] [] []; simpl; try done. apply st_trans.
  - intros [] []; simpl; try done. intros. f_equal. by apply st_total.
Qed.

Lemma mismatch_spec l k :
  ∃ c, l = c ++ (mismatch l k).1 ∧ k = c ++ (mismatch l k).2 ∧
       match mismatch l k with (x :: _, y :: _) => x ≠ y | _ => True end.
Proof.
  revert k. induction l as [|x l IH]; intros [|y k]; simpl; try by exists [].
  case_decide; [|by exists []]. subst.
  destruct (IH k) as (c & H1 & H2 & H3). exists (y :: c). simpl. split_and!; [by f_equal..|done].
Qed.

(** The comparator is the lexicographic order on segments. *)
Lemma ComparePathSegments_lex p q :
  ComparePathSegments p q = lex_ltb segment_ltb (segments p) (segments q).
Proof.
  unfold ComparePathSegments.
  destruct (mismatch_spec (segments p) (segments q)) as (c & H1 & H2 & H3).
  revert H1 H2 H3. generalize (mismatch (segments p) (segments q)).
  intros [[|x l] [|y k]] -> -> H3; rewrite (lex_app_l segment_ltb); simpl; try done.
  destruct (segment_ltb x y) eqn:E1; simpl; [done|].
  destruct (segment_ltb y x) eqn:E2; simpl; [done|]. by destruct H3; apply st_total.
Qed.

#[export] Instance ComparePathSegments_strict_weak : StrictWeak ComparePathSegments.
Proof. apply (strict_weak_image segments (lex_ltb segment_ltb)), ComparePathSegments_lex. Qed.

Lemma key_equiv_segments p q :
  key_equiv ComparePathSegments p q = true ↔ segments p = segments q.
Proof.
  unfold key_equiv. rewrite andb_true_iff, !negb_true_iff, !ComparePathSegments_lex. split.
  - intros [??]. by apply (st_total (ltb := lex_ltb segment_ltb)).
  - intros ->. by rewrite (st_irrefl (ltb := lex_ltb segment_ltb)).
Qed.

(** ** Normal form

    [clean] is the reference: walk the names, dropping [.] and letting [..]
    remove the name before it, at the root directory nothing. *)

Definition clean_step (acc : list string) (s : string) : list string :=
  if is_dotdot s then removelast acc else if is_dot s then acc else acc ++ [s].

Definition clean (ns : list string) : list string := foldl clean_step [] ns.

(** A path that is absolute, has no [.] or [..] and no trailing separator. *)
Definition plain_name (s : string) : Prop := name_ok s ∧ s ≠ "." ∧ s ≠ "..".

Definition canonical (p : path) : Prop :=
  root_dir p = true ∧ trailing p = false ∧ Forall plain_name (names p).

Lemma segment_path_name s : s ≠ "" → segment_path (Name s) = Path false [s] false.
Proof. intros. simpl. by case_decide. Qed.

Lemma Forall_removelast {A} (P : A → Prop) l : Forall P l → Forall P (removelast l).
Proof.
  destruct (list_snoc_cases l) as [->|(k & x & ->)]; [done|].
  rewrite removelast_snoc. by intros [? _]%Forall_app.
Qed.

Lemma clean_step_plain acc s :
  name_ok s → Forall plain_name acc → Forall plain_name (clean_step acc s).
Proof.
  intros Hs Ha. unfold clean_step, is_dotdot, is_dot. repeat case_bool_decide; auto.
  - by apply Forall_removelast.
  - apply Forall_app_2; [done|]. by apply Forall_singleton.
Qed.

Lemma foldl_clean_plain ns acc :
  Forall name_ok ns → Forall plain_name acc → Forall plain_name (foldl clean_step acc ns).
Proof.
  intros Hn. revert acc. induction Hn as [|s ns Hs Hn IH]; intros acc Ha; simpl; [done|].
  by apply IH, clean_step_plain.
Qed.

Lemma last_not_dotdot ns : Forall plain_name ns → last ns ≠ Some "..".
Proof.
  intros H Hl. apply last_Some in Hl as [k ->].
  apply Forall_app in H as [_ H]. apply Forall_inv in H. by destruct H as (_ & _ & ?).
Qed.

(** The loop of [lexically_normal] below a root directory computes [clean]. *)
Lemma norm_step_clean acc t s :
  name_ok s → Forall plain_name acc →
  ∃ t', norm_step (Path true acc t) (Name s) = Path true (clean_step acc s) t'.
Proof.
  intros [Hs _] Ha. unfold norm_step, clean_step; cbn [names root_dir].
  destruct (is_dotdot s) eqn:E1.
  - pose proof (last_not_dotdot _ Ha) as Hl.
    destruct (list_snoc_cases acc) as [->|(k & x & ->)]; [by eexists|].
    rewrite last_snoc in *. unfold is_dotdot. rewrite bool_decide_false by congruence.
    rewrite removelast_snoc. by eexists.
  - destruct (is_dot s); [by eexists|]. rewrite segment_path_name by done. by eexists.
Qed.

Lemma norm_loop_clean ns acc t :
  Forall name_ok ns → Forall plain_name acc →
  ∃ t', foldl norm_step (Path true acc t) (Name <$> ns) = Path true (foldl clean_step acc ns) t'.
Proof.
  intros Hn. revert acc t. induction Hn as [|s ns Hs Hn IH]; intros acc t Ha; [by exists t|].
  cbn [fmap list_fmap foldl].
  destruct (norm_step_clean acc t s Hs Ha) as [t' ->].
  by apply IH, clean_step_plain.
Qed.

(** The whole loop on an absolute path that ends in a separator. *)
Lemma norm_loop_dir ns :
  Forall name_ok ns →
  foldl norm_step empty_path (segments (Path true ns (negb (is_nil ns)))) =
  Path true (clean ns) (negb (is_nil (clean ns))).
Proof.
  intros Hn. unfold segments; cbn [root_dir names trailing].
  rewrite !foldl_app. destruct (norm_loop_clean ns [] false Hn) as [t' Heq]; [done|].
  change (foldl norm_step empty_path [Root]) with (Path true [] false).
  rewrite Heq. fold (clean ns). destruct (is_nil ns) eqn:E; [|done].
  destruct ns; [|done]. simpl in *. by injection Heq as <-.
Qed.

(** What the normalising expression computes on an absolute path. *)
Lemma normalize_absolute p :
  path_wf p → root_dir p = true → normalize p = Path true (clean (names p)) false.
Proof.
  intros [Hn Ht] Hr. destruct p as [r ns t]; simpl in *; subst r.
  unfold normalize, lexically_normal.
  change (append (Path true ns t) empty_path) with (Path true ns (negb (is_nil ns))).
  rewrite decide_False by done. rewrite norm_loop_dir by done. cbn [trailing names].
  rewrite (bool_decide_false (last _ = _)), andb_false_r;
    [|by apply last_not_dotdot, foldl_clean_plain].
  rewrite decide_False by done. unfold parent_path; cbn [trailing names root_dir].
  by destruct (clean ns).
Qed.

Lemma normalize_canonical p : path_wf p → root_dir p = true → canonical (normalize p).
Proof.
  intros Hw Hr. rewrite normalize_absolute by done. split_and!; [done..|].
  apply foldl_clean_plain; [apply Hw|done].
Qed.

Lemma canonical_wf p : canonical p → path_wf p.
Proof.
  intros (_ & Ht & Hn). split; [|by rewrite Ht]. eapply Forall_impl; [done|]. by intros s [].
Qed.

Lemma foldl_clean_id ns acc : Forall plain_name ns → foldl clean_step acc ns = acc ++ ns.
Proof.
  intros Hn. revert acc. induction Hn as [|s ns Hs Hn IH]; intros acc; simpl; [by rewrite app_nil_r|].
  rewrite IH. unfold clean_step, is_dotdot, is_dot. destruct Hs as (_ & ? & ?).
  rewrite !bool_decide_false by done. by rewrite <-app_assoc.
Qed.

Lemma normalize_id p : canonical p → normalize p = p.
Proof.
  intros Hc. pose proof Hc as (Hr & Ht & Hn).
  rewrite normalize_absolute by auto using canonical_wf. unfold clean.
  rewrite foldl_clean_id by done. destruct p; simpl in *. by subst.
Qed.

Lemma append_wf p q : path_wf p → path_wf q → path_wf (append p q).
Proof.
  intros [Hp Htp] [Hq Htq]. unfold append. destruct (root_dir q); [done|].
  destruct (names q) as [|x ns] eqn:E; cbn [is_nil]; split; cbn [names trailing]; try done.
  - by destruct (names p).
  - by apply Forall_app_2.
  - intros _ H. by apply app_nil in H as [_ ?].
Qed.

(** ** Segments of canonical paths *)

#[export] Instance Name_inj : Inj (=) (=) Name.
Proof. by intros x y [=]. Qed.

Lemma segments_canonical p : canonical p → segments p = Root :: (Name <$> names p).
Proof.
  intros (Hr & Ht & _). unfold segments. rewrite Hr, Ht. simpl. by rewrite app_nil_r.
Qed.

Lemma canonical_root : canonical root_path.
Proof. by repeat constructor. Qed.

Lemma segments_canonical_inj p q :
  canonical p → canonical q → segments p = segments q → p = q.
Proof.
  intros Hp Hq. rewrite !segments_canonical by done. intros [= Hn].
  apply list_fmap_eq_inj in Hn; [|apply _]. destruct Hp as (?&?&_), Hq as (?&?&_), p, q; simpl in *.
  by subst.
Qed.

Lemma accumulate_names p ns :
  Forall (λ s, s ≠ "") ns → ns ≠ [] →
  accumulate p (Name <$> ns) = Path (root_dir p) (names p ++ ns) false.
Proof.
  unfold accumulate. intros Hn. revert p. induction Hn as [|s ns Hs Hn IH]; intros p Hne; [done|].
  cbn [fmap list_fmap foldl]. rewrite segment_path_name by done.
  unfold append at 2; cbn [root_dir names is_nil trailing].
  destruct ns as [|s' ns]; [done|].
  change (list_fmap string segment Name (s' :: ns)) with (Name <$> (s' :: ns)).
  rewrite IH by done. cbn [root_dir names]. by rewrite <-app_assoc.
Qed.

(** Appending plain names to a canonical path. *)
Lemma accumulate_canonical p ns :
  canonical p → Forall plain_name ns →
  accumulate p (Name <$> ns) = Path true (names p ++ ns) false.
Proof.
  intros (Hr & Ht & Hp) Hn. destruct ns as [|s ns].
  - rewrite app_nil_r. destruct p; simpl in *; by subst.
  - rewrite accumulate_names; [by rewrite Hr| |done].
    eapply Forall_impl; [done|]. by intros x [[] ].
Qed.

(** ** Pathnames and paths *)

Lemma path_of_string_wf s : path_wf (path_of_string s).
Proof.
  split; cbn [names trailing path_of_string].
  - apply Forall_forall. intros x Hx. apply list_elem_of_filter in Hx as [Hne Hx].
    split; [done|]. pose proof (split_on_fields slash s) as Hf.
    rewrite Forall_forall in Hf. by apply Hf.
  - intros Ht%andb_true_iff. destruct Ht as [Ht _]. intros Hn. by rewrite Hn in Ht.
Qed.

Lemma join_with_snoc c l : l ≠ [] → join_with c (l ++ [""]) = join_with c l +:+ String c "".
Proof.
  induction l as [|x [|y l] IH]; intros H; [done..|].
  change (join_with c ((x :: y :: l) ++ [""])) with (x +:+ String c (join_with c ((y :: l) ++ [""]))).
  rewrite IH by done. cbn [join_with]. by rewrite str_app_assoc.
Qed.

Lemma filter_names ns : Forall name_ok ns → filter (λ x, x ≠ "") ns = ns.
Proof.
  induction 1 as [|x ns [Hx _] _ IH]; [done|]. rewrite filter_cons_True by done. by rewrite IH.
Qed.

(** The fields a pathname of a non-empty path splits into. *)
Lemma split_string_of_path p :
  path_wf p → names p ≠ [] →
  split_on slash (string_of_path p) =
    (if root_dir p then [""] else []) ++ names p ++ (if trailing p then [""] else []).
Proof.
  intros [Hn _] Hne. set (post := if trailing p then [""] else []).
  assert (string_of_path p = (if root_dir p then String slash "" else "") +:+
                             join_with slash (names p ++ post)) as ->.
  { unfold string_of_path, post. destruct (trailing p); [by rewrite join_with_snoc|].
    rewrite app_nil_r. f_equal. apply str_app_nil_r. }
  assert (split_on slash (join_with slash (names p ++ post)) = names p ++ post) as Hs.
  { apply split_join; [by destruct (names p)|]. apply Forall_app; split.
    - eapply Forall_impl; [exact Hn|]. by intros x [].
    - unfold post. destruct (trailing p); by repeat constructor. }
  destruct (root_dir p); [|done].
  transitivity ("" :: split_on slash (join_with slash (names p ++ post))); [done|by rewrite Hs].
Qed.

Lemma str_front_string_of_path p :
  path_wf p → str_front (string_of_path p) = Some slash ↔ root_dir p = true.
Proof.
  intros [Hn Ht]. unfold string_of_path. destruct (root_dir p); [done|].
  split; [|done]. destruct (names p) as [|x ns].
  - destruct (trailing p); [by destruct Ht|done].
  - apply Forall_inv in Hn as [Hx Hs]. destruct x as [|a x]; [done|].
    intros Ha. assert (a = slash) as -> by (destruct ns; by injection Ha). done.
Qed.

(** Parsing the pathname of a path gives the path back. *)
Lemma path_of_string_of_path p : path_wf p → path_of_string (string_of_path p) = p.
Proof.
  intros Hw. pose proof Hw as [Hn Ht]. destruct p as [r ns t].
  destruct ns as [|x ns].
  { destruct t; [by destruct Ht|]. destruct r; reflexivity. }
  unfold path_of_string. rewrite split_string_of_path by done. cbn [root_dir names trailing].
  rewrite !filter_app, (filter_names (x :: ns)) by done.
  assert (filter (λ y, y ≠ "") (if r then [""] else []) = []) as -> by by destruct r.
  assert (filter (λ y, y ≠ "") (if t then [""] else []) = []) as -> by by destruct t.
  rewrite app_nil_r. cbn [app is_nil negb andb]. f_equal.
  - rewrite (bool_decide_ext _ _ (str_front_string_of_path _ Hw)). by destruct r.
  - destruct t.
    + apply bool_decide_true. by rewrite (last_app_cons _ (ns ++ [""])), app_comm_cons, last_snoc.
    + apply bool_decide_false. rewrite app_nil_r, last_app_cons.
      intros Hl%last_Some_elem_of. rewrite Forall_forall in Hn. by destruct (Hn _ Hl).
Qed.
