(* ===== verification/AllowedPaths.v ===== *)
(** * File-system permissions: the [allowed_paths] map

    [ensure_path] and [fake_path] of [config.cpp] fill the map, and
    [lookup_allowed_path] of [vm.cpp] decides with it which host path a guest
    path stands for.  The lookup walks backwards through the ordered map from
    [upper_bound], with a fail-safe counter; it is proved to be the
    longest-prefix search that [longest_prefix] states directly. *)

From S2P Require Import Prelude CppString OrdMap FsPath.

Local Open Scope string_scope.
Local Open Scope list_scope.
Local Open Scope nat_scope.

(** [Configuration::VirtualPath]. *)
Record VirtualPath := MkVirtualPath {
  real_path : path;
  virtual_path : path;
  readable : bool;
  writable : bool;
  symlink : bool
}.

Abbreviation path_map := (list (path * VirtualPath)).

(** ** Filling the map ([config.cpp]) *)

(** A relative path is taken from the current directory, and the result is
    normalised: the first lines of [ensure_path] and of [lookup_allowed_path]. *)
Definition resolve_path (current_path p : path) : path :=
  normalize (if is_relative p then append current_path p else p).

(** [ensure_path]; [current_path] is [std::filesystem::current_path()]. *)
Definition ensure_path (current_path src dst : path) (allowed_paths : path_map)
    (readable_ writable_ symlink_ : bool) : path_map :=
  let src := resolve_path current_path src in
  let dst := resolve_path current_path dst in
  match map_find ComparePathSegments allowed_paths src with
  | None =>
      map_emplace ComparePathSegments allowed_paths src
        (MkVirtualPath dst src readable_ writable_ symlink_)
  | Some _ =>
      map_update ComparePathSegments allowed_paths src (λ vpath,
        MkVirtualPath dst (virtual_path vpath)
          (if readable_ then true else readable vpath)
          (if writable_ then true else writable vpath)
          (if symlink_ then true else symlink vpath))
  end.

(** [fake_path]: [dst] is the name [std::tmpnam] returns and [opened] whether
    [fopen(dst, "w")] succeeded.  The second component is the file written. *)
Definition fake_path (current_path dst : path) (opened : bool) (path_ : path)
    (content : string) (allowed_paths : path_map) : result (path_map * (path * string)) :=
  if opened then
    Ok (ensure_path current_path path_ dst allowed_paths true false false, (dst, content))
  else throw (ValidationError "fopen: Unable to create temporary file" "").

(** ** Looking up a guest path ([vm.cpp]) *)

Inductive lookup_outcome :=
  | Found (vpath : VirtualPath) (p : path)   (**r [return true] *)
  | NotFound                                 (**r the loop reached [begin()] *)
  | FailsafeTriggered                        (**r [break] by the fail-safe counter *)
  | BadIterator.                             (**r an iterator moved before [begin()] *)

(** The [while] loop; [it] is the position of the iterator, [pth] the
    normalised path. *)
Fixpoint lookup_loop (failsafe : nat) (allowed_paths : path_map)
    (extract : VirtualPath → bool) (pth : path) (it : nat) : lookup_outcome :=
  match it, failsafe with
  | 0, _ => NotFound
  | S _, 0 => BadIterator
  | S it, S failsafe =>
      match allowed_paths !! it with
      | None => BadIterator
      | Some (key, vpath) =>
          let '(first_it, path_it) := mismatch (segments key) (segments pth) in
          let pos := length (segments pth) - length path_it in
          let continue pos :=
            let it := upper_bound ComparePathSegments allowed_paths
                        (accumulate root_path (take pos (segments pth))) in
            if decide (failsafe = 0) then FailsafeTriggered
            else lookup_loop failsafe allowed_paths extract pth it in
          if is_nil first_it then
            if extract vpath then Found vpath (accumulate (real_path vpath) path_it)
            else match pos with 0 => BadIterator | S pos => continue pos end
          else continue pos
      end
  end.

Definition lookup_allowed_path (pathinout cwd : string) (allowed_paths : path_map)
    (extract : VirtualPath → bool) : lookup_outcome :=
  let pth := resolve_path (path_of_string cwd) (path_of_string pathinout) in
  lookup_loop (length allowed_paths) allowed_paths extract pth
    (upper_bound ComparePathSegments allowed_paths pth).

(** The returned [bool] and the value [pathinout] is left with. *)
Definition lookup_result (pathinout : string) (o : lookup_outcome) : bool * string :=
  match o with
  | Found _ p => (true, string_of_path p)
  | _ => (false, pathinout)
  end.

(** The three callbacks [VirtualMachine] installs. *)
Definition open_readable (cwd : string) (allowed_paths : path_map) (pth : string) : bool * string :=
  lookup_result pth (lookup_allowed_path pth cwd allowed_paths readable).

Definition open_writable (cwd : string) (allowed_paths : path_map) (pth : string) : bool * string :=
  lookup_result pth (lookup_allowed_path pth cwd allowed_paths writable).

(** The closure passed as [extract] stores [vpath.symlink] and returns true, so
    the flag is that of the entry found. *)
Definition resolve_symlink (cwd : string) (allowed_paths : path_map) (pth : string) : bool * string :=
  match lookup_allowed_path pth cwd allowed_paths (λ _, true) with
  | Found vpath p => (symlink vpath, string_of_path p)
  | _ => (false, pth)
  end.

(** ** Specification *)

(** The entry's key is a prefix of the path, segment by segment. *)
Definition covers (key p : path) : bool := bool_decide (segments key `prefix_of` segments p).

(** The longest key that covers the path and has the flag. *)
Definition longest_prefix (m : path_map) (extract : VirtualPath → bool) (p : path)
    : option (path * VirtualPath) :=
  foldl (λ best e,
    if covers e.1 p && extract e.2 &&
       match best with
       | None => true
       | Some b => length (segments b.1) <? length (segments e.1)
       end
    then Some e else best) None m.

(** The host path: the real path of the entry and the rest of the guest path. *)
Definition host_path (e : path * VirtualPath) (p : path) : path :=
  Path true (names (real_path e.2) ++ drop (length (names e.1)) (names p)) false.

(** The invariant of the map: ordered, with canonical keys and targets. *)
Definition allowed_ok (m : path_map) : Prop :=
  map_sorted ComparePathSegments m ∧
  Forall (λ e, canonical e.1 ∧ canonical (real_path e.2)) m.

(** Entry [e] covers [p] with the flag and no other such key is longer. *)
Definition best_entry (m : path_map) (extract : VirtualPath → bool) (p : path)
    (e : path * VirtualPath) : Prop :=
  e ∈ m ∧ covers e.1 p = true ∧ extract e.2 = true ∧
  ∀ e', e' ∈ m → covers e'.1 p = true → extract e'.2 = true →
        length (segments e'.1) ≤ length (segments e.1).

(** ** Lexicographic order and prefixes *)

Abbreviation seg_ltb := (lex_ltb segment_ltb).

Lemma prefix_not_gt l k : l `prefix_of` k → seg_ltb k l = false.
Proof.
  intros [j ->]. destruct j as [|x j].
  - rewrite app_nil_r. apply (st_irrefl (ltb := seg_ltb)).
  - apply (st_asym seg_ltb), lex_prefix_ltb; [apply _|done].
Qed.

Lemma proper_prefix_lt l k : l `prefix_of` k → length l < length k → seg_ltb l k = true.
Proof.
  intros [j ->]. rewrite length_app. intros. apply lex_prefix_ltb; [apply _|].
  intros ->. simpl in *. lia.
Qed.

Lemma prefix_lt_length l k p :
  l `prefix_of` p → k `prefix_of` p → seg_ltb l k = true → length l < length k.
Proof.
  intros Hl Hk Hlt. destruct (decide (length k ≤ length l)) as [Hle|]; [|lia].
  rewrite prefix_not_gt in Hlt; [done|]. by eapply prefix_prefix_length.
Qed.

Lemma covers_spec k p : covers k p = true ↔ segments k `prefix_of` segments p.
Proof. apply bool_decide_eq_true. Qed.

Lemma canonical_length p : canonical p → length (segments p) = S (length (names p)).
Proof. intros H. rewrite segments_canonical by done. simpl. by rewrite length_fmap. Qed.

(** The bound rebuilt from a non-empty part of the path has those segments. *)
Lemma bound_segments p n :
  canonical p → 1 ≤ n →
  segments (accumulate root_path (take n (segments p))) = take n (segments p).
Proof.
  intros Hp Hn. rewrite (segments_canonical p) by done. destruct n as [|n]; [lia|].
  rewrite firstn_cons, <-fmap_take. unfold accumulate at 1; cbn [foldl].
  change (append root_path (segment_path Root)) with root_path.
  change (foldl _ root_path ?l) with (accumulate root_path l).
  assert (Forall plain_name (take n (names p))) by (apply Forall_take, Hp).
  rewrite accumulate_canonical by auto using canonical_root.
  unfold segments; cbn [root_dir names trailing app root_path]. by rewrite app_nil_r.
Qed.

(** ** The loop finds the best entry *)

Section lookup.
Context (m : path_map) (extract : VirtualPath → bool) (p : path).
Context (Hm : allowed_ok m) (Hp : canonical p).

Let ub b := upper_bound ComparePathSegments m b.

Lemma key_canonical i e : m !! i = Some e → canonical e.1.
Proof using Hm.
  intros Hi%list_elem_of_lookup_2. destruct Hm as [_ Hc].
  rewrite Forall_forall in Hc. by apply Hc.
Qed.

Lemma comp_segments q (e : path * VirtualPath) : ComparePathSegments q e.1 = seg_ltb (segments q) (segments e.1).
Proof. apply ComparePathSegments_lex. Qed.

(** A covering key not longer than the bound is below the iterator. *)
Lemma covering_below j e b n :
  m !! j = Some e → covers e.1 p = true → segments b = take n (segments p) →
  length (segments e.1) ≤ n → j < ub b.
Proof using Hm.
  intros Hj Hc Hb Hn. apply (upper_bound_spec _ _ _ _ e); [apply Hm|done|].
  rewrite ComparePathSegments_lex, Hb. apply prefix_not_gt.
  apply prefix_of_take; [by apply covers_spec|done].
Qed.

(** The bound for the next iteration is a proper prefix of the key just
    visited, so the iterator moves strictly down. *)
Lemma next_bound_below i e n :
  m !! i = Some e → 1 ≤ n → take n (segments p) `prefix_of` segments e.1 →
  n < length (segments e.1) →
  ub (accumulate root_path (take n (segments p))) ≤ i.
Proof using Hm Hp.
  intros Hi Hn Hpre Hlt. eapply (upper_bound_mono ComparePathSegments); [apply Hm|done|].
  rewrite ComparePathSegments_lex, bound_segments by done.
  apply proper_prefix_lt; [done|]. rewrite length_take. lia.
Qed.

(** Where the visited key is not a prefix of the path, every covering key
    below it is at most as long as the common part. *)
Lemma mismatch_bounds i j key e b n c x l k :
  m !! i = Some key → m !! j = Some e → j ≤ i →
  ComparePathSegments b key.1 = false → segments b = take n (segments p) →
  covers e.1 p = true → length (segments e.1) ≤ n →
  segments key.1 = c ++ x :: l → segments p = c ++ k →
  match k with y :: _ => x ≠ y | [] => True end →
  length (segments e.1) ≤ length c.
Proof using Hm.
  intros Hi Hj Hji Hb Hbs Hc Hn Hk Hps Hxy. rewrite ComparePathSegments_lex, Hbs in Hb.
  apply covers_spec in Hc. destruct (decide (length (segments e.1) ≤ length c)) as [|Hgt]; [done|].
  exfalso. destruct k as [|y k].
  { rewrite app_nil_r in Hps. apply prefix_length in Hc. rewrite Hps in Hc. lia. }
  assert (c ++ [y] `prefix_of` segments e.1) as [e' He].
  { apply (prefix_prefix_length _ _ (segments p)); [|done|rewrite length_app; simpl; lia].
    rewrite Hps. by exists k; rewrite <-app_assoc. }
  assert (take n (segments p) = c ++ y :: take (n - length c - 1) k) as Ht.
  { rewrite Hps, take_app, take_ge by lia. f_equal.
    destruct (n - length c) as [|n'] eqn:E; [lia|]. simpl. by rewrite Nat.sub_0_r. }
  rewrite Ht, Hk, (lex_app_l segment_ltb) in Hb. simpl in Hb. apply orb_false_iff in Hb as [Hyx Hb].
  assert (seg_ltb (segments key.1) (segments e.1) = false) as Hke.
  { destruct (decide (j = i)) as [->|]; [by simplify_eq; apply (st_irrefl (ltb := seg_ltb))|].
    apply (st_asym seg_ltb). rewrite <-comp_segments.
    eapply (sorted_lookup_lt ComparePathSegments); [apply Hm|done..|lia]. }
  rewrite Hk, He, <-app_assoc, (lex_app_l segment_ltb) in Hke. simpl in Hke.
  apply orb_false_iff in Hke as [Hxy' _]. by destruct Hxy; apply st_total.
Qed.

(** What the loop does after an iteration that did not return. *)
Definition lookup_continue (failsafe pos : nat) : lookup_outcome :=
  if decide (failsafe = 0) then FailsafeTriggered
  else lookup_loop failsafe m extract p (ub (accumulate root_path (take pos (segments p)))).

(** One iteration, in terms of the part [c] the key shares with the path. *)
Lemma lookup_loop_step failsafe i key v c l k :
  m !! i = Some (key, v) → segments key = c ++ l → segments p = c ++ k →
  mismatch (segments key) (segments p) = (l, k) →
  lookup_loop (S failsafe) m extract p (S i) =
    if is_nil l then
      if extract v then Found v (accumulate (real_path v) k)
      else match length c with 0 => BadIterator | S pos => lookup_continue failsafe pos end
    else lookup_continue failsafe (length c).
Proof.
  intros Hi Hl Hk Hmm. cbn [lookup_loop]. rewrite Hi, Hmm.
  assert (length (segments p) - length k = length c) as ->; [|done].
  rewrite Hk, length_app. lia.
Qed.

(** The iterator of the next iteration: below the key just visited, above
    every covering key that is not longer than the new bound. *)
Lemma next_iterator i j key v e c l k n :
  m !! i = Some (key, v) → m !! j = Some e → covers e.1 p = true →
  segments key = c ++ l → segments p = c ++ k →
  length (segments e.1) ≤ n → n ≤ length c → n < length (segments key) →
  let b := accumulate root_path (take n (segments p)) in
  segments b = take n (segments p) ∧ j < ub b ∧ ub b ≤ i.
Proof using Hm Hp.
  intros Hi Hj Hc Hl Hk He Hn Hnk b.
  assert (1 ≤ n) as Hn1.
  { rewrite canonical_length in He by eauto using key_canonical. lia. }
  assert (segments b = take n (segments p)) as Hb by by apply bound_segments.
  split_and!; [done|by apply (covering_below j e b n)|].
  apply (next_bound_below i (key, v)); [done..| |done]. cbn [fst]. rewrite Hl, Hk.
  rewrite take_app_le by done. apply prefix_app_r, take_prefix_of.
Qed.

(** If a best entry lies below the bound, the loop returns it. *)
Lemma lookup_loop_found j e failsafe b n :
  m !! j = Some e → best_entry m extract p e →
  segments b = take n (segments p) → length (segments e.1) ≤ n → ub b ≤ failsafe →
  lookup_loop failsafe m extract p (ub b) =
    Found e.2 (accumulate (real_path e.2) (drop (length (segments e.1)) (segments p))).
Proof using Hm Hp.
  intros Hj (Hin & Hc & He & Hbest). revert b n.
  induction failsafe as [|failsafe IH]; intros b n Hb Hn Hf;
    pose proof (covering_below j e b n Hj Hc Hb Hn) as Hlt; [lia|].
  destruct (ub b) as [|i] eqn:Hub; [lia|].
  destruct (upper_bound_prev ComparePathSegments m b i) as ([key v] & Hi & Hbk & _);
    [apply Hm|done|].
  destruct (mismatch_spec (segments key) (segments p)) as (c & Hk & Hps & Hne).
  destruct (mismatch (segments key) (segments p)) as [l k] eqn:Hmm; simpl in Hk, Hps.
  assert (∀ pos, length (segments e.1) ≤ pos → pos ≤ length c → pos < length (segments key) →
    lookup_continue failsafe pos =
    Found e.2 (accumulate (real_path e.2) (drop (length (segments e.1)) (segments p)))) as Hnext.
  { intros pos H1 H2 H3.
    destruct (next_iterator i j key v e c l k pos) as (? & ? & ?); [done..|].
    unfold lookup_continue. rewrite decide_False by lia. eapply IH; [done..|lia]. }
  rewrite (lookup_loop_step failsafe i key v c l k) by done.
  destruct l as [|x l]; cbn [is_nil].
  - rewrite app_nil_r in Hk. subst c. 
    destruct (decide (j = i)) as [->|Hji].
    { simplify_eq. cbn [snd fst] in *. rewrite He. by rewrite Hps, drop_app_length. }
    assert (covers key p = true) as Hck by (apply covers_spec; rewrite Hps; by eexists).
    assert (length (segments e.1) < length (segments key)) as Hlen.
    { apply (prefix_lt_length _ _ (segments p)); [by apply covers_spec..|].
      rewrite <-(ComparePathSegments_lex e.1 key).
      eapply (sorted_lookup_lt ComparePathSegments m j i e (key, v)); [apply Hm|done..|lia]. }
    destruct (extract v) eqn:Hv.
    { apply list_elem_of_lookup_2 in Hi. specialize (Hbest _ Hi Hck Hv). simpl in Hbest. lia. }
    destruct (length (segments key)) as [|pos] eqn:Epos; [lia|]. apply Hnext; lia.
  - apply Hnext; [|done|rewrite Hk, length_app; simpl; lia].
    eapply (mismatch_bounds i j (key, v) e b n); try done. lia.
Qed.

(** Whatever the loop returns comes from an entry with the flag that covers
    the path, and no iterator is moved before the beginning. *)
Lemma lookup_loop_sound failsafe it :
  it ≤ length m → (it = 0 ∨ failsafe ≠ 0) →
  match lookup_loop failsafe m extract p it with
  | Found v _ => ∃ key, (key, v) ∈ m ∧ covers key p = true ∧ extract v = true
  | BadIterator => False
  | _ => True
  end.
Proof using Hm Hp.
  revert it. induction failsafe as [|failsafe IH]; intros [|it] Hit Hf; try (simpl; done || lia).
  destruct (lookup_lt_is_Some_2 m it) as [[key v] Hi]; [lia|].
  destruct (mismatch_spec (segments key) (segments p)) as (c & Hk & Hps & Hne).
  destruct (mismatch (segments key) (segments p)) as [l k] eqn:Hmm; simpl in Hk, Hps.
  rewrite (lookup_loop_step failsafe it key v c l k) by done.
  assert (∀ pos, match lookup_continue failsafe pos with
     | Found v _ => ∃ key, (key, v) ∈ m ∧ covers key p = true ∧ extract v = true
     | BadIterator => False | _ => True end) as Hcont.
  { intros pos. unfold lookup_continue. case_decide; [done|].
    apply IH; [apply upper_bound_length|by right]. }
  destruct l as [|x l]; cbn [is_nil]; [|apply Hcont].
  rewrite app_nil_r in Hk. subst c. destruct (extract v) eqn:Hv.
  - exists key. split_and!; [by apply list_elem_of_lookup_2 with it| |done].
    apply covers_spec. rewrite Hps. by eexists.
  - rewrite (canonical_length key) by apply (key_canonical it _ Hi). apply Hcont.
Qed.

(** ** Refinement of the reference search *)

Lemma longest_prefix_best :
  match longest_prefix m extract p with
  | Some e => best_entry m extract p e
  | None => ∀ e, e ∈ m → covers e.1 p = true → extract e.2 = false
  end.
Proof using Type.
  unfold longest_prefix. clear Hm Hp. induction m as [|e m' IH] using rev_ind; [set_solver|].
  rewrite foldl_app. cbn [foldl]. destruct (foldl _ None m') as [e'|].
  - destruct IH as (Hin & Hc & He & Hbest).
    destruct (_ && _) eqn:E; breflect.
    + apply Nat.ltb_lt in H0. split_and!; [set_solver|done..|].
      intros e0 [He0|He0]%elem_of_app Hc0 Hx0; [|by apply list_elem_of_singleton in He0 as ->].
      specialize (Hbest _ He0 Hc0 Hx0). lia.
    + split_and!; [set_solver|done..|].
      intros e0 [He0|He0]%elem_of_app Hc0 Hx0; [by apply Hbest|].
      apply list_elem_of_singleton in He0 as ->. rewrite Hc0, Hx0 in E. simpl in E.
      by apply Nat.ltb_ge in E.
  - rewrite andb_true_r. destruct (_ && _) eqn:E; breflect.
    + split_and!; [set_solver|done..|].
      intros e0 [He0|He0]%elem_of_app Hc0 Hx0; [|by apply list_elem_of_singleton in He0 as ->].
      by rewrite (IH _ He0 Hc0) in Hx0.
    + intros e0 [He0|He0]%elem_of_app Hc0; [by apply IH|].
      apply list_elem_of_singleton in He0 as ->. by rewrite Hc0 in E.
Qed.

Lemma host_path_accumulate e :
  e ∈ m → covers e.1 p = true →
  accumulate (real_path e.2) (drop (length (segments e.1)) (segments p)) = host_path e p.
Proof using Hm Hp.
  intros He Hc. destruct Hm as [_ Hall]. rewrite Forall_forall in Hall.
  destruct (Hall _ He) as [Hk Hr]. rewrite canonical_length by done.
  rewrite (segments_canonical p) by done. cbn [drop]. rewrite <-fmap_drop.
  apply accumulate_canonical; [done|]. apply Forall_drop, Hp.
Qed.

Lemma lookup_loop_refines :
  lookup_loop (length m) m extract p (ub p) =
    match longest_prefix m extract p with
    | Some e => Found e.2 (host_path e p)
    | None => lookup_loop (length m) m extract p (ub p)
    end.
Proof using Hm Hp.
  pose proof longest_prefix_best as Hb. destruct (longest_prefix m extract p) as [e|]; [|done].
  pose proof Hb as (Hin & Hc & _). apply list_elem_of_lookup in Hin as [j Hj].
  rewrite <-host_path_accumulate by (by eauto using list_elem_of_lookup_2).
  eapply (lookup_loop_found j e _ p (length (segments p))); [done..| | |].
  - by rewrite take_ge.
  - apply prefix_length, covers_spec, Hc.
  - apply upper_bound_length.
Qed.
End lookup.

Lemma resolve_path_canonical cwd p :
  path_wf cwd → path_wf p → root_dir cwd = true → canonical (resolve_path cwd p).
Proof.
  intros Hc Hp Hr. unfold resolve_path, is_relative, is_absolute.
  destruct (root_dir p) eqn:E; simpl; apply normalize_canonical; auto using append_wf.
  unfold append. rewrite E. by destruct (is_nil _).
Qed.

(** The path a guest's path argument stands for. *)
Definition guest_path (cwd pth : string) : path :=
  resolve_path (path_of_string cwd) (path_of_string pth).

Definition absolute_dir (cwd : string) : Prop := root_dir (path_of_string cwd) = true.

Lemma guest_path_canonical cwd pth : absolute_dir cwd → canonical (guest_path cwd pth).
Proof. apply resolve_path_canonical; apply path_of_string_wf. Qed.

Lemma lookup_refines m extract cwd pth :
  allowed_ok m → absolute_dir cwd →
  lookup_result pth (lookup_allowed_path pth cwd m extract) =
    match longest_prefix m extract (guest_path cwd pth) with
    | Some e => (true, string_of_path (host_path e (guest_path cwd pth)))
    | None => (false, pth)
    end.
Proof.
  intros Hm Hc. pose proof (guest_path_canonical cwd pth Hc) as Hp.
  unfold lookup_allowed_path. fold (guest_path cwd pth).
  rewrite lookup_loop_refines by done.
  pose proof (longest_prefix_best m extract (guest_path cwd pth)) as Hb.
  destruct (longest_prefix _ _ _) as [e|]; [done|].
  pose proof (lookup_loop_sound m extract _ Hm Hp (length m)
    (upper_bound ComparePathSegments m (guest_path cwd pth)) (upper_bound_length _ _ _)) as Hs.
  destruct (lookup_loop _ _ _ _ _) as [v q| | |]; try done. exfalso.
  destruct Hs as (key & Hin & Hcov & Hx).
  { destruct m; [by left|by right]. }
  specialize (Hb _ Hin Hcov). simpl in Hb. congruence.
Qed.

(** A failed lookup: no entry with the flag covers the path. *)
Lemma longest_prefix_None m extract p :
  longest_prefix m extract p = None ↔ ∀ e, e ∈ m → covers e.1 p = true → extract e.2 = false.
Proof.
  pose proof (longest_prefix_best m extract p) as Hb. split; [by intros E; rewrite E in Hb|].
  intros H. destruct (longest_prefix m extract p) as [e|]; [|done].
  destruct Hb as (Hin & Hc & He & _). by rewrite (H _ Hin Hc) in He.
Qed.

(** Some key with the flag covers the path. *)
Definition permitted (m : path_map) (extract : VirtualPath → bool) (p : path) : Prop :=
  ∃ e, e ∈ m ∧ covers e.1 p = true ∧ extract e.2 = true.

Lemma permitted_nil extract p : permitted [] extract p ↔ False.
Proof. split; [|done]. by intros (e & He%elem_of_nil & _). Qed.

Lemma lookup_permitted m extract cwd pth :
  allowed_ok m → absolute_dir cwd →
  (lookup_result pth (lookup_allowed_path pth cwd m extract)).1 = true ↔
  permitted m extract (guest_path cwd pth).
Proof.
  intros Hm Hc. rewrite lookup_refines by done.
  pose proof (longest_prefix_best m extract (guest_path cwd pth)) as Hb.
  destruct (longest_prefix _ _ _) as [e|]; simpl; split; try done.
  - intros _. exists e. by destruct Hb as (?&?&?&_).
  - intros (e & Hin & Hcov & Hx). by rewrite (Hb _ Hin Hcov) in Hx.
Qed.

(** The host path is canonical, and continues as the guest path does. *)
Lemma host_path_canonical e p :
  canonical e.1 → canonical (real_path e.2) → canonical p → covers e.1 p = true →
  canonical (host_path e p) ∧
  ∃ rest, p = Path true (names e.1 ++ rest) false ∧ drop (length (names e.1)) (names p) = rest.
Proof.
  intros Hk (_ & _ & Hr) Hp Hc. apply covers_spec in Hc as [rest Hrest].
  rewrite !segments_canonical in Hrest by done. injection Hrest as Hrest.
  apply fmap_app_inv in Hrest as (l1 & l2 & H1 & -> & Hn).
  apply list_fmap_eq_inj in H1 as <-; [|apply _].
  pose proof Hp as (Hroot & Ht & Hpn). rewrite Hn in Hpn |- *. rewrite drop_app_length.
  split.
  - split_and!; [done..|]. unfold host_path. simpl. rewrite Hn, drop_app_length.
    apply Forall_app_2; [done|]. by apply Forall_app in Hpn as [_ ?].
  - exists l2. split; [|done]. destruct p; simpl in *; by subst.
Qed.

(** *** [ensure_path] keeps the map well formed and adds one permission *)

Section ensure.
Context (cwd src dst : path) (m : path_map).
Context (Hm : allowed_ok m).
Context (Hcwd : path_wf cwd) (Hsrc : path_wf src) (Hdst : path_wf dst).
Context (Habs : root_dir cwd = true).

Let key := resolve_path cwd src.

Lemma ensure_path_ok r w s : allowed_ok (ensure_path cwd src dst m r w s).
Proof using All.
  destruct Hm as [Hs Hall]. rewrite Forall_forall in Hall.
  pose proof (resolve_path_canonical cwd src Hcwd Hsrc Habs) as Hk.
  pose proof (resolve_path_canonical cwd dst Hcwd Hdst Habs) as Hd.
  unfold ensure_path. destruct (map_find _ _ _) as [v|] eqn:Hf; split; rewrite ?Forall_forall.
  - by apply map_update_sorted.
  - intros e [[He _]|(v' & He & Heq & Hv)]%(elem_of_map_update _ _ _ _ _ Hs); [by apply Hall|].
    rewrite Hv. split; [|done]. by apply (Hall (e.1, v')).
  - by apply map_emplace_sorted; [apply _|..].
  - intros e [->|He]%elem_of_map_emplace; [done|by apply Hall].
Qed.

(** A flag: its value for a new entry and after an update. *)
Definition is_flag (extract : VirtualPath → bool) (b r w s : bool) : Prop :=
  (∀ d k, extract (MkVirtualPath d k r w s) = b) ∧
  (∀ d k v, extract (MkVirtualPath d k (if r then true else readable v)
                       (if w then true else writable v)
                       (if s then true else symlink v)) = b || extract v).

Lemma covers_equiv k p :
  key_equiv ComparePathSegments key k = true → covers k p = covers key p.
Proof. intros H%key_equiv_segments. unfold covers. by rewrite H. Qed.

Lemma ensure_path_permitted extract b r w s p :
  is_flag extract b r w s →
  permitted (ensure_path cwd src dst m r w s) extract p ↔
  permitted m extract p ∨ (b = true ∧ covers key p = true).
Proof using Hm.
  intros [Hnew Hupd]. destruct Hm as [Hs _]. unfold ensure_path, permitted. fold key.
  destruct (map_find _ _ _) as [v|] eqn:Hf.
  - apply map_find_elem in Hf as (k & Hk & Heq).
    setoid_rewrite (elem_of_map_update _ _ _ _ _ Hs). split.
    + intros (e & [[He _]|(v' & He & Hke & Hv)] & Hc & Hx); [left; eauto|].
      rewrite Hv, Hupd in Hx. apply orb_true_iff in Hx as [->|Hx].
      * right. split; [done|]. by rewrite <-(covers_equiv e.1 p).
      * left. by exists (e.1, v').
    + intros [(e & He & Hc & Hx)|[-> Hc]].
      * destruct (key_equiv ComparePathSegments key e.1) eqn:E; [|by exists e; eauto].
        eexists (e.1, _). split_and!; [right; exists e.2; by destruct e|done|].
        simpl. rewrite Hupd, Hx. apply orb_true_r.
      * eexists (k, _). split_and!; [right; by exists v|by rewrite covers_equiv|].
        simpl. by rewrite Hupd.
  - setoid_rewrite elem_of_map_emplace. split.
    + intros (e & [->|He] & Hc & Hx); [|left; eauto]. simpl in *. rewrite Hnew in Hx. by right.
    + intros [(e & He & Hc & Hx)|[-> Hc]]; [by exists e; eauto|].
      eexists. split_and!; [by left|done|]. simpl. by rewrite Hnew.
Qed.

Lemma ensure_path_readable r w s p :
  permitted (ensure_path cwd src dst m r w s) readable p ↔
  permitted m readable p ∨ (r = true ∧ covers key p = true).
Proof using Hm. apply ensure_path_permitted. split; [done|]. intros ?? v. by destruct r. Qed.

Lemma ensure_path_writable r w s p :
  permitted (ensure_path cwd src dst m r w s) writable p ↔
  permitted m writable p ∨ (w = true ∧ covers key p = true).
Proof using Hm. apply ensure_path_permitted. split; [done|]. intros ?? v. by destruct w. Qed.
End ensure.

#[export] Hint Resolve ensure_path_ok path_of_string_wf : kvm.

(** The order of the keys makes the paths below a directory an interval that
    starts at the directory. *)
Lemma subtree_interval d x y :
  covers d y = true → ComparePathSegments x d = false → ComparePathSegments y x = false →
  covers d x = true.
Proof.
  rewrite !covers_spec, !ComparePathSegments_lex. intros [k Hk]. rewrite Hk.
  clear Hk. revert k. generalize (segments x), (segments d). clear.
  intros l dd. revert l. induction dd as [|a dd IH]; intros l k; [by intros; apply prefix_nil|].
  destruct l as [|b l]; simpl; [done|]. rewrite !orb_false_iff. intros [H1 H2] [H3 H4].
  rewrite (st_total a b H3 H1) in *. rewrite (st_irrefl (ltb := segment_ltb)) in *. simpl in *.
  apply prefix_cons. by eapply IH.
Qed.
(** ** Relative working directories

    With [--cwd] a relative directory is possible; then a relative guest path
    stays relative and no key covers it. *)

Lemma norm_step_relative acc s : root_dir acc = false → root_dir (norm_step acc (Name s)) = false.
Proof.
  intros Hr. unfold norm_step, append, segment_path.
  repeat first [done | case_decide | break_match]; simpl in *; congruence.
Qed.

Lemma normalize_relative p : root_dir p = false → root_dir (normalize p) = false.
Proof.
  intros Hr. unfold normalize, lexically_normal.
  assert (root_dir (append p empty_path) = false) as Ha by (unfold append; simpl; done).
  assert (∀ p, root_dir p = false → root_dir (parent_path p) = false) as Hpar
    by (intros q Hq; unfold parent_path; by destruct (trailing q)).
  apply Hpar. case_decide; [done|].
  assert (root_dir (foldl norm_step empty_path (segments (append p empty_path))) = false) as Hf.
  { unfold segments. rewrite Ha. simpl.
    assert (∀ l acc, Forall (λ e, e ≠ Root) l → root_dir acc = false →
      root_dir (foldl norm_step acc l) = false) as Hloop.
    { induction l as [|[|s] l IH]; intros acc Hl Hacc; simpl; [done|by inversion Hl|].
      apply IH; [by inversion Hl|by apply norm_step_relative]. }
    apply Hloop; [|done]. apply Forall_app_2.
    - apply Forall_fmap, Forall_true. by intros s.
    - case_match; [|by constructor]. apply Forall_singleton. discriminate. }
  destruct (_ && _); [by apply Hpar|]. by case_decide.
Qed.

Lemma guest_path_cases cwd pth : canonical (guest_path cwd pth) ∨ root_dir (guest_path cwd pth) = false.
Proof.
  unfold guest_path, resolve_path.
  set (q := if is_relative (path_of_string pth) then _ else _).
  destruct (root_dir q) eqn:E; [left|right; by apply normalize_relative].
  apply normalize_canonical; [|done]. subst q.
  destruct (is_relative _); auto using append_wf, path_of_string_wf.
Qed.

Lemma lookup_loop_relative m extract p failsafe it v q :
  allowed_ok m → root_dir p = false → lookup_loop failsafe m extract p it ≠ Found v q.
Proof.
  intros [_ Hm] Hp. revert it. induction failsafe as [|failsafe IH]; intros [|it]; simpl; try done.
  destruct (m !! it) as [[key vpath]|] eqn:Hi; [|done].
  rewrite Forall_forall in Hm. destruct (Hm _ (list_elem_of_lookup_2 _ _ _ Hi)) as [Hk _]; simpl in Hk.
  rewrite (segments_canonical _ Hk).
  destruct (mismatch_spec (Root :: (Name <$> names key)) (segments p)) as (c & Hc & Hps & _).
  destruct (mismatch _ _) as [l k] eqn:Hmm; simpl in Hc, Hps.
  destruct c as [|x c].
  - simpl in Hc. subst l. simpl. case_decide; [done|apply IH].
  - injection Hc as <- _. unfold segments in Hps. rewrite Hp in Hps.
    by destruct (names p), (trailing p).
Qed.

(** A successful lookup, whatever the working directory. *)
Lemma lookup_found_below m extract cwd pth vpath p :
  allowed_ok m → lookup_allowed_path pth cwd m extract = Found vpath p →
  ∃ key rest,
    (key, vpath) ∈ m ∧ extract vpath = true ∧
    path_of_string (string_of_path p) = Path true (names (real_path vpath) ++ rest) false ∧
    canonical (path_of_string (string_of_path p)).
Proof.
  intros Hm Hl. pose proof Hm as [_ Hall]. rewrite Forall_forall in Hall.
  destruct (guest_path_cases cwd pth) as [Hp|Hp].
  - pose proof (longest_prefix_best m extract (guest_path cwd pth)) as Hb.
    pose proof (lookup_loop_sound m extract (guest_path cwd pth) Hm Hp (length m)
      (upper_bound ComparePathSegments m (guest_path cwd pth)) (upper_bound_length _ _ _)) as Hs.
    revert Hl Hs. unfold lookup_allowed_path. fold (guest_path cwd pth).
    rewrite lookup_loop_refines by done.
    destruct (longest_prefix m extract (guest_path cwd pth)) as [[key v]|].
    + destruct Hb as (Hin & Hcov & Hx & _). intros [= <- <-] _.
      destruct (Hall _ Hin) as [Hk Hr]; simpl in *.
      destruct (host_path_canonical (key, v) (guest_path cwd pth)) as (Hh & rest & Hg & Hd); [done..|].
      exists key, rest. rewrite path_of_string_of_path by auto using canonical_wf.
      unfold host_path in *; simpl in *. by rewrite Hd in *.
    + destruct (lookup_loop _ _ _ _ _) as [v q| | |] eqn:E; try done. intros _ Hs. exfalso.
      destruct Hs as (key & Hin & Hc & Hx); [destruct m; [by left|by right]|].
      specialize (Hb (key, v) Hin Hc). simpl in Hb. congruence.
  - by apply lookup_loop_relative in Hl.
Qed.

Lemma lookup_below m extract cwd pth out :
  allowed_ok m → lookup_result pth (lookup_allowed_path pth cwd m extract) = (true, out) →
  ∃ key vpath rest,
    (key, vpath) ∈ m ∧ extract vpath = true ∧
    path_of_string out = Path true (names (real_path vpath) ++ rest) false ∧
    canonical (path_of_string out).
Proof.
  intros Hm. destruct (lookup_allowed_path pth cwd m extract) as [v p| | |] eqn:E; try done.
  intros [= <-]. destruct (lookup_found_below m extract cwd pth v p Hm E) as (key & rest & ?). eauto.
Qed.

(** A symbolic link is followed below an entry that is one. *)
Lemma resolve_symlink_below m cwd pth out :
  allowed_ok m → resolve_symlink cwd m pth = (true, out) →
  ∃ key vpath rest,
    (key, vpath) ∈ m ∧ symlink vpath = true ∧
    path_of_string out = Path true (names (real_path vpath) ++ rest) false ∧
    canonical (path_of_string out).
Proof.
  intros Hm. unfold resolve_symlink.
  destruct (lookup_allowed_path pth cwd m (λ _, true)) as [v p| | |] eqn:E; try done.
  intros [= Hs <-]. destruct (lookup_found_below m _ cwd pth v p Hm E) as (key & rest & ? & _ & ? & ?).
  by exists key, v, rest.
Qed.

(** ** Theorems *)

(** C5: for every well-formed permission map, absolute working directory and
    guest path, [lookup_allowed_path] answers as the reference search does: it
    succeeds exactly when some key with the requested flag is a prefix of the
    normalised guest path, and then rewrites the path to the real path of the
    longest such key followed by the rest of the guest path; otherwise it
    returns false and leaves the path as it was. *)
Theorem lookup_refines_longest_prefix m extract cwd pth :
  allowed_ok m → absolute_dir cwd →
  lookup_result pth (lookup_allowed_path pth cwd m extract) =
    match longest_prefix m extract (guest_path cwd pth) with
    | Some e => (true, string_of_path (host_path e (guest_path cwd pth)))
    | None => (false, pth)
    end.
Proof. apply lookup_refines. Qed.

(** A small permission map: [--allow-write=/], a volume and a symbolic link. *)
Definition demo_map : path_map :=
  let cwd := root_path in
  let add s d r w l m := ensure_path cwd (path_of_string s) (path_of_string d) m r w l in
  add "/proc/self/exe" "/bin/app" false false true
    (add "data/" "/mnt/disk" true false false (add "/" "/" false true false [])).

Lemma demo_map_ok : allowed_ok demo_map.
Proof.
  assert (path_wf root_path) by by apply canonical_wf, canonical_root.
  unfold demo_map. repeat apply ensure_path_ok; auto with kvm. by repeat constructor.
Qed.

Lemma lookup_refines_witness :
  allowed_ok demo_map ∧
  lookup_result "/data/x/../y" (lookup_allowed_path "/data/x/../y" "/" demo_map readable) =
  (true, "/mnt/disk/y").
Proof.
  split; [apply demo_map_ok|].
  rewrite (lookup_refines_longest_prefix demo_map readable "/" "/data/x/../y" demo_map_ok eq_refl).
  vm_compute. reflexivity.
Defined.

(** C13: a guest cannot leave the directories it was given: when
    [lookup_allowed_path] succeeds, the path it hands to the host is canonical
    (absolute, without [.] or [..]) and lies below the real path of an entry
    that has the requested flag and whose key is a prefix of the guest path;
    below it the host path continues as the guest path does below the key. *)
Theorem lookup_confined m extract cwd pth out :
  allowed_ok m → absolute_dir cwd →
  lookup_result pth (lookup_allowed_path pth cwd m extract) = (true, out) →
  ∃ key vpath rest,
    (key, vpath) ∈ m ∧ extract vpath = true ∧
    guest_path cwd pth = Path true (names key ++ rest) false ∧
    path_of_string out = Path true (names (real_path vpath) ++ rest) false ∧
    canonical (path_of_string out).
Proof.
  intros Hm Hc. rewrite lookup_refines by done.
  pose proof (guest_path_canonical cwd pth Hc) as Hp.
  pose proof (longest_prefix_best m extract (guest_path cwd pth)) as Hb.
  destruct (longest_prefix _ _ _) as [[key v]|]; intros; simplify_eq.
  destruct Hb as (Hin & Hcov & Hx & _). simpl in *.
  pose proof Hm as [_ Hall]. rewrite Forall_forall in Hall. destruct (Hall _ Hin) as [Hk Hr]; simpl in *.
  destruct (host_path_canonical (key, v) (guest_path cwd pth)) as (Hh & rest & Hg & Hd); [done..|].
  exists key, v, rest. rewrite path_of_string_of_path by auto using canonical_wf.
  unfold host_path in *; simpl in *. by rewrite Hd in *.
Qed.

Lemma lookup_confined_witness :
  ∃ key vpath rest,
    (key, vpath) ∈ demo_map ∧ readable vpath = true ∧
    guest_path "/data" "a/./b/../c" = Path true (names key ++ rest) false ∧
    path_of_string "/mnt/disk/a/c" = Path true (names (real_path vpath) ++ rest) false ∧
    canonical (path_of_string "/mnt/disk/a/c").
Proof.
  apply (lookup_confined demo_map readable "/data" "a/./b/../c" "/mnt/disk/a/c" demo_map_ok eq_refl).
  vm_compute. reflexivity.
Defined.

(** C33: the fail-safe counter never costs a permission.  On a well-formed map
    the loop of [lookup_allowed_path] ends by itself or by the counter without
    ever moving an iterator before the beginning, and when the counter stops
    the loop no entry with the flag covers the path, so the [false] it returns
    is the right answer. *)
Theorem lookup_failsafe_sound m extract cwd pth :
  allowed_ok m → absolute_dir cwd →
  lookup_allowed_path pth cwd m extract ≠ BadIterator ∧
  (lookup_allowed_path pth cwd m extract = FailsafeTriggered →
   ¬ permitted m extract (guest_path cwd pth)).
Proof.
  intros Hm Hc. split.
  - pose proof (lookup_loop_sound m extract (guest_path cwd pth) Hm
      (guest_path_canonical cwd pth Hc) (length m)
      (upper_bound ComparePathSegments m (guest_path cwd pth)) (upper_bound_length _ _ _)) as Hs.
    unfold lookup_allowed_path. fold (guest_path cwd pth). intros E. rewrite E in Hs.
    apply Hs. destruct m; [by left|by right].
  - intros E Hper. apply (lookup_permitted m extract cwd pth Hm Hc) in Hper. by rewrite E in Hper.
Qed.

(** The counter does stop the loop: a key [/] without the flag is visited
    again and again. *)
Lemma lookup_failsafe_witness :
  lookup_allowed_path "/etc/passwd" "/" demo_map readable = FailsafeTriggered ∧
  ¬ permitted demo_map readable (guest_path "/" "/etc/passwd").
Proof.
  assert (lookup_allowed_path "/etc/passwd" "/" demo_map readable = FailsafeTriggered) as H
    by (vm_compute; reflexivity).
  split; [exact H|].
  exact (proj2 (lookup_failsafe_sound demo_map readable "/" "/etc/passwd" demo_map_ok eq_refl) H).
Defined.

(** C19: [ensure_path] keeps the permission map well formed and grants exactly
    what its arguments say: after it a path is readable (writable) exactly when
    it was before or the call grants the flag and the normalised source is a
    prefix of the path; the source's entry then points to the normalised
    destination. *)
Theorem ensure_path_correct cwd src dst m r w s :
  allowed_ok m → path_wf cwd → path_wf src → path_wf dst → root_dir cwd = true →
  let m' := ensure_path cwd src dst m r w s in
  allowed_ok m' ∧
  (∀ p, permitted m' readable p ↔
        permitted m readable p ∨ (r = true ∧ covers (resolve_path cwd src) p = true)) ∧
  (∀ p, permitted m' writable p ↔
        permitted m writable p ∨ (w = true ∧ covers (resolve_path cwd src) p = true)) ∧
  (∃ vpath, map_find ComparePathSegments m' (resolve_path cwd src) = Some vpath ∧
            real_path vpath = resolve_path cwd dst).
Proof.
  intros Hm Hc Hs Hd Hr m'. split_and!.
  - by apply ensure_path_ok.
  - intros p. by apply ensure_path_readable.
  - intros p. by apply ensure_path_writable.
  - unfold m', ensure_path. destruct (map_find _ m _) as [v|] eqn:Hf.
    + rewrite (map_find_update _ _ _ _ _ Hf). by eexists.
    + rewrite (map_find_emplace _ _ _ _ Hf). by eexists.
Qed.

Lemma ensure_path_witness :
  let m' := ensure_path root_path (path_of_string "x/..//srv") (path_of_string "/data")
              demo_map true true false in
  permitted m' writable (path_of_string "/srv/www") ∧
  map_find ComparePathSegments m' (path_of_string "/srv") =
    Some (MkVirtualPath (path_of_string "/data") (path_of_string "/srv") true true false).
Proof.
  destruct (ensure_path_correct root_path (path_of_string "x/..//srv") (path_of_string "/data")
    demo_map true true false demo_map_ok (canonical_wf _ canonical_root)
    (path_of_string_wf _) (path_of_string_wf _) eq_refl) as (_ & _ & Hw & _).
  split.
  - apply Hw. right. split; [reflexivity|]. vm_compute. reflexivity.
  - vm_compute. reflexivity.
Defined.

(** C34: [ComparePathSegments] is a strict weak order, as [std::map] requires,
    and orders paths so that everything below a directory is one interval that
    starts with the directory itself: a path between a directory and one of its
    descendants is a descendant too. *)
Theorem compare_path_segments_order :
  StrictWeak ComparePathSegments ∧
  ∀ d x y, covers d y = true → ComparePathSegments x d = false →
           ComparePathSegments y x = false → covers d x = true.
Proof. split; [apply _|apply subtree_interval]. Qed.

(** The normalisation that [ensure_path] and [lookup_allowed_path] share is
    a canonicalisation: the result is absolute and free of [.], [..] and
    trailing separators, its names are those of the path below the current
    directory with [.] dropped and each [..] removing the name before it, and
    normalising again changes nothing. *)
Lemma resolve_path_correct cwd p :
  path_wf cwd → path_wf p → root_dir cwd = true →
  canonical (resolve_path cwd p) ∧
  names (resolve_path cwd p) = clean (if root_dir p then names p else names cwd ++ names p) ∧
  resolve_path cwd (resolve_path cwd p) = resolve_path cwd p.
Proof.
  intros Hc Hp Hr. pose proof (resolve_path_canonical cwd p Hc Hp Hr) as Hcan. split_and!; [done| |].
  - unfold resolve_path, is_relative, is_absolute. destruct (root_dir p) eqn:E; simpl.
    + by rewrite normalize_absolute.
    + rewrite normalize_absolute; [|by apply append_wf|]; unfold append; rewrite E;
        destruct (names p) eqn:En; simpl; by rewrite ?app_nil_r.
  - unfold resolve_path at 1, is_relative, is_absolute. destruct Hcan as (Hroot & ? & ?).
    rewrite Hroot. simpl. by apply normalize_id.
Qed.

Lemma resolve_path_witness :
  string_of_path (resolve_path (path_of_string "/srv/app") (path_of_string "../.././../etc//x/")) =
    "/etc/x" ∧
  canonical (resolve_path (path_of_string "/srv/app") (path_of_string "../.././../etc//x/")).
Proof.
  split; [vm_compute; reflexivity|].
  apply (resolve_path_correct (path_of_string "/srv/app") (path_of_string "../.././../etc//x/")
    (path_of_string_wf _) (path_of_string_wf _) eq_refl).
Defined.

(** A path written out as a pathname and read back is the same path, so the
    string [lookup_allowed_path] leaves in [pathinout] denotes the path it
    computed; in particular looking the result up again treats it as that path. *)
Lemma pathname_roundtrip p :
  path_wf p → path_of_string (string_of_path p) = p ∧
  (canonical p → ∀ cwd, guest_path cwd (string_of_path p) = p).
Proof.
  intros Hp. split; [by apply path_of_string_of_path|].
  intros Hc cwd. unfold guest_path. rewrite path_of_string_of_path by done.
  pose proof Hc as (Hr & _ & _). unfold resolve_path, is_relative, is_absolute. rewrite Hr.
  by apply normalize_id.
Qed.

Lemma pathname_roundtrip_witness :
  guest_path "/tmp" (string_of_path (Path true ["a"; "b"] false)) = Path true ["a"; "b"] false.
Proof.
  refine (proj2 (pathname_roundtrip (Path true ["a"; "b"] false) _) _ "/tmp").
  - by apply (path_of_string_wf "/a/b").
  - by apply (normalize_canonical (path_of_string "/a/b") (path_of_string_wf _) eq_refl).
Defined.
