(* ===== verification/Network.v ===== *)
(** * Network permissions

    [parse_addresses] of [config.cpp] turns the values of [--allow-net],
    [--allow-connect] and [--allow-listen] into two lists of socket addresses,
    and [validate_network_access] of [vm.cpp] checks a guest's [connect],
    [bind] or [listen] address against them.

    [inet_pton] and [getaddrinfo] belong to the C library and are parameters. *)

From S2P Require Import Prelude CppString.

Local Open Scope string_scope.
Local Open Scope list_scope.
Local Open Scope nat_scope.

(** ** Socket addresses

    The bytes of a [sockaddr_storage] the program reads: the family (bytes 0-1),
    [sin_port]/[sin6_port] (bytes 2-3, both at that offset), [sin_addr] of a
    [sockaddr_in] or [sin6_flowinfo] of a [sockaddr_in6] (bytes 4-7), and
    [sin6_addr] (bytes 8-23).  A socket address of family [AF_UNIX] has its
    path. *)
Record sockaddr_storage := MkSockaddr {
  ss_family : Z;
  ss_port : Z;
  ss_word4 : Z;
  ss_addr16 : list Z;
  ss_path : string
}.

#[export] Instance sockaddr_eq_dec : EqDecision sockaddr_storage.
Proof. solve_decision. Defined.

Definition AF_UNSPEC : Z := 0.
Definition AF_UNIX : Z := 1.
Definition AF_INET : Z := 2.
Definition AF_INET6 : Z := 10.

Definition in6addr_any : list Z := replicate 16 0%Z.

(** [(struct sockaddr_storage) {}] *)
Definition sockaddr_zero : sockaddr_storage := MkSockaddr AF_UNSPEC 0 0 in6addr_any "".

Definition set_family (f : Z) (a : sockaddr_storage) : sockaddr_storage :=
  MkSockaddr f (ss_port a) (ss_word4 a) (ss_addr16 a) (ss_path a).
Definition set_port (p : Z) (a : sockaddr_storage) : sockaddr_storage :=
  MkSockaddr (ss_family a) p (ss_word4 a) (ss_addr16 a) (ss_path a).
Definition set_addr4 (w : Z) (a : sockaddr_storage) : sockaddr_storage :=
  MkSockaddr (ss_family a) (ss_port a) w (ss_addr16 a) (ss_path a).
Definition set_addr6 (b : list Z) (a : sockaddr_storage) : sockaddr_storage :=
  MkSockaddr (ss_family a) (ss_port a) (ss_word4 a) b (ss_path a).

(** [htons] on the little-endian target: the two bytes are exchanged. *)
Definition htons (p : Z) : Z := ((p mod 256) * 256 + (p / 256) mod 256)%Z.

(** ** [validate_network_access] *)

Definition ipv4_allows (addr allowed : sockaddr_storage) : bool :=
  ((ss_word4 addr =? ss_word4 allowed)%Z || (ss_word4 allowed =? 0)%Z) &&
  ((ss_port addr =? ss_port allowed)%Z || (ss_port allowed =? 0)%Z).

Definition ipv6_allows (addr allowed : sockaddr_storage) : bool :=
  (bool_decide (ss_addr16 allowed = in6addr_any) ||
   bool_decide (ss_addr16 allowed = ss_addr16 addr)) &&
  ((ss_port allowed =? 0)%Z || (ss_port addr =? ss_port allowed)%Z).

Definition validate_network_access (addr : sockaddr_storage)
    (allowed_ipv4 allowed_ipv6 : list sockaddr_storage) : bool :=
  if (ss_family addr =? AF_INET)%Z then existsb (ipv4_allows addr) allowed_ipv4
  else if (ss_family addr =? AF_INET6)%Z || (ss_family addr =? AF_UNSPEC)%Z
  then existsb (ipv6_allows addr) allowed_ipv6
  else false.

(** What the check is for: some entry names the address.  An entry of the IPv4
    list names the addresses of family [AF_INET] with its [sin_addr] and
    [sin_port], an entry of the IPv6 list those of [AF_INET6] or [AF_UNSPEC]
    with its [sin6_addr] and [sin6_port]; zero stands for any address and any
    port. *)
Inductive listed (allowed_ipv4 allowed_ipv6 : list sockaddr_storage) (addr : sockaddr_storage) : Prop :=
  | listed_ipv4 entry :
      entry ∈ allowed_ipv4 → ss_family addr = AF_INET →
      ss_word4 entry = ss_word4 addr ∨ ss_word4 entry = 0%Z →
      ss_port entry = ss_port addr ∨ ss_port entry = 0%Z →
      listed allowed_ipv4 allowed_ipv6 addr
  | listed_ipv6 entry :
      entry ∈ allowed_ipv6 → ss_family addr = AF_INET6 ∨ ss_family addr = AF_UNSPEC →
      ss_addr16 entry = ss_addr16 addr ∨ ss_addr16 entry = replicate 16 0%Z →
      ss_port entry = ss_port addr ∨ ss_port entry = 0%Z →
      listed allowed_ipv4 allowed_ipv6 addr.

Lemma validate_network_access_listed addr l4 l6 :
  validate_network_access addr l4 l6 = true ↔ listed l4 l6 addr.
Proof.
  unfold validate_network_access, ipv4_allows, ipv6_allows. split.
  - case_match; breflect.
    + intros (e & He & Hm)%existsb_exists. apply list_elem_of_In in He.
      apply andb_true_iff in Hm as [[?|?]%orb_true_iff [?|?]%orb_true_iff]; breflect;
        eapply (listed_ipv4 _ _ _ e); auto.
    + case_match; [|done]. intros (e & He & Hm)%existsb_exists. apply list_elem_of_In in He.
      assert (ss_family addr = AF_INET6 ∨ ss_family addr = AF_UNSPEC) as Hf
        by (apply orb_true_iff in H0 as [?|?]; breflect; auto).
      apply andb_true_iff in Hm as [[?|?]%orb_true_iff [?|?]%orb_true_iff]; breflect;
        eapply (listed_ipv6 _ _ _ e); auto.
  - intros [e He%list_elem_of_In Hf Ha Hp|e He%list_elem_of_In Hf Ha Hp].
    + rewrite Hf. simpl. apply existsb_exists. exists e. split; [done|].
      apply andb_true_iff. rewrite !orb_true_iff, !Z.eqb_eq. naive_solver.
    + assert (existsb (ipv6_allows addr) l6 = true) as Hx.
      { apply existsb_exists. exists e. split; [done|].
        apply andb_true_iff. rewrite !orb_true_iff, !Z.eqb_eq, !bool_decide_eq_true. naive_solver. }
      by destruct Hf as [-> | ->]; simpl.
Qed.

(** ** [parse_addresses] *)

(** One result of [getaddrinfo], by its [ai_family]. *)
Inductive addrinfo := Ai4 (sin_addr : Z) | Ai6 (sin6_addr : list Z) | AiOther.

Definition digit_chars : string := "0123456789".

(** The port and the address a value is split into.  [std::stoul] returns 64
    bits, of which the [uint] keeps the low 32 before the range check. *)
Definition split_port (value : string) : result (string * Z) :=
  let address := if decide (value = "true") then "" else value in
  r ← match find_last_not_of digit_chars address with
      | Some maybe_colon =>
          if decide (str_get value maybe_colon = Some ":"%char) then
            match stoul (substr address (S maybe_colon) (str_len address)) with
            | Ok p => Ok (substr address 0 maybe_colon, u32 p)
            | Err _ => throw (ValidationError "Invalid port" value)
            end
          else Ok (address, 0%Z)
      | None => Ok (address, 0%Z)
      end;
  let '(address, port) := (r : string * Z) in
  if (65535 <? port)%Z then throw (ValidationError "Invalid port" value) else Ok (address, port).

Abbreviation addr_lists := (list sockaddr_storage * list sockaddr_storage)%type.

Section parse.
(** [inet_pton(AF_INET, s)], [inet_pton(AF_INET6, s)] and [getaddrinfo(s)];
    [None] is failure. *)
Context (inet_pton4 : string → option Z) (inet_pton6 : string → option (list Z)).
Context (getaddrinfo : string → option (list addrinfo)).

(** The loop over the resolved addresses of a domain name. *)
Definition add_resolved (value : string) (port : Z) (l : addr_lists) (ai : addrinfo)
    : result addr_lists :=
  match ai with
  | Ai4 w => Ok (l.1 ++ [set_port (htons port) (set_addr4 w (set_family AF_INET sockaddr_zero))], l.2)
  | Ai6 b => Ok (l.1, l.2 ++ [set_port (htons port) (set_addr6 b (set_family AF_INET6 sockaddr_zero))])
  | AiOther => throw (ValidationError "Invalid address family for domain" value)
  end.

(** The branch for a value without an address.  [storage] is the element just
    put at the end of [allowed_ipv4]; the assignment of the new element of
    [allowed_ipv6] copies it into that element, and the two stores after it
    go there too. *)
Definition add_any (port : Z) (l : addr_lists) : addr_lists :=
  let l := if (port =? 0)%Z then ([], []) else l in
  let storage := set_port (htons port) (set_family AF_INET sockaddr_zero) in
  let allowed_ipv6 := l.2 ++ [sockaddr_zero] in
  let storage := sockaddr_zero in
  let storage := set_port (htons port) (set_family AF_INET6 storage) in
  (l.1 ++ [storage], allowed_ipv6).

(** One iteration of the loop; the flag is the [return true]. *)
Definition parse_value (value : string) (l : addr_lists) : result (addr_lists * bool) :=
  if bool_decide (value = "") || bool_decide (value = "false") then Ok (l, false)
  else
    ap ← split_port value;
    let '(address, port) := ap in
    if decide (address = "") then Ok (add_any port l, (port =? 0)%Z)
    else if decide (str_front address = Some "["%char) then
      if decide (str_back address = Some "]"%char) then
        match inet_pton6 (substr address 1 (str_len value - 2)) with
        | Some b =>
            Ok ((l.1, l.2 ++ [set_port (htons port)
                                (set_addr6 b (set_family AF_INET6 sockaddr_zero))]), false)
        | None => throw (ValidationError "Invalid IPv6 address" value)
        end
      else throw (ValidationError "Invalid ipv6 address" value)
    else
      match inet_pton4 address with
      | Some w =>
          Ok ((l.1 ++ [set_port (htons port)
                         (set_addr4 w (set_family AF_INET sockaddr_zero))], l.2), false)
      | None =>
          match getaddrinfo address with
          | None => throw (ValidationError "Invalid domain name" value)
          | Some ais => l' ← foldM (add_resolved value port) ais l; Ok (l', false)
          end
      end.

Fixpoint parse_addresses (config : list string) (l : addr_lists) : result (addr_lists * bool) :=
  match config with
  | [] => Ok (l, false)
  | value :: config =>
      '(l', returned) ← parse_value value l;
      if (returned : bool) then Ok (l', true) else parse_addresses config l'
  end.

(** The two lists of each direction, as [FromArgs] fills them. *)
Record net_config := MkNet {
  allowed_connect : addr_lists;
  allowed_listen : addr_lists
}.

Definition network_config (allow_net allow_connect allow_listen : list string)
    : result net_config :=
  '(net, skip_allow_connect_listen) ← parse_addresses allow_net ([], []);
  if (skip_allow_connect_listen : bool) then Ok (MkNet net net)
  else
    '(connect, _) ← parse_addresses allow_connect net;
    '(listen, _) ← parse_addresses allow_listen net;
    Ok (MkNet connect listen).
End parse.

(** ** Ports *)

Lemma htons_inj p q :
  (0 <= p < 65536)%Z → (0 <= q < 65536)%Z → (htons p =? htons q)%Z = (p =? q)%Z.
Proof.
  intros Hp Hq. unfold htons.
  pose proof (Z.div_mod p 256). pose proof (Z.div_mod q 256).
  pose proof (Z.mod_pos_bound p 256). pose proof (Z.mod_pos_bound q 256).
  assert (0 <= p / 256 < 256)%Z by (split; [apply Z.div_pos|apply Z.div_lt_upper_bound]; lia).
  assert (0 <= q / 256 < 256)%Z by (split; [apply Z.div_pos|apply Z.div_lt_upper_bound]; lia).
  rewrite !(Z.mod_small (_ / 256)) by lia.
  destruct (Z.eqb_spec p q) as [->|Hne]; [apply Z.eqb_refl|]. apply Z.eqb_neq. lia.
Qed.

Lemma htons_0 p : (0 <= p < 65536)%Z → (htons p =? 0)%Z = (p =? 0)%Z.
Proof. intros. by rewrite <-(htons_inj p 0). Qed.

(** ** Splitting a value at its port *)

(** Every character is a decimal digit. *)
Definition all_digits (s : string) : Prop := find_first_not_of digit_chars s = None.

Lemma all_digits_last s : all_digits s → find_last_not_of digit_chars s = None.
Proof.
  unfold all_digits. induction s as [|a s IH]; simpl; [done|].
  destruct (in_set _ a) eqn:E; [|done]. destruct (find_first_not_of _ s); [done|].
  by rewrite IH.
Qed.

Lemma find_last_colon a d :
  all_digits d → find_last_not_of digit_chars (a +:+ String ":" d) = Some (str_len a).
Proof.
  intros Hd. induction a as [|x a IH].
  - change ("" +:+ String ":" d) with (String ":" d). cbn [find_last_not_of].
    by rewrite (all_digits_last d Hd).
  - change (String x a +:+ String ":" d) with (String x (a +:+ String ":" d)).
    cbn [find_last_not_of]. by rewrite IH.
Qed.

Lemma substr_app_l a b : substr (a +:+ b) 0 (str_len a) = a.
Proof.
  unfold substr. change (str_drop 0 (a +:+ b)) with (a +:+ b).
  induction a as [|x a IH]; [by destruct b|]. by apply (f_equal (String x)) in IH.
Qed.

Lemma str_drop_app a b : str_drop (str_len a) (a +:+ b) = b.
Proof. induction a as [|x a IH]; [by destruct b|done]. Qed.

Lemma substr_app_r a c b n : str_len b ≤ n → substr (a +:+ String c b) (S (str_len a)) n = b.
Proof.
  intros Hn. unfold substr. rewrite <-Nat.add_1_r, <-str_drop_drop, str_drop_app.
  by apply str_take_ge.
Qed.

Lemma str_get_app a c b : str_get (a +:+ String c b) (str_len a) = Some c.
Proof. induction a; done. Qed.

Lemma str_len_app a b : str_len (a +:+ b) = str_len a + str_len b.
Proof. induction a as [|x a IH]; [done|]. by apply (f_equal S) in IH. Qed.

Lemma colon_not_word a d w : index_of ":" w = None → a +:+ String ":" d ≠ w.
Proof. intros Hw <-. apply index_of_app_None in Hw as [_ Hw]. done. Qed.

(** The port of [address:digits]: the low 32 bits of the number decide. *)
Lemma split_port_colon a d :
  all_digits d →
  split_port (a +:+ String ":" d) =
    match stoul d with
    | Ok p => if (65535 <? u32 p)%Z
              then throw (ValidationError "Invalid port" (a +:+ String ":" d))
              else Ok (a, u32 p)
    | Err _ => throw (ValidationError "Invalid port" (a +:+ String ":" d))
    end.
Proof.
  intros Hd. unfold split_port. rewrite decide_False by by apply colon_not_word.
  rewrite find_last_colon by done. rewrite decide_True by apply str_get_app.
  rewrite substr_app_l, substr_app_r by (rewrite str_len_app; simpl; lia).
  by destruct (stoul d).
Qed.


(** ** Parsing only extends the lists *)

Definition allows (l : addr_lists) (addr : sockaddr_storage) : bool :=
  validate_network_access addr l.1 l.2.

(** [l'] is [l] with more rules at the end. *)
Definition extends (l l' : addr_lists) : Prop := ∃ k4 k6, l' = (l.1 ++ k4, l.2 ++ k6).

Lemma extends_refl l : extends l l.
Proof. exists [], []. rewrite !app_nil_r. by destruct l. Qed.

Lemma extends_trans l1 l2 l3 : extends l1 l2 → extends l2 l3 → extends l1 l3.
Proof. intros (a & b & ->) (c & d & ->). exists (a ++ c), (b ++ d). simpl. by rewrite !app_assoc. Qed.

Lemma extends_snoc4 l a : extends l (l.1 ++ [a], l.2).
Proof. exists [a], []. by rewrite app_nil_r. Qed.

Lemma extends_snoc6 l a : extends l (l.1, l.2 ++ [a]).
Proof. exists [], [a]. by rewrite app_nil_r. Qed.

#[export] Hint Resolve extends_refl extends_snoc4 extends_snoc6 : kvm.

Lemma allows_extends l l' addr : extends l l' → allows l addr = true → allows l' addr = true.
Proof.
  intros (k4 & k6 & ->). unfold allows, validate_network_access. simpl.
  rewrite !existsb_app. repeat case_match; try done; intros ->; done.
Qed.

(** The rule for port 0 allows every Internet address. *)
Lemma allows_any l addr :
  ss_family addr = AF_INET ∨ ss_family addr = AF_INET6 ∨ ss_family addr = AF_UNSPEC →
  allows (add_any 0 l) addr = true.
Proof.
  unfold allows, validate_network_access. cbn -[Z.eqb existsb]. intros Hf.
  destruct Hf as [-> |[-> | ->]]; simpl; unfold ipv4_allows, ipv6_allows; simpl; try done.
  by rewrite orb_true_r, orb_true_r.
Qed.

(** An address that is allowed at all belongs to an Internet family. *)
Lemma allows_family l addr :
  allows l addr = true →
  ss_family addr = AF_INET ∨ ss_family addr = AF_INET6 ∨ ss_family addr = AF_UNSPEC.
Proof.
  unfold allows, validate_network_access. repeat case_match; breflect; auto; try done.
  apply orb_true_iff in H0 as [?|?]; breflect; auto.
Qed.

(** An entry without address and port in the second list allows every IPv6
    destination. *)
Lemma allows_ipv6_zero l addr :
  sockaddr_zero ∈ l.2 → ss_family addr = AF_INET6 ∨ ss_family addr = AF_UNSPEC →
  allows l addr = true.
Proof.
  intros Hin Hf. unfold allows, validate_network_access.
  assert (existsb (ipv6_allows addr) l.2 = true) as ->.
  { apply existsb_exists. exists sockaddr_zero. split; [by apply list_elem_of_In|done]. }
  by destruct Hf as [-> | ->].
Qed.

Section policy.
Context (pton4 : string → option Z) (pton6 : string → option (list Z)).
Context (gai : string → option (list addrinfo)).

Abbreviation pvalue := (parse_value pton4 pton6 gai).
Abbreviation paddrs := (parse_addresses pton4 pton6 gai).

Lemma add_resolved_extends value port ais l l' :
  foldM (add_resolved value port) ais l = Ok l' → extends l l'.
Proof.
  revert l. induction ais as [|ai ais IH]; intros l; simpl.
  { intros [= ->]. apply extends_refl. }
  destruct ai; simpl; try done; intros H%IH; (eapply extends_trans; [|exact H]); auto with kvm.
Qed.

(** A value adds rules at the end, or replaces all by the rule that allows
    everything and ends the parsing. *)
Lemma parse_value_extends v l l' b :
  pvalue v l = Ok (l', b) →
  (b = false ∧ extends l l') ∨ (b = true ∧ l' = add_any 0 l).
Proof.
  unfold parse_value. case_match; [intros [= <- <-]; left; auto with kvm|].
  destruct (split_port v) as [[address port]|]; simpl; [|done].
  repeat case_match; try done; intros; simplify_eq; try (left; by auto with kvm).
  - destruct (port =? 0)%Z eqn:E; breflect; subst; [by right|left; split; [done|]].
    unfold add_any. rewrite (proj2 (Z.eqb_neq port 0)) by done.
    by exists [set_port (htons port) (set_family AF_INET6 sockaddr_zero)], [sockaddr_zero].
  - destruct (foldM _ _ _) as [l''|] eqn:Ef; simplify_eq/=. left.
    eauto using add_resolved_extends.
Qed.

(** What holds of every list the rule for everything produces, and is kept by
    adding rules, is kept by parsing. *)
Lemma parse_addresses_ind (P : addr_lists → Prop) vs l l' b :
  (∀ l, P (add_any 0 l)) → (∀ l l', extends l l' → P l → P l') →
  paddrs vs l = Ok (l', b) → P l ∨ b = true → P l'.
Proof.
  intros Hany Hext. revert l. induction vs as [|v vs IH]; intros l; simpl.
  { intros [= -> <-]. by intros [?|?]. }
  destruct (pvalue v l) as [[l1 b1]|] eqn:Hv; simpl; [|done].
  destruct (parse_value_extends _ _ _ _ Hv) as [[-> He]|[-> ->]].
  - intros Hp [Hl|Hb]; (eapply IH; [done|]); [left; by eapply Hext|by right].
  - intros [= <- <-] _. apply Hany.
Qed.

Lemma parse_addresses_monotone vs l l' b addr :
  paddrs vs l = Ok (l', b) → allows l addr = true → allows l' addr = true.
Proof.
  intros Hp Ha. pose proof (allows_family _ _ Ha) as Hf.
  eapply (parse_addresses_ind (λ l, allows l addr = true)); [| |exact Hp|by left].
  - intros l0. by apply allows_any.
  - intros l1 l2. apply allows_extends.
Qed.

Lemma add_any_zero6 port l : sockaddr_zero ∈ (add_any port l).2.
Proof. unfold add_any. case_match; simpl; set_solver. Qed.

Lemma parse_addresses_zero6 vs l l' b :
  paddrs vs l = Ok (l', b) → sockaddr_zero ∈ l.2 ∨ b = true → sockaddr_zero ∈ l'.2.
Proof.
  apply (parse_addresses_ind (λ l, sockaddr_zero ∈ l.2)).
  - intros. apply add_any_zero6.
  - intros l1 l2 (k4 & k6 & ->). simpl. set_solver.
Qed.

(** A value that is a port only. *)
Lemma parse_port_only d l l' b :
  all_digits d → pvalue (String ":" d) l = Ok (l', b) → sockaddr_zero ∈ l'.2.
Proof.
  intros Hd. unfold parse_value. simpl (bool_decide _ || _).
  change (String ":" d) with ("" +:+ String ":" d). rewrite split_port_colon by done.
  destruct (stoul d) as [p|]; [|done]. case_match; [done|].
  cbn [mbind result_bind]. rewrite decide_True by done.
  intros [= <- <-]. apply add_any_zero6.
Qed.
End policy.

(** ** IPv4 rules written as [address:port] *)

Record ipv4_rule := MkRule {
  rule_text : string;     (**r the dotted address *)
  rule_digits : string;   (**r the digits of the port *)
  rule_addr : Z;          (**r the address as [inet_pton] stores it *)
  rule_port : Z           (**r the port *)
}.

Definition rule_value (r : ipv4_rule) : string := rule_text r +:+ String ":" (rule_digits r).

(** The rule is well formed: what [inet_pton] and [std::stoul] make of it. *)
Definition rule_ok (pton4 : string → option Z) (r : ipv4_rule) : Prop :=
  rule_text r ≠ "" ∧ str_front (rule_text r) ≠ Some "["%char ∧ all_digits (rule_digits r) ∧
  pton4 (rule_text r) = Some (rule_addr r) ∧
  stoul (rule_digits r) = Ok (rule_port r) ∧ (0 <= rule_port r < 65536)%Z.

(** The meaning of a rule: [0.0.0.0] is any address and [0] any port. *)
Definition rule_allows (r : ipv4_rule) (w p : Z) : bool :=
  ((w =? rule_addr r) || (rule_addr r =? 0))%Z && ((p =? rule_port r) || (rule_port r =? 0))%Z.

(** The socket addresses a rule is for; the port is in network order there. *)
Definition rule_names (r : ipv4_rule) (addr : sockaddr_storage) : Prop :=
  ss_family addr = AF_INET ∧
  (rule_addr r = ss_word4 addr ∨ rule_addr r = 0%Z) ∧
  (htons (rule_port r) = ss_port addr ∨ rule_port r = 0%Z).

(** The address of a [connect] to port [p] of host [w]. *)
Definition sockaddr_in (w p : Z) : sockaddr_storage :=
  set_port (htons p) (set_addr4 w (set_family AF_INET sockaddr_zero)).
Definition sockaddr_in6 (b : list Z) (p : Z) : sockaddr_storage :=
  set_port (htons p) (set_addr6 b (set_family AF_INET6 sockaddr_zero)).

Section ipv4.
Context (pton4 : string → option Z) (pton6 : string → option (list Z)).
Context (gai : string → option (list addrinfo)).

Lemma parse_ipv4_rule r l :
  rule_ok pton4 r →
  parse_value pton4 pton6 gai (rule_value r) l =
    Ok ((l.1 ++ [sockaddr_in (rule_addr r) (rule_port r)], l.2), false).
Proof.
  intros (Hne & Hf & Hd & Ha & Hp & Hr). unfold parse_value, rule_value.
  rewrite !bool_decide_false by by apply colon_not_word. simpl (false || false). cbn iota.
  rewrite split_port_colon, Hp by done.
  assert (u32 (rule_port r) = rule_port r) as -> by (apply wrap_id; lia).
  rewrite (proj2 (Z.ltb_ge 65535 (rule_port r))) by lia.
  cbn [mbind result_bind]. rewrite !decide_False by done. by rewrite Ha.
Qed.

Lemma parse_ipv4_rules rules l :
  Forall (rule_ok pton4) rules →
  parse_addresses pton4 pton6 gai (rule_value <$> rules) l =
    Ok ((l.1 ++ ((λ r, sockaddr_in (rule_addr r) (rule_port r)) <$> rules), l.2), false).
Proof.
  intros Hr. revert l. induction Hr as [|r rules Hr Hrs IH]; intros l.
  { simpl. rewrite app_nil_r. by destruct l. }
  cbn [fmap list_fmap parse_addresses]. rewrite parse_ipv4_rule by done.
  cbn [mbind result_bind]. change (list_fmap _ _ rule_value rules) with (rule_value <$> rules).
  rewrite IH. cbn [fst snd]. by rewrite <-app_assoc.
Qed.

Lemma ipv4_allows_rule r w p :
  rule_ok pton4 r → (0 <= p < 65536)%Z →
  ipv4_allows (sockaddr_in w p) (sockaddr_in (rule_addr r) (rule_port r)) = rule_allows r w p.
Proof.
  intros (_ & _ & _ & _ & _ & Hr) Hp. unfold ipv4_allows, rule_allows. simpl.
  by rewrite htons_inj, htons_0.
Qed.

Lemma existsb_rules rules w p :
  Forall (rule_ok pton4) rules → (0 <= p < 65536)%Z →
  existsb (ipv4_allows (sockaddr_in w p))
    ((λ r, sockaddr_in (rule_addr r) (rule_port r)) <$> rules) =
  existsb (λ r, rule_allows r w p) rules.
Proof.
  intros Hr Hp. induction Hr as [|r rules Hr Hrs IH]; [done|].
  cbn [fmap list_fmap existsb]. rewrite ipv4_allows_rule by done. f_equal. exact IH.
Qed.

(** The network options as rules of this kind: each direction has the rules of
    [--allow-net] and its own. *)
Lemma network_config_rules net connect listen :
  Forall (rule_ok pton4) net → Forall (rule_ok pton4) connect → Forall (rule_ok pton4) listen →
  network_config pton4 pton6 gai (rule_value <$> net) (rule_value <$> connect) (rule_value <$> listen) =
    Ok (MkNet ((λ r, sockaddr_in (rule_addr r) (rule_port r)) <$> net ++ connect, [])
              ((λ r, sockaddr_in (rule_addr r) (rule_port r)) <$> net ++ listen, [])).
Proof.
  intros Hn Hc Hl. unfold network_config. rewrite !fmap_app.
  rewrite (parse_ipv4_rules net) by done. cbn [mbind result_bind].
  rewrite (parse_ipv4_rules connect) by done. cbn [mbind result_bind].
  by rewrite (parse_ipv4_rules listen) by done.
Qed.

(** The addresses a list of rules names. *)
Lemma listed_rules rules addr :
  Forall (rule_ok pton4) rules →
  listed ((λ r, sockaddr_in (rule_addr r) (rule_port r)) <$> rules) [] addr ↔
  ∃ r, r ∈ rules ∧ rule_names r addr.
Proof.
  intros Hok. rewrite Forall_forall in Hok.
  assert (∀ r, r ∈ rules → ss_port (sockaddr_in (rule_addr r) (rule_port r)) = 0%Z ↔ rule_port r = 0%Z) as Hz.
  { intros r Hr. destruct (Hok r Hr) as (_ & _ & _ & _ & _ & Hp). cbn.
    pose proof (htons_0 _ Hp) as H. rewrite <-!Z.eqb_eq, H. done. }
  unfold rule_names. split.
  - intros [e (r & -> & Hr)%list_elem_of_fmap Hf Ha Hp|e He]; [|by apply elem_of_nil in He].
    exists r. rewrite (Hz r Hr) in Hp. by split_and!.
  - intros (r & Hr & Hf & Ha & Hp). eapply listed_ipv4; [by apply list_elem_of_fmap_2|done|done|].
    by rewrite (Hz r Hr).
Qed.
End ipv4.

(** ** Theorems *)

(** ** The types of the entries *)

(** The bytes the program reads are within their fields. *)
Definition sockaddr_ok (a : sockaddr_storage) : Prop :=
  (ss_family a = AF_UNSPEC ∨ ss_family a = AF_INET ∨ ss_family a = AF_INET6) ∧
  (0 ≤ ss_port a < 2 ^ 16)%Z ∧ (0 ≤ ss_word4 a < 2 ^ 32)%Z ∧
  length (ss_addr16 a) = 16 ∧ Forall (λ b, 0 ≤ b < 256)%Z (ss_addr16 a).

Definition addr_lists_ok (l : addr_lists) : Prop :=
  Forall sockaddr_ok l.1 ∧ Forall sockaddr_ok l.2.

(** What the C library's conversions return. *)
Definition ipv4_ok (w : Z) : Prop := (0 ≤ w < 2 ^ 32)%Z.
Definition ipv6_ok (b : list Z) : Prop := length b = 16 ∧ Forall (λ b, 0 ≤ b < 256)%Z b.
Definition addrinfo_ok (ai : addrinfo) : Prop :=
  match ai with Ai4 w => ipv4_ok w | Ai6 b => ipv6_ok b | AiOther => True end.

Lemma htons_bound p : (0 ≤ htons p < 2 ^ 16)%Z.
Proof.
  unfold htons. pose proof (Z.mod_pos_bound p 256). pose proof (Z.mod_pos_bound (p / 256) 256). lia.
Qed.

Lemma in6addr_any_ok : ipv6_ok in6addr_any.
Proof. split; [done|]. apply Forall_replicate. lia. Qed.

Lemma sockaddr4_ok w p : ipv4_ok w → sockaddr_ok (set_port (htons p) (set_addr4 w (set_family AF_INET sockaddr_zero))).
Proof.
  intros Hw. pose proof (htons_bound p). split_and!; simpl; try apply in6addr_any_ok; auto; apply Hw || lia.
Qed.

Lemma sockaddr6_ok b p : ipv6_ok b → sockaddr_ok (set_port (htons p) (set_addr6 b (set_family AF_INET6 sockaddr_zero))).
Proof.
  intros [Hl Hb]. pose proof (htons_bound p). split_and!; simpl; auto; lia.
Qed.

Lemma sockaddr_any_ok p : sockaddr_ok (set_port (htons p) (set_family AF_INET6 sockaddr_zero)).
Proof. exact (sockaddr6_ok in6addr_any p in6addr_any_ok). Qed.

Lemma sockaddr_zero_ok : sockaddr_ok sockaddr_zero.
Proof. split_and!; simpl; try apply in6addr_any_ok; auto; lia. Qed.

#[export] Hint Resolve sockaddr4_ok sockaddr6_ok sockaddr_any_ok sockaddr_zero_ok : kvm.

Section types.
Context (pton4 : string → option Z) (pton6 : string → option (list Z)).
Context (gai : string → option (list addrinfo)).
Hypothesis pton4_ok : ∀ s w, pton4 s = Some w → ipv4_ok w.
Hypothesis pton6_ok : ∀ s b, pton6 s = Some b → ipv6_ok b.
Hypothesis gai_ok : ∀ s l, gai s = Some l → Forall addrinfo_ok l.

Lemma addr_lists_snoc4 l a : addr_lists_ok l → sockaddr_ok a → addr_lists_ok (l.1 ++ [a], l.2).
Proof. intros [H4 H6] Ha. split; [|done]. apply Forall_app_2; [done|by constructor]. Qed.

Lemma addr_lists_snoc6 l a : addr_lists_ok l → sockaddr_ok a → addr_lists_ok (l.1, l.2 ++ [a]).
Proof. intros [H4 H6] Ha. split; [done|]. apply Forall_app_2; [done|by constructor]. Qed.

Lemma add_any_ok port l : addr_lists_ok l → addr_lists_ok (add_any port l).
Proof.
  intros Hl. unfold add_any. cbv zeta. set (k := if (port =? 0)%Z then _ else _).
  assert (addr_lists_ok k) as [H4 H6] by (unfold k; case_match; [by split|done]).
  split; cbn [fst snd]; (apply Forall_app_2; [done|]); constructor; auto with kvm.
Qed.

Lemma add_resolved_ok value port ais l l' :
  Forall addrinfo_ok ais → addr_lists_ok l → foldM (add_resolved value port) ais l = Ok l' →
  addr_lists_ok l'.
Proof.
  intros Ha. revert l. induction Ha as [|ai ais Hai _ IH]; intros l Hl; simpl; [by intros [= <-]|].
  destruct ai; simpl; try done; apply IH; eauto using addr_lists_snoc4, addr_lists_snoc6 with kvm.
Qed.

Lemma parse_value_ok v l l' b :
  addr_lists_ok l → parse_value pton4 pton6 gai v l = Ok (l', b) → addr_lists_ok l'.
Proof using pton4_ok pton6_ok gai_ok.
  intros Hl. unfold parse_value. case_match; [by intros [= <- _]|].
  destruct (split_port v) as [[address port]|]; simpl; [|done].
  repeat case_match; try done; intros; simplify_eq/=; auto using add_any_ok.
  - apply addr_lists_snoc6; eauto with kvm.
  - apply addr_lists_snoc4; eauto with kvm.
  - destruct (foldM _ _ _) as [l''|] eqn:Ef; simplify_eq/=. by eapply add_resolved_ok; [eapply gai_ok| |].
Qed.

Lemma parse_addresses_ok vs l l' b :
  addr_lists_ok l → parse_addresses pton4 pton6 gai vs l = Ok (l', b) → addr_lists_ok l'.
Proof using pton4_ok pton6_ok gai_ok.
  revert l. induction vs as [|v vs IH]; intros l Hl; simpl; [by intros [= <- _]|].
  destruct (parse_value pton4 pton6 gai v l) as [[l1 b1]|] eqn:Hv; simpl; [|done].
  apply parse_value_ok in Hv; [|done]. destruct b1; [by intros [= <- _]|by apply IH].
Qed.

Lemma network_config_ok net connect listen nets :
  network_config pton4 pton6 gai net connect listen = Ok nets →
  addr_lists_ok (allowed_connect nets) ∧ addr_lists_ok (allowed_listen nets).
Proof using pton4_ok pton6_ok gai_ok.
  unfold network_config.
  destruct (parse_addresses pton4 pton6 gai net ([], [])) as [[l b]|] eqn:En; simpl; [|done].
  apply parse_addresses_ok in En; [|by repeat constructor].
  destruct b; [by intros [= <-]|].
  destruct (parse_addresses pton4 pton6 gai connect l) as [[lc bc]|] eqn:Ec; simpl; [|done].
  destruct (parse_addresses pton4 pton6 gai listen l) as [[ll bl]|] eqn:El; simpl; [|done].
  intros [= <-]. split; simpl; eauto using parse_addresses_ok.
Qed.
End types.

(** C18: [parse_addresses] followed by [validate_network_access] enforces exactly
    the IPv4 rules on the command line: with any list of well-formed
    [address:port] values, a destination is accepted exactly when some value
    names its address (or [0.0.0.0]) and its port (or [0]); no IPv6 and no
    unknown-family address is accepted. *)
Theorem ipv4_rules_enforced pton4 pton6 gai rules :
  Forall (rule_ok pton4) rules →
  ∃ l, parse_addresses pton4 pton6 gai (rule_value <$> rules) ([], []) = Ok (l, false) ∧
    (∀ w p, (0 <= p < 65536)%Z →
       validate_network_access (sockaddr_in w p) l.1 l.2 =
       existsb (λ r, rule_allows r w p) rules) ∧
    (∀ addr, ss_family addr ≠ AF_INET → validate_network_access addr l.1 l.2 = false).
Proof.
  intros Hr. eexists. split_and!; [by apply parse_ipv4_rules| |]; cbn [fst snd].
  - intros w p Hp. apply (existsb_rules pton4); done.
  - intros addr Hf. unfold validate_network_access.
    rewrite (proj2 (Z.eqb_neq _ _) Hf). by case_match.
Qed.

(** A toy [inet_pton]: it knows one address. *)
Definition demo_pton4 (s : string) : option Z :=
  if decide (s = "10.0.0.1") then Some 0x0100000A%Z else None.
Definition demo_pton6 (s : string) : option (list Z) :=
  if decide (s = "::1") then Some (replicate 15 0%Z ++ [1%Z]) else None.
Definition demo_gai (s : string) : option (list addrinfo) := None.
Definition demo_rule : ipv4_rule := MkRule "10.0.0.1" "443" 0x0100000A 443.

Lemma ipv4_rules_witness :
  ∃ l, parse_addresses demo_pton4 demo_pton6 demo_gai ["10.0.0.1:443"] ([], []) = Ok (l, false) ∧
    validate_network_access (sockaddr_in 0x0100000A 443) l.1 l.2 = true ∧
    validate_network_access (sockaddr_in 0x0100000A 80) l.1 l.2 = false.
Proof.
  destruct (ipv4_rules_enforced demo_pton4 demo_pton6 demo_gai [demo_rule]) as (l & Hp & H4 & _).
  { apply Forall_singleton. unfold rule_ok. simpl. split_and!; try done; lia. }
  exists l. split_and!; [exact Hp| |]; rewrite H4 by lia; vm_compute; reflexivity.
Defined.

(** Network rules only ever add permissions: what [--allow-net] allows is
    allowed for [connect] and for [bind]/[listen], whatever [--allow-connect]
    and [--allow-listen] say besides. *)
Lemma allow_net_applies_to_both pton4 pton6 gai net connect listen l b nets addr :
  parse_addresses pton4 pton6 gai net ([], []) = Ok (l, b) →
  network_config pton4 pton6 gai net connect listen = Ok nets →
  allows l addr = true →
  allows (allowed_connect nets) addr = true ∧ allows (allowed_listen nets) addr = true.
Proof.
  intros Hp. unfold network_config. rewrite Hp. cbn [mbind result_bind].
  destruct b; [by intros [= <-]|].
  destruct (parse_addresses _ _ _ connect l) as [[c bc]|] eqn:Hc; [|done]. cbn [mbind result_bind].
  destruct (parse_addresses _ _ _ listen l) as [[s bs]|] eqn:Hs; [|done].
  intros [= <-] Ha. split; eapply parse_addresses_monotone; eauto.
Qed.

Lemma allow_net_witness :
  ∃ nets, network_config demo_pton4 demo_pton6 demo_gai ["10.0.0.1:443"] ["false"] ["10.0.0.1:80"]
            = Ok nets ∧
    allows (allowed_listen nets) (sockaddr_in 0x0100000A 443) = true.
Proof.
  eexists. split; [vm_compute; reflexivity|].
  eapply (allow_net_applies_to_both demo_pton4 demo_pton6 demo_gai ["10.0.0.1:443"] ["false"]
    ["10.0.0.1:80"]); vm_compute; reflexivity.
Defined.

(** C35: a port-only value such as [:443] opens IPv6 completely: once
    [parse_addresses] has accepted a list of values one of which is a colon
    and digits, [validate_network_access] accepts every IPv6 address on every
    port, because the entry meant for the IPv6 list is written into the IPv4
    list and the IPv6 list is left with an all-zero entry. *)
Theorem port_only_rule_opens_ipv6 pton4 pton6 gai vs d l b addr :
  String ":" d ∈ vs → all_digits d →
  parse_addresses pton4 pton6 gai vs ([], []) = Ok (l, b) →
  ss_family addr = AF_INET6 ∨ ss_family addr = AF_UNSPEC →
  validate_network_access addr l.1 l.2 = true.
Proof.
  intros Hin Hd Hp Hf. apply (allows_ipv6_zero l addr); [|done]. clear Hf.
  generalize dependent (([], []) : addr_lists).
  induction vs as [|v vs IH]; intros l0 Hp; [by apply elem_of_nil in Hin|].
  cbn [parse_addresses] in Hp. destruct (parse_value _ _ _ v l0) as [[l1 b1]|] eqn:Hv; [|done].
  cbn [mbind result_bind] in Hp. apply elem_of_cons in Hin as [<-|Hin].
  - pose proof (parse_port_only _ _ _ _ _ _ _ Hd Hv) as Hz. destruct b1; [by simplify_eq|].
    eapply parse_addresses_zero6; eauto.
  - destruct b1; [|by eapply IH]. simplify_eq.
    destruct (parse_value_extends _ _ _ _ _ _ _ Hv) as [[??]|[_ ->]]; [done|]. apply add_any_zero6.
Qed.

Lemma port_only_witness :
  ∃ l, parse_addresses demo_pton4 demo_pton6 demo_gai [":443"] ([], []) = Ok (l, false) ∧
    validate_network_access (sockaddr_in6 (replicate 16 7%Z) 25) l.1 l.2 = true ∧
    validate_network_access (sockaddr_in 0x0100000A 25) l.1 l.2 = false.
Proof.
  eexists. split; [vm_compute; reflexivity|]. split; [|vm_compute; reflexivity].
  eapply (port_only_rule_opens_ipv6 demo_pton4 demo_pton6 demo_gai [":443"] "443" _ false).
  - left.
  - vm_compute. reflexivity.
  - vm_compute. reflexivity.
  - left. reflexivity.
Defined.

(** A bracketed IPv6 address with a port is never accepted: for
    [[address]:digits] the text handed to [inet_pton] keeps the closing
    bracket, since its length is taken from the whole value, and [inet_pton]
    rejects any text with a bracket. *)
Lemma bracketed_ipv6_with_port_rejected pton4 pton6 gai address d l :
  (∀ s, is_Some (index_of "]" s) → pton6 s = None) →
  all_digits d → d ≠ "" →
  ∃ what, parse_addresses pton4 pton6 gai ["[" +:+ address +:+ "]:" +:+ d] l =
    Err (ValidationError what ("[" +:+ address +:+ "]:" +:+ d)).
Proof.
  intros Hpton Hd Hne. set (host := String "[" (address +:+ "]")).
  assert ("[" +:+ address +:+ "]:" +:+ d = host +:+ String ":" d) as ->.
  { change ("[" +:+ address +:+ "]:" +:+ d) with (String "[" (address +:+ "]" +:+ String ":" d)).
    unfold host. by rewrite <-str_app_assoc. }
  cbn [parse_addresses]. unfold parse_value.
  rewrite !bool_decide_false by by apply colon_not_word. cbn [orb].
  rewrite split_port_colon by done. destruct (stoul d) as [p|]; [|by eexists].
  case_match; [by eexists|]. cbn [mbind result_bind]. rewrite decide_False by done.
  rewrite decide_True by done. rewrite decide_True by apply (str_back_snoc (String "[" address)).
  rewrite Hpton; [by eexists|].
  unfold substr. change (str_drop 1 host) with (address +:+ "]"). rewrite str_take_ge.
  - destruct (index_of "]" (address +:+ "]")) eqn:E; [done|].
    apply index_of_app_None in E as [_ E]. done.
  - rewrite (str_len_app host). unfold host. destruct d; [done|].
    cbn [String.length]. rewrite !str_len_app. cbn [String.length]. lia.
Qed.

Lemma bracketed_ipv6_witness :
  ∃ what, parse_addresses demo_pton4 demo_pton6 demo_gai ["[::1]:443"] ([], []) =
    Err (ValidationError what "[::1]:443").
Proof.
  apply (bracketed_ipv6_with_port_rejected demo_pton4 demo_pton6 demo_gai "::1" "443" ([], [])).
  - intros s Hs. unfold demo_pton6. case_decide; [|reflexivity]. subst s.
    exfalso. vm_compute in Hs. by destruct Hs.
  - vm_compute. reflexivity.
  - discriminate.
Defined.

(** C36: what decides about the port of [address:digits] is the number modulo
    2^32: the value is accepted exactly when [std::stoul] succeeds and the low
    32 bits of its result are at most 65535, and the rule then carries those
    bits as its port, so [4294967376] is taken for port 80. *)
Theorem port_range_check_exact a d address port :
  all_digits d →
  split_port (a +:+ String ":" d) = Ok (address, port) ↔
  address = a ∧ ∃ n, stoul d = Ok n ∧ port = (n mod 2 ^ 32)%Z ∧ (port <= 65535)%Z.
Proof.
  intros Hd. rewrite split_port_colon by done. destruct (stoul d) as [n|]; [|naive_solver].
  destruct (65535 <? u32 n)%Z eqn:E; breflect.
  - split; [done|]. intros (_ & m & [= <-] & -> & Hle). unfold wrap in E. lia.
  - split; [intros [= <- <-]; eauto 10|]. by intros (-> & m & [= <-] & -> & _).
Qed.

Lemma port_range_witness : split_port "10.0.0.1:4294967376" = Ok ("10.0.0.1", 80%Z).
Proof.
  apply (port_range_check_exact "10.0.0.1" "4294967376" "10.0.0.1" 80).
  - vm_compute. reflexivity.
  - split; [reflexivity|]. exists 4294967376%Z. split_and!; vm_compute; done.
Defined.
