(* ===== verification/Remap.v ===== *)
(** * Memory remappings: [add_remapping] of [config.cpp]

    The value of [--remapping] is [virt:size(mb)[:phys=0][:r?w?x?=rw]].  The
    parser appends one [tinykvm::VirtualRemapping]; the model returns it. *)

From S2P Require Import Prelude CppString.

Local Open Scope string_scope.
Local Open Scope list_scope.
Local Open Scope nat_scope.

(** The fields of [tinykvm::VirtualRemapping] the parser sets; [phys] stays 0
    and the flags false when the value does not say otherwise. *)
Record VirtualRemapping := MkRemapping {
  phys : Z;
  virt : Z;
  size : Z;
  rm_writable : bool;
  rm_executable : bool
}.

#[export] Instance VirtualRemapping_eq_dec : EqDecision VirtualRemapping.
Proof. solve_decision. Defined.

Definition megabyte : Z := 2 ^ 20.

(** [std::stoull(item, nullptr, 0)] with its two exceptions turned into
    validation errors that name the field. *)
Definition read_field (field remap item : string) : result Z :=
  match stoull item 0 with
  | Ok v => Ok v
  | Err (OutOfRange _) => throw (ValidationError ("out of range (" +:+ field +:+ ")") remap)
  | Err _ => throw (ValidationError ("invalid argument (" +:+ field +:+ ")") remap)
  end.

(** [item.length() > i && item[i] == c], on the rest of the item: the flag and
    what is left. *)
Definition take_flag (c : ascii) (item : string) : bool * string :=
  match item with
  | String a rest => if decide (a = c) then (true, rest) else (false, item)
  | "" => (false, item)
  end.

(** The permission item: [r], [w] and [x] in this order, each at most once. *)
Definition parse_rwx (item : string) : option (bool * bool * bool) :=
  let '(r, rest) := take_flag "r" item in
  let '(w, rest) := take_flag "w" rest in
  let '(x, rest) := take_flag "x" rest in
  if decide (rest = "") then Some (r, w, x) else None.

(** From the permission item on: [rest] is what follows it. *)
Definition remap_perms (remap : string) (m : VirtualRemapping) (item : string)
    (rest : list string) : result VirtualRemapping :=
  match parse_rwx item with
  | None => throw (ValidationError "invalid argument (rwx)" remap)
  | Some (_, w, x) =>
      match rest with
      | [] => Ok (MkRemapping (phys m) (virt m) (size m) w x)
      | _ :: _ => throw (ValidationError "too many parts" remap)
      end
  end.

Definition set_writable (m : VirtualRemapping) : VirtualRemapping :=
  MkRemapping (phys m) (virt m) (size m) true (rm_executable m).

Definition add_remapping (remap : string) : result VirtualRemapping :=
  match split remap ":" with
  | [] => throw (ValidationError "too few parts" remap)
  | item :: parts =>
      v ← read_field "virt" remap item;
      match parts with
      | [] => throw (ValidationError "too few parts" remap)
      | item :: parts =>
          mb ← read_field "size" remap item;
          let m := MkRemapping 0 v (u64 (mb * megabyte)) false false in
          match parts with
          | [] => Ok (set_writable m)
          | item :: parts =>
              if decide (find_first_not_of "0123456789" item = Some 0)
              then remap_perms remap m item parts
              else
                p ← read_field "phys" remap item;
                let m := MkRemapping p v (size m) false false in
                match parts with
                | [] => Ok (set_writable m)
                | item :: parts => remap_perms remap m item parts
                end
          end
      end
  end.

(** ** The documented grammar *)

(** Text of a permission item. *)
Definition rwx_text (r w x : bool) : string :=
  (if r then "r" else "") +:+ (if w then "w" else "") +:+ (if x then "x" else "").

Lemma parse_rwx_text r w x : parse_rwx (rwx_text r w x) = Some (r, w, x).
Proof. by destruct r, w, x. Qed.

(** The permission items accepted are exactly these texts. *)
Lemma parse_rwx_inv item r w x : parse_rwx item = Some (r, w, x) → item = rwx_text r w x.
Proof.
  unfold parse_rwx, take_flag. intros H.
  repeat case_match; simplify_eq/=; done.
Qed.

(** A text without colons that [std::stoull] reads as [v]. *)
Definition number_text (s : string) (v : Z) : Prop := index_of ":" s = None ∧ stoull s 0 = Ok v.

Definition starts_with_digit (s : string) : Prop :=
  ∃ a t, s = String a t ∧ in_set "0123456789" a = true.

Lemma read_field_ok field remap s v : stoull s 0 = Ok v → read_field field remap s = Ok v.
Proof. unfold read_field. by intros ->. Qed.

Lemma digit_first_not_of s : starts_with_digit s → find_first_not_of "0123456789" s ≠ Some 0.
Proof.
  intros (a & t & -> & Ha). cbn [find_first_not_of]. rewrite Ha.
  by destruct (find_first_not_of _ t).
Qed.

Lemma rwx_first_not_of r w x :
  rwx_text r w x ≠ "" → find_first_not_of "0123456789" (rwx_text r w x) = Some 0.
Proof. by destruct r, w, x. Qed.

Lemma rwx_no_colon r w x : index_of ":" (rwx_text r w x) = None.
Proof. by destruct r, w, x. Qed.

Lemma split_fields l :
  l ≠ [] → Forall (λ x, index_of ":" x = None) l → split (join_with ":" l) ":" = l.
Proof. rewrite split_is_split_on. apply split_join. Qed.

(** C40: [add_remapping] accepts the four documented forms and reads each as the
    help text says: the physical address defaults to 0 and the permissions to
    [rw]; a permission item grants exactly the letters it has; the size is the
    number of megabytes times 2^20 in 64 bits. *)
Theorem remapping_grammar vt v st mb pt p r w x :
  number_text vt v → number_text st mb → number_text pt p → starts_with_digit pt →
  add_remapping (join_with ":" [vt; st]) = Ok (MkRemapping 0 v (u64 (mb * megabyte)) true false) ∧
  add_remapping (join_with ":" [vt; st; pt]) =
    Ok (MkRemapping p v (u64 (mb * megabyte)) true false) ∧
  add_remapping (join_with ":" [vt; st; pt; rwx_text r w x]) =
    Ok (MkRemapping p v (u64 (mb * megabyte)) w x) ∧
  (rwx_text r w x ≠ "" →
   add_remapping (join_with ":" [vt; st; rwx_text r w x]) =
     Ok (MkRemapping 0 v (u64 (mb * megabyte)) w x)).
Proof.
  intros [Hv1 Hv2] [Hs1 Hs2] [Hp1 Hp2] Hd.
  pose proof (digit_first_not_of _ Hd) as Hf. pose proof (rwx_no_colon r w x) as Hc.
  unfold add_remapping, remap_perms.
  split_and!; [..|intros Hne]; rewrite split_fields by (done || by repeat constructor);
    rewrite !(read_field_ok _ _ _ _ Hv2); cbn [mbind result_bind];
    rewrite !(read_field_ok _ _ _ _ Hs2); cbn [mbind result_bind]; [done|..].
  - rewrite decide_False by done. by rewrite (read_field_ok _ _ _ _ Hp2).
  - rewrite decide_False by done. rewrite (read_field_ok _ _ _ _ Hp2); cbn [mbind result_bind].
    by rewrite parse_rwx_text.
  - rewrite decide_True by by apply rwx_first_not_of. by rewrite parse_rwx_text.
Qed.

Lemma remapping_grammar_witness :
  add_remapping "0x10000000:64:4096:rx" =
  Ok (MkRemapping 4096 0x10000000 (64 * 1048576) false true).
Proof.
  refine (proj1 (proj2 (proj2 (remapping_grammar "0x10000000" 0x10000000 "64" 64 "4096" 4096
    true false true _ _ _ _)))).
  - split; vm_compute; reflexivity.
  - split; vm_compute; reflexivity.
  - split; vm_compute; reflexivity.
  - exists "4"%char, "096". split; vm_compute; reflexivity.
Defined.

(** The permission item changes the flags only. *)
Lemma remap_perms_fields remap m item rest m' :
  remap_perms remap m item rest = Ok m' → phys m' = phys m ∧ virt m' = virt m ∧ size m' = size m.
Proof. unfold remap_perms. repeat case_match; try done. by intros [= <-]. Qed.

(** The ranges of a remapping that was accepted. *)
Lemma add_remapping_ranges remap m :
  add_remapping remap = Ok m →
  (0 <= virt m < 2 ^ 64)%Z ∧ (0 <= phys m < 2 ^ 64)%Z ∧
  ∃ mb, (0 <= mb < 2 ^ 64)%Z ∧ size m = u64 (mb * megabyte) ∧
        (size m = (mb * megabyte)%Z ↔ (mb < 2 ^ 44)%Z).
Proof.
  assert (∀ f s v, read_field f remap s = Ok v → (0 <= v < 2 ^ 64)%Z) as Hb.
  { intros f s v. unfold read_field. destruct (stoull s 0) as [v'|e] eqn:E; [|by destruct e].
    intros [= <-]. by eapply stoull_bound; [|exact E]. }
  assert (∀ mb, (0 <= mb < 2 ^ 64)%Z →
    ∃ mb', (0 <= mb' < 2 ^ 64)%Z ∧ u64 (mb * megabyte) = u64 (mb' * megabyte) ∧
           (u64 (mb * megabyte) = (mb' * megabyte)%Z ↔ (mb' < 2 ^ 44)%Z)) as Hs.
  { intros mb Hmb. exists mb. unfold megabyte. split_and!; [lia..|done|].
    rewrite wrap_exact by lia. lia. }
  unfold add_remapping. destruct (split remap ":") as [|a1 parts]; [done|].
  destruct (read_field "virt" remap a1) as [v|] eqn:Hv; [|done]. cbn [mbind result_bind].
  destruct parts as [|a2 parts]; [done|].
  destruct (read_field "size" remap a2) as [mb|] eqn:Hmb; [|done]. cbn [mbind result_bind].
  apply Hb in Hv, Hmb. specialize (Hs mb Hmb).
  destruct parts as [|a3 parts]; [intros [= <-]; split_and!; (done || simpl; lia)|].
  case_decide.
  { intros Hm%remap_perms_fields. destruct Hm as (-> & -> & ->). split_and!; (done || simpl; lia). }
  destruct (read_field "phys" remap a3) as [p|] eqn:Hp; [|done]. cbn [mbind result_bind].
  apply Hb in Hp. destruct parts as [|a4 parts]; [intros [= <-]; split_and!; (done || simpl; lia)|].
  intros Hm%remap_perms_fields. destruct Hm as (-> & -> & ->). split_and!; (done || simpl; lia).
Qed.

(** Every value [add_remapping] accepts gives a remapping whose addresses
    and size fit 64 bits, but the size is computed modulo 2^64: it is the number
    of megabytes asked for exactly when that number is below 2^44. *)
Lemma remapping_bounds remap m :
  add_remapping remap = Ok m →
  (0 <= virt m < 2 ^ 64)%Z ∧ (0 <= phys m < 2 ^ 64)%Z ∧
  ∃ mb, (0 <= mb < 2 ^ 64)%Z ∧ size m = u64 (mb * megabyte) ∧
        (size m = (mb * megabyte)%Z ↔ (mb < 2 ^ 44)%Z).
Proof. apply add_remapping_ranges. Qed.

(** 2^44 megabytes are taken for an empty remapping. *)
Lemma remapping_bounds_witness :
  add_remapping "0x1000:17592186044416" = Ok (MkRemapping 0 0x1000 0 true false) ∧
  (0 <= 0x1000 < 2 ^ 64)%Z.
Proof.
  assert (add_remapping "0x1000:17592186044416" = Ok (MkRemapping 0 0x1000 0 true false)) as H
    by (vm_compute; reflexivity).
  split; [exact H|]. exact (proj1 (remapping_bounds _ _ H)).
Defined.
