(* ===== verification/Config.v ===== *)
(** * Configuration: [config.hpp] and [Configuration::FromArgs]

    The [CLI11] library parses the command line and the configuration file
    into the fields of [Configuration] and the permission lists; that is not
    part of the program and the lists are the input here.  What the program
    does with them is the code of the callbacks: looking up the program,
    building the permission map, the guest environment and the network rules,
    and scaling the memory sizes. *)

From S2P Require Import Prelude CppString OrdMap FsPath AllowedPaths Network Remap.

Local Open Scope string_scope.
Local Open Scope list_scope.
Local Open Scope nat_scope.

(** ** [struct Configuration] *)

Record Configuration := MkConfig {
  main_filename : string;
  storage_filename : string;
  snapshot_filename : string;
  concurrency : Z;                      (**r [uint16_t] *)
  warmup_connect_requests : Z;          (**r [uint16_t] *)
  warmup_intra_connect_requests : Z;    (**r [uint16_t] *)
  warmup_path : string;
  max_boot_time : Q;                    (**r a [float] in seconds, handed to [tinykvm] *)
  max_req_time : Q;
  max_address_space : Z;                (**r [uint64_t] *)
  max_main_memory : Z;                  (**r [uint64_t] *)
  max_req_mem : Z;                      (**r [uint32_t] *)
  limit_req_mem : Z;                    (**r [uint32_t] *)
  shared_memory : Z;                    (**r [uint32_t] *)
  dylink_address_hint : Z;              (**r [uint64_t] *)
  heap_address_hint : Z;                (**r [uint64_t] *)
  storage_dylink_address_hint : Z;      (**r [uint64_t] *)
  hugepage_arena_size : Z;
  hugepage_requests_arena : Z;
  storage : bool;
  storage_1_to_1 : bool;
  storage_ipre_permanent : bool;
  executable_heap : bool;
  mmap_backed_files : bool;
  hugepages : bool;
  split_hugepages : bool;
  transparent_hugepages : bool;
  ephemeral : bool;
  ephemeral_keep_working_memory : bool;
  verbose : bool;
  verbose_syscalls : bool;
  verbose_mmap_syscalls : bool;
  verbose_thread_syscalls : bool;
  verbose_pagetable : bool;
  environ : list string;
  main_arguments : list string;
  storage_arguments : list string;
  vmem_remappings : list VirtualRemapping;
  storage_remappings : list VirtualRemapping;
  allowed_paths : path_map;
  current_working_directory : string;
  allowed_connect_ipv4 : list sockaddr_storage;
  allowed_listen_ipv4 : list sockaddr_storage;
  allowed_connect_ipv6 : list sockaddr_storage;
  allowed_listen_ipv6 : list sockaddr_storage
}.

(** The member initialisers. *)
Definition default_config : Configuration := {|
  main_filename := ""; storage_filename := ""; snapshot_filename := "";
  concurrency := 1; warmup_connect_requests := 0; warmup_intra_connect_requests := 1;
  warmup_path := "/"; max_boot_time := 20%Q; max_req_time := 8%Q;
  max_address_space := 120 * 1024; max_main_memory := 8 * 1024;
  max_req_mem := 128; limit_req_mem := 128; shared_memory := 0;
  dylink_address_hint := 2; heap_address_hint := 256;
  storage_dylink_address_hint := 0x2000200000;
  hugepage_arena_size := 0; hugepage_requests_arena := 0;
  storage := false; storage_1_to_1 := false; storage_ipre_permanent := false;
  executable_heap := true; mmap_backed_files := true; hugepages := false;
  split_hugepages := true; transparent_hugepages := false;
  ephemeral := false; ephemeral_keep_working_memory := true;
  verbose := false; verbose_syscalls := false; verbose_mmap_syscalls := false;
  verbose_thread_syscalls := false; verbose_pagetable := false;
  environ := []; main_arguments := []; storage_arguments := [];
  vmem_remappings := []; storage_remappings := [];
  allowed_paths := []; current_working_directory := "";
  allowed_connect_ipv4 := []; allowed_listen_ipv4 := [];
  allowed_connect_ipv6 := []; allowed_listen_ipv6 := []
|}.

(** The local lists of [FromArgs] the options fill. *)
Record CliArgs := MkCli {
  allow_read : list string;
  allow_write : list string;
  volume : list string;
  allow_env : list string;
  allow_net : list string;
  allow_connect : list string;
  allow_listen : list string
}.

(** What the process finds on the host. *)
Record HostEnv := MkHost {
  current_path : path;                       (**r [std::filesystem::current_path()] *)
  hardware_concurrency : Z;                  (**r [std::thread::hardware_concurrency()] *)
  host_environ : list string;                (**r [::environ] *)
  executable : string → bool;                (**r [access(p, X_OK) == 0] *)
  maps_file : path * bool;                   (**r [std::tmpnam] and whether [fopen] succeeded *)
  lib_file : path * bool;
  libkvmserverguest_so : string;
  inet_pton4 : string → option Z;
  inet_pton6 : string → option (list Z);
  getaddrinfo : string → option (list addrinfo)
}.

(** [getenv(name)]: the value of the first [name=value] string. *)
Fixpoint getenv (env : list string) (name : string) : option string :=
  match env with
  | [] => None
  | e :: env =>
      if starts_with e (name +:+ "=") then Some (str_drop (S (str_len name)) e)
      else getenv env name
  end.

(** ** [lookup_program] *)

(** The fields [std::getline(ss, dirname, ':')] reads: an empty field at the
    end is not one. *)
Definition getline_fields (s : string) : list string :=
  let fields := split_on ":" s in
  if decide (last fields = Some "") then removelast fields else fields.

(** The first directory that has the program. *)
Fixpoint search_path (env : HostEnv) (dirs : list string) (program : string) : option string :=
  match dirs with
  | [] => None
  | dirname :: dirs =>
      let filepath :=
        string_of_path (lexically_normal (append (path_of_string dirname) (path_of_string program))) in
      if executable env filepath then Some filepath else search_path env dirs program
  end.

Definition lookup_program (env : HostEnv) (program : string) : result string :=
  match index_of slash program with
  | None =>
      match getenv (host_environ env) "PATH" with
      | None => Err (Undefined "std::stringstream ss(nullptr)")
      | Some path_var =>
          match search_path env (getline_fields path_var) program with
          | Some filepath => Ok filepath
          | None => throw (ValidationError "program: Not found on path" program)
          end
      end
  | Some _ =>
      let filepath :=
        string_of_path (lexically_normal (append (current_path env) (path_of_string program))) in
      if executable env filepath then Ok filepath
      else throw (ValidationError "program: Not an executable" program)
  end.

(** ** The permission map *)

(** The handler of [--allow-all]. *)
Definition apply_allow_all (allow_all : bool) (a : CliArgs) : CliArgs :=
  if allow_all then
    MkCli (allow_read a ++ ["/"]) (allow_write a ++ ["/"]) (volume a)
      (allow_env a ++ ["*"]) (allow_net a ++ ["true"]) (allow_connect a) (allow_listen a)
  else a.

(** The permission part of a volume: [r] then [w], nothing else. *)
Definition parse_rw (perms : string) : option (bool * bool) :=
  let '(r, rest) := take_flag "r" perms in
  let '(w, rest) := take_flag "w" rest in
  if decide (rest = "") then Some (r, w) else None.

(** [ensure_path] called with pathnames. *)
Definition ensure (env : HostEnv) (src dst : string) (m : path_map) (r w s : bool) : path_map :=
  ensure_path (current_path env) (path_of_string src) (path_of_string dst) m r w s.

(** One iteration of the loop over [--volume]. *)
Definition add_volume (env : HostEnv) (m : path_map) (triple : string) : result path_map :=
  match split triple ":" with
  | [] => throw (ValidationError "too few parts" triple)
  | [_] => throw (ValidationError "too few parts" triple)
  | [src; dst] => Ok (ensure env src dst m true false false)
  | src :: dst :: perms :: rest =>
      match parse_rw perms with
      | None => throw (ValidationError "invalid argument (rw)" perms)
      | Some (r, w) =>
          match rest with
          | [] => Ok (ensure env src dst m r w false)
          | _ :: _ => throw (ValidationError "too many parts" triple)
          end
      end
  end.

Definition maps_content (main : string) : string :=
  "000000000000-ffffffffffff r--p 00000000 103:02 48895346                  " +:+
  main +:+ String (ascii_of_nat 10) "".

(** [config.allowed_paths] as the callback fills it, with the files written. *)
Definition build_allowed_paths (env : HostEnv) (a : CliArgs) (main : string) (m : path_map)
    : result (path_map * list (path * string)) :=
  let m := foldl (λ m p, ensure env p p m true false false) m (allow_read a) in
  let m := foldl (λ m p, ensure env p p m false true false) m (allow_write a) in
  let m := ensure env "/dev/urandom" "/dev/urandom" m true false true in
  let m := ensure env "/dev/null" "/dev/null" m true true true in
  let m := ensure env "/dev/zero" "/dev/zero" m true true true in
  '(m, maps) ← fake_path (current_path env) (maps_file env).1 (maps_file env).2
                 (path_of_string "/proc/self/maps") (maps_content main) m;
  '(m, lib) ← fake_path (current_path env) (lib_file env).1 (lib_file env).2
                (path_of_string "/lib/libkvmserverguest.so") (libkvmserverguest_so env) m;
  m ← foldM (add_volume env) (volume a) m;
  let m := ensure env "/proc/self/exe" main m false false true in
  let m := ensure env main main m true false false in
  Ok (m, [maps; lib]).

(** ** The guest environment *)

(** One iteration of the loop over [--allow-env]. *)
Definition add_env (env : HostEnv) (guest : list string) (name : string) : result (list string) :=
  match str_back name with
  | None => Err (Undefined "name.back() of an empty string")
  | Some "*"%char =>
      let pattern := substr name 0 (str_len name - 1) in
      Ok (guest ++ List.filter (λ e, starts_with e pattern) (host_environ env))
  | Some _ =>
      match getenv (host_environ env) name with
      | Some value => Ok (guest ++ [name +:+ "=" +:+ value])
      | None => Err (Undefined "operator+ with a null pointer")
      end
  end.

Definition build_environ (env : HostEnv) (allow_env_ guest : list string) : result (list string) :=
  guest ← foldM (add_env env) allow_env_ guest;
  Ok (if existsb (λ v, starts_with v "USER=") guest then guest else guest ++ ["USER=nobody"]).

(** ** The callback of the application *)

(** The last lines of the callback: sizes from megabytes to bytes, each stored
    back at the width of its field. *)
Record MemorySizes := MkSizes {
  sz_address_space : Z; sz_main_memory : Z; sz_req_mem : Z; sz_limit_req_mem : Z;
  sz_shared_memory : Z; sz_dylink_hint : Z; sz_heap_hint : Z
}.

Definition raise_memory (c : Configuration) : MemorySizes :=
  let max_address_space := Z.max (max_address_space c) (max_main_memory c) in
  {| sz_address_space := u64 (max_address_space * megabyte);
     sz_main_memory := u64 (max_main_memory c * megabyte);
     sz_req_mem := u32 (max_req_mem c * megabyte);
     sz_limit_req_mem := u32 (limit_req_mem c * megabyte);
     sz_shared_memory := u32 (shared_memory c * megabyte);
     sz_dylink_hint := u64 (dylink_address_hint c * megabyte);
     sz_heap_hint := u64 (heap_address_hint c * megabyte) |}.

(** The configuration with the fields the callback assigns. *)
Definition finish_config (c : Configuration) (conc : Z) (paths : path_map) (genv : list string)
    (net : net_config) (sz : MemorySizes) : Configuration := {|
  main_filename := main_filename c; storage_filename := storage_filename c;
  snapshot_filename := snapshot_filename c; concurrency := conc;
  warmup_connect_requests := warmup_connect_requests c;
  warmup_intra_connect_requests := warmup_intra_connect_requests c;
  warmup_path := warmup_path c; max_boot_time := max_boot_time c; max_req_time := max_req_time c;
  max_address_space := sz_address_space sz; max_main_memory := sz_main_memory sz;
  max_req_mem := sz_req_mem sz; limit_req_mem := sz_limit_req_mem sz;
  shared_memory := sz_shared_memory sz; dylink_address_hint := sz_dylink_hint sz;
  heap_address_hint := sz_heap_hint sz;
  storage_dylink_address_hint := storage_dylink_address_hint c;
  hugepage_arena_size := hugepage_arena_size c;
  hugepage_requests_arena := hugepage_requests_arena c;
  storage := storage c; storage_1_to_1 := storage_1_to_1 c;
  storage_ipre_permanent := storage_ipre_permanent c;
  executable_heap := executable_heap c; mmap_backed_files := mmap_backed_files c;
  hugepages := hugepages c; split_hugepages := split_hugepages c;
  transparent_hugepages := transparent_hugepages c; ephemeral := ephemeral c;
  ephemeral_keep_working_memory := ephemeral_keep_working_memory c;
  verbose := verbose c; verbose_syscalls := verbose_syscalls c;
  verbose_mmap_syscalls := verbose_mmap_syscalls c;
  verbose_thread_syscalls := verbose_thread_syscalls c; verbose_pagetable := verbose_pagetable c;
  environ := genv; main_arguments := main_arguments c; storage_arguments := storage_arguments c;
  vmem_remappings := vmem_remappings c; storage_remappings := storage_remappings c;
  allowed_paths := paths; current_working_directory := current_working_directory c;
  allowed_connect_ipv4 := (allowed_connect net).1; allowed_listen_ipv4 := (allowed_listen net).1;
  allowed_connect_ipv6 := (allowed_connect net).2; allowed_listen_ipv6 := (allowed_listen net).2
|}.

(** [app.callback]; [subcommands] is the number of subcommands used, [++]
    apart.  The second component is the temporary files written. *)
Definition app_callback (env : HostEnv) (a : CliArgs) (subcommands : nat) (c : Configuration)
    : result (Configuration * list (path * string)) :=
  if decide (subcommands = 0) then throw (ValidationError "ValidationError" "A subcommand is required")
  else
    let conc := if (concurrency c =? 0)%Z then u16 (hardware_concurrency env) else concurrency c in
    '(paths, files) ← build_allowed_paths env a (main_filename c) (allowed_paths c);
    genv ← build_environ env (allow_env a) (environ c);
    net ← network_config (inet_pton4 env) (inet_pton6 env) (getaddrinfo env)
            (allow_net a) (allow_connect a) (allow_listen a);
    Ok (finish_config c conc paths genv net (raise_memory c), files).

(** *** The subcommand callbacks *)

(** The callback of [run]; [count] is [run.count()]. *)
Definition run_callback (env : HostEnv) (count : nat) (filename : string) : result string :=
  if decide (1 < count)
  then throw (ValidationError "ValidationError" "run subcommand may only be called once")
  else lookup_program env filename.

(** The final callback of [storage]; it also sets [config.storage]. *)
Definition storage_callback (env : HostEnv) (count : nat) (filename : string) : result (bool * string) :=
  if decide (1 < count)
  then throw (ValidationError "ValidationError" "storage subcommand may only be used once")
  else f ← lookup_program env filename; Ok (true, f).

(** ** The file-system policy as a list of grants *)

Record grant := Grant { g_src : string; g_dst : path; g_read : bool; g_write : bool; g_link : bool }.

Definition apply_grant (env : HostEnv) (m : path_map) (g : grant) : path_map :=
  ensure_path (current_path env) (path_of_string (g_src g)) (g_dst g) m
    (g_read g) (g_write g) (g_link g).

(** A pathname granted as itself. *)
Definition self_grant (r w s : bool) (p : string) : grant := Grant p (path_of_string p) r w s.

Definition volume_grant (triple : string) : option grant :=
  match split triple ":" with
  | [src; dst] => Some (Grant src (path_of_string dst) true false false)
  | [src; dst; perms] =>
      '(r, w) ← parse_rw perms; Some (Grant src (path_of_string dst) r w false)
  | _ => None
  end.

Definition policy (env : HostEnv) (a : CliArgs) (main : string) : list grant :=
  (self_grant true false false <$> allow_read a) ++
  (self_grant false true false <$> allow_write a) ++
  [self_grant true false true "/dev/urandom"; self_grant true true true "/dev/null";
   self_grant true true true "/dev/zero";
   Grant "/proc/self/maps" (maps_file env).1 true false false;
   Grant "/lib/libkvmserverguest.so" (lib_file env).1 true false false] ++
  omap volume_grant (volume a) ++
  [Grant "/proc/self/exe" (path_of_string main) false false true;
   self_grant true false false main].

(** The paths the command line makes readable and writable. *)
Definition readable_roots (a : CliArgs) (main : string) : list string :=
  allow_read a ++
  ["/dev/urandom"; "/dev/null"; "/dev/zero"; "/proc/self/maps"; "/lib/libkvmserverguest.so"] ++
  (g_src <$> List.filter g_read (omap volume_grant (volume a))) ++ [main].

Definition writable_roots (a : CliArgs) : list string :=
  allow_write a ++ ["/dev/null"; "/dev/zero"] ++
  (g_src <$> List.filter g_write (omap volume_grant (volume a))).

(** The host documents an absolute current directory; [std::tmpnam] returns an
    absolute name. *)
Definition host_ok (env : HostEnv) : Prop :=
  path_wf (current_path env) ∧ root_dir (current_path env) = true ∧
  path_wf (maps_file env).1 ∧ path_wf (lib_file env).1.

Lemma add_volume_grant env m t m' :
  add_volume env m t = Ok m' → ∃ g, volume_grant t = Some g ∧ m' = apply_grant env m g.
Proof.
  unfold add_volume, volume_grant.
  destruct (split t ":") as [|src [|dst [|perms rest]]]; try done.
  - intros [= <-]. by eexists.
  - destruct (parse_rw perms) as [[r w]|] eqn:E; [|done].
    destruct rest; [|done]. intros [= <-]. by eexists.
Qed.

Lemma add_volumes_grants env ts m m' :
  foldM (add_volume env) ts m = Ok m' → m' = foldl (apply_grant env) m (omap volume_grant ts).
Proof.
  revert m. induction ts as [|t ts IH]; intros m; cbn [foldM]; [by intros [= ->]|].
  destruct (add_volume env m t) as [m1|] eqn:E; [|done]. cbn [mbind result_bind].
  apply add_volume_grant in E as (g & Hg & ->). intros ->%IH.
  cbn [omap list_omap]. by rewrite Hg.
Qed.

Lemma foldl_fmap_grant env (f : string → grant) l m :
  foldl (apply_grant env) m (f <$> l) = foldl (λ m p, apply_grant env m (f p)) m l.
Proof. revert m. induction l as [|x l IH]; intros m; [done|]. apply IH. Qed.

(** The callback applies the grants in this order. *)
Lemma build_allowed_paths_policy env a main m m' files :
  build_allowed_paths env a main m = Ok (m', files) →
  m' = foldl (apply_grant env) m (policy env a main).
Proof.
  unfold build_allowed_paths, fake_path, policy.
  rewrite !foldl_app, !foldl_fmap_grant. cbn zeta.
  destruct (maps_file env) as [f1 []]; [|done]. destruct (lib_file env) as [f2 []]; [|done].
  cbn [mbind result_bind fst snd].
  destruct (foldM _ _ _) as [mv|] eqn:Ev; [|done]. cbn [mbind result_bind].
  apply add_volumes_grants in Ev as ->. by intros [= <- _].
Qed.

Section grants.
Context (env : HostEnv) (Hcwd : path_wf (current_path env)) (Habs : root_dir (current_path env) = true).

(** The path a granted pathname stands for. *)
Definition root_of (s : string) : path := resolve_path (current_path env) (path_of_string s).

Lemma apply_grants_ok gs m :
  Forall (λ g, path_wf (g_dst g)) gs → allowed_ok m → allowed_ok (foldl (apply_grant env) m gs).
Proof using Hcwd Habs.
  intros Hg. revert m. induction Hg as [|g gs Hg Hgs IH]; intros m Hm; [done|].
  apply IH, ensure_path_ok; auto with kvm.
Qed.

Lemma apply_grants_permitted (extract : VirtualPath → bool) (flag : grant → bool) gs m p :
  (∀ m g, allowed_ok m →
     permitted (apply_grant env m g) extract p ↔
     permitted m extract p ∨ (flag g = true ∧ covers (root_of (g_src g)) p = true)) →
  Forall (λ g, path_wf (g_dst g)) gs → allowed_ok m →
  permitted (foldl (apply_grant env) m gs) extract p ↔
  permitted m extract p ∨
  ∃ s, s ∈ g_src <$> List.filter flag gs ∧ covers (root_of s) p = true.
Proof using Hcwd Habs.
  intros Hstep Hg. revert m. induction Hg as [|g gs Hg Hgs IH]; intros m Hm; cbn [foldl].
  { set_solver. }
  rewrite IH by by apply (apply_grants_ok [g]); [apply Forall_singleton|].
  rewrite Hstep by done. cbn [List.filter]. destruct (flag g).
  - cbn [fmap list_fmap]. setoid_rewrite elem_of_cons. naive_solver.
  - naive_solver.
Qed.
End grants.

Lemma filter_fmap_const {A B} (f : A → B) (P : B → bool) b l :
  (∀ x, P (f x) = b) → List.filter P (f <$> l) = if b then f <$> l else [].
Proof.
  intros Hf. induction l as [|x l IH]; [by destruct b|].
  cbn [fmap list_fmap List.filter]. rewrite Hf. destruct b; [by f_equal|done].
Qed.

Lemma self_grant_src r w s (l : list string) : g_src <$> (self_grant r w s <$> l) = l.
Proof. induction l as [|x l IH]; [done|]. cbn [fmap list_fmap]. by f_equal. Qed.

Lemma policy_readable env a main :
  g_src <$> List.filter g_read (policy env a main) = readable_roots a main.
Proof.
  unfold policy, readable_roots. rewrite !List.filter_app.
  rewrite (filter_fmap_const _ _ true), (filter_fmap_const _ _ false) by done.
  rewrite !fmap_app, self_grant_src. done.
Qed.

Lemma policy_writable env a main :
  g_src <$> List.filter g_write (policy env a main) = writable_roots a.
Proof.
  unfold policy, writable_roots. rewrite !List.filter_app.
  rewrite (filter_fmap_const _ _ false), (filter_fmap_const _ _ true) by done.
  rewrite !fmap_app, self_grant_src. by rewrite app_nil_r.
Qed.

Lemma policy_wf env a main : host_ok env → Forall (λ g, path_wf (g_dst g)) (policy env a main).
Proof.
  intros (_ & _ & H1 & H2). unfold policy. rewrite !Forall_app. split_and!.
  - apply Forall_forall. intros g (x & -> & _)%list_elem_of_fmap. apply path_of_string_wf.
  - apply Forall_forall. intros g (x & -> & _)%list_elem_of_fmap. apply path_of_string_wf.
  - repeat (apply List.Forall_cons; [simpl; by auto using path_of_string_wf|]). constructor.
  - apply Forall_forall. intros g (t & _ & Ht)%list_elem_of_omap. revert Ht.
    unfold volume_grant. repeat case_match; try done; [by intros [= <-]; apply path_of_string_wf|].
    destruct (parse_rw _) as [[]|]; [|done]. intros [= <-]. apply path_of_string_wf.
  - repeat (apply List.Forall_cons; [simpl; by auto using path_of_string_wf|]). constructor.
Qed.

(** What the callback returns. *)
Lemma app_callback_inv env a n c c' files :
  app_callback env a n c = Ok (c', files) →
  ∃ paths genv net,
    build_allowed_paths env a (main_filename c) (allowed_paths c) = Ok (paths, files) ∧
    build_environ env (allow_env a) (environ c) = Ok genv ∧
    network_config (inet_pton4 env) (inet_pton6 env) (getaddrinfo env)
      (allow_net a) (allow_connect a) (allow_listen a) = Ok net ∧
    c' = finish_config c
      (if (concurrency c =? 0)%Z then u16 (hardware_concurrency env) else concurrency c)
      paths genv net (raise_memory c).
Proof.
  unfold app_callback. case_decide; [done|].
  destruct (build_allowed_paths _ _ _ _) as [[paths fs]|]; [|done]. cbn [mbind result_bind].
  destruct (build_environ _ _ _) as [genv|]; [|done]. cbn [mbind result_bind].
  destruct (network_config _ _ _ _ _ _) as [net|]; [|done]. intros [= <- <-]. eauto 10.
Qed.

(** The map it returns is well formed and made of the policy. *)
Lemma app_callback_paths env a n c c' files :
  host_ok env → allowed_paths c = [] → app_callback env a n c = Ok (c', files) →
  allowed_paths c' = foldl (apply_grant env) [] (policy env a (main_filename c)) ∧
  allowed_ok (allowed_paths c').
Proof.
  intros Hh He (paths & genv & net & Hb & _ & _ & ->)%app_callback_inv. rewrite He in Hb.
  apply build_allowed_paths_policy in Hb. pose proof Hh as (Hcwd & Habs & _). cbn.
  split; [done|]. rewrite Hb. apply apply_grants_ok; [done..|by apply policy_wf|by repeat constructor].
Qed.

(** The pathnames the map permits, for reading and for writing. *)
Lemma app_callback_policy env a n c c' files p :
  host_ok env → allowed_paths c = [] → app_callback env a n c = Ok (c', files) →
  (permitted (allowed_paths c') readable p ↔
   ∃ s, s ∈ readable_roots a (main_filename c) ∧ covers (root_of env s) p = true) ∧
  (permitted (allowed_paths c') writable p ↔
   ∃ s, s ∈ writable_roots a ∧ covers (root_of env s) p = true).
Proof.
  intros Hh He Hcb. destruct (app_callback_paths _ _ _ _ _ _ Hh He Hcb) as [-> _].
  pose proof Hh as (Hcwd & Habs & _). pose proof (policy_wf env a (main_filename c) Hh) as Hwf.
  assert (allowed_ok []) as H0 by by repeat constructor. split.
  - rewrite (apply_grants_permitted env Hcwd Habs readable g_read); [|..|done|done].
    + rewrite policy_readable. by rewrite permitted_nil, (left_id False or).
    + intros m g Hm. by apply ensure_path_readable.
  - rewrite (apply_grants_permitted env Hcwd Habs writable g_write); [|..|done|done].
    + rewrite policy_writable. by rewrite permitted_nil, (left_id False or).
    + intros m g Hm. by apply ensure_path_writable.
Qed.

(** ** The environment *)

Lemma prefix_drop p e : starts_with e p = true → e = p +:+ str_drop (str_len p) e.
Proof.
  unfold starts_with. revert e. induction p as [|a p IH]; intros e; [by destruct e|].
  destruct e as [|b e]; simpl; [done|]. case_match; [|done]. subst. intros Hp%IH.
  change (String b p +:+ str_drop (str_len p) e) with (String b (p +:+ str_drop (str_len p) e)).
  by f_equal.
Qed.

(** [getenv] reports a string of the environment. *)
Lemma getenv_elem env name v : getenv env name = Some v → name +:+ "=" +:+ v ∈ env.
Proof.
  induction env as [|e env IH]; simpl; [done|].
  destruct (starts_with e (name +:+ "=")) eqn:E; [|intros H; right; by apply IH].
  intros [= <-]. apply prefix_drop in E. rewrite str_len_app in E.
  replace (str_len name + str_len "=") with (S (str_len name)) in E by (simpl; lia).
  rewrite str_app_assoc in E. apply elem_of_cons. left. symmetry. exact E.
Qed.

(** A host variable the value [name] of [--allow-env] selects. *)
Definition env_selected (name entry : string) : Prop :=
  (∃ pattern, name = pattern +:+ "*" ∧ starts_with entry pattern = true) ∨
  starts_with entry (name +:+ "=") = true.

Lemma starts_with_app p e : starts_with (p +:+ e) p = true.
Proof.
  unfold starts_with. induction p as [|a p IH]; [by destruct e|].
  change (String a p +:+ e) with (String a (p +:+ e)). simpl. by case_match.
Qed.

Lemma str_back_inv s a : str_back s = Some a → s = substr s 0 (str_len s - 1) +:+ String a "".
Proof.
  unfold substr. change (str_drop 0 s) with s.
  induction s as [|b s IH]; [done|]. destruct s as [|c s]; [by intros [= ->]|].
  intros H. specialize (IH H). cbn [String.length] in *. simpl in IH |- *.
  rewrite Nat.sub_0_r in IH. by apply (f_equal (String b)) in IH.
Qed.

Lemma add_env_selected env guest name guest' e :
  add_env env guest name = Ok guest' → e ∈ guest' →
  e ∈ guest ∨ (e ∈ host_environ env ∧ env_selected name e).
Proof.
  unfold add_env. destruct (str_back name) as [b|] eqn:Eb; [|done].
  destruct (decide (b = "*"%char)) as [->|Hb].
  - intros [= <-] [He|He]%elem_of_app; [by left|right].
    apply list_elem_of_In, filter_In in He as [Hin Hp]. split; [by apply list_elem_of_In|].
    left. eexists. split; [by apply str_back_inv|done].
  - destruct (getenv (host_environ env) name) as [v|] eqn:Eg.
    + intros H. assert (guest' = guest ++ [name +:+ "=" +:+ v]) as ->.
      { by destruct b as [[] [] [] [] [] [] [] []]; simplify_eq. }
      intros [He| ->%list_elem_of_singleton]%elem_of_app; [by left|right].
      split; [by apply getenv_elem|]. right. rewrite <-str_app_assoc. apply starts_with_app.
    + intros H. exfalso. by destruct b as [[] [] [] [] [] [] [] []].
Qed.

Lemma add_envs_selected env names guest guest' e :
  foldM (add_env env) names guest = Ok guest' → e ∈ guest' →
  e ∈ guest ∨ ∃ name, name ∈ names ∧ e ∈ host_environ env ∧ env_selected name e.
Proof.
  revert guest. induction names as [|n names IH]; intros guest; cbn [foldM].
  { intros [= ->]. by left. }
  destruct (add_env env guest n) as [g1|] eqn:En; [|done]. cbn [mbind result_bind]. intros Hf He.
  destruct (IH _ Hf He) as [Hg|(name & Hn & Hsel)].
  - destruct (add_env_selected _ _ _ _ _ En Hg) as [?|?]; [by left|right].
    exists n. split; [left|done].
  - right. exists name. split; [by right|done].
Qed.

(** ** Theorems *)

Section demo.
(** A host with two programs and a few variables, and a command line. *)
Definition demo_env : HostEnv := {|
  current_path := path_of_string "/srv";
  hardware_concurrency := 8;
  host_environ := ["PATH=/usr/bin:/bin"; "HOME=/root"; "API_KEY=1"];
  executable := λ s, bool_decide (s = "/bin/app");
  maps_file := (path_of_string "/tmp/fileA", true);
  lib_file := (path_of_string "/tmp/fileB", true);
  libkvmserverguest_so := "ELF";
  inet_pton4 := demo_pton4; inet_pton6 := demo_pton6; getaddrinfo := demo_gai |}.

Definition demo_args : CliArgs :=
  MkCli ["./www"] ["/var/log"] ["/data:/mnt/disk:rw"] ["API_*"] ["10.0.0.1:443"] [] [].

Definition demo_config : Configuration :=
  finish_config default_config 4 [] [] (MkNet ([], []) ([], []))
    (MkSizes 1024 8192 128 128 0 2 256).

Lemma demo_host_ok : host_ok demo_env.
Proof. by repeat split; try apply path_of_string_wf. Qed.
End demo.

(** C10: the file-system policy of a running server is exactly the one on the
    command line.  After the callback of [FromArgs], a guest may open a path
    for reading exactly when the normalised path lies below one of: the
    [--allow-read] paths, the three harmless devices, the two generated files,
    the first parts of the readable volumes, and the program; and for writing
    exactly when it lies below an [--allow-write] path, [/dev/null],
    [/dev/zero] or the first part of a writable volume. *)
Theorem file_policy_exact env a n c c' files cwd pth :
  host_ok env → absolute_dir cwd → allowed_paths c = [] →
  app_callback env a n c = Ok (c', files) →
  ((open_readable cwd (allowed_paths c') pth).1 = true ↔
   ∃ s, s ∈ readable_roots a (main_filename c) ∧
        covers (root_of env s) (guest_path cwd pth) = true) ∧
  ((open_writable cwd (allowed_paths c') pth).1 = true ↔
   ∃ s, s ∈ writable_roots a ∧ covers (root_of env s) (guest_path cwd pth) = true).
Proof.
  intros Hh Hc He Hcb. destruct (app_callback_paths _ _ _ _ _ _ Hh He Hcb) as [_ Hok].
  unfold open_readable, open_writable. rewrite !lookup_permitted by done.
  by apply (app_callback_policy env a n c c' files).
Qed.

Lemma file_policy_witness :
  ∃ c' files, app_callback demo_env demo_args 1 demo_config = Ok (c', files) ∧
    open_readable "/" (allowed_paths c') "/srv/www/index.html" = (true, "/srv/www/index.html") ∧
    (open_writable "/" (allowed_paths c') "/srv/www/index.html").1 = false.
Proof.
  eexists _, _. split; [vm_compute; reflexivity|]. split; [vm_compute; reflexivity|].
  match goal with |- ?b = false => destruct b eqn:E; [|reflexivity] end. exfalso.
  eapply (file_policy_exact demo_env demo_args 1 demo_config _ _ "/" "/srv/www/index.html"
    demo_host_ok eq_refl eq_refl) in E as (s & Hs & Hcov); [|vm_compute; reflexivity].
  vm_compute in Hs. repeat (apply elem_of_cons in Hs as [->|Hs]; [vm_compute in Hcov; discriminate|]).
  by apply elem_of_nil in Hs.
Defined.

(** C37: the callback converts the memory sizes from megabytes to bytes at the
    width of each field: the request-memory sizes are 32-bit and right exactly
    below 4096 megabytes, beyond which they wrap around (4096 becomes 0); the
    address space and the main memory are 64-bit, and while both are below
    2^44 megabytes they are exact and the address space is at least as large
    as the main memory. *)
Theorem memory_sizes_exact env a n c c' files :
  (0 <= max_req_mem c < 2 ^ 32)%Z → (0 <= limit_req_mem c < 2 ^ 32)%Z →
  (0 <= max_address_space c < 2 ^ 44)%Z → (0 <= max_main_memory c < 2 ^ 44)%Z →
  app_callback env a n c = Ok (c', files) →
  (max_req_mem c' = (max_req_mem c * 2 ^ 20)%Z ↔ (max_req_mem c < 4096)%Z) ∧
  (limit_req_mem c' = (limit_req_mem c * 2 ^ 20)%Z ↔ (limit_req_mem c < 4096)%Z) ∧
  max_main_memory c' = (max_main_memory c * 2 ^ 20)%Z ∧
  (max_main_memory c' <= max_address_space c')%Z ∧
  (max_address_space c * 2 ^ 20 <= max_address_space c')%Z.
Proof.
  intros Hr Hl Ha Hm (paths & genv & net & _ & _ & _ & ->)%app_callback_inv. cbn. unfold megabyte.
  rewrite !(wrap_exact 32) by lia. rewrite !(wrap_id 64) by lia. split_and!; lia.
Qed.

Lemma memory_sizes_witness :
  let c := finish_config demo_config 4 [] [] (MkNet ([], []) ([], []))
             (MkSizes 1024 8192 4096 128 0 2 256) in
  ∃ c' files, app_callback demo_env demo_args 1 c = Ok (c', files) ∧
    max_req_mem c' = 0%Z ∧ max_req_mem c' ≠ (max_req_mem c * 2 ^ 20)%Z ∧
    max_main_memory c' = max_address_space c'.
Proof.
  eexists _, _. split; [vm_compute; reflexivity|]. split; [vm_compute; reflexivity|].
  split; [|vm_compute; reflexivity]. intros H.
  eapply (memory_sizes_exact demo_env demo_args 1) in H; [..|vm_compute; reflexivity]; simpl in *; lia.
Defined.

(** C38: the guest sees no host variable it was not given: every string of the
    environment the callback builds was given with [--env], is a host variable
    selected by a value of [--allow-env] (by name, or by prefix before [*]),
    or is [USER=nobody]; and there is always a [USER] variable. *)
Theorem guest_environ_sound env names guest guest' :
  build_environ env names guest = Ok guest' →
  (∀ e, e ∈ guest' →
     e ∈ guest ∨ e = "USER=nobody" ∨
     ∃ name, name ∈ names ∧ e ∈ host_environ env ∧ env_selected name e) ∧
  ∃ e, e ∈ guest' ∧ starts_with e "USER=" = true.
Proof.
  unfold build_environ. destruct (foldM _ _ _) as [g|] eqn:Ef; [|done]. cbn [mbind result_bind].
  destruct (existsb _ g) eqn:Eu; intros [= <-].
  - split.
    + intros e He. destruct (add_envs_selected _ _ _ _ _ Ef He); auto.
    + apply existsb_exists in Eu as (e & He & Hp). exists e. by rewrite list_elem_of_In.
  - split.
    + intros e [He| ->%list_elem_of_singleton]%elem_of_app; [|by auto].
      destruct (add_envs_selected _ _ _ _ _ Ef He); auto.
    + exists "USER=nobody". split; [|done]. apply elem_of_app. right. by apply list_elem_of_singleton.
Qed.

Lemma guest_environ_witness :
  build_environ demo_env ["API_*"; "HOME"] ["TZ=UTC"] =
    Ok ["TZ=UTC"; "API_KEY=1"; "HOME=/root"; "USER=nobody"] ∧
  ∃ e, e ∈ ["TZ=UTC"; "API_KEY=1"; "HOME=/root"; "USER=nobody"] ∧ starts_with e "USER=" = true.
Proof.
  assert (build_environ demo_env ["API_*"; "HOME"] ["TZ=UTC"] =
    Ok ["TZ=UTC"; "API_KEY=1"; "HOME=/root"; "USER=nobody"]) as H by (vm_compute; reflexivity).
  split; [exact H|]. exact (proj2 (guest_environ_sound _ _ _ _ H)).
Defined.

(** Text of a volume's permissions. *)
Definition rw_text (r w : bool) : string := (if r then "r" else "") +:+ (if w then "w" else "").

Lemma parse_rw_text r w : parse_rw (rw_text r w) = Some (r, w).
Proof. by destruct r, w. Qed.

(** C39: a volume is read as [guest-path:host-path[:r?w?]]: the first part
    becomes the key guest paths are looked up by and the second part the real
    path, readable when no permissions are given and with exactly the given
    permissions otherwise; with a fourth part the value is rejected. *)
Theorem volume_grammar env m src dst r w extra :
  host_ok env → allowed_ok m → index_of ":" src = None → index_of ":" dst = None →
  index_of ":" extra = None →
  add_volume env m (join_with ":" [src; dst]) = Ok (ensure env src dst m true false false) ∧
  add_volume env m (join_with ":" [src; dst; rw_text r w]) = Ok (ensure env src dst m r w false) ∧
  add_volume env m (join_with ":" [src; dst; rw_text r w; extra]) =
    Err (ValidationError "too many parts" (join_with ":" [src; dst; rw_text r w; extra])) ∧
  ∃ vpath, map_find ComparePathSegments (ensure env src dst m r w false) (root_of env src) = Some vpath ∧
    real_path vpath = root_of env dst ∧ (r = true → readable vpath = true) ∧
    (w = true → writable vpath = true).
Proof.
  intros (Hcwd & Habs & _) Hm Hs Hd Hx.
  assert (index_of ":" (rw_text r w) = None) as Hrw by by destruct r, w.
  unfold add_volume. split_and!.
  - by rewrite split_fields by (done || by repeat constructor).
  - rewrite split_fields by (done || by repeat constructor). by rewrite parse_rw_text.
  - rewrite split_fields by (done || by repeat constructor). by rewrite parse_rw_text.
  - unfold ensure, ensure_path. fold (root_of env src) (root_of env dst).
    destruct (map_find _ m _) as [v|] eqn:Hf.
    + rewrite (map_find_update _ _ _ _ _ Hf). eexists. split_and!; [done|done|by intros ->..].
    + rewrite (map_find_emplace _ _ _ _ Hf). eexists. by split_and!.
Qed.

(** The guest reaches the host's [/guest] under the name [/host]. *)
Lemma volume_grammar_witness :
  ∃ m, add_volume demo_env [] "/host:/guest:rw" = Ok m ∧
    open_readable "/" m "/host/f" = (true, "/guest/f") ∧
    open_readable "/" m "/guest/f" = (false, "/guest/f").
Proof.
  eexists. split; [|split].
  - refine (proj1 (proj2 (volume_grammar demo_env [] "/host" "/guest" true true "" demo_host_ok
      _ _ _ _))); [repeat constructor|reflexivity..].
  - vm_compute. reflexivity.
  - vm_compute. reflexivity.
Defined.

Lemma search_path_spec env dirs program f :
  search_path env dirs program = Some f →
  ∃ before d after, dirs = before ++ d :: after ∧ executable env f = true ∧
    f = string_of_path (lexically_normal (append (path_of_string d) (path_of_string program))) ∧
    Forall (λ d, executable env (string_of_path
              (lexically_normal (append (path_of_string d) (path_of_string program)))) = false) before.
Proof.
  induction dirs as [|d dirs IH]; [done|]. cbn [search_path]. cbv zeta.
  set (filepath := string_of_path _). destruct (executable env filepath) eqn:E.
  - intros [= <-]. exists [], d, dirs. by split_and!.
  - intros H. destruct (IH H) as (before & d' & after & -> & Hx & Hf & Hb).
    exists (d :: before), d', after. split_and!; [done..|by constructor].
Qed.

(** The program [lookup_program] returns is executable; for a name without
    a slash it is the one in the first directory of [PATH] that has an
    executable of that name. *)
Lemma lookup_program_correct env program f :
  lookup_program env program = Ok f →
  executable env f = true ∧
  (index_of slash program = None →
   ∃ path_var before d after,
     getenv (host_environ env) "PATH" = Some path_var ∧
     getline_fields path_var = before ++ d :: after ∧
     f = string_of_path (lexically_normal (append (path_of_string d) (path_of_string program))) ∧
     Forall (λ d, executable env (string_of_path
               (lexically_normal (append (path_of_string d) (path_of_string program)))) = false) before).
Proof.
  unfold lookup_program. destruct (index_of slash program) as [i|] eqn:Ei.
  - destruct (executable env _) eqn:E; [|done]. by intros [= <-].
  - destruct (getenv _ _) as [path_var|]; [|done].
    destruct (search_path _ _ _) as [f'|] eqn:Es; [|done]. intros [= <-].
    apply search_path_spec in Es as (before & d & after & Hd & Hx & Hf & Hb).
    split; [done|]. intros _. by exists path_var, before, d, after.
Qed.

Lemma lookup_program_witness :
  lookup_program demo_env "app" = Ok "/bin/app" ∧ executable demo_env "/bin/app" = true.
Proof.
  assert (lookup_program demo_env "app" = Ok "/bin/app") as H by (vm_compute; reflexivity).
  split; [exact H|]. exact (proj1 (lookup_program_correct _ _ _ H)).
Defined.
