(* ===== verification/FromArgs.v ===== *)
(** * From the command line to the configuration: [Configuration::FromArgs]

    [CLI11] reads [argv] and [kvmserver.toml], stores what it finds in the
    variables that were bound to the options, and calls the callbacks.  The
    library is not part of the program; what it stored is the record [Options],
    one field for each option that [FromArgs] declares.  The rest of the function is
    here: the defaults, the handlers of [--remapping] and [--allow-all], the
    callbacks in the order the library calls them, and the ways to exit. *)

From S2P Require Import Prelude CppString OrdMap FsPath AllowedPaths Network Remap Config.

Local Open Scope string_scope.
Local Open Scope list_scope.
Local Open Scope nat_scope.

(** ** What CLI11 stores *)

(** The declared subcommands. *)
Inductive Subcommand := RunCommand | StorageCommand | PlusPlus.

#[export] Instance Subcommand_eq_dec : EqDecision Subcommand.
Proof. solve_decision. Defined.

(** An option or flag that was not given is [None]; the lists are empty then.
    The flags declared with [!] keep the value given, which CLI11 inverts. *)
Record Options := MkCliOptions {
  opt_cwd : option string;
  opt_env : list string;
  opt_threads : option Z;
  opt_ephemeral : option bool;
  opt_warmup : option Z;
  opt_snapshot_file : option string;
  opt_verbose : option bool;
  opt_verbose_syscalls : option bool;
  opt_verbose_mmap_syscalls : option bool;
  opt_verbose_thread_syscalls : option bool;
  opt_verbose_pagetables : option bool;
  opt_allow_all : option bool;
  opt_permissions : CliArgs;
  opt_max_boot_time : option Q;
  opt_max_request_time : option Q;
  opt_max_main_memory : option Z;
  opt_max_address_space : option Z;
  opt_max_request_memory : option Z;
  opt_limit_request_memory : option Z;
  opt_shared_memory : option Z;
  opt_heap_hint : option Z;
  opt_hugepage_arena_size : option Z;
  opt_hugepage_requests_arena : option Z;
  opt_no_executable_heap : option bool;
  opt_no_mmap_backed_files : option bool;
  opt_use_hugepages : option bool;
  opt_no_split_hugepages : option bool;
  opt_transparent_hugepages : option bool;
  opt_no_ephemeral_keep_working_memory : option bool;
  run_program : string;
  run_args : list string;
  run_dylink_hint : option Z;
  run_remapping : list string;
  storage_program : string;
  storage_args : list string;
  storage_1_to_1_flag : option bool;
  storage_ipre_permanent_flag : option bool;
  storage_dylink_hint : option Z;
  storage_remapping : list string;
  subcommands : list Subcommand;       (**r in the order they were given *)
  print_config : bool
}.

(** ** The program *)

(** [sub.count()] *)
Definition count (sub : Subcommand) (o : Options) : nat :=
  length (filter (λ s, s = sub) (subcommands o)).

(** The fields the callbacks of the subcommands assign. *)
Record Programs := MkPrograms { main_file : string; storage_file : string; storage_used : bool }.

(** The callback of one subcommand; [++] has none. *)
Definition subcommand_callback (host : HostEnv) (o : Options) (p : Programs) (sub : Subcommand)
    : result Programs :=
  match sub with
  | RunCommand =>
      f ← run_callback host (count RunCommand o) (main_file p);
      Ok (MkPrograms f (storage_file p) (storage_used p))
  | StorageCommand =>
      r ← storage_callback host (count StorageCommand o) (storage_file p);
      Ok (MkPrograms (main_file p) r.2 r.1)
  | PlusPlus => Ok p
  end.

(** The handler of [--remapping], called for each value. *)
Definition add_remappings (values : list string) : result (list VirtualRemapping) :=
  foldM (λ l remap, m ← add_remapping remap; Ok (l ++ [m])) values [].

Definition stored {A} (o : option A) (default_ : A) : A := default default_ o.
Definition stored_inverted (o : option bool) (default_ : bool) : bool := default default_ (negb <$> o).

(** The configuration when the callback of the application is called. *)
Definition parsed_config (host : HostEnv) (o : Options) (p : Programs)
    (run_maps storage_maps : list VirtualRemapping) : Configuration :=
  let d := default_config in {|
  main_filename := main_file p; storage_filename := storage_file p;
  snapshot_filename := stored (opt_snapshot_file o) (snapshot_filename d);
  concurrency := stored (opt_threads o) (concurrency d);
  warmup_connect_requests := stored (opt_warmup o) (warmup_connect_requests d);
  warmup_intra_connect_requests := warmup_intra_connect_requests d;
  warmup_path := warmup_path d;
  max_boot_time := stored (opt_max_boot_time o) (max_boot_time d);
  max_req_time := stored (opt_max_request_time o) (max_req_time d);
  max_address_space := stored (opt_max_address_space o) (max_address_space d);
  max_main_memory := stored (opt_max_main_memory o) (max_main_memory d);
  max_req_mem := stored (opt_max_request_memory o) (max_req_mem d);
  limit_req_mem := stored (opt_limit_request_memory o) (limit_req_mem d);
  shared_memory := stored (opt_shared_memory o) (shared_memory d);
  dylink_address_hint := stored (run_dylink_hint o) (dylink_address_hint d);
  heap_address_hint := stored (opt_heap_hint o) (heap_address_hint d);
  storage_dylink_address_hint := stored (storage_dylink_hint o) (storage_dylink_address_hint d);
  hugepage_arena_size := stored (opt_hugepage_arena_size o) (hugepage_arena_size d);
  hugepage_requests_arena := stored (opt_hugepage_requests_arena o) (hugepage_requests_arena d);
  storage := storage_used p;
  storage_1_to_1 := stored (storage_1_to_1_flag o) (storage_1_to_1 d);
  storage_ipre_permanent := stored (storage_ipre_permanent_flag o) (storage_ipre_permanent d);
  executable_heap := stored_inverted (opt_no_executable_heap o) (executable_heap d);
  mmap_backed_files := stored_inverted (opt_no_mmap_backed_files o) (mmap_backed_files d);
  hugepages := stored (opt_use_hugepages o) (hugepages d);
  split_hugepages := stored_inverted (opt_no_split_hugepages o) (split_hugepages d);
  transparent_hugepages := stored (opt_transparent_hugepages o) (transparent_hugepages d);
  ephemeral := stored (opt_ephemeral o) (ephemeral d);
  ephemeral_keep_working_memory :=
    stored_inverted (opt_no_ephemeral_keep_working_memory o) (ephemeral_keep_working_memory d);
  verbose := stored (opt_verbose o) (verbose d);
  verbose_syscalls := stored (opt_verbose_syscalls o) (verbose_syscalls d);
  verbose_mmap_syscalls := stored (opt_verbose_mmap_syscalls o) (verbose_mmap_syscalls d);
  verbose_thread_syscalls := stored (opt_verbose_thread_syscalls o) (verbose_thread_syscalls d);
  verbose_pagetable := stored (opt_verbose_pagetables o) (verbose_pagetable d);
  environ := opt_env o; main_arguments := run_args o; storage_arguments := storage_args o;
  vmem_remappings := run_maps; storage_remappings := storage_maps;
  allowed_paths := allowed_paths d;
  current_working_directory := stored (opt_cwd o) (string_of_path (current_path host));
  allowed_connect_ipv4 := []; allowed_listen_ipv4 := [];
  allowed_connect_ipv6 := []; allowed_listen_ipv6 := []
|}.

(** The permissions with [--allow-all] spelled out. *)
Definition permissions (o : Options) : CliArgs :=
  apply_allow_all (stored (opt_allow_all o) false) (opt_permissions o).

(** [app.parse]: the handlers of the options, then the callbacks of the
    subcommands in the order they were given, then that of the application. *)
Definition parse (host : HostEnv) (o : Options) : result (Configuration * list (path * string)) :=
  run_maps ← add_remappings (run_remapping o);
  storage_maps ← add_remappings (storage_remapping o);
  p ← foldM (subcommand_callback host o) (subcommands o)
        (MkPrograms (run_program o) (storage_program o) false);
  app_callback host (permissions o) (length (filter (λ s, s ≠ PlusPlus) (subcommands o)))
    (parsed_config host o p run_maps storage_maps).

(** How [FromArgs] ends when it does not throw. *)
Inductive args_end := ArgsExit (code : Z) | Args (config : Configuration).

(** What the library makes of [argv]: an error with its exit code, as for
    [--help], or the options. *)
Inductive cli_parse := CliExit (code : Z) | CliOptions (o : Options).

(** [exit_code] is [app.exit] for an error of the callbacks. *)
Definition FromArgs (host : HostEnv) (exit_code : exn → Z) (cli : cli_parse) : result args_end :=
  match cli with
  | CliExit code => Ok (ArgsExit code)
  | CliOptions o =>
      match parse host o with
      | Err (ValidationError name what) => Ok (ArgsExit (exit_code (ValidationError name what)))
      | Err e => Err e
      | Ok (config, _) => if print_config o then Ok (ArgsExit 0) else Ok (Args config)
      end
  end.

(** ** Types

    Each field of the configuration within its C++ type, each remapping within
    64 bits, the permission map in order with paths that have no dot or empty
    names, and the addresses within their bytes. *)
Definition unsigned (w z : Z) : Prop := (0 ≤ z < 2 ^ w)%Z.

Definition remapping_ok (m : VirtualRemapping) : Prop :=
  unsigned 64 (virt m) ∧ unsigned 64 (phys m) ∧ unsigned 64 (size m).

Record config_ok (c : Configuration) : Prop := {
  ok_concurrency : unsigned 16 (concurrency c);
  ok_warmups : unsigned 16 (warmup_connect_requests c);
  ok_intra : unsigned 16 (warmup_intra_connect_requests c);
  ok_address_space : unsigned 64 (max_address_space c);
  ok_main_memory : unsigned 64 (max_main_memory c);
  ok_req_mem : unsigned 32 (max_req_mem c);
  ok_limit_req_mem : unsigned 32 (limit_req_mem c);
  ok_shared_memory : unsigned 32 (shared_memory c);
  ok_dylink : unsigned 64 (dylink_address_hint c);
  ok_heap : unsigned 64 (heap_address_hint c);
  ok_storage_dylink : unsigned 64 (storage_dylink_address_hint c);
  ok_arena : unsigned 64 (hugepage_arena_size c);
  ok_requests_arena : unsigned 64 (hugepage_requests_arena c);
  ok_remappings : Forall remapping_ok (vmem_remappings c ++ storage_remappings c);
  ok_paths : allowed_ok (allowed_paths c);
  ok_connect : addr_lists_ok (allowed_connect_ipv4 c, allowed_connect_ipv6 c);
  ok_listen : addr_lists_ok (allowed_listen_ipv4 c, allowed_listen_ipv6 c)
}.

(** CLI11 refuses a number that does not fit the variable it is stored in. *)
Definition opt_unsigned (w : Z) (o : option Z) : Prop :=
  match o with Some z => unsigned w z | None => True end.

Record options_ok (o : Options) : Prop := {
  oo_threads : opt_unsigned 16 (opt_threads o);
  oo_warmup : opt_unsigned 16 (opt_warmup o);
  oo_main_memory : opt_unsigned 64 (opt_max_main_memory o);
  oo_address_space : opt_unsigned 64 (opt_max_address_space o);
  oo_request_memory : opt_unsigned 32 (opt_max_request_memory o);
  oo_limit : opt_unsigned 32 (opt_limit_request_memory o);
  oo_shared : opt_unsigned 32 (opt_shared_memory o);
  oo_heap : opt_unsigned 64 (opt_heap_hint o);
  oo_arena : opt_unsigned 64 (opt_hugepage_arena_size o);
  oo_requests_arena : opt_unsigned 64 (opt_hugepage_requests_arena o);
  oo_dylink : opt_unsigned 64 (run_dylink_hint o);
  oo_storage_dylink : opt_unsigned 64 (storage_dylink_hint o)
}.

(** The conversions of the C library return addresses. *)
Definition host_addresses_ok (host : HostEnv) : Prop :=
  (∀ s w, inet_pton4 host s = Some w → ipv4_ok w) ∧
  (∀ s b, inet_pton6 host s = Some b → ipv6_ok b) ∧
  (∀ s l, getaddrinfo host s = Some l → Forall addrinfo_ok l).

Lemma stored_unsigned w o d : opt_unsigned w o → unsigned w d → unsigned w (stored o d).
Proof. by destruct o. Qed.

Lemma wrap_unsigned w z : (0 ≤ w)%Z → unsigned w (wrap w z).
Proof. apply wrap_bound. Qed.

#[export] Hint Resolve stored_unsigned : kvm.

(** ** What [FromArgs] went through when it returned *)

Lemma FromArgs_inv host exit_code cli c :
  FromArgs host exit_code cli = Ok (Args c) →
  ∃ o run_maps storage_maps p files,
    cli = CliOptions o ∧ print_config o = false ∧
    add_remappings (run_remapping o) = Ok run_maps ∧
    add_remappings (storage_remapping o) = Ok storage_maps ∧
    foldM (subcommand_callback host o) (subcommands o)
      (MkPrograms (run_program o) (storage_program o) false) = Ok p ∧
    app_callback host (permissions o) (length (filter (λ s, s ≠ PlusPlus) (subcommands o)))
      (parsed_config host o p run_maps storage_maps) = Ok (c, files).
Proof.
  unfold FromArgs. destruct cli as [code|o]; [done|].
  destruct (parse host o) as [[c1 files]|e] eqn:Hp; [|by destruct e].
  destruct (print_config o) eqn:Hpc; [done|]. intros [= ->]. revert Hp. unfold parse.
  destruct (add_remappings (run_remapping o)) as [rm|] eqn:Hr; [|done]. cbn [mbind result_bind].
  destruct (add_remappings (storage_remapping o)) as [sm|] eqn:Hs; [|done]. cbn [mbind result_bind].
  destruct (foldM _ _ _) as [p|] eqn:Hp; [|done]. cbn [mbind result_bind]. intros Ha.
  by exists o, rm, sm, p, files.
Qed.

Lemma add_remappings_from values l l' :
  foldM (λ l remap, m ← add_remapping remap; Ok (l ++ [m])) values l = Ok l' →
  ∃ k, l' = l ++ k ∧ Forall2 (λ remap m, add_remapping remap = Ok m) values k.
Proof.
  revert l. induction values as [|v values IH]; intros l; cbn [foldM].
  - intros [= ->]. exists []. rewrite app_nil_r. by split; [|constructor].
  - destruct (add_remapping v) as [m|] eqn:Hv; [|done]. cbn [mbind result_bind].
    intros (k & -> & Hk)%IH. exists (m :: k). rewrite <-app_assoc. split; [done|by constructor].
Qed.

Lemma add_remappings_spec values l :
  add_remappings values = Ok l → Forall2 (λ remap m, add_remapping remap = Ok m) values l.
Proof. intros (k & -> & Hk)%add_remappings_from. exact Hk. Qed.

Lemma add_remappings_ok values l : add_remappings values = Ok l → Forall remapping_ok l.
Proof.
  intros H%add_remappings_spec. induction H as [|v m vs ms Hm _ IH]; constructor; [|done].
  apply add_remapping_ranges in Hm as (Hv & Hp & mb & _ & Hs & _).
  split_and!; [done|done|]. rewrite Hs. apply wrap_unsigned. lia.
Qed.

(** The number of times a subcommand is in a list. *)
Abbreviation times sub subs := (length (filter (λ s : Subcommand, s = sub) subs)).

Lemma times_elem sub subs : sub ∈ subs → 1 ≤ times sub subs.
Proof.
  intros H. assert (sub ∈ filter (λ s, s = sub) subs) as Hin by by apply list_elem_of_filter.
  destruct (filter _ subs); [by apply elem_of_nil in Hin|simpl; lia].
Qed.

Lemma subcommands_spec host o subs p p' :
  foldM (subcommand_callback host o) subs p = Ok p' →
  (RunCommand ∈ subs → count RunCommand o ≤ 1) ∧
  (StorageCommand ∈ subs → count StorageCommand o ≤ 1) ∧
  storage_used p' = storage_used p || bool_decide (StorageCommand ∈ subs) ∧
  (RunCommand ∉ subs → main_file p' = main_file p) ∧
  (StorageCommand ∉ subs → storage_file p' = storage_file p) ∧
  (times RunCommand subs = 1 → lookup_program host (main_file p) = Ok (main_file p')) ∧
  (times StorageCommand subs = 1 → lookup_program host (storage_file p) = Ok (storage_file p')).
Proof.
  revert p. induction subs as [|sub subs IH]; intros p; cbn [foldM].
  { intros [= ->]. rewrite orb_false_r. split_and!; try done; by intros ?%elem_of_nil. }
  destruct (subcommand_callback host o p sub) as [p1|] eqn:Hsub; [|done]. cbn [mbind result_bind].
  intros (H1 & H2 & H3 & H4 & H5 & H6 & H7)%IH. rewrite !filter_cons.
  destruct sub; cbn in Hsub.
  - unfold run_callback in Hsub. case_decide; [done|].
    destruct (lookup_program host (main_file p)) as [f|] eqn:Hf; [|done]. injection Hsub as <-.
    rewrite decide_True by done. rewrite decide_False by done. cbn in *.
    split_and!; [lia|set_solver|rewrite H3; f_equal; apply bool_decide_ext; set_solver|set_solver|set_solver| |done].
    intros [= Hn]. rewrite H4; [done|]. intros ?%times_elem. lia.
  - unfold storage_callback in Hsub. case_decide; [done|].
    destruct (lookup_program host (storage_file p)) as [f|] eqn:Hf; [|done]. injection Hsub as <-.
    rewrite decide_False by done. rewrite decide_True by done. cbn in *.
    split_and!; [set_solver|lia| |set_solver|set_solver|done|].
    + rewrite H3, bool_decide_true by set_solver. by rewrite orb_true_r.
    + intros [= Hn]. rewrite H5; [done|]. intros ?%times_elem. lia.
  - injection Hsub as <-. rewrite !decide_False by done.
    split_and!; [set_solver|set_solver|rewrite H3; f_equal; apply bool_decide_ext; set_solver|set_solver|set_solver|done|done].
Qed.

(** ** A concrete command line *)

(** [kvmserver -e -t 4 --allow-read=./www --volume=/data:/mnt/disk:rw
    --remapping 0x10000000:64 run app], on the host of [demo_env]. *)
Definition demo_options : Options := {|
  opt_cwd := None; opt_env := []; opt_threads := Some 4%Z; opt_ephemeral := Some true;
  opt_warmup := None; opt_snapshot_file := None; opt_verbose := None; opt_verbose_syscalls := None;
  opt_verbose_mmap_syscalls := None; opt_verbose_thread_syscalls := None; opt_verbose_pagetables := None;
  opt_allow_all := None;
  opt_permissions := MkCli ["./www"] [] ["/data:/mnt/disk:rw"] [] [] [] ["10.0.0.1:443"];
  opt_max_boot_time := None; opt_max_request_time := None; opt_max_main_memory := None;
  opt_max_address_space := None; opt_max_request_memory := None; opt_limit_request_memory := None;
  opt_shared_memory := None; opt_heap_hint := None; opt_hugepage_arena_size := None;
  opt_hugepage_requests_arena := None; opt_no_executable_heap := Some true;
  opt_no_mmap_backed_files := None; opt_use_hugepages := None; opt_no_split_hugepages := None;
  opt_transparent_hugepages := None; opt_no_ephemeral_keep_working_memory := None;
  run_program := "app"; run_args := []; run_dylink_hint := None; run_remapping := ["0x10000000:64"];
  storage_program := ""; storage_args := []; storage_1_to_1_flag := None;
  storage_ipre_permanent_flag := None; storage_dylink_hint := None; storage_remapping := [];
  subcommands := [RunCommand]; print_config := false
|}.

(** CLI11's exit code of a validation error. *)
Definition demo_exit_code : exn → Z := λ _, 105%Z.

Lemma demo_addresses_ok : host_addresses_ok demo_env.
Proof.
  split_and!; simpl.
  - intros s w. unfold demo_pton4. case_decide; [|done]. intros [= <-]. unfold ipv4_ok. lia.
  - intros s b. unfold demo_pton6. case_decide; [|done]. intros [= <-].
    split; [done|]. repeat constructor; lia.
  - done.
Qed.

Lemma demo_options_ok : options_ok demo_options.
Proof. by split; simpl; unfold unsigned; try lia. Qed.

(** ** Claims *)

(** C11: the configuration [FromArgs] returns is well typed: whatever is on the
    command line, every number is within its C++ type, with the sizes that were
    scaled, every remapping's addresses and size fit 64 bits, the permission map
    is sorted with canonical paths, as the lookup needs it, and the
    network entries are addresses. *)
Theorem from_args_well_typed host exit_code o c :
  options_ok o → host_ok host → host_addresses_ok host →
  FromArgs host exit_code (CliOptions o) = Ok (Args c) →
  config_ok c.
Proof.
  intros Ho Hh (H4 & H6 & Hg) (o' & rm & sm & p & files & [= <-] & _ & Hrm & Hsm & _ & Ha)%FromArgs_inv.
  destruct (app_callback_paths _ _ _ (parsed_config host o p rm sm) _ _ Hh eq_refl Ha) as [_ Hpaths].
  apply app_callback_inv in Ha as (paths & genv & net & _ & _ & Hnet & ->).
  apply (network_config_ok _ _ _ H4 H6 Hg) in Hnet as [Hc Hl].
  apply add_remappings_ok in Hrm, Hsm. destruct Ho.
  split; cbn -[Z.mul Z.pow wrap stored unsigned]; try (apply wrap_unsigned; lia);
    try (apply stored_unsigned; [done|unfold unsigned; lia]).
  - destruct (_ =? 0)%Z; [apply wrap_unsigned; lia|]. apply stored_unsigned; [done|unfold unsigned; lia].
  - unfold unsigned. lia.
  - by apply Forall_app_2.
  - exact Hpaths.
  - by destruct (allowed_connect net).
  - by destruct (allowed_listen net).
Qed.

Lemma from_args_well_typed_witness :
  ∃ c, FromArgs demo_env demo_exit_code (CliOptions demo_options) = Ok (Args c) ∧
    unsigned 32 (max_req_mem c) ∧ max_req_mem c = (128 * 2 ^ 20)%Z.
Proof.
  eexists. split; [vm_compute; reflexivity|]. split; [|vm_compute; reflexivity].
  eapply ok_req_mem, (from_args_well_typed demo_env demo_exit_code demo_options).
  - exact demo_options_ok.
  - exact demo_host_ok.
  - exact demo_addresses_ok.
  - vm_compute. reflexivity.
Defined.

(** C12: what [FromArgs] returns, field by field.  A subcommand was given and none
    twice; the programs are what [lookup_program] finds for the names given, and
    the storage machine is used exactly with its subcommand; the number of request
    machines is the one given, 1 by default, or the number of processors for 0;
    each remapping is the one its text means, in order.  Every other option is in its
    field, the flags that begin with [--no-] inverted, or the field has its
    default; the sizes are then raised to bytes.  (The permission map, the
    environment and the network entries have theorems of their own.) *)
Theorem from_args_correct host exit_code o c :
  FromArgs host exit_code (CliOptions o) = Ok (Args c) →
  (RunCommand ∈ subcommands o ∨ StorageCommand ∈ subcommands o) ∧
  (RunCommand ∈ subcommands o → count RunCommand o = 1 ∧
     lookup_program host (run_program o) = Ok (main_filename c)) ∧
  (StorageCommand ∈ subcommands o → count StorageCommand o = 1 ∧
     lookup_program host (storage_program o) = Ok (storage_filename c)) ∧
  storage c = bool_decide (StorageCommand ∈ subcommands o) ∧
  concurrency c =
    match opt_threads o with
    | Some n => if (n =? 0)%Z then u16 (hardware_concurrency host) else n
    | None => 1%Z
    end ∧
  Forall2 (λ s m, add_remapping s = Ok m) (run_remapping o) (vmem_remappings c) ∧
  Forall2 (λ s m, add_remapping s = Ok m) (storage_remapping o) (storage_remappings c) ∧
  (* the guest and the requests *)
  ephemeral c = default false (opt_ephemeral o) ∧
  ephemeral_keep_working_memory c = default true (negb <$> opt_no_ephemeral_keep_working_memory o) ∧
  snapshot_filename c = default "" (opt_snapshot_file o) ∧
  warmup_connect_requests c = default 0%Z (opt_warmup o) ∧
  warmup_intra_connect_requests c = 1%Z ∧ warmup_path c = "/" ∧
  main_arguments c = run_args o ∧ storage_arguments c = storage_args o ∧
  current_working_directory c = default (string_of_path (current_path host)) (opt_cwd o) ∧
  max_boot_time c = default 20%Q (opt_max_boot_time o) ∧
  max_req_time c = default 8%Q (opt_max_request_time o) ∧
  (* memory *)
  executable_heap c = default true (negb <$> opt_no_executable_heap o) ∧
  mmap_backed_files c = default true (negb <$> opt_no_mmap_backed_files o) ∧
  hugepages c = default false (opt_use_hugepages o) ∧
  split_hugepages c = default true (negb <$> opt_no_split_hugepages o) ∧
  transparent_hugepages c = default false (opt_transparent_hugepages o) ∧
  hugepage_arena_size c = default 0%Z (opt_hugepage_arena_size o) ∧
  hugepage_requests_arena c = default 0%Z (opt_hugepage_requests_arena o) ∧
  (let main_memory := default 8192%Z (opt_max_main_memory o) in
   max_main_memory c = u64 (main_memory * 2 ^ 20) ∧
   max_address_space c = u64 (Z.max (default 122880%Z (opt_max_address_space o)) main_memory * 2 ^ 20)) ∧
  max_req_mem c = u32 (default 128%Z (opt_max_request_memory o) * 2 ^ 20) ∧
  limit_req_mem c = u32 (default 128%Z (opt_limit_request_memory o) * 2 ^ 20) ∧
  shared_memory c = u32 (default 0%Z (opt_shared_memory o) * 2 ^ 20) ∧
  dylink_address_hint c = u64 (default 2%Z (run_dylink_hint o) * 2 ^ 20) ∧
  heap_address_hint c = u64 (default 256%Z (opt_heap_hint o) * 2 ^ 20) ∧
  storage_dylink_address_hint c = default 0x2000200000%Z (storage_dylink_hint o) ∧
  (* the storage machine *)
  storage_1_to_1 c = default false (storage_1_to_1_flag o) ∧
  storage_ipre_permanent c = default false (storage_ipre_permanent_flag o) ∧
  (* messages *)
  verbose c = default false (opt_verbose o) ∧
  verbose_syscalls c = default false (opt_verbose_syscalls o) ∧
  verbose_mmap_syscalls c = default false (opt_verbose_mmap_syscalls o) ∧
  verbose_thread_syscalls c = default false (opt_verbose_thread_syscalls o) ∧
  verbose_pagetable c = default false (opt_verbose_pagetables o).
Proof.
  intros (o' & rm & sm & p & files & [= <-] & _ & Hrm & Hsm & Hp & Ha)%FromArgs_inv.
  apply add_remappings_spec in Hrm, Hsm.
  assert (RunCommand ∈ subcommands o ∨ StorageCommand ∈ subcommands o) as Hsub.
  { revert Ha. unfold app_callback. case_decide as Hn; [done|]. intros _.
    destruct (filter _ (subcommands o)) as [|s l] eqn:Hf; [done|].
    assert (s ∈ filter (λ s, s ≠ PlusPlus) (subcommands o)) as Hin by (rewrite Hf; left).
    apply list_elem_of_filter in Hin as [Hne Hin]. destruct s; auto. done. }
  apply subcommands_spec in Hp as (H1 & H2 & H3 & _ & _ & H6 & H7).
  apply app_callback_inv in Ha as (paths & genv & net & _ & _ & _ & ->).
  unfold count in *. split_and!; [done| | |done| |done..].
  - intros Hin. pose proof (times_elem _ _ Hin). specialize (H1 Hin).
    assert (times RunCommand (subcommands o) = 1) as Hone by lia. split; [done|]. by apply H6.
  - intros Hin. pose proof (times_elem _ _ Hin). specialize (H2 Hin).
    assert (times StorageCommand (subcommands o) = 1) as Hone by lia. split; [done|]. by apply H7.
  - cbn. unfold stored. by destruct (opt_threads o).
Qed.

Lemma from_args_correct_witness :
  ∃ c, FromArgs demo_env demo_exit_code (CliOptions demo_options) = Ok (Args c) ∧
    lookup_program demo_env "app" = Ok (main_filename c) ∧ executable_heap c = false.
Proof.
  eexists. split; [vm_compute; reflexivity|]. split; [|vm_compute; reflexivity].
  eapply (from_args_correct demo_env demo_exit_code demo_options).
  - vm_compute. reflexivity.
  - left.
Defined.
