(* ===== verification/Effect.v ===== *)
(** * State with exceptions

    A C++ member function changes the object and returns a value or throws;
    what it changed before the throw stays changed.  [st S A] is such a
    function: the result and the state it leaves, in both cases.  The file has
    the monad, [try]/[catch], its laws, and the specification form the
    components' invariants are stated in. *)

From S2P Require Import Prelude.

Definition st (S A : Type) : Type := S → result A * S.

#[export] Instance st_ret {S} : MRet (st S) := λ A a s, (Ok a, s).
#[export] Instance st_bind {S} : MBind (st S) := λ A B f c s,
  match c s with
  | (Ok a, s) => f a s
  | (Err e, s) => (Err e, s)
  end.

Section prims.
Context {S : Type}.

Definition get : st S S := λ s, (Ok s, s).
Definition gets {A} (f : S → A) : st S A := λ s, (Ok (f s), s).
Definition modify (f : S → S) : st S unit := λ s, (Ok tt, f s).
Definition raise {A} (e : exn) : st S A := λ s, (Err e, s).

(** A pure function that may throw. *)
Definition lift {A} (r : result A) : st S A := λ s, (r, s).

(** [try { c } catch (e) { h(e) }] *)
Definition try_catch {A} (c : st S A) (h : exn → st S A) : st S A := λ s,
  match c s with
  | (Ok a, s) => (Ok a, s)
  | (Err e, s) => if catchable e then h e s else (Err e, s)
  end.

(** Destructors that run when [c] throws. *)
Definition on_unwind {A} (c : st S A) (cleanup : st S unit) : st S A := λ s,
  match c s with
  | (Ok a, s) => (Ok a, s)
  | (Err e, s) => (Err e, (cleanup s).2)
  end.

Definition when (b : bool) (c : st S unit) : st S unit := if b then c else mret tt.
End prims.

(** ** Laws *)

Lemma st_bind_ret_l {S A B} (a : A) (f : A → st S B) s : (mret a ≫= f) s = f a s.
Proof. done. Qed.

Lemma st_bind_ret_r {S A} (c : st S A) s : (c ≫= mret) s = c s.
Proof. unfold mbind, st_bind, mret, st_ret. by destruct (c s) as [[]]. Qed.

Lemma st_bind_assoc {S A B C} (c : st S A) (f : A → st S B) (g : B → st S C) s :
  ((c ≫= f) ≫= g) s = (c ≫= (λ a, f a ≫= g)) s.
Proof. unfold mbind, st_bind. by destruct (c s) as [[]]. Qed.

(** ** Specifications

    [spec P c Q]: from a state with [P], the result and the state [c] leaves
    satisfy [Q], whether it returns or throws. *)

Definition spec {S A} (P : S → Prop) (c : st S A) (Q : result A → S → Prop) : Prop :=
  ∀ s, P s → Q (c s).1 (c s).2.

(** [c] keeps [I], also when it throws. *)
Definition preserves {S A} (I : S → Prop) (c : st S A) : Prop := spec I c (λ _, I).

Section spec.
Context {S : Type} (I : S → Prop).

Lemma preserves_ret {A} (a : A) : preserves I (mret a).
Proof. by intros s. Qed.

Lemma preserves_raise {A} e : preserves I (raise (A := A) e).
Proof. by intros s. Qed.

Lemma preserves_lift {A} (r : result A) : preserves I (lift r).
Proof. by intros s. Qed.

Lemma preserves_get : preserves I get.
Proof. by intros s. Qed.

Lemma preserves_gets {A} (f : S → A) : preserves I (gets f).
Proof. by intros s. Qed.

Lemma preserves_modify f : (∀ s, I s → I (f s)) → preserves I (modify f).
Proof. intros H s. apply H. Qed.

Lemma preserves_bind {A B} (c : st S A) (f : A → st S B) :
  preserves I c → (∀ a, preserves I (f a)) → preserves I (c ≫= f).
Proof.
  intros Hc Hf s Hs. specialize (Hc s Hs). unfold mbind, st_bind.
  destruct (c s) as [[a|e] s']; [by apply Hf|done].
Qed.

Lemma preserves_try {A} (c : st S A) h :
  preserves I c → (∀ e, preserves I (h e)) → preserves I (try_catch c h).
Proof.
  intros Hc Hh s Hs. specialize (Hc s Hs). unfold try_catch.
  destruct (c s) as [[a|e] s']; [done|]. destruct (catchable e); [by apply Hh|done].
Qed.

Lemma preserves_unwind {A} (c : st S A) cleanup :
  preserves I c → preserves I cleanup → preserves I (on_unwind c cleanup).
Proof.
  intros Hc Hd s Hs. specialize (Hc s Hs). unfold on_unwind.
  destruct (c s) as [[a|e] s']; [done|]. by apply Hd.
Qed.

Lemma preserves_when b c : preserves I c → preserves I (when b c).
Proof. destruct b; [done|]. intros _. apply preserves_ret. Qed.
End spec.

(** The state after [c] then [f], when [c] returns. *)
Lemma st_bind_ok {S A B} (c : st S A) (f : A → st S B) s a s' :
  c s = (Ok a, s') → (c ≫= f) s = f a s'.
Proof. unfold mbind, st_bind. by intros ->. Qed.

Lemma st_bind_err {S A B} (c : st S A) (f : A → st S B) s e s' :
  c s = (Err e, s') → (c ≫= f) s = (Err e, s').
Proof. unfold mbind, st_bind. by intros ->. Qed.

(** What a [try] block gives: the value of its body, or of the handler. *)
Lemma try_catch_ok {S A} (c : st S A) h s a s' :
  try_catch c h s = (Ok a, s') →
  c s = (Ok a, s') ∨ ∃ e s1, c s = (Err e, s1) ∧ h e s1 = (Ok a, s').
Proof.
  unfold try_catch. destruct (c s) as [[b|e] s1]; [by left|]. destruct (catchable e); [|done]. eauto.
Qed.

(** Destructors do not change what a function returns. *)
Lemma on_unwind_ok {S A} (c : st S A) cleanup s a s' :
  on_unwind c cleanup s = (Ok a, s') ↔ c s = (Ok a, s').
Proof. unfold on_unwind. by destruct (c s) as [[]]. Qed.

Lemma on_unwind_err {S A} (c : st S A) cleanup s e s' :
  on_unwind c cleanup s = (Err e, s') → ∃ s1, c s = (Err e, s1) ∧ s' = (cleanup s1).2.
Proof. unfold on_unwind. destruct (c s) as [[]] eqn:E; [done|]. intros [= <- <-]. eauto. Qed.

(** A sequence that returned: both parts did. *)
Lemma st_bind_inv {S A B} (c : st S A) (f : A → st S B) s b s' :
  (c ≫= f) s = (Ok b, s') → ∃ a s1, c s = (Ok a, s1) ∧ f a s1 = (Ok b, s').
Proof. unfold mbind, st_bind. destruct (c s) as [[a|e] s1]; [eauto|done]. Qed.

#[export] Hint Resolve preserves_ret preserves_raise preserves_lift preserves_get preserves_gets
  preserves_when : kvm.

Lemma spec_conseq {S A} (P P' : S → Prop) (c : st S A) (Q Q' : result A → S → Prop) :
  spec P c Q → (∀ s, P' s → P s) → (∀ r s, Q r s → Q' r s) → spec P' c Q'.
Proof. intros Hc HP HQ s Hs. apply HQ, Hc, HP, Hs. Qed.

Lemma spec_bind {S A B} (P : S → Prop) (c : st S A) (f : A → st S B) (R : A → S → Prop)
    (Q : result B → S → Prop) :
  spec P c (λ r s, match r with Ok a => R a s | Err e => Q (Err e) s end) →
  (∀ a, spec (R a) (f a) Q) → spec P (c ≫= f) Q.
Proof.
  intros Hc Hf s Hs. specialize (Hc s Hs). unfold mbind, st_bind.
  destruct (c s) as [[a|e] s']; [by apply Hf|done].
Qed.

(** Split a hypothesis that a sequence returned. *)
Ltac inv_bind H :=
  let a := fresh "a" in let s := fresh "s" in let H1 := fresh "Hstep" in
  apply st_bind_inv in H as (a & s & H1 & H).

(** Evaluate the operations of the monad on a state. *)
Ltac run_st :=
  unfold mbind, st_bind, mret, st_ret, get, gets, modify, raise, lift, when, try_catch, on_unwind in *;
  cbn beta iota in *.
