(* ===== verification/Tinykvm.v ===== *)
(** * The interface to [tinykvm]

    [tinykvm] is a submodule and not part of the program.  What the program
    uses of [tinykvm::Machine] and [tinykvm::FileDescriptors] is the class
    below; the theorems hold for every implementation of it.  The laws state
    what the program relies on: registers that were set are read back, a machine
    that was forked or reset without an exception shows the guest the state of
    the machine it was forked from or reset to, a managed descriptor gets a number
    that is not negative, and new descriptor tables have no callbacks.  Operations
    that throw return a [result]; those after whose exception the machine goes on to
    be used, as a reset or the resumption of a remote machine, are functions of the monad [st]. *)

From S2P Require Import Prelude Remap Effect.

(** The registers the program reads or writes. *)
Record Registers := MkRegs {
  rax : Z; rcx : Z; rdi : Z; rsi : Z; rip : Z; r11 : Z; rflags : Z
}.

Definition set_rax (v : Z) (r : Registers) : Registers :=
  MkRegs v (rcx r) (rdi r) (rsi r) (rip r) (r11 r) (rflags r).

(** [tinykvm::MachineOptions]; [None] is a member the designated initialiser
    leaves at the library's default. *)
Record MachineOptions := MkOptions {
  max_mem : option Z;
  max_cow_mem : option Z;
  opt_dylink_address_hint : option Z;
  opt_heap_address_hint : option Z;
  vmem_base_address : option Z;
  remappings : option (list VirtualRemapping);
  opt_verbose_loader : option bool;
  opt_hugepages : option bool;
  master_direct_memory_writes : option bool;
  opt_split_hugepages : option bool;
  opt_executable_heap : option bool;
  opt_mmap_backed_files : option bool;
  snapshot_file : option string;
  hugepages_arena_size : option Z;
  stack_size : option Z;
  reset_free_work_mem : option Z;
  reset_copy_all_registers : option bool;
  reset_keep_all_work_memory : option bool
}.

(** What [tinykvm::is_dynamic_elf] reports of a binary. *)
Record DynamicElf := MkElf { has_interpreter : bool; is_dynamic : bool }.
Class TinyElf := is_dynamic_elf : string → DynamicElf.

(** ** The callbacks of a descriptor table

    Which of the program's functions a callback holds: none, the one that
    [initialize], [warmup] or a constructor installs.  The closures of [warmup]
    refer to its locals; [..Dangling] is such a closure after an exception has
    left [warmup]. *)
Inductive accept_cb := AcceptNone | AcceptInit | AcceptWarmup | AcceptFork | AcceptDangling.
Inductive accept_socket_cb := SocketNone | SocketWarmup | SocketFork | SocketDangling.
Inductive free_fd_cb := FreeNone | FreeWarmup | FreeFork | FreeDangling.
Inductive wait_cb := WaitNone | WaitInit | WaitWarmup | WaitDangling.
Inductive listen_cb := ListenNone | ListenValidate | ListenInit.
Inductive address_cb := AddressNone | AddressMain.
Inductive symlink_cb := SymlinkNone | SymlinkMain.

Record FdCallbacks := MkFds {
  accept_callback : accept_cb;
  accept_socket_callback : accept_socket_cb;
  free_fd_callback : free_fd_cb;
  epoll_wait_callback : wait_cb;
  poll_callback : wait_cb;
  listening_socket_callback : listen_cb;
  connect_socket_callback : address_cb;
  bind_socket_callback : address_cb;
  resolve_symlink_callback : symlink_cb;
  preempt_epoll_wait : bool
}.

Definition no_callbacks : FdCallbacks :=
  MkFds AcceptNone SocketNone FreeNone WaitNone WaitNone ListenNone AddressNone AddressNone
    SymlinkNone false.

(** ** The machine *)
Class TinyKVM (M : Type) := {
  new_machine : string → MachineOptions → result M;  (**r [Machine(binary, options)] *)
  fork_machine : MachineOptions → M → result M;      (**r [Machine(const Machine&, options)] *)
  machine_reset_to : MachineOptions → M → st M unit; (**r [m.reset_to(other, options)] *)
  registers : M → Registers;
  set_registers : Registers → M → M;
  copy_to_guest : Z → list Z → st M unit;
  prepare_copy_on_write : option Z → M → result M;
  setup_linux : list string → list string → M → result M;
  max_address : M → Z;
  has_snapshot_state : M → bool;
  has_snapshot_area : M → bool;                      (**r [main_memory().has_snapshot_area()] *)
  remote : M → result M;
  set_remote : M → M → M;                            (**r the remote machine, changed through [remote()] *)
  remote_connect : M → M → M;
  permanent_remote_connect : M → M → M;
  ipre_permanent_remote_resume_now : st M unit;
  ipre_remote_resume_now : bool → st M unit → st M unit;
  initial_fds : FdCallbacks;                         (**r [fds()] of a new machine *)
  forked_fds : FdCallbacks → FdCallbacks;            (**r [fds()] of a forked machine *)
  set_cwd : string → M → M;                          (**r [fds().set_current_working_directory] *)
  cwd : M → string;
  manage : Z → M → result (Z * M);                   (**r [fds().manage(fd, true, true)] *)
  epoll_fds : M → Z → result (gset Z);               (**r [fds().get_epoll_entry_for_vfd(vfd).epoll_fds] *)
  is_writable_path : M → string → bool * string;     (**r [fds().is_writable_path]; the path is in-out *)
  is_readable_path : M → string → bool * string
}.

(** [G] is the state of the guest program: its memory and registers. *)
Class TinyKVMLaws (M G : Type) `{TinyKVM M} (guest_state : M → G) : Prop := {
  registers_set r m : registers (set_registers r m) = r;
  registers_cow o m m' : prepare_copy_on_write o m = Ok m' → registers m' = registers m;
  guest_state_fork o m m' : fork_machine o m = Ok m' → guest_state m' = guest_state m;
  guest_state_cwd d m : guest_state (set_cwd d m) = guest_state m;
  guest_state_reset o other m m' :
    machine_reset_to o other m = (Ok tt, m') → guest_state m' = guest_state other;
  guest_state_connect m s : guest_state (remote_connect m s) = guest_state m;
  guest_state_set_remote r m : guest_state (set_remote r m) = guest_state m;
  guest_state_permanent m s : guest_state (permanent_remote_connect m s) = guest_state m;
  manage_nonneg fd m vfd m' : manage fd m = Ok (vfd, m') → (0 ≤ vfd)%Z;
  initial_fds_none : initial_fds = no_callbacks;
  forked_fds_none f : forked_fds f = no_callbacks
}.

(** What [tinykvm] documents of a machine's remote machine: only connecting gives a machine
    one, so that one without stays without; a reset does not connect it either; and [remote()]
    is what was set. *)
Class RemoteLaws (M : Type) `{TinyKVM M} : Prop := {
  remote_set r m x : remote m = Ok x → remote (set_remote r m) = Ok r;
  none_registers r m e : remote m = Err e → remote (set_registers r m) = Err e;
  none_manage fd m vfd m' e : manage fd m = Ok (vfd, m') → remote m = Err e → remote m' = Err e;
  none_reset o other m e : remote m = Err e → remote (machine_reset_to o other m).2 = Err e;
  none_resume b f m e :
    (∀ x, remote x = Err e → remote (f x).2 = Err e) →
    remote m = Err e → remote (ipre_remote_resume_now b f m).2 = Err e
}.

(** An operation of the remote machine of [m], through the reference [m.remote()]. *)
Definition on_remote `{TinyKVM M} {A} (c : st M A) : st M A := λ m,
  match remote m with
  | Err e => (Err e, m)
  | Ok r => let '(a, r) := c r in (a, set_remote r m)
  end.

Lemma on_remote_none `{TinyKVM M} {A} (c : st M A) m e : remote m = Err e → on_remote c m = (Err e, m).
Proof. unfold on_remote. by intros ->. Qed.

(** ** A model of the interface

    A small machine that has the operations and the laws: registers, a memory
    that keeps what was copied to the guest, the program arguments, the
    descriptor numbers handed out, one epoll set and the remote machine. *)

Inductive ToyMachine := MkToy {
  toy_regs : Registers; toy_memory : list (Z * list Z); toy_args : list string;
  toy_cwd : string; toy_next_vfd : nat; toy_epoll : gset Z; toy_remote : option ToyMachine
}.

(** The guest or the host writes to the guest's memory. *)
Definition toy_write (a : Z) (b : list Z) (m : ToyMachine) : ToyMachine :=
  MkToy (toy_regs m) ((a, b) :: toy_memory m) (toy_args m) (toy_cwd m) (toy_next_vfd m) (toy_epoll m) (toy_remote m).

Definition toy_connect (r m : ToyMachine) : ToyMachine :=
  MkToy (toy_regs m) (toy_memory m) (toy_args m) (toy_cwd m) (toy_next_vfd m) (toy_epoll m) (Some r).

#[export] Instance toy_tinykvm : TinyKVM ToyMachine := {|
  new_machine binary _ := Ok (MkToy (MkRegs 0 0 0 0 0 0 0) [] [binary] "/"%string 4 ∅ None);
  fork_machine _ m := Ok m;
  machine_reset_to _ other m :=
    (Ok tt, MkToy (toy_regs other) (toy_memory other) (toy_args other) (toy_cwd other) (toy_next_vfd other)
       (toy_epoll other) (toy_remote m));
  registers := toy_regs;
  set_registers r m := MkToy r (toy_memory m) (toy_args m) (toy_cwd m) (toy_next_vfd m) (toy_epoll m) (toy_remote m);
  copy_to_guest a b m := (Ok tt, toy_write a b m);
  prepare_copy_on_write _ m := Ok m;
  setup_linux args envp m :=
    Ok (MkToy (toy_regs m) (toy_memory m) (args ++ envp) (toy_cwd m) (toy_next_vfd m) (toy_epoll m) (toy_remote m));
  max_address _ := (2 ^ 30)%Z;
  has_snapshot_state _ := false;
  has_snapshot_area _ := false;
  remote m := match toy_remote m with Some r => Ok r | None => Err (MachineError "no remote") end;
  set_remote := toy_connect;
  remote_connect m r := toy_connect r m;
  permanent_remote_connect m r := toy_connect r m;
  ipre_permanent_remote_resume_now m := (Ok tt, m);
  ipre_remote_resume_now _ f m := f m;
  initial_fds := no_callbacks;
  forked_fds _ := no_callbacks;
  set_cwd d m :=
    MkToy (toy_regs m) (toy_memory m) (toy_args m) d (toy_next_vfd m) (toy_epoll m) (toy_remote m);
  cwd := toy_cwd;
  manage fd m :=
    Ok (Z.of_nat (toy_next_vfd m),
     MkToy (toy_regs m) (toy_memory m) (toy_args m) (toy_cwd m) (S (toy_next_vfd m)) (toy_epoll m) (toy_remote m));
  epoll_fds m _ := Ok (toy_epoll m);
  is_writable_path _ p := (String.prefix "/tmp/" p, p);
  is_readable_path _ p := (String.prefix "/tmp/" p, p)
|}.

Definition toy_guest (m : ToyMachine) : Registers * list (Z * list Z) * list string :=
  (toy_regs m, toy_memory m, toy_args m).

#[export] Instance toy_laws : TinyKVMLaws ToyMachine _ toy_guest.
Proof.
  split; try done.
  - by intros o m m' [= <-].
  - by intros o m m' [= <-].
  - by intros o other m m' [= <-].
  - intros fd m vfd m' [= <- _]. lia.
Qed.

#[export] Instance toy_remote_laws : RemoteLaws ToyMachine.
Proof.
  split; cbn; try done.
  - by intros fd m vfd m' e [= _ <-].
  - intros b f m e Hf. apply Hf.
Qed.

Definition toy_machine : ToyMachine := MkToy (MkRegs 0 0 0 0 0 0 0) [] [] "/" 4 {[3%Z]} None.
