(* ===== verification/Vm.v ===== *)
(** * The virtual machine object: [struct VirtualMachine] of [vm.hpp], [vm.cpp]

    The state of a [VirtualMachine], its two constructors, the callbacks it
    installs in the machine's descriptor table and the system calls it handles.

    The guest is the environment.  While it runs, [tinykvm] calls the installed
    callbacks, in an order the guest chooses: a run is the list of these events,
    with the way the run ends when no callback stopped it.  What a callback does
    is a function on the state; the theorems quantify over all runs. *)

From S2P Require Import Prelude CppString FsPath AllowedPaths Network Remap Config Effect Tinykvm.

Local Open Scope string_scope.
Local Open Scope list_scope.
Local Open Scope nat_scope.

(** ** Data *)

Inductive BinaryType := Static | StaticPie | Dynamic.

(** [enum PollMethod]; the first constructor is [Undefined]. *)
Inductive PollMethod := PollUndefined | Blocking | Poll | Epoll.

#[export] Instance PollMethod_eq_dec : EqDecision PollMethod.
Proof. solve_decision. Defined.

Definition EAGAIN : Z := 11.
Definition EINTR : Z := 4.
Definition SOCK_NONBLOCK : Z := 0x800.

(** [NUM_WARMUP_THREADS] of [warmup.cpp]. *)
Definition NUM_WARMUP_THREADS : Z := 1.

Section vm.
Context {M : Type}.

(** [m_on_reset_callback] holds the loop index the closure of [main] captured,
    [fds] the callbacks of [machine().fds()], and [stopped] whether
    [machine().stop()] was called in the current run. *)
Inductive VirtualMachine := MkVM {
  m_machine : M;
  m_config : Configuration;
  m_original_binary : string;
  m_binary_type : BinaryType;
  m_reqid : Z;
  m_ephemeral : bool;
  m_is_storage : bool;
  m_reset_needed : bool;
  m_waiting_for_requests : bool;
  m_blocking_connections : bool;
  m_tracked_client_fd : Z;
  m_tracked_client_vfd : Z;
  m_poll_method : PollMethod;
  m_on_reset_callback : option nat;
  m_master_instance : option VirtualMachine;
  fds : FdCallbacks;
  stopped : bool
}.

Definition set_machine (x_m_machine : M) (v : VirtualMachine) : VirtualMachine :=
  MkVM x_m_machine (m_config v) (m_original_binary v) (m_binary_type v) (m_reqid v)
    (m_ephemeral v) (m_is_storage v) (m_reset_needed v) (m_waiting_for_requests v)
    (m_blocking_connections v) (m_tracked_client_fd v) (m_tracked_client_vfd v)
    (m_poll_method v) (m_on_reset_callback v) (m_master_instance v) (fds v)
    (stopped v).

Definition set_binary_type (x_m_binary_type : BinaryType) (v : VirtualMachine) : VirtualMachine :=
  MkVM (m_machine v) (m_config v) (m_original_binary v) x_m_binary_type (m_reqid v)
    (m_ephemeral v) (m_is_storage v) (m_reset_needed v) (m_waiting_for_requests v)
    (m_blocking_connections v) (m_tracked_client_fd v) (m_tracked_client_vfd v)
    (m_poll_method v) (m_on_reset_callback v) (m_master_instance v) (fds v)
    (stopped v).

Definition set_reset_needed (x_m_reset_needed : bool) (v : VirtualMachine) : VirtualMachine :=
  MkVM (m_machine v) (m_config v) (m_original_binary v) (m_binary_type v) (m_reqid v)
    (m_ephemeral v) (m_is_storage v) x_m_reset_needed (m_waiting_for_requests v)
    (m_blocking_connections v) (m_tracked_client_fd v) (m_tracked_client_vfd v)
    (m_poll_method v) (m_on_reset_callback v) (m_master_instance v) (fds v)
    (stopped v).

Definition set_waiting_for_requests (x_m_waiting_for_requests : bool) (v : VirtualMachine) : VirtualMachine :=
  MkVM (m_machine v) (m_config v) (m_original_binary v) (m_binary_type v) (m_reqid v)
    (m_ephemeral v) (m_is_storage v) (m_reset_needed v) x_m_waiting_for_requests
    (m_blocking_connections v) (m_tracked_client_fd v) (m_tracked_client_vfd v)
    (m_poll_method v) (m_on_reset_callback v) (m_master_instance v) (fds v)
    (stopped v).

Definition set_blocking_connections (x_m_blocking_connections : bool) (v : VirtualMachine) : VirtualMachine :=
  MkVM (m_machine v) (m_config v) (m_original_binary v) (m_binary_type v) (m_reqid v)
    (m_ephemeral v) (m_is_storage v) (m_reset_needed v) (m_waiting_for_requests v)
    x_m_blocking_connections (m_tracked_client_fd v) (m_tracked_client_vfd v)
    (m_poll_method v) (m_on_reset_callback v) (m_master_instance v) (fds v)
    (stopped v).

Definition set_tracked_client (x_m_tracked_client_fd : Z) (x_m_tracked_client_vfd : Z) (v : VirtualMachine) : VirtualMachine :=
  MkVM (m_machine v) (m_config v) (m_original_binary v) (m_binary_type v) (m_reqid v)
    (m_ephemeral v) (m_is_storage v) (m_reset_needed v) (m_waiting_for_requests v)
    (m_blocking_connections v) x_m_tracked_client_fd x_m_tracked_client_vfd
    (m_poll_method v) (m_on_reset_callback v) (m_master_instance v) (fds v)
    (stopped v).

Definition set_poll_method (x_m_poll_method : PollMethod) (v : VirtualMachine) : VirtualMachine :=
  MkVM (m_machine v) (m_config v) (m_original_binary v) (m_binary_type v) (m_reqid v)
    (m_ephemeral v) (m_is_storage v) (m_reset_needed v) (m_waiting_for_requests v)
    (m_blocking_connections v) (m_tracked_client_fd v) (m_tracked_client_vfd v)
    x_m_poll_method (m_on_reset_callback v) (m_master_instance v) (fds v) (stopped v).

Definition set_on_reset_callback (x_m_on_reset_callback : option nat) (v : VirtualMachine) : VirtualMachine :=
  MkVM (m_machine v) (m_config v) (m_original_binary v) (m_binary_type v) (m_reqid v)
    (m_ephemeral v) (m_is_storage v) (m_reset_needed v) (m_waiting_for_requests v)
    (m_blocking_connections v) (m_tracked_client_fd v) (m_tracked_client_vfd v)
    (m_poll_method v) x_m_on_reset_callback (m_master_instance v) (fds v) (stopped v).

Definition set_fds (x_fds : FdCallbacks) (v : VirtualMachine) : VirtualMachine :=
  MkVM (m_machine v) (m_config v) (m_original_binary v) (m_binary_type v) (m_reqid v)
    (m_ephemeral v) (m_is_storage v) (m_reset_needed v) (m_waiting_for_requests v)
    (m_blocking_connections v) (m_tracked_client_fd v) (m_tracked_client_vfd v)
    (m_poll_method v) (m_on_reset_callback v) (m_master_instance v) x_fds (stopped v).

Definition set_stopped (x_stopped : bool) (v : VirtualMachine) : VirtualMachine :=
  MkVM (m_machine v) (m_config v) (m_original_binary v) (m_binary_type v) (m_reqid v)
    (m_ephemeral v) (m_is_storage v) (m_reset_needed v) (m_waiting_for_requests v)
    (m_blocking_connections v) (m_tracked_client_fd v) (m_tracked_client_vfd v)
    (m_poll_method v) (m_on_reset_callback v) (m_master_instance v) (fds v) x_stopped.
End vm.
Arguments VirtualMachine M : clear implicits.

(** ** The state of a thread that runs a virtual machine

    The calls [save_state] and [load_state] make to the host's C library. *)
Inductive socket_option := SO_DOMAIN | SO_TYPE | SO_PROTOCOL | SO_REUSEADDR.

Inductive HostCall :=
  | GetSockOpt (fd : Z) (o : socket_option)
  | GetFl (fd : Z)
  | GetSockName (fd : Z)
  | NewSocket (domain type protocol : Z)
  | SetReuseAddr (fd value : Z)
  | SetFl (fd flags : Z)
  | BindTo (fd : Z) (addr : sockaddr_storage) (len : Z)
  | ListenOn (fd backlog : Z)
  | EpollDel (epfd fd event : Z)
  | EpollAdd (epfd fd event : Z).

(** Beside the object there are the two locals [warmup] captures by reference,
    the global [reset_counters] of [main.cpp], whether the threads of the global
    [warmup_threads] still have to be joined, and the trace of host calls. *)
Record World (M : Type) := MkWorld {
  vm : VirtualMachine M;
  freed_sockets : Z;
  accepted_sockets : gset Z;
  reset_counters : list Z;
  warmup_joinable : bool;
  host_calls : list HostCall
}.
Arguments MkWorld {M}.
Arguments vm {M}.
Arguments freed_sockets {M}.
Arguments accepted_sockets {M}.
Arguments reset_counters {M}.
Arguments warmup_joinable {M}.
Arguments host_calls {M}.

(** A member function called on the object of a thread. *)
Abbreviation vm_fn M A := (st (World M) A).

Section state.
Context {M : Type}.

Definition on_vm (f : VirtualMachine M → VirtualMachine M) (w : World M) : World M :=
  MkWorld (f (vm w)) (freed_sockets w) (accepted_sockets w) (reset_counters w)
    (warmup_joinable w) (host_calls w).

Definition set_sockets (freed : Z) (accepted : gset Z) (w : World M) : World M :=
  MkWorld (vm w) freed accepted (reset_counters w) (warmup_joinable w) (host_calls w).

Definition set_counters (c : list Z) (w : World M) : World M :=
  MkWorld (vm w) (freed_sockets w) (accepted_sockets w) c (warmup_joinable w) (host_calls w).

Definition add_host_call (c : HostCall) (w : World M) : World M :=
  MkWorld (vm w) (freed_sockets w) (accepted_sockets w) (reset_counters w) (warmup_joinable w)
    (host_calls w ++ [c]).

Definition set_joinable (b : bool) (w : World M) : World M :=
  MkWorld (vm w) (freed_sockets w) (accepted_sockets w) (reset_counters w) b (host_calls w).

Definition this : vm_fn M (VirtualMachine M) := gets vm.
Definition update (f : VirtualMachine M → VirtualMachine M) : vm_fn M unit := modify (on_vm f).

(** An operation of the machine that may throw and leaves the machine in the
    state it has then. *)
Definition on_machine {A} (c : st M A) : vm_fn M A := λ w,
  let '(r, m) := c (m_machine (vm w)) in (r, on_vm (set_machine m) w).
End state.

(** Whether a function with an endless loop came back, or still runs when what
    we look at is over. *)
Inductive progress := Finished | Serving.

(** ** Events of a run and what the program answers

    [EvGuest f] is everything the guest and [tinykvm] do to the machine between
    two callbacks.  The other events are calls of the program: each carries what
    the callback is given and what the host's system calls answer it
    ([fdflags] for [fcntl], [name] for [getsockname]). *)
Inductive Event (M : Type) :=
  | EvGuest (f : M → M)
  | EvAccept (vfd fd flags fdflags : Z)
  | EvAcceptSocket (listener_vfd listener_fd fd : Z)
  | EvFreeFd (vfd : Z)
  | EvEpollWait (vfd epfd timeout : Z)
  | EvPoll (pollfds : list Z) (timeout : Z)
  | EvListen (vfd fd : Z) (name : option sockaddr_storage)
  | EvConnect (fd : Z) (addr : sockaddr_storage)
  | EvBind (fd : Z) (addr : sockaddr_storage)
  | EvOpenReadable (pathinout : string)
  | EvOpenWritable (pathinout : string)
  | EvResolveSymlink (path : string)
  | EvSyscall (syscall_number : Z).
Arguments EvGuest {M}.
Arguments EvAccept {M}.
Arguments EvAcceptSocket {M}.
Arguments EvFreeFd {M}.
Arguments EvEpollWait {M}.
Arguments EvPoll {M}.
Arguments EvListen {M}.
Arguments EvConnect {M}.
Arguments EvBind {M}.
Arguments EvOpenReadable {M}.
Arguments EvOpenWritable {M}.
Arguments EvResolveSymlink {M}.
Arguments EvSyscall {M}.

(** The return value of a callback; [NotInstalled] when [tinykvm] finds none. *)
Inductive Answer :=
  | NotInstalled
  | Done
  | Flag (b : bool)
  | Descriptor (n : Z)
  | Pathname (b : bool) (pathinout : string).

(** A run: the events, and the exception that ends it when no callback stopped
    the machine and the guest did not exit. *)
Record Run (M : Type) := MkRun { run_events_of : list (Event M); run_exception : option exn }.
Arguments MkRun {M}.
Arguments run_events_of {M}.
Arguments run_exception {M}.

(** The descriptors of a guest are not negative. *)
Definition event_ok {M} (e : Event M) : Prop :=
  match e with EvFreeFd vfd => (0 ≤ vfd)%Z | EvListen vfd _ _ => (0 ≤ vfd)%Z | _ => True end.

Definition run_ok {M} (r : Run M) : Prop := Forall event_ok (run_events_of r).

(** The eight bytes of a [uint64_t]. *)
Definition le_bytes (z : Z) : list Z := (λ i, (z / 256 ^ Z.of_nat i) mod 256)%Z <$> seq 0 8.

(** The 64-bit value at offset [n] of a binary, [None] past its end. *)
Definition read_le64 (binary : string) (n : nat) : option Z :=
  bs ← mapM (λ i, str_get binary (n + i)) (seq 0 8);
  Some (foldr (λ a z, Z.of_nat (nat_of_ascii a) + 256 * z)%Z 0%Z bs).

(** ** Static helpers of [vm.cpp] *)
Section elf.
Context `{!TinyElf}.

Definition is_interpreted_binary (binary : string) : result bool :=
  if str_len binary <? 128 then throw (RuntimeError "Invalid ELF program (binary too small)")
  else Ok (has_interpreter (is_dynamic_elf binary)).

(** [e_entry] is at offset 24 of an [Elf64_Ehdr]. *)
Definition detect_gigapage_from (binary : string) (dylink_address_hint : Z) : result Z :=
  if (2 ^ 30 <=? dylink_address_hint)%Z && is_dynamic (is_dynamic_elf binary)
  then Ok (Z.shiftl (Z.shiftr dylink_address_hint 30) 30)
  else if str_len binary <? 128 then throw (RuntimeError "Invalid ELF program (binary too small)")
  else match read_le64 binary 24 with
       | None => throw (Undefined "Elf64_Ehdr past the end of the binary")
       | Some e_entry =>
           if (512 <=? Z.shiftr e_entry 30)%Z
           then throw (RuntimeError "Invalid ELF start address (address was > 512GiB)")
           else Ok (Z.shiftl (Z.shiftr e_entry 30) 30)
       end.

(** [ld_linux_x86_64_so] is the dynamic linker [init_kvm] loaded. *)
Definition select_main_binary (ld_linux_x86_64_so program_binary : string) : string :=
  if has_interpreter (is_dynamic_elf program_binary) then ld_linux_x86_64_so else program_binary.
End elf.

Definition dylink_address (config : Configuration) (storage_ : bool) : Z :=
  if storage_ then storage_dylink_address_hint config else dylink_address_hint config.

(** ** The constructors *)
Section ctor.
Context {M : Type} `{!TinyKVM M} `{!TinyElf}.

Definition main_options (config : Configuration) (storage_ : bool) (base : Z) : MachineOptions := {|
  max_mem := Some (max_address_space config);
  max_cow_mem := Some 0%Z;
  opt_dylink_address_hint := Some (dylink_address config storage_);
  opt_heap_address_hint := Some (if storage_ then 0%Z else heap_address_hint config);
  vmem_base_address := Some base;
  remappings := Some (if storage_ then storage_remappings config else vmem_remappings config);
  opt_verbose_loader := Some (verbose config);
  opt_hugepages := Some (negb (hugepage_arena_size config =? 0)%Z);
  master_direct_memory_writes := Some true;
  opt_split_hugepages := Some false;
  opt_executable_heap := Some (executable_heap config);
  opt_mmap_backed_files :=
    Some (mmap_backed_files config && (storage_ || bool_decide (snapshot_filename config = "")));
  snapshot_file := Some (if storage_ then "" else snapshot_filename config);
  hugepages_arena_size := Some (hugepage_arena_size config);
  stack_size := None; reset_free_work_mem := None; reset_copy_all_registers := None;
  reset_keep_all_work_memory := None
|}.

(** [VirtualMachine(binary, config, storage)].  The callbacks that read a path
    are the events [EvOpenReadable] and [EvOpenWritable] below; they are
    installed by both constructors and never replaced. *)
Definition new_vm (ld_linux_x86_64_so binary : string) (config : Configuration) (storage_ : bool)
    : result (VirtualMachine M) :=
  base ← detect_gigapage_from binary (dylink_address config storage_);
  m ← new_machine (select_main_binary ld_linux_x86_64_so binary) (main_options config storage_ base);
  let f := initial_fds (M := M) in
  Ok (MkVM (set_cwd (current_working_directory config) m) config binary Static 0
        (ephemeral config) storage_ false false false (-1) (-1) PollUndefined None None
        (MkFds (accept_callback f) (accept_socket_callback f) (free_fd_callback f)
           (epoll_wait_callback f) (poll_callback f) ListenValidate AddressMain AddressMain
       SymlinkMain true)
        false).

Definition fork_options (config : Configuration) : MachineOptions := {|
  max_mem := Some (max_main_memory config);
  max_cow_mem := Some (max_req_mem config);
  opt_split_hugepages := Some (split_hugepages config);
  hugepages_arena_size := Some (hugepage_arena_size config);
  opt_dylink_address_hint := None; opt_heap_address_hint := None; vmem_base_address := None;
  remappings := None; opt_verbose_loader := None; opt_hugepages := None;
  master_direct_memory_writes := None; opt_executable_heap := None; opt_mmap_backed_files := None;
  snapshot_file := None; stack_size := None; reset_free_work_mem := None;
  reset_copy_all_registers := None; reset_keep_all_work_memory := None
|}.

(** What [VirtualMachine(other, reqid, is_storage)] makes of the forked machine. *)
Definition fork_object (other : VirtualMachine M) (reqid : Z) (is_storage : bool) (m : M)
    : VirtualMachine M :=
  let config := m_config other in
  let f := forked_fds (M := M) (fds other) in
  MkVM (set_cwd (current_working_directory config) m)
    config (m_original_binary other) (m_binary_type other) reqid (m_ephemeral other) is_storage
    false false false (-1) (-1) (m_poll_method other) None (Some other)
    (MkFds
       (if m_ephemeral other then AcceptFork else accept_callback f)
       (if m_ephemeral other then SocketFork else accept_socket_callback f)
       (if m_ephemeral other then FreeFork else free_fd_callback f)
       (epoll_wait_callback f) (poll_callback f) (listening_socket_callback f)
       (connect_socket_callback (fds other)) (bind_socket_callback (fds other))
       (resolve_symlink_callback f) false)
    false.

(** [VirtualMachine(other, reqid, is_storage)] *)
Definition fork_vm (other : VirtualMachine M) (reqid : Z) (is_storage : bool)
    : result (VirtualMachine M) :=
  m ← fork_machine (fork_options (m_config other)) (m_machine other);
  Ok (fork_object other reqid is_storage m).
End ctor.

(** ** The callbacks *)
Section callbacks.
Context {M : Type} `{!TinyKVM M}.

(** [machine().stop()] *)
Definition stop : vm_fn M unit := update (set_stopped true).

(** Both [main]'s closures and [validate_listener] treat a Unix socket path the
    same way; [machine_] is the machine of the object they captured. *)
Definition unix_allowed (machine_ : M) (addr : sockaddr_storage) : bool :=
  let '(w, sun_path) := is_writable_path machine_ (ss_path addr) in
  w && (is_readable_path machine_ sun_path).1.

(** [connect_socket_callback] and [bind_socket_callback] of the main
    constructor; [self] is the object the closure captured. *)
Definition connect_socket (self : VirtualMachine M) (addr : sockaddr_storage) : bool :=
  if (ss_family addr =? AF_UNIX)%Z then unix_allowed (m_machine self) addr
  else validate_network_access addr
         (allowed_connect_ipv4 (m_config self)) (allowed_connect_ipv6 (m_config self)).

Definition bind_socket (self : VirtualMachine M) (addr : sockaddr_storage) : bool :=
  if (ss_family addr =? AF_UNIX)%Z then unix_allowed (m_machine self) addr
  else validate_network_access addr
         (allowed_listen_ipv4 (m_config self)) (allowed_listen_ipv6 (m_config self)).

(** A fork copied the closure, which captured the main object. *)
Definition main_vm (v : VirtualMachine M) : VirtualMachine M := default v (m_master_instance v).

Definition on_connect (addr : sockaddr_storage) : vm_fn M Answer :=
  v ← this;
  match connect_socket_callback (fds v) with
  | AddressNone => mret NotInstalled
  | AddressMain => mret (Flag (connect_socket (main_vm v) addr))
  end.

Definition on_bind (addr : sockaddr_storage) : vm_fn M Answer :=
  v ← this;
  match bind_socket_callback (fds v) with
  | AddressNone => mret NotInstalled
  | AddressMain => mret (Flag (bind_socket (main_vm v) addr))
  end.

(** [name] is what [getsockname] answers, [None] when it fails. *)
Definition validate_listener (name : option sockaddr_storage) : vm_fn M bool :=
  match name with
  | None => raise (RuntimeError "getsockname() failed")
  | Some addr => v ← this; mret (bind_socket v addr)
  end.

Definition on_listen (vfd fd : Z) (name : option sockaddr_storage) : vm_fn M Answer :=
  v ← this;
  match listening_socket_callback (fds v) with
  | ListenNone => mret NotInstalled
  | ListenValidate => b ← validate_listener name; mret (Flag b)
  | ListenInit =>
      b ← validate_listener name;
      if b : bool then update (set_tracked_client fd vfd);; mret (Flag true) else mret (Flag false)
  end.

(** The guest reached the system call it waits for requests in. *)
Definition wait_here : vm_fn M Answer :=
  update (set_waiting_for_requests true);; stop;; mret (Flag false).

(** The condition the three callbacks of [warmup] wait for. *)
Definition warmed_up (w : World M) : bool :=
  (NUM_WARMUP_THREADS * warmup_connect_requests (m_config (vm w)) <=? freed_sockets w)%Z.

Definition warmup_wait : vm_fn M Answer :=
  b ← gets warmed_up; if b : bool then wait_here else mret (Flag true).

(** A closure of [warmup] is called after its locals are gone. *)
Definition dangling : vm_fn M Answer :=
  raise (Undefined "a closure refers to a local variable of warmup").

Definition on_epoll_wait (vfd : Z) : vm_fn M Answer :=
  v ← this;
  match epoll_wait_callback (fds v) with
  | WaitNone => mret NotInstalled
  | WaitInit =>
      if decide (m_tracked_client_vfd v = -1)%Z then mret (Flag true)
      else s ← lift (epoll_fds (m_machine v) vfd);
           if decide (m_tracked_client_vfd v ∈ (s : gset Z))
           then update (set_poll_method Epoll);; wait_here
           else mret (Flag true)
  | WaitWarmup => warmup_wait
  | WaitDangling => dangling
  end.

Definition on_poll (pollfds : list Z) : vm_fn M Answer :=
  v ← this;
  match poll_callback (fds v) with
  | WaitNone => mret NotInstalled
  | WaitInit =>
      if decide (m_tracked_client_vfd v ≠ (-1)%Z ∧ m_tracked_client_vfd v ∈ pollfds)
      then update (set_poll_method Poll);; wait_here
      else mret (Flag true)
  | WaitWarmup => warmup_wait
  | WaitDangling => dangling
  end.

(** [fdflags] is what [fcntl(fd, F_GETFL)] answers; the code asserts it is not -1. *)
Definition on_accept (vfd fdflags : Z) : vm_fn M Answer :=
  v ← this;
  match accept_callback (fds v) with
  | AcceptNone => mret NotInstalled
  | AcceptInit =>
      if decide (m_tracked_client_vfd v ≠ (-1)%Z ∧ m_poll_method v = PollUndefined ∧
                 vfd = m_tracked_client_vfd v)
      then if (fdflags =? -1)%Z then raise (Undefined "assert(fdflags != -1)")
           else if (Z.land fdflags SOCK_NONBLOCK =? 0)%Z
           then update (set_poll_method Blocking);; wait_here
           else mret (Flag true)
      else mret (Flag true)
  | AcceptWarmup => if decide (m_poll_method v = Blocking) then warmup_wait else mret (Flag true)
  | AcceptFork =>
      if m_blocking_connections v
      then update (λ v, set_machine
             (set_registers (set_rax (- EAGAIN)%Z (registers (m_machine v))) (m_machine v)) v);;
           mret (Flag false)
      else mret (Flag true)
  | AcceptDangling => if decide (m_poll_method v = Blocking) then dangling else mret (Flag true)
  end.

(** [machine().fds().manage(fd, true, true)] *)
Definition manage_fd (fd : Z) : vm_fn M Z :=
  v ← this;
  r ← lift (manage fd (m_machine v));
  update (set_machine r.2);; mret r.1.

Definition on_accept_socket (fd : Z) : vm_fn M Answer :=
  v ← this;
  match accept_socket_callback (fds v) with
  | SocketNone => mret NotInstalled
  | SocketWarmup =>
      vfd ← manage_fd fd;
      modify (λ w, set_sockets (freed_sockets w) ({[vfd]} ∪ accepted_sockets w) w);;
      mret (Descriptor vfd)
  | SocketFork =>
      if decide (m_tracked_client_vfd v ≠ -1)%Z then mret (Descriptor (- EAGAIN)%Z)
      else update (set_tracked_client fd (m_tracked_client_vfd v));;
           vfd ← manage_fd fd;
           update (set_tracked_client fd vfd);;
           update (set_blocking_connections true);;
           mret (Descriptor vfd)
  | SocketDangling => manage_fd fd;; dangling
  end.

Definition on_free_fd (vfd : Z) : vm_fn M Answer :=
  w ← get;
  match free_fd_callback (fds (vm w)) with
  | FreeNone => mret NotInstalled
  | FreeWarmup =>
      (if decide (vfd ∈ accepted_sockets w)
       then modify (set_sockets (freed_sockets w + 1)%Z (accepted_sockets w ∖ {[vfd]}))
       else mret tt);;
      mret (Flag false)
  | FreeFork =>
      if decide (vfd = m_tracked_client_vfd (vm w))
      then stop;; update (set_reset_needed true);; mret (Flag true)
      else mret (Flag false)
  | FreeDangling => dangling
  end.

Definition on_open_readable (pathinout : string) : vm_fn M Answer :=
  v ← this;
  let '(b, p) := open_readable (cwd (m_machine v)) (allowed_paths (m_config v)) pathinout in
  mret (Pathname b p).

Definition on_open_writable (pathinout : string) : vm_fn M Answer :=
  v ← this;
  let '(b, p) := open_writable (cwd (m_machine v)) (allowed_paths (m_config v)) pathinout in
  mret (Pathname b p).

Definition on_resolve_symlink (path_ : string) : vm_fn M Answer :=
  v ← this;
  match resolve_symlink_callback (fds v) with
  | SymlinkNone => mret NotInstalled
  | SymlinkMain =>
      let '(b, p) := resolve_symlink (cwd (m_machine v)) (allowed_paths (m_config v)) path_ in
      mret (Pathname b p)
  end.
End callbacks.

(** ** The unhandled system calls *)
Section syscalls.
Context {M : Type} `{!TinyKVM M}.

Definition SYS_remote_resume : Z := 67339.
Definition SYS_remote_resume2 : Z := 0x10001.
Definition SYS_wait_for_storage_task_paused : Z := 0x10002.

(** The storage machine resumes with the caller's buffer: its address is
    written where the storage machine's [rdi] points, its length is [rax].  What has been
    changed stays changed when the storage machine fails. *)
Definition permanent_resume (src len : Z) : st M unit :=
  on_remote (regs ← gets registers;
             copy_to_guest (rdi regs) (le_bytes src);;
             modify (set_registers (set_rax len regs));;
             ipre_permanent_remote_resume_now).

(** The function handed to [ipre_remote_resume_now]; it writes [rax] through
    the reference [registers()] returns. *)
Definition resume_with (src len : Z) : st M unit :=
  regs ← gets registers;
  on_remote (copy_to_guest (rdi regs) (le_bytes src));;
  modify (λ m, set_registers (set_rax len (registers m)) m).

Definition remote_resume : vm_fn M Answer :=
  v ← this;
  if m_is_storage v
  then raise (RuntimeError "sys_remote_resume should *NOT* be called from storage VM")
  else let src := rdi (registers (m_machine v)) in
       let len := rsi (registers (m_machine v)) in
       on_machine (if storage_ipre_permanent (m_config v)
                   then permanent_resume src len
                   else ipre_remote_resume_now false (resume_with src len));;
       mret Done.

Definition wait_for_storage_task_paused : vm_fn M Answer :=
  v ← this;
  if m_is_storage v then update (set_waiting_for_requests true);; stop;; mret Done
  else raise (RuntimeError
         "sys_wait_for_storage_task_paused should *ONLY* be called from storage VM").

(** The handler of [install_unhandled_syscall_handler]; any other number is
    only reported. *)
Definition on_unhandled_syscall (syscall_number : Z) : vm_fn M Answer :=
  if decide (syscall_number = SYS_remote_resume ∨ syscall_number = SYS_remote_resume2)
  then remote_resume
  else if decide (syscall_number = SYS_wait_for_storage_task_paused)
  then wait_for_storage_task_paused
  else mret Done.

(** ** Running the machine *)

Definition handle (e : Event M) : vm_fn M Answer :=
  match e with
  | EvGuest f => update (λ v, set_machine (f (m_machine v)) v);; mret Done
  | EvAccept vfd _ _ fdflags => on_accept vfd fdflags
  | EvAcceptSocket _ _ fd => on_accept_socket fd
  | EvFreeFd vfd => on_free_fd vfd
  | EvEpollWait vfd _ _ => on_epoll_wait vfd
  | EvPoll pollfds _ => on_poll pollfds
  | EvListen vfd fd name => on_listen vfd fd name
  | EvConnect _ addr => on_connect addr
  | EvBind _ addr => on_bind addr
  | EvOpenReadable p => on_open_readable p
  | EvOpenWritable p => on_open_writable p
  | EvResolveSymlink p => on_resolve_symlink p
  | EvSyscall n => on_unhandled_syscall n
  end.

(** Events are handled until a callback stops the machine.  An exception a
    callback throws leaves [run]. *)
Fixpoint run_events (evs : list (Event M)) : vm_fn M (list Answer) :=
  match evs with
  | [] => mret []
  | e :: evs =>
      v ← this;
      if stopped v then mret []
      else a ← handle e; r ← run_events evs; mret (a :: r)
  end.

(** [machine().run(timeout)] and [machine().vmresume()]: the machine runs again
    until it is stopped, the guest exits or an exception ends the run. *)
Definition machine_run (r : Run M) : vm_fn M (list Answer) :=
  update (set_stopped false);;
  l ← run_events (run_events_of r);
  v ← this;
  if stopped v then mret l
  else match run_exception r with None => mret l | Some e => raise e end.

(** The callbacks of one system call are all made: stopping the machine does not
    end a system call, and a run that begins later is not stopped. *)
Fixpoint handle_all (evs : list (Event M)) : vm_fn M (list Answer) :=
  match evs with
  | [] => mret []
  | e :: evs => a ← handle e; r ← handle_all evs; mret (a :: r)
  end.

(** [machine().system_call(cpu, n)]: the host performs one system call for the
    guest; the callbacks it calls are the run [r]. *)
Definition system_call (n : Z) (r : Run M) : vm_fn M (list Answer) :=
  l ← handle_all (run_events_of r);
  match run_exception r with None => mret l | Some e => raise e end.

Definition SYS_poll : Z := 7.
Definition SYS_epoll_wait : Z := 232.
Definition SYS_accept4 : Z := 288.

(** The number of the system call that [restart_poll_syscall] repeats. *)
Definition poll_syscall (p : PollMethod) : option Z :=
  match p with
  | Poll => Some SYS_poll
  | Epoll => Some SYS_epoll_wait
  | Blocking => Some SYS_accept4
  | PollUndefined => None
  end.

Definition restart_poll_syscall (r : Run M) : vm_fn M (list Answer) :=
  v ← this;
  match poll_syscall (m_poll_method v) with
  | Some n => system_call n r
  | None => raise (RuntimeError "VM does not have a known polling method")
  end.
End syscalls.

(** [binary_type_string] *)
Definition binary_type_string (b : BinaryType) : string :=
  match b with Static => "static" | StaticPie => "static-pie" | Dynamic => "dynamic" end.

(** ** What no run changes

    The identity of the object: its configuration, the binary, the request
    number, the flags of the constructor, the callbacks installed and the
    instance it was forked from. *)
Definition same_object {M} (v v' : VirtualMachine M) : Prop :=
  m_config v' = m_config v ∧ m_original_binary v' = m_original_binary v ∧
  m_binary_type v' = m_binary_type v ∧ m_reqid v' = m_reqid v ∧
  m_ephemeral v' = m_ephemeral v ∧ m_is_storage v' = m_is_storage v ∧
  m_on_reset_callback v' = m_on_reset_callback v ∧
  m_master_instance v' = m_master_instance v ∧ fds v' = fds v.

#[export] Instance same_object_equiv {M} : Equivalence (@same_object M).
Proof.
  split.
  - by intros v.
  - intros v v'. unfold same_object. naive_solver.
  - unfold same_object. intros v v' v'' ? ?. destruct_and!. split_and!; etrans; eauto.
Qed.

(** Every callback in one step. *)
Ltac unfold_handlers :=
  unfold handle, on_accept, on_accept_socket, on_free_fd, on_epoll_wait, on_poll, on_listen,
    on_connect, on_bind, on_open_readable, on_open_writable, on_resolve_symlink, on_unhandled_syscall, remote_resume,
    wait_for_storage_task_paused, on_machine, validate_listener, warmup_wait, wait_here, dangling, manage_fd, stop,
    this, update, on_vm, set_sockets in *.

Ltac handler_cases := unfold_handlers; run_st; repeat case_match; simplify_eq/=.

Section runs.
Context {M : Type} `{!TinyKVM M}.

Lemma handle_same_object v0 (e : Event M) : preserves (λ w, same_object v0 (vm w)) (handle e).
Proof. intros w Hw. destruct e; handler_cases; exact Hw. Qed.

(** A property that handlers keep and that does not look at [stopped] is kept
    by runs. *)
Section preserved.
Variable I : World M → Prop.

Lemma run_events_preserves evs :
  Forall (λ e, preserves I (handle e)) evs → preserves I (run_events evs).
Proof.
  induction 1 as [|e evs He _ IH]; simpl; [apply preserves_ret|].
  apply preserves_bind; [apply preserves_gets|]. intros v.
  destruct (stopped v); [apply preserves_ret|].
  apply preserves_bind; [done|]. intros a.
  apply preserves_bind; [done|]. intros r. apply preserves_ret.
Qed.

Lemma handle_all_preserves evs :
  Forall (λ e, preserves I (handle e)) evs → preserves I (handle_all evs).
Proof.
  induction 1 as [|e evs He _ IH]; simpl; [apply preserves_ret|].
  apply preserves_bind; [done|]. intros a.
  apply preserves_bind; [done|]. intros r. apply preserves_ret.
Qed.

Hypothesis I_stopped : ∀ b w, I w → I (on_vm (set_stopped b) w).

Lemma machine_run_preserves r :
  Forall (λ e, preserves I (handle e)) (run_events_of r) → preserves I (machine_run r).
Proof using I_stopped.
  intros Hr. unfold machine_run.
  apply preserves_bind; [apply preserves_modify; auto|]. intros _.
  apply preserves_bind; [by apply run_events_preserves|]. intros l.
  apply preserves_bind; [apply preserves_gets|]. intros v.
  destruct (stopped v), (run_exception r); auto with kvm.
Qed.

Lemma system_call_preserves n r :
  Forall (λ e, preserves I (handle e)) (run_events_of r) → preserves I (system_call n r).
Proof using Type.
  intros Hr. unfold system_call. apply preserves_bind; [by apply handle_all_preserves|].
  intros l. destruct (run_exception r); auto with kvm.
Qed.

Lemma restart_preserves r :
  Forall (λ e, preserves I (handle e)) (run_events_of r) → preserves I (restart_poll_syscall r).
Proof using Type.
  intros Hr. unfold restart_poll_syscall. apply preserves_bind; [apply preserves_gets|].
  intros v. destruct (poll_syscall _); [by apply system_call_preserves|auto with kvm].
Qed.
End preserved.

Lemma run_events_same_object v0 (evs : list (Event M)) :
  preserves (λ w, same_object v0 (vm w)) (run_events evs).
Proof. apply run_events_preserves, Forall_true. intros e. apply handle_same_object. Qed.
End runs.

(** ** What a guest is allowed to do

    [below m extract out]: the host path lies below the real path of an entry
    with the flag, without leaving it. *)
Definition below (m : path_map) (extract : VirtualPath → bool) (out : string) : Prop :=
  ∃ key vpath rest, (key, vpath) ∈ m ∧ extract vpath = true ∧
    path_of_string out = Path true (names (real_path vpath) ++ rest) false ∧
    canonical (path_of_string out).

(** What a socket address needs to be used: the path of a Unix socket may be
    written and read, as the descriptors of [m] see it; any other address is on
    the lists. *)
Definition address_granted {M} `{!TinyKVM M} (m : M) (allowed_ipv4 allowed_ipv6 : list sockaddr_storage)
    (addr : sockaddr_storage) : Prop :=
  (ss_family addr = AF_UNIX ∧
     ∃ sun_path, is_writable_path m (ss_path addr) = (true, sun_path) ∧
                 (is_readable_path m sun_path).1 = true) ∨
  listed allowed_ipv4 allowed_ipv6 addr.

(** What the answers of the object [v] grant.  A fork answers [connect] and
    [bind] with the closures of the main object, and checks [listen] only when
    it has a callback for it. *)
Definition answer_permitted {M} `{!TinyKVM M} (v : VirtualMachine M) (e : Event M) (a : Answer) : Prop :=
  let config := m_config v in
  let main_config := m_config (main_vm v) in
  match e with
  | EvOpenReadable _ =>
      ∃ b out, a = Pathname b out ∧ (b = true → below (allowed_paths config) readable out)
  | EvOpenWritable _ =>
      ∃ b out, a = Pathname b out ∧ (b = true → below (allowed_paths config) writable out)
  | EvResolveSymlink _ =>
      match resolve_symlink_callback (fds v) with
      | SymlinkNone => a = NotInstalled
      | SymlinkMain => ∃ b out, a = Pathname b out ∧ (b = true → below (allowed_paths config) symlink out)
      end
  | EvConnect _ addr =>
      ∃ b, a = Flag b ∧ (b = true ↔ address_granted (m_machine (main_vm v))
             (allowed_connect_ipv4 main_config) (allowed_connect_ipv6 main_config) addr)
  | EvBind _ addr =>
      ∃ b, a = Flag b ∧ (b = true ↔ address_granted (m_machine (main_vm v))
             (allowed_listen_ipv4 main_config) (allowed_listen_ipv6 main_config) addr)
  | EvListen _ _ name =>
      match listening_socket_callback (fds v) with
      | ListenNone => a = NotInstalled
      | ListenValidate | ListenInit =>
          ∃ b addr, a = Flag b ∧ name = Some addr ∧
            (b = true ↔ address_granted (m_machine v)
               (allowed_listen_ipv4 config) (allowed_listen_ipv6 config) addr)
      end
  | _ => True
  end.

(** The object asks before a guest connects or binds a socket. *)
Definition asks_addresses {M} (v : VirtualMachine M) : Prop :=
  connect_socket_callback (fds v) = AddressMain ∧ bind_socket_callback (fds v) = AddressMain.

(** It is so in the objects of both constructors. *)
Lemma new_vm_asks `{!TinyKVM M} `{!TinyElf} ld binary config storage_ (v : VirtualMachine M) :
  new_vm ld binary config storage_ = Ok v → asks_addresses v.
Proof.
  unfold new_vm. destruct (detect_gigapage_from _ _) as [b|]; [|done]. simpl.
  destruct (new_machine _ _) as [m|]; [|done]. by intros [= <-].
Qed.

Lemma fork_vm_asks `{!TinyKVM M} other reqid is_storage (v : VirtualMachine M) :
  fork_vm other reqid is_storage = Ok v → asks_addresses other → asks_addresses v.
Proof. unfold fork_vm. destruct (fork_machine _ _); [|done]. by intros [= <-]. Qed.

Section confinement.
Context {M : Type} `{!TinyKVM M}.

Lemma unix_allowed_spec (m : M) addr :
  unix_allowed m addr = true ↔
  ∃ sun_path, is_writable_path m (ss_path addr) = (true, sun_path) ∧ (is_readable_path m sun_path).1 = true.
Proof.
  unfold unix_allowed. destruct (is_writable_path m (ss_path addr)) as [[] p]; simpl; naive_solver.
Qed.

Lemma socket_allowed m addr l4 l6 :
  (if (ss_family addr =? AF_UNIX)%Z then unix_allowed m addr else validate_network_access addr l4 l6) = true
  ↔ address_granted m l4 l6 addr.
Proof.
  unfold address_granted. destruct (Z.eqb_spec (ss_family addr) AF_UNIX) as [Hf|Hf].
  - rewrite unix_allowed_spec. split; [by left|]. intros [[_ ?]|[]]; [done|..];
      unfold AF_UNIX, AF_INET, AF_INET6, AF_UNSPEC in *; lia.
  - rewrite validate_network_access_listed. naive_solver.
Qed.

Lemma handle_permitted (e : Event M) w a w' :
  allowed_ok (allowed_paths (m_config (vm w))) → asks_addresses (vm w) →
  handle e w = (Ok a, w') → answer_permitted (vm w) e a.
Proof.
  intros Hm [Hc Hb] Ha.
  destruct e; cbn [answer_permitted]; try done; revert Ha; handler_cases; intros; simplify_eq/=;
    try done; repeat case_decide; try done.
  all: try (eexists; split; [done|]; apply socket_allowed).
  all: try (eexists _, _; split; [done|]; split; [done|]; rewrite <-socket_allowed;
    (done || match goal with H : bind_socket _ _ = _ |- _ => by rewrite <-H end)).
  all: eexists _, _; (split; [done|]); intros ->; unfold open_readable, open_writable in *;
    first [by eapply lookup_below|by eapply resolve_symlink_below].
Qed.

(** The state in which an event of a run was handled. *)
Lemma run_events_at (evs : list (Event M)) w l w' i e a :
  run_events evs w = (Ok l, w') → evs !! i = Some e → l !! i = Some a →
  ∃ wi wi', run_events (take i evs) w = (Ok (take i l), wi) ∧ handle e wi = (Ok a, wi').
Proof.
  revert w l i. induction evs as [|e0 evs IH]; intros w l i; [done|]. cbn [run_events]. unfold this.
  run_st. destruct (stopped (vm w)) eqn:Hs; [by intros [= <- _]|].
  destruct (handle e0 w) as [[a0|x] w1] eqn:Hh; [|done].
  destruct (run_events evs w1) as [[r|x] w2] eqn:Hr; [|done]. intros [= <- <-].
  destruct i as [|i]; cbn [lookup list_lookup].
  - intros [= ->] [= ->]. by exists w, w1.
  - intros He Ha. destruct (IH w1 r i Hr He Ha) as (wi & wi' & H1 & H2). exists wi, wi'.
    split; [|done]. cbn [take run_events]. unfold this. run_st. by rewrite Hs, Hh, H1.
Qed.
End confinement.

(** ** The guest's base address *)

Lemma gigapage_aligned z :
  (Z.shiftl (Z.shiftr z 30) 30 ≤ z < Z.shiftl (Z.shiftr z 30) 30 + 2 ^ 30)%Z ∧
  (Z.shiftl (Z.shiftr z 30) 30 mod 2 ^ 30 = 0)%Z.
Proof.
  rewrite Z.shiftr_div_pow2, Z.shiftl_mul_pow2 by lia. split; [|by rewrite Z.mod_mul].
  pose proof (Z.div_mod z (2 ^ 30)). pose proof (Z.mod_pos_bound z (2 ^ 30)). lia.
Qed.

Lemma str_get_lt s n : n < str_len s → is_Some (str_get s n).
Proof.
  revert n. induction s as [|a s IH]; intros n Hn; simpl in *; [lia|].
  destruct n as [|n]; [by eexists|]. apply IH. lia.
Qed.

Lemma read_le64_is_Some binary n : n + 8 ≤ str_len binary → is_Some (read_le64 binary n).
Proof.
  intros Hn. unfold read_le64.
  assert (is_Some (mapM (λ i, str_get binary (n + i)) (seq 0 8))) as [bs ->]; [|by eexists].
  apply mapM_is_Some_2, Forall_forall. intros i Hi%elem_of_seq. apply str_get_lt. lia.
Qed.

(** ** Concrete objects for the examples *)
Definition demo_config (permanent ephemeral_ verbose_ : bool) (concurrency_ warmups : Z) : Configuration := {|
  main_filename := "/bin/app"; storage_filename := ""; snapshot_filename := "";
  concurrency := concurrency_; warmup_connect_requests := warmups;
  warmup_intra_connect_requests := 1;
  warmup_path := "/"; max_boot_time := 20%Q; max_req_time := 8%Q;
  max_address_space := 120 * 2 ^ 30; max_main_memory := 8 * 2 ^ 30;
  max_req_mem := 2 ^ 27; limit_req_mem := 2 ^ 27; shared_memory := 0;
  dylink_address_hint := 2; heap_address_hint := 256;
  storage_dylink_address_hint := 0x2000200000;
  hugepage_arena_size := 0; hugepage_requests_arena := 0;
  storage := permanent; storage_1_to_1 := false; storage_ipre_permanent := permanent;
  executable_heap := true; mmap_backed_files := true; hugepages := false;
  split_hugepages := true; transparent_hugepages := false;
  ephemeral := ephemeral_; ephemeral_keep_working_memory := false;
  verbose := verbose_; verbose_syscalls := false; verbose_mmap_syscalls := false;
  verbose_thread_syscalls := false; verbose_pagetable := false;
  environ := []; main_arguments := []; storage_arguments := [];
  vmem_remappings := []; storage_remappings := [];
  allowed_paths := demo_map; current_working_directory := "/";
  allowed_connect_ipv4 := []; allowed_listen_ipv4 := [sockaddr_in 0 (htons 8080)];
  allowed_connect_ipv6 := []; allowed_listen_ipv6 := []
|}.

Definition demo_server_config : bool → bool → Z → Z → Configuration := demo_config false.

Definition demo_elf : TinyElf := λ _, MkElf false false.

(** The main object before [initialize], listening on port 8080 or not yet. *)
Definition demo_new_vm (c : Configuration) : VirtualMachine ToyMachine :=
  MkVM toy_machine c "" Static 0 (ephemeral c) false false false false (-1) (-1) PollUndefined None None
    (MkFds AcceptNone SocketNone FreeNone WaitNone WaitNone ListenValidate AddressMain AddressMain
       SymlinkMain true)
    false.

Definition in_world {M} (v : VirtualMachine M) : World M := MkWorld v 0 ∅ (replicate 64 0%Z) false [].

(** ** Claims *)

(** C4: whatever the guest does and in whatever order, the program's answers
    stay within the configuration.  A path that is allowed to be opened, or that a link is
    resolved to, is canonical and below the real path of an entry with the flag.
    The address of a [connect] or [bind] is allowed exactly when it is a Unix
    socket whose path may be written and read or an entry of the lists names its
    address and its port, and every such call is asked about when the callbacks
    are there, as they are in the objects both constructors make; [listen] is
    asked about in a main object only.  A fork is answered by the lists of the
    main object. *)
Theorem run_confines_guest `{!TinyKVM M} (evs : list (Event M)) w l w' :
  allowed_ok (allowed_paths (m_config (vm w))) → asks_addresses (vm w) →
  run_events evs w = (Ok l, w') →
  ∀ i e a, evs !! i = Some e → l !! i = Some a →
    ∃ wi, run_events (take i evs) w = (Ok (take i l), wi) ∧ same_object (vm w) (vm wi) ∧
      answer_permitted (vm wi) e a.
Proof.
  intros Hm Hask Hrun i e a He Ha.
  destruct (run_events_at evs w l w' i e a Hrun He Ha) as (wi & wi' & Hi & Hh).
  exists wi. split; [done|].
  assert (same_object (vm w) (vm wi)) as Hso.
  { change wi with (Ok (take i l), wi).2. rewrite <-Hi.
    apply (run_events_same_object (vm w)). reflexivity. }
  split; [done|]. pose proof Hso as (Hc & _ & _ & _ & _ & _ & _ & _ & Hf).
  eapply handle_permitted; [by rewrite Hc| |done]. unfold asks_addresses. by rewrite Hf.
Qed.

Lemma run_confines_guest_witness :
  let v := demo_new_vm (demo_server_config true false 1 0) in
  answer_permitted (M := ToyMachine) v (EvOpenReadable "/data/../data/log") (Pathname true "/mnt/disk/log") ∧
  ¬ listed [sockaddr_in 0 (htons 8080)] [] (sockaddr_in 0 (htons 80)).
Proof.
  assert (∀ i e a, [EvBind 3 (sockaddr_in 0 (htons 80)); EvOpenReadable "/data/../data/log";
      EvOpenReadable "/etc/passwd"] !! i = Some e →
    [Flag false; Pathname true "/mnt/disk/log"; Pathname false "/etc/passwd"] !! i = Some a →
    ∃ wi : World ToyMachine, same_object (demo_new_vm (demo_server_config true false 1 0)) (vm wi) ∧
      answer_permitted (vm wi) e a) as Hall.
  { intros i e a He Ha.
    destruct (run_confines_guest (M := ToyMachine)
      [EvBind 3 (sockaddr_in 0 (htons 80)); EvOpenReadable "/data/../data/log"; EvOpenReadable "/etc/passwd"]
      (in_world (demo_new_vm (demo_server_config true false 1 0)))
      [Flag false; Pathname true "/mnt/disk/log"; Pathname false "/etc/passwd"]
      (in_world (demo_new_vm (demo_server_config true false 1 0))) demo_map_ok) with (i := i) (e := e) (a := a)
      as (wi & _ & Hso & Hp); [by split|vm_compute; reflexivity|exact He|exact Ha|eauto]. }
  split.
  - destruct (Hall 1 _ _ eq_refl eq_refl) as (wi & (Hc & _) & b & out & [= <- <-] & Hb).
    eexists _, _. split; [reflexivity|]. intros Ht. specialize (Hb Ht). by rewrite Hc in Hb.
  - destruct (Hall 0 _ _ eq_refl eq_refl) as (wi & (Hc & _ & _ & _ & _ & _ & _ & Hma & _) & b & [= <-] & Hb).
    intros Hl. assert (false = true) as Hf; [|discriminate Hf]. apply Hb. right.
    unfold main_vm. rewrite Hma. cbn [default demo_new_vm m_master_instance]. rewrite Hc. exact Hl.
Defined.

(** The base address a guest is mapped at.  With a hint of at least 1 GiB
    and a dynamic binary it is the gigapage of the hint, otherwise the gigapage
    of the entry point, which is below 512 GiB; it is gigapage aligned.  A
    binary of fewer than 128 bytes or an entry point from 512 GiB on is
    refused, and the header is never read past the end of the binary. *)
Lemma gigapage_base_correct `{!TinyElf} binary hint :
  match detect_gigapage_from binary hint with
  | Ok base => (base mod 2 ^ 30 = 0)%Z ∧
      ((2 ^ 30 ≤ hint ∧ is_dynamic (is_dynamic_elf binary) = true ∧ base ≤ hint < base + 2 ^ 30)%Z ∨
       ∃ e_entry, read_le64 binary 24 = Some e_entry ∧
         (base ≤ e_entry < base + 2 ^ 30)%Z ∧ (base < 512 * 2 ^ 30)%Z)
  | Err e =>
      (hint < 2 ^ 30 ∨ is_dynamic (is_dynamic_elf binary) = false)%Z ∧
      (e = RuntimeError "Invalid ELF program (binary too small)" ∧ str_len binary < 128 ∨
       e = RuntimeError "Invalid ELF start address (address was > 512GiB)" ∧
       ∃ e_entry, read_le64 binary 24 = Some e_entry ∧ (512 * 2 ^ 30 ≤ e_entry)%Z)
  end.
Proof.
  unfold detect_gigapage_from, throw.
  destruct (_ && _) eqn:Eh; breflect.
  { destruct (gigapage_aligned hint). auto. }
  assert (hint < 2 ^ 30 ∨ is_dynamic (is_dynamic_elf binary) = false)%Z.
  { apply andb_false_iff in Eh as [Eh|Eh]; breflect; auto. }
  destruct (str_len binary <? 128) eqn:El; [apply Nat.ltb_lt in El|apply Nat.ltb_ge in El]; [by auto|].
  destruct (read_le64_is_Some binary 24) as [e He]; [lia|]. rewrite He.
  pose proof (gigapage_aligned e) as [Hb Hm]. rewrite Z.shiftl_mul_pow2 in * by lia.
  destruct (512 <=? _)%Z eqn:E; breflect.
  - split; [done|]. right. split; [done|]. exists e. split; [done|]. lia.
  - split; [done|]. right. exists e. split_and!; [done|lia..].
Qed.
