(* ===== verification/Debugger.v ===== *)
(** * Remote debugging: [open_debugger] of [vm.cpp]

    With [DEBUG] or [DEBUG_FORK] in the environment the program serves a remote
    debugger.  [tinykvm::RSP] is the server: its constructor may throw,
    [accept] waits for a client, and [process_one] executes one command of the
    client, which reads or changes the machine or lets it run, with the
    callbacks a run makes.  What the clients do is the input. *)

From S2P Require Import Prelude Config Effect Tinykvm Vm.

Local Open Scope list_scope.
Local Open Scope nat_scope.

(** One [process_one]: what it does to the machine and the callbacks it makes,
    and how it ends. *)
Record DebugStep (M : Type) := MkStep { step_events : list (Event M); step_result : result bool }.
Arguments MkStep {M}.
Arguments step_events {M}.
Arguments step_result {M}.

(** The debugger's session: whether the server starts, and what each [accept]
    gives: [None] when it fails, else the commands of the client. *)
Record Debugging (M : Type) := MkDebugging {
  rsp_server : result unit;
  rsp_clients : list (option (list (DebugStep M)))
}.
Arguments MkDebugging {M}.
Arguments rsp_server {M}.
Arguments rsp_clients {M}.

(** ** Operations *)
Section operations.
Context {M : Type} `{!TinyKVM M}.

Definition process_one (s : DebugStep M) : vm_fn M bool :=
  update (set_stopped false);;
  run_events (step_events s);;
  lift (step_result s).

(** [while (running)]: an exception is reported and [running] stays true. *)
Fixpoint debug_client (steps : list (DebugStep M)) : vm_fn M progress :=
  match steps with
  | [] => mret Serving
  | s :: steps =>
      running ← try_catch (process_one s) (λ _, mret true);
      if running : bool then debug_client steps else mret Finished
  end.

(** [while (true)]: a client that disconnects makes room for the next. *)
Fixpoint debug_clients (clients : list (option (list (DebugStep M)))) : vm_fn M progress :=
  match clients with
  | [] => mret Serving
  | None :: _ => mret Finished
  | Some steps :: clients =>
      p ← debug_client steps;
      match p with Serving => mret Serving | Finished => debug_clients clients end
  end.

Definition open_debugger (d : Debugging M) : vm_fn M progress :=
  lift (rsp_server d);; debug_clients (rsp_clients d).

(** [if (getenv(name) != nullptr) open_debugger();] *)
Definition debug_if (env : list string) (name : string) (d : Debugging M) : vm_fn M progress :=
  match getenv env name with Some _ => open_debugger d | None => mret Finished end.
End operations.

Definition no_debugging {M} : Debugging M := MkDebugging (Ok tt) [].

(** The events of a session. *)
Definition debug_events {M} (d : Debugging M) : list (Event M) :=
  rsp_clients d ≫= λ c, match c with None => [] | Some steps => steps ≫= step_events end.

Definition debug_ok {M} (d : Debugging M) : Prop := Forall event_ok (debug_events d).

(** ** A session keeps what events keep *)
Section lemmas.
Context {M : Type} `{!TinyKVM M}.
Variable I : World M → Prop.
Hypothesis I_stopped : ∀ b w, I w → I (on_vm (set_stopped b) w).

Lemma process_one_preserves s :
  Forall (λ e, preserves I (handle e)) (step_events s) → preserves I (process_one s).
Proof using I_stopped.
  intros Hs. unfold process_one. apply preserves_bind; [apply preserves_modify; auto|]. intros _.
  apply preserves_bind; [by apply run_events_preserves|]. intros _. apply preserves_lift.
Qed.

Lemma debug_client_preserves steps :
  Forall (λ e, preserves I (handle e)) (steps ≫= step_events) → preserves I (debug_client steps).
Proof using I_stopped.
  induction steps as [|s steps IH]; intros Hs; [apply preserves_ret|].
  cbn in Hs. apply Forall_app in Hs as [Hs1 Hs2]. cbn [debug_client].
  apply preserves_bind.
  - apply preserves_try; [by apply process_one_preserves|intros e; apply preserves_ret].
  - intros []; [by apply IH|apply preserves_ret].
Qed.

Lemma open_debugger_preserves d :
  Forall (λ e, preserves I (handle e)) (debug_events d) → preserves I (open_debugger d).
Proof using I_stopped.
  unfold open_debugger, debug_events. intros Hd. apply preserves_bind; [apply preserves_lift|]. intros _.
  induction (rsp_clients d) as [|[steps|] clients IH]; cbn in *; [apply preserves_ret| |apply preserves_ret].
  apply Forall_app in Hd as [Hd1 Hd2].
  apply preserves_bind; [by apply debug_client_preserves|].
  intros []; [by apply IH|apply preserves_ret].
Qed.

Lemma debug_if_preserves env name d :
  Forall (λ e, preserves I (handle e)) (debug_events d) → preserves I (debug_if env name d).
Proof using I_stopped.
  unfold debug_if. destruct (getenv env name); [apply open_debugger_preserves|].
  intros _. apply preserves_ret.
Qed.
End lemmas.

(** Only the server's constructor lets an exception out, and undefined behaviour. *)
Section exceptions.
Context {M : Type} `{!TinyKVM M}.

Lemma debug_client_raises steps (w w' : World M) e :
  debug_client steps w = (Err e, w') → catchable e = false.
Proof using Type.
  revert w. induction steps as [|s steps IH]; intros w; cbn [debug_client]; [done|].
  run_st. destruct (process_one s w) as [[b|x] w1].
  - destruct b; [apply IH|done].
  - destruct (catchable x) eqn:Hx; [apply IH|]. by intros [= <- _].
Qed.

Lemma debug_clients_raise clients (w w' : World M) e :
  debug_clients clients w = (Err e, w') → catchable e = false.
Proof using Type.
  revert w. induction clients as [|[steps|] clients IH]; intros w; cbn [debug_clients]; [done| |done].
  run_st. destruct (debug_client steps w) as [[p|x] w1] eqn:E.
  - destruct p; [apply IH|done].
  - intros [= <- _]. by eapply debug_client_raises.
Qed.

Lemma open_debugger_raises d (w w' : World M) e :
  open_debugger d w = (Err e, w') → catchable e = false ∨ rsp_server d = Err e.
Proof using Type.
  unfold open_debugger. run_st. destruct (rsp_server d) as [[]|x].
  - intros H. left. by eapply debug_clients_raise.
  - intros [= <- _]. by right.
Qed.
End exceptions.
