(* ===== verification/Fork.v ===== *)
(** * Serving requests with forks: [vm.cpp], [main.cpp]

    [reset_to] and [resume_fork] of [VirtualMachine], and the thread of [main]
    that creates a fork, resumes it for request after request and resets it.

    A fork of an ephemeral server takes one connection, refuses others while it
    lasts, and is reset to the main object's state when the guest closes it.
    [Threads] interleaves several of them. *)

From S2P Require Import Prelude FsPath AllowedPaths Network Config Effect Tinykvm Vm Debugger.

Local Open Scope string_scope.
Local Open Scope list_scope.
Local Open Scope nat_scope.

(** ** Operations *)
Section operations.
Context {M : Type} `{!TinyKVM M}.

(** [settings::MAIN_STACK_SIZE] *)
Definition MAIN_STACK_SIZE : Z := Z.shiftl 4 20.

Definition reset_options (other : VirtualMachine M) : MachineOptions := {|
  max_mem := Some (max_address (m_machine other));
  max_cow_mem := Some (max_req_mem (m_config other));
  stack_size := Some MAIN_STACK_SIZE;
  reset_free_work_mem := Some (limit_req_mem (m_config other));
  reset_copy_all_registers := Some true;
  reset_keep_all_work_memory := Some (ephemeral_keep_working_memory (m_config other));
  opt_dylink_address_hint := None; opt_heap_address_hint := None; vmem_base_address := None;
  remappings := None; opt_verbose_loader := None; opt_hugepages := None;
  master_direct_memory_writes := None; opt_split_hugepages := None; opt_executable_heap := None;
  opt_mmap_backed_files := None; snapshot_file := None; hugepages_arena_size := None
|}.

(** The closure [main] passes to [set_on_reset_callback]; [config] is that of
    the main object and [i] the index of the fork.  [reset_counters] has 64
    elements: [at(i)] throws past the end, [operator[]] is undefined there. *)
Definition on_reset_closure (config : Configuration) (i : nat) : vm_fn M unit :=
  if negb (verbose config) then mret tt
  else
    counters ← gets reset_counters;
    match counters !! i with
    | None => raise (OutOfRange "array::at")
    | Some reset_counter =>
        modify (set_counters (<[i := u64 (reset_counter + 1)]> counters));;
        if decide (i = 0 ∧ (reset_counter mod 64 = 0)%Z ∧
                   (Z.of_nat (length counters) < concurrency config)%Z)
        then raise (Undefined "reset_counters[j]")
        else mret tt
    end.

Definition reset_to (other : VirtualMachine M) : vm_fn M unit :=
  on_machine (machine_reset_to (reset_options other) (m_machine other));;
  v ← this;
  match m_on_reset_callback v with
  | Some i => on_reset_closure (m_config (main_vm v)) i
  | None => mret tt
  end;;
  update (set_tracked_client (-1) (-1));;
  update (set_blocking_connections false).

(** The endless loop of an ephemeral fork, one element of [rounds] for each
    turn: the repeated system call and the run after it.  The trace has the
    answers of each turn. *)
Fixpoint resume_loop (rounds : list (Run M * Run M))
    : vm_fn M (list (list Answer * list Answer) * progress) :=
  match rounds with
  | [] => mret ([], Serving)
  | (syscall, resume) :: rounds =>
      a ← restart_poll_syscall syscall;
      b ← machine_run resume;
      v ← this;
      if m_reset_needed v then
        reset_to (main_vm v);;
        update (set_reset_needed false);;
        r ← resume_loop rounds;
        mret ((a, b) :: r.1, r.2)
      else mret ([(a, b)], Finished)
  end.

(** [resume_fork]; the fork that is not ephemeral is resumed once, with
    [single]. *)
Definition resume_fork (rounds : list (Run M * Run M)) (single : Run M)
    : vm_fn M (list (list Answer * list Answer) * progress) :=
  v ← this;
  if m_ephemeral v then resume_loop rounds
  else b ← machine_run single; mret ([([], b)], Finished).

(** What happens in one turn of the loop of a fork's thread: the runs of
    [resume_fork], and the debugger's session after a failure. *)
Record Turn := MkTurn { turn_rounds : list (Run M * Run M); turn_single : Run M; turn_debug : Debugging M }.

(** One turn: any exception is a failure; then the debugger is opened if [DEBUG] is
    set, and, as in every ephemeral server, the fork is reset.  The result says
    whether the reset failed too. *)
Definition thread_turn (env : list string) (vm_ : VirtualMachine M) (t : Turn)
    : vm_fn M (progress * bool) :=
  r ← try_catch (x ← resume_fork (turn_rounds t) (turn_single t); mret (x.2, false))
        (λ _, mret (Finished, true));
  match r with
  | (Serving, _) => mret (Serving, false)
  | (Finished, failure) =>
      p ← (if failure : bool then debug_if env "DEBUG" (turn_debug t) else mret Finished);
      match p with
      | Serving => mret (Serving, false)
      | Finished =>
          if m_ephemeral vm_ || failure
          then try_catch (reset_to vm_;; mret (Finished, false)) (λ _, mret (Finished, true))
          else mret (Finished, false)
      end
  end.

(** The loop of the thread: for each turn that is over, whether its reset
    failed. *)
Fixpoint thread_loop (env : list string) (vm_ : VirtualMachine M) (turns : list Turn)
    : vm_fn M (list bool) :=
  match turns with
  | [] => mret []
  | t :: turns =>
      r ← thread_turn env vm_ t;
      match r with
      | (Serving, _) => mret []
      | (Finished, failed) => l ← thread_loop env vm_ turns; mret (failed :: l)
      end
  end.

(** What the main object's fork [i] is made of, and the fork with which its
    thread enters the loop. *)
Definition forked (vm_ : VirtualMachine M) (i : nat) (m : M) : VirtualMachine M :=
  set_on_reset_callback (Some i) (fork_object vm_ (Z.of_nat i) false m).

Definition new_fork (vm_ : VirtualMachine M) (i : nat) : result (VirtualMachine M) :=
  v ← fork_vm vm_ (Z.of_nat i) false;
  Ok (set_on_reset_callback (Some i) v).
End operations.
Arguments Turn M : clear implicits.
Arguments MkTurn {M}.
Arguments turn_rounds {M}.
Arguments turn_single {M}.
Arguments turn_debug {M}.

(** ** The identity of a fork does not change *)
Section identity.
Context {M : Type} `{!TinyKVM M}.

Definition is_object (v : VirtualMachine M) (w : World M) : Prop := same_object v (vm w).

Lemma update_object v f :
  (∀ x, same_object v x → same_object v (f x)) → preserves (is_object v) (update f).
Proof. intros Hf. apply preserves_modify. intros w. apply Hf. Qed.

Lemma machine_run_object v r : preserves (is_object v) (machine_run r).
Proof. apply machine_run_preserves; [by intros b w|]. apply Forall_true. intros e. apply handle_same_object. Qed.

Lemma restart_object v r : preserves (is_object v) (restart_poll_syscall r).
Proof. apply restart_preserves, Forall_true. intros e. apply handle_same_object. Qed.

Lemma debug_if_object v env name d : preserves (is_object v) (debug_if env name d).
Proof. apply debug_if_preserves; [by intros b w|]. apply Forall_true. intros e. apply handle_same_object. Qed.

Lemma reset_closure_object v config i : preserves (is_object v) (on_reset_closure config i).
Proof.
  unfold on_reset_closure. destruct (negb _); [apply preserves_ret|].
  apply preserves_bind; [apply preserves_gets|]. intros c. destruct (c !! i); [|apply preserves_raise].
  apply preserves_bind; [by apply preserves_modify|]. intros _.
  case_decide; [apply preserves_raise|apply preserves_ret].
Qed.

Lemma reset_to_object v other : preserves (is_object v) (reset_to other).
Proof.
  unfold reset_to. apply preserves_bind.
  { intros w Hw. unfold on_machine. by destruct (machine_reset_to _ _ _). }
  intros _. apply preserves_bind; [apply preserves_gets|]. intros x. apply preserves_bind.
  { destruct (m_on_reset_callback x); [apply reset_closure_object|apply preserves_ret]. }
  intros _. apply preserves_bind; [by apply update_object|]. intros _. by apply update_object.
Qed.

Lemma resume_loop_object v rounds : preserves (is_object v) (resume_loop rounds).
Proof.
  induction rounds as [|[sys res] rounds IH]; cbn [resume_loop]; [apply preserves_ret|].
  apply preserves_bind; [apply restart_object|]. intros a.
  apply preserves_bind; [apply machine_run_object|]. intros b.
  apply preserves_bind; [apply preserves_gets|]. intros x.
  destruct (m_reset_needed x); [|apply preserves_ret].
  apply preserves_bind; [apply reset_to_object|]. intros _.
  apply preserves_bind; [by apply update_object|]. intros _.
  apply preserves_bind; [done|]. intros r. apply preserves_ret.
Qed.

Lemma thread_loop_object v env main turns : preserves (is_object v) (thread_loop env main turns).
Proof.
  induction turns as [|t turns IH]; cbn [thread_loop]; [apply preserves_ret|].
  apply preserves_bind; [|intros [[] failed]; [|apply preserves_ret];
    apply preserves_bind; [done|intros; apply preserves_ret]].
  unfold thread_turn, resume_fork. apply preserves_bind.
  - apply preserves_try; [|intros e; apply preserves_ret].
    apply preserves_bind; [|intros x; apply preserves_ret].
    apply preserves_bind; [apply preserves_gets|]. intros x.
    destruct (m_ephemeral x); [apply resume_loop_object|].
    apply preserves_bind; [apply machine_run_object|intros; apply preserves_ret].
  - intros [[] b]; [|apply preserves_ret]. apply preserves_bind.
    + destruct b; [apply debug_if_object|apply preserves_ret].
    + intros []; [|apply preserves_ret]. destruct (_ || b); [|apply preserves_ret].
      apply preserves_try; [|intros e; apply preserves_ret].
      apply preserves_bind; [apply reset_to_object|intros; apply preserves_ret].
Qed.
End identity.

(** A fork that was made. *)
Lemma fork_vm_ok `{!TinyKVM M} (main : VirtualMachine M) reqid st v :
  fork_vm main reqid st = Ok v →
  ∃ m, fork_machine (fork_options (m_config main)) (m_machine main) = Ok m ∧ v = fork_object main reqid st m.
Proof.
  unfold fork_vm. destruct (fork_machine _ _) as [m|e]; cbn [mbind result_bind]; [|done].
  intros [= <-]. by exists m.
Qed.

Lemma new_fork_forked `{!TinyKVM M} (main : VirtualMachine M) i v :
  new_fork main i = Ok v →
  ∃ m, fork_machine (fork_options (m_config main)) (m_machine main) = Ok m ∧ v = forked main i m.
Proof.
  unfold new_fork. destruct (fork_vm _ _ _) as [v0|e] eqn:Hv; cbn [mbind result_bind]; [|done].
  intros [= <-]. apply fork_vm_ok in Hv as (m & Hm & ->). by exists m.
Qed.

(** ** The abstract fork

    What a fork of an ephemeral server promises: it is idle or has one
    connection, [Busy fd vfd].  Idle it accepts; busy it refuses every other
    connection with [EAGAIN]; closing the descriptor of its connection is
    reported, and nothing else changes its phase. *)
Inductive phase := Idle | Busy (fd vfd : Z).

Inductive phase_step {M} : phase → Event M → Answer → phase → Prop :=
  | accept_idle vfd fd flags fdflags :
      phase_step Idle (EvAccept vfd fd flags fdflags) (Flag true) Idle
  | accept_busy c v vfd fd flags fdflags :
      phase_step (Busy c v) (EvAccept vfd fd flags fdflags) (Flag false) (Busy c v)
  | connect_idle lvfd lfd fd vfd : (0 ≤ vfd)%Z →
      phase_step Idle (EvAcceptSocket lvfd lfd fd) (Descriptor vfd) (Busy fd vfd)
  | connect_busy c v lvfd lfd fd :
      phase_step (Busy c v) (EvAcceptSocket lvfd lfd fd) (Descriptor (- EAGAIN)) (Busy c v)
  | close_idle vfd : phase_step Idle (EvFreeFd vfd) (Flag false) Idle
  | close_busy c v vfd :
      phase_step (Busy c v) (EvFreeFd vfd) (Flag (bool_decide (vfd = v))) (Busy c v)
  | step_other s e a :
      match e with
      | EvAccept _ _ _ _ | EvAcceptSocket _ _ _ | EvFreeFd _ => False
      | _ => match a with Descriptor _ => False | _ => True end
      end → phase_step s e a s.

(** A trace of the abstract fork. *)
Inductive phase_trace {M} : phase → list (Event M) → list Answer → phase → Prop :=
  | trace_nil s : phase_trace s [] [] s
  | trace_cons s e a s1 es l s2 :
      phase_step s e a s1 → phase_trace s1 es l s2 → phase_trace s (e :: es) (a :: l) s2.

(** The connections a trace accepted. *)
Definition accepted (a : Answer) : bool := match a with Descriptor n => (0 <=? n)%Z | _ => false end.
Definition accepted_count (l : list Answer) : nat := length (filter (λ a, accepted a = true) l).

Definition busy (s : phase) : nat := match s with Idle => 0 | Busy _ _ => 1 end.

(** The phase of a fork object. *)
Definition phase_of {M} (v : VirtualMachine M) : phase :=
  if decide (m_tracked_client_vfd v = -1)%Z then Idle
  else Busy (m_tracked_client_fd v) (m_tracked_client_vfd v).


(** ** What closes a connection, by the events and answers of a run

    The connection after an event: an accepted socket that was given the
    descriptor [n] is connection [n]. *)
Definition connected {M} (s : phase) (x : Event M * Answer) : phase :=
  match x with
  | (EvAcceptSocket _ _ fd, Descriptor n) => if (0 <=? n)%Z then Busy fd n else s
  | _ => s
  end.

(** The event gives back the descriptor of the connection. *)
Definition frees {M} (s : phase) (e : Event M) : Prop :=
  ∃ fd vfd, e = EvFreeFd vfd ∧ s = Busy fd vfd.

(** Event [j] of the run does, for the connection the fork has by then. *)
Definition frees_connection {M} (s : phase) (es : list (Event M)) (l : list Answer) (j : nat) : Prop :=
  ∃ e, es !! j = Some e ∧ frees (foldl connected s (zip (take j es) (take j l))) e.

(** The last event that was handled closed the connection, and none before. *)
Definition closes {M} (s : phase) (es : list (Event M)) (l : list Answer) : Prop :=
  ∃ n, length l = S n ∧ frees_connection s es l n ∧ ∀ j, j < n → ¬ frees_connection s es l j.

Definition not_closed {M} (s : phase) (es : list (Event M)) (l : list Answer) : Prop :=
  ∀ j, j < length l → ¬ frees_connection s es l j.

(** ** The invariant of a fork

    [main] is the main object and [i] the fork's index.  A run changes the
    machine, the tracked connection with the flag that blocks others, and the
    request to reset; everything else is as [new_fork] made it. *)
Definition fork_inv `{!TinyKVM M} (main : VirtualMachine M) (i : nat) (w : World M) : Prop :=
  same_object (forked main i (m_machine main)) (vm w) ∧
  m_waiting_for_requests (vm w) = false ∧
  m_poll_method (vm w) = m_poll_method main ∧
  length (reset_counters w) = 64 ∧
  (m_tracked_client_vfd (vm w) = -1 ∧ m_blocking_connections (vm w) = false ∨
   0 ≤ m_tracked_client_vfd (vm w) ∧ m_blocking_connections (vm w) = true)%Z.

(** A fork as the constructor left it, as far as the guest and its connection go.
    The flag [m_reset_needed] is not part of it: [reset_to] does not clear it,
    [resume_fork] does after its own reset and [main] does not after the one of
    a failed turn, so that the next turn of such a fork may reset it once more. *)
Definition pristine `{!TinyKVM M} {G} (guest_state : M → G) (main : VirtualMachine M) (i : nat)
    (w : World M) : Prop :=
  fork_inv main i w ∧ phase_of (vm w) = Idle ∧
  guest_state (m_machine (vm w)) = guest_state (m_machine main).

Section fork.
Context {M G : Type} `{!TinyKVM M} (guest_state : M → G) `{!TinyKVMLaws M G guest_state}.
Variables (main : VirtualMachine M) (i : nat).
Hypothesis main_ephemeral : m_ephemeral main = true.

Let fork_fds : FdCallbacks :=
  MkFds AcceptFork SocketFork FreeFork WaitNone WaitNone ListenNone
    (connect_socket_callback (fds main)) (bind_socket_callback (fds main)) SymlinkNone false.

Lemma forked_fds_fork m : fds (forked main i m) = fork_fds.
Proof using main_ephemeral TinyKVMLaws0.
  unfold forked, fork_object, fork_fds. simpl. rewrite main_ephemeral.
  by rewrite (forked_fds_none (guest_state := guest_state)).
Qed.

Lemma fork_inv_fields w : fork_inv main i w →
  fds (vm w) = fork_fds ∧ m_is_storage (vm w) = false ∧ m_ephemeral (vm w) = true ∧
  m_on_reset_callback (vm w) = Some i ∧ m_master_instance (vm w) = Some main ∧
  m_config (vm w) = m_config main.
Proof using main_ephemeral TinyKVMLaws0.
  intros ((Hc & _ & _ & _ & He & Hs & Hr & Hm & Hf) & _).
  rewrite Hf, Hs, He, Hr, Hm, Hc, forked_fds_fork. by split_and!.
Qed.

Lemma fork_main_vm w : fork_inv main i w → main_vm (vm w) = main.
Proof using main_ephemeral TinyKVMLaws0.
  intros Hi. unfold main_vm. by destruct (fork_inv_fields w Hi) as (_ & _ & _ & _ & -> & _).
Qed.

Lemma fork_inv_phase w : fork_inv main i w →
  phase_of (vm w) = Idle ∧ m_tracked_client_vfd (vm w) = (-1)%Z ∧
    m_blocking_connections (vm w) = false ∨
  phase_of (vm w) = Busy (m_tracked_client_fd (vm w)) (m_tracked_client_vfd (vm w)) ∧
    (0 ≤ m_tracked_client_vfd (vm w))%Z ∧ m_blocking_connections (vm w) = true.
Proof using Type.
  intros (_ & _ & _ & _ & Hp). unfold phase_of. case_decide; [left|right]; destruct Hp; naive_solver lia.
Qed.

(** ** What each event does to a fork *)

Lemma on_vm_machine (w : World M) : on_vm (set_machine (m_machine (vm w))) w = w.
Proof using Type. by destruct w as [[]]. Qed.

(** Events that are not about connections only change the machine. *)
Lemma handle_inert e w :
  fork_inv main i w →
  match e with EvAccept _ _ _ _ | EvAcceptSocket _ _ _ | EvFreeFd _ => False | _ => True end →
  ∃ m, (handle e w).2 = on_vm (set_machine m) w ∧
    ∀ a, (handle e w).1 = Ok a → phase_step (phase_of (vm w)) e a (phase_of (vm w)).
Proof using main_ephemeral TinyKVMLaws0.
  intros Hi He. pose proof (fork_inv_fields _ Hi) as (Hf & Hs & _ & _ & _ & _).
  destruct e; try done; handler_cases; rewrite ?Hf in *; simpl in *; try congruence.
  all: first [ exists (m_machine (vm w)); split; [symmetry; apply on_vm_machine|]
             | eexists; split; [done|] ];
    intros ? [= <-]; by constructor.
Qed.

Lemma handle_accept vfd fd flags fdflags w :
  fork_inv main i w →
  handle (EvAccept vfd fd flags fdflags) w =
  match phase_of (vm w) with
  | Idle => (Ok (Flag true), w)
  | Busy _ _ => (Ok (Flag false), on_vm (λ v, set_machine
      (set_registers (set_rax (- EAGAIN) (registers (m_machine v))) (m_machine v)) v) w)
  end.
Proof using main_ephemeral TinyKVMLaws0.
  intros Hi. pose proof (fork_inv_fields _ Hi) as (Hf & _).
  unfold_handlers. run_st. rewrite Hf. simpl.
  by destruct (fork_inv_phase _ Hi) as [(-> & _ & ->)|(-> & _ & ->)].
Qed.

Lemma handle_accept_socket lvfd lfd fd w :
  fork_inv main i w →
  handle (EvAcceptSocket lvfd lfd fd) w =
  match phase_of (vm w) with
  | Idle =>
      match manage fd (m_machine (vm w)) with
      | Ok r => (Ok (Descriptor r.1), on_vm (λ v, set_blocking_connections true
                   (set_tracked_client fd r.1 (set_machine r.2 v))) w)
      | Err e => (Err e, on_vm (λ v, set_tracked_client fd (m_tracked_client_vfd v) v) w)
      end
  | Busy _ _ => (Ok (Descriptor (- EAGAIN)), w)
  end.
Proof using main_ephemeral TinyKVMLaws0.
  intros Hi. pose proof (fork_inv_fields _ Hi) as (Hf & _).
  unfold_handlers. run_st. rewrite Hf. simpl.
  destruct (fork_inv_phase _ Hi) as [(-> & -> & _)|(-> & ? & _)].
  - rewrite decide_False by (intros E; by apply E). by destruct (manage fd (m_machine (vm w))).
  - by rewrite decide_True by lia.
Qed.

Lemma handle_free_fd vfd w :
  fork_inv main i w → (0 ≤ vfd)%Z →
  handle (EvFreeFd vfd) w =
  match phase_of (vm w) with
  | Idle => (Ok (Flag false), w)
  | Busy _ v => (Ok (Flag (bool_decide (vfd = v))),
      if decide (vfd = v) then on_vm (λ v, set_reset_needed true (set_stopped true v)) w else w)
  end.
Proof using main_ephemeral TinyKVMLaws0.
  intros Hi Hv. pose proof (fork_inv_fields _ Hi) as (Hf & _).
  unfold_handlers. run_st. rewrite Hf. simpl.
  destruct (fork_inv_phase _ Hi) as [(-> & -> & _)|(-> & ? & _)].
  - by rewrite decide_False by lia.
  - by case_decide; rewrite ?bool_decide_true, ?bool_decide_false by done.
Qed.

(** The fields the invariant does not look at. *)
Lemma fork_inv_machine m w : fork_inv main i w → fork_inv main i (on_vm (set_machine m) w).
Proof using Type. exact id. Qed.

Lemma fork_inv_stopped b w : fork_inv main i w → fork_inv main i (on_vm (set_stopped b) w).
Proof using Type. exact id. Qed.

Lemma fork_inv_reset_needed b w : fork_inv main i w → fork_inv main i (on_vm (set_reset_needed b) w).
Proof using Type. exact id. Qed.

Lemma fork_inv_connected fd vfd m w :
  fork_inv main i w → (0 ≤ vfd)%Z →
  fork_inv main i (on_vm (λ v, set_blocking_connections true
    (set_tracked_client fd vfd (set_machine m v))) w).
Proof using Type. intros (? & ? & ? & ? & _) Hv. split_and!; [done..|right; simpl; auto]. Qed.

Lemma phase_of_connected fd vfd m (v : VirtualMachine M) :
  (0 ≤ vfd)%Z →
  phase_of (set_blocking_connections true (set_tracked_client fd vfd (set_machine m v))) = Busy fd vfd.
Proof using Type. intros. unfold phase_of. simpl. by rewrite decide_False by lia. Qed.

(** ** Handlers refine the abstract fork *)

(** One event: the invariant is kept, the answer is a step of the abstract
    fork, and closing the connection is what requests a reset and stops the
    machine. *)
Lemma handle_refines e w :
  fork_inv main i w → event_ok e →
  let w' := (handle e w).2 in
  fork_inv main i w' ∧
  match (handle e w).1 with
  | Ok a => phase_step (phase_of (vm w)) e a (phase_of (vm w')) ∧
      ((∃ vfd, e = EvFreeFd vfd ∧ a = Flag true ∧
          m_reset_needed (vm w') = true ∧ stopped (vm w') = true) ∨
       (∀ vfd, e = EvFreeFd vfd → a = Flag false) ∧
          m_reset_needed (vm w') = m_reset_needed (vm w) ∧ stopped (vm w') = stopped (vm w))
  | Err _ => phase_of (vm w') = phase_of (vm w) ∧ m_reset_needed (vm w') = m_reset_needed (vm w)
  end.
Proof using main_ephemeral TinyKVMLaws0.
  intros Hi He. cbv zeta.
  assert (match e with EvAccept _ _ _ _ | EvAcceptSocket _ _ _ | EvFreeFd _ => False | _ => True end →
    fork_inv main i (handle e w).2 ∧
    match (handle e w).1 with
    | Ok a => phase_step (phase_of (vm w)) e a (phase_of (vm (handle e w).2)) ∧
        (∀ vfd, e = EvFreeFd vfd → a = Flag false) ∧
        m_reset_needed (vm (handle e w).2) = m_reset_needed (vm w) ∧
        stopped (vm (handle e w).2) = stopped (vm w)
    | Err _ => phase_of (vm (handle e w).2) = phase_of (vm w) ∧
        m_reset_needed (vm (handle e w).2) = m_reset_needed (vm w)
    end) as Hinert.
  { intros Hin. destruct (handle_inert e w Hi Hin) as (m & Hw & Ha). rewrite Hw.
    split; [exact Hi|]. destruct (handle e w).1; [|done].
    split_and!; [by apply Ha|by intros v ->|done..]. }
  destruct e; try (destruct Hinert as [? Hinert]; [done|]; split; [done|];
    destruct (handle _ w).1; [destruct_and! Hinert|]; auto; fail); clear Hinert.
  - rewrite handle_accept by done. destruct (phase_of (vm w)) eqn:Hph; cbn [fst snd].
    + rewrite Hph. split; [done|]. split; [constructor|by right].
    + split; [exact Hi|]. change (phase_of (vm (on_vm _ w))) with (phase_of (vm w)).
      rewrite Hph. split; [constructor|by right].
  - rewrite handle_accept_socket by done. destruct (phase_of (vm w)) eqn:Hph; cbn [fst snd].
    + destruct (manage fd (m_machine (vm w))) as [[vfd m]|x] eqn:Hm; cbn [fst snd] in *;
        [|split; [exact Hi|split; [|done]; unfold phase_of in *; cbn in *; by case_decide]].
      pose proof (manage_nonneg (guest_state := guest_state) _ _ _ _ Hm) as Hv.
      split; [by apply fork_inv_connected|]. cbn [vm on_vm].
      rewrite phase_of_connected by done. split; [by constructor|by right].
    + rewrite Hph. split; [done|]. split; [constructor|by right].
  - rewrite handle_free_fd by done. destruct (phase_of (vm w)) eqn:Hph; cbn [fst snd].
    + rewrite Hph. split; [done|]. split; [constructor|right]. by split; [intros ? [= <-]|].
    + case_decide as Hd.
      * split; [exact Hi|]. change (phase_of (vm (on_vm _ w))) with (phase_of (vm w)).
        rewrite Hph, bool_decide_true by done. split; [|left; eauto].
        rewrite <-(bool_decide_true (vfd = vfd0)) by done. constructor.
      * rewrite Hph, bool_decide_false by done. split; [done|]. split; [|right; by split; [intros ? [= <-]|]].
        rewrite <-(bool_decide_false (vfd = vfd0)) by done. constructor.
Qed.

(** ** Runs refine traces of the abstract fork *)

Lemma phase_step_connected (s s' : phase) (e : Event M) a : phase_step s e a s' → s' = connected s (e, a).
Proof using Type.
  intros H. inversion H as [| |? ? ? ? Hv| | | |? ? ? Hm]; subst; try done; simpl.
  - by rewrite (proj2 (Z.leb_le 0 _) Hv).
  - by destruct e, a.
Qed.

Lemma phase_step_frees (s s' : phase) (e : Event M) a :
  phase_step s e a s' → (∃ vfd, e = EvFreeFd vfd ∧ a = Flag true) ↔ frees s e.
Proof using Type.
  unfold frees. destruct 1 as [| | | | |c v vfd|s e a Hm]; split; try naive_solver.
  - intros (v' & [= <-] & [= Hb]). apply bool_decide_eq_true in Hb as ->. eauto.
  - intros (c' & v' & [= ->] & [= _ ->]). exists v'. by rewrite bool_decide_true.
Qed.

Lemma closes_here s (e : Event M) a evs : frees s e → closes s (e :: evs) [a].
Proof using Type.
  intros Hf. exists 0. split; [done|]. split; [by exists e|]. intros j Hj. lia.
Qed.

Lemma frees_connection_cons s (e : Event M) es a l j :
  frees_connection s (e :: es) (a :: l) (S j) ↔ frees_connection (connected s (e, a)) es l j.
Proof using Type. done. Qed.

Lemma not_closed_cons s (e : Event M) es a l :
  ¬ frees s e → not_closed (connected s (e, a)) es l → not_closed s (e :: es) (a :: l).
Proof using Type.
  intros Ha Hl [|j] Hj; [intros (e' & [= <-] & ?); by apply Ha|].
  rewrite frees_connection_cons. apply Hl. simpl in Hj. lia.
Qed.

Lemma closes_cons s (e : Event M) es a l :
  ¬ frees s e → closes (connected s (e, a)) es l → closes s (e :: es) (a :: l).
Proof using Type.
  intros Ha (n & Hn & Hf & Hb). exists (S n). split; [simpl; by rewrite Hn|].
  rewrite frees_connection_cons. split; [done|].
  intros [|j] Hj; [intros (e' & [= <-] & ?); by apply Ha|].
  rewrite frees_connection_cons. apply Hb. lia.
Qed.

Lemma run_events_refines evs w :
  fork_inv main i w → Forall event_ok evs →
  let w' := (run_events evs w).2 in
  fork_inv main i w' ∧
  match (run_events evs w).1 with
  | Ok l => phase_trace (phase_of (vm w)) (take (length l) evs) l (phase_of (vm w')) ∧
      (closes (phase_of (vm w)) evs l ∧ m_reset_needed (vm w') = true ∧ stopped (vm w') = true ∨
       not_closed (phase_of (vm w)) evs l ∧ m_reset_needed (vm w') = m_reset_needed (vm w) ∧
         stopped (vm w') = stopped (vm w))
  | Err _ => True
  end.
Proof using main_ephemeral TinyKVMLaws0.
  intros Hi Hok. cbv zeta. revert w Hi. induction Hok as [|e evs He _ IH]; intros w Hi.
  { split; [done|]. split; [constructor|right]. split; [intros j Hj; simpl in Hj; lia|done]. }
  cbn [run_events]. unfold this. run_st. destruct (stopped (vm w)) eqn:Hst.
  { split; [done|]. split; [constructor|right]. split; [intros j Hj; simpl in Hj; lia|done]. }
  pose proof (handle_refines e w Hi He) as [Hi1 Hr]. destruct (handle e w) as [[a|x] w1]; simpl in *;
    [|done].
  destruct Hr as [Hstep Hr]. specialize (IH w1 Hi1) as [Hi2 IH].
  destruct (run_events evs w1) as [[l|x] w2] eqn:Hrun; simpl in *; [|done].
  split; [done|]. destruct IH as [Htr IH]. split; [by econstructor|].
  pose proof (phase_step_frees _ _ _ _ Hstep) as Hfrees.
  rewrite (phase_step_connected _ _ _ _ Hstep) in IH.
  destruct Hr as [(vfd & -> & -> & Hn & Hs)|(Ha & Hn & Hs)].
  - assert (l = [] ∧ w2 = w1) as [-> ->].
    { destruct evs; simpl in Hrun; unfold this in Hrun; run_st; [by simplify_eq|].
      rewrite Hs in Hrun. by simplify_eq. }
    left. split_and!; [|done..]. apply closes_here, Hfrees. eauto.
  - assert (¬ frees (phase_of (vm w)) e) as Hnf.
    { intros (vfd & -> & ->)%Hfrees. by specialize (Ha vfd eq_refl). }
    destruct IH as [(Hc & ? & ?)|(Hc & ? & ?)]; [left|right].
    + split_and!; [by apply closes_cons|done..].
    + split_and!; [by apply not_closed_cons|congruence..].
Qed.

Lemma phase_trace_count {P : phase} {es : list (Event M)} {l P'} :
  phase_trace P es l P' → accepted_count l + busy P = busy P'.
Proof using Type.
  induction 1 as [|s e a s1 es l s2 Hs Ht IH]; [done|].
  unfold accepted_count in *. rewrite filter_cons. rewrite <-IH.
  inversion Hs as [| | ??? vfd Hv | | | |? ? ? Hm]; subst; simpl; try lia.
  - rewrite decide_True by (by apply Z.leb_le). simpl. lia.
  - destruct a; try (rewrite decide_False by done); try lia.
    by destruct e.
Qed.

(** ** Resetting *)

(** The verbose counters have an element for this fork, and the fork that
    prints them does not read past the last one. *)
Definition reset_safe : Prop :=
  verbose (m_config main) = false ∨ i < 64 ∧ (i = 0 → (concurrency (m_config main) ≤ 64)%Z).

Lemma on_reset_safe (w : World M) :
  reset_safe → length (reset_counters w) = 64 →
  ∃ counters, length counters = 64 ∧
    on_reset_closure (m_config main) i w = (Ok tt, set_counters counters w).
Proof using Type.
  intros Hsafe Hlen. unfold on_reset_closure. destruct (verbose (m_config main)) eqn:Hv; cbn [negb].
  - destruct Hsafe as [?|[Hlt Hc]]; [congruence|]. run_st.
    destruct (lookup_lt_is_Some_2 (reset_counters w) i) as [c Hci]; [lia|]. rewrite Hci.
    exists (<[i:=u64 (c + 1)]> (reset_counters w)). split; [by rewrite length_insert|].
    rewrite decide_False; [done|]. intros (H0 & _ & ?). specialize (Hc H0). lia.
  - exists (reset_counters w). split; [done|]. by destruct w.
Qed.

(** The machine is reset before the callback is called. *)
Lemma reset_to_machine (w : World M) :
  m_on_reset_callback (vm w) = Some i → m_master_instance (vm w) = Some main →
  reset_to main w =
    let '(r, m) := machine_reset_to (reset_options main) (m_machine main) (m_machine (vm w)) in
    (lift r ≫= λ _, on_reset_closure (m_config main) i ≫= λ _,
      update (set_tracked_client (-1) (-1)) ≫= λ _, update (set_blocking_connections false))
    (on_vm (set_machine m) w).
Proof using Type.
  intros Hcb Hma. unfold reset_to, this, update, on_machine, main_vm. run_st.
  destruct w as [[]]; simpl in *. rewrite Hcb, Hma. by destruct (machine_reset_to _ _ _) as [[]].
Qed.

Lemma on_reset_counters (w : World M) :
  ∃ counters, (on_reset_closure (m_config main) i w).2 = set_counters counters w ∧
    length counters = length (reset_counters w).
Proof using Type.
  assert (w = set_counters (reset_counters w) w) as Hw by by destruct w.
  unfold on_reset_closure. run_st. destruct (verbose _); simpl; [|eauto].
  destruct (reset_counters w !! i); simpl; [|eauto].
  eexists. split; [by case_decide|]. apply length_insert.
Qed.

(** [reset_to] keeps the invariant in any case; when it returns the fork is as
    new, and when it throws the fork is in the phase it was in. *)
Lemma reset_to_spec w :
  fork_inv main i w →
  let w' := (reset_to main w).2 in
  fork_inv main i w' ∧ m_reset_needed (vm w') = m_reset_needed (vm w) ∧
  match (reset_to main w).1 with
  | Ok _ => pristine guest_state main i w'
  | Err _ => phase_of (vm w') = phase_of (vm w)
  end.
Proof using main_ephemeral TinyKVMLaws0.
  intros Hi. cbv zeta. pose proof (fork_inv_fields _ Hi) as (_ & _ & _ & Hcb & Hma & _).
  rewrite (reset_to_machine w Hcb Hma).
  destruct (machine_reset_to _ _ _) as [[[]|x] m] eqn:Hm; run_st; cbn [fst snd]; [|by split_and!].
  destruct (on_reset_counters (on_vm (set_machine m) w)) as (cs & Hcs & Hlen).
  cbn [reset_counters on_vm] in Hlen. unfold update. run_st. 
  destruct (on_reset_closure _ _ _) as [[[]|x] w1]; cbn [fst snd] in *; subst w1;
    destruct Hi as (Hso & Hw & Hp & Hl & Ht); (assert (length cs = 64) by congruence).
  - assert (fork_inv main i (on_vm (λ v, set_blocking_connections false
      (set_tracked_client (-1) (-1) (set_machine m v))) (set_counters cs w))) as Hi'.
    { split_and!; [exact Hso|done..|by left]. }
    split_and!; [exact Hi'|done|]. split_and!; [exact Hi'|done|].
    by apply (guest_state_reset (guest_state := guest_state)) in Hm.
  - by split_and!.
Qed.

(** When the machine's reset and the counters are in order it returns. *)
Definition machine_resets : Prop :=
  ∀ m, (machine_reset_to (reset_options main) (m_machine main) m).1 = Ok tt.

Lemma reset_to_returns w :
  fork_inv main i w → reset_safe → machine_resets → (reset_to main w).1 = Ok tt.
Proof using main_ephemeral TinyKVMLaws0.
  intros Hi Hsafe Hres. pose proof (fork_inv_fields _ Hi) as (_ & _ & _ & Hcb & Hma & _).
  pose proof Hi as (_ & _ & _ & Hlen & _). rewrite (reset_to_machine w Hcb Hma).
  specialize (Hres (m_machine (vm w))).
  destruct (machine_reset_to _ _ _) as [r m]; cbn [fst] in Hres; subst r.
  destruct (on_reset_safe (on_vm (set_machine m) w) Hsafe Hlen) as (cs & _ & Hr).
  unfold update. run_st. by rewrite Hr.
Qed.

Lemma reset_to_fails w :
  fork_inv main i w → verbose (m_config main) = true → 64 ≤ i →
  ∃ m, reset_to main w = (match (machine_reset_to (reset_options main) (m_machine main) (m_machine (vm w))).1 with
      | Ok _ => Err (OutOfRange "array::at") | Err e => Err e end, on_vm (set_machine m) w) ∧
    m = (machine_reset_to (reset_options main) (m_machine main) (m_machine (vm w))).2.
Proof using main_ephemeral TinyKVMLaws0.
  intros Hi Hv Hlt. pose proof (fork_inv_fields _ Hi) as (_ & _ & _ & Hcb & Hma & _).
  pose proof Hi as (_ & _ & _ & Hlen & _).
  rewrite (reset_to_machine w Hcb Hma). destruct (machine_reset_to _ _ _) as [[[]|e] m]; [|by exists m].
  exists m. split; [|done]. unfold on_reset_closure. rewrite Hv. cbn [negb].
  run_st. cbn [reset_counters on_vm]. by rewrite lookup_ge_None_2 by lia.
Qed.

(** ** The loop of an ephemeral fork *)

Definition round_ok (r : Run M * Run M) : Prop := run_ok r.1 ∧ run_ok r.2.

Lemma handle_fork_inv e : event_ok e → preserves (fork_inv main i) (handle e).
Proof using main_ephemeral TinyKVMLaws0. intros He w Hw. by apply handle_refines. Qed.

Lemma run_inv r : run_ok r → preserves (fork_inv main i) (machine_run r).
Proof using main_ephemeral TinyKVMLaws0.
  intros Hr. apply machine_run_preserves; [by intros b w|].
  eapply Forall_impl; [exact Hr|]. apply handle_fork_inv.
Qed.

Lemma restart_inv r : run_ok r → preserves (fork_inv main i) (restart_poll_syscall r).
Proof using main_ephemeral TinyKVMLaws0.
  intros Hr. apply restart_preserves. eapply Forall_impl; [exact Hr|]. apply handle_fork_inv.
Qed.

Lemma resume_loop_pristine rounds w :
  fork_inv main i w → Forall round_ok rounds →
  fork_inv main i (resume_loop rounds w).2 ∧
  (∀ tr, (resume_loop rounds w).1 = Ok (tr, Serving) → pristine guest_state main i w →
     pristine guest_state main i (resume_loop rounds w).2).
Proof using main_ephemeral TinyKVMLaws0.
  intros Hi Hr. revert w Hi.
  induction Hr as [|[sys res] rounds [Hs Hrun] _ IH]; intros w Hi; cbn [resume_loop]; [done|].
  simpl in Hs, Hrun. run_st.
  pose proof (restart_inv sys Hs w Hi) as H1.
  destruct (restart_poll_syscall sys w) as [[a|x] w1]; cbn [fst snd] in *; [|by split].
  pose proof (run_inv res Hrun w1 H1) as H2.
  destruct (machine_run res w1) as [[b|x] w2]; cbn [fst snd] in *; [|by split].
  unfold this. run_st. destruct (m_reset_needed (vm w2)); [|by split].
  rewrite (fork_main_vm w2 H2). destruct (reset_to_spec w2 H2) as (H3 & _ & Hp3).
  destruct (reset_to main w2) as [[[]|x] w3]; cbn [fst snd] in *; [|by split].
  unfold update. run_st.
  assert (pristine guest_state main i (on_vm (set_reset_needed false) w3)) as Hp4 by exact Hp3.
  specialize (IH _ (proj1 Hp4)).
  destruct (resume_loop rounds _) as [[[tr p]|x] w5]; cbn [fst snd] in *; [|by destruct IH; split].
  split; [apply IH|]. intros tr' [= _ ->] _. by eapply IH.
Qed.

(** ** The thread of a fork *)

Definition turn_ok (t : Turn M) : Prop :=
  Forall round_ok (turn_rounds t) ∧ run_ok (turn_single t) ∧ debug_ok (turn_debug t).

Lemma debug_inv d env name : debug_ok d → preserves (fork_inv main i) (debug_if env name d).
Proof using main_ephemeral TinyKVMLaws0.
  intros Hd. apply debug_if_preserves; [by intros b w|].
  eapply Forall_impl; [exact Hd|]. apply handle_fork_inv.
Qed.

(** An exception that leaves the thread's function: undefined behaviour, or the
    debugger's server, which is opened outside of any [try]. *)
Definition leaves_thread (env : list string) (e : exn) : Prop :=
  catchable e = false ∨ is_Some (getenv env "DEBUG").

Lemma debug_if_raises env d (w w' : World M) e :
  debug_if env "DEBUG" d w = (Err e, w') → leaves_thread env e.
Proof using Type. unfold debug_if, leaves_thread. destruct (getenv env "DEBUG"); [eauto|done]. Qed.

(** One turn: the invariant is kept, a turn whose reset did not fail ends with a
    fork as new, and a turn that is not over keeps a new fork new. *)
Lemma thread_turn_spec env t w :
  fork_inv main i w → turn_ok t →
  match thread_turn env main t w with
  | (Ok (p, failed), w') => fork_inv main i w' ∧
      match p with
      | Finished => (failed = false → pristine guest_state main i w') ∧
          (reset_safe → machine_resets → failed = false)
      | Serving => getenv env "DEBUG" = None → pristine guest_state main i w →
          pristine guest_state main i w'
      end
  | (Err e, _) => leaves_thread env e
  end.
Proof using main_ephemeral TinyKVMLaws0.
  intros Hi (Hr & _ & Hd). unfold thread_turn, resume_fork, this. run_st.
  pose proof (fork_inv_fields _ Hi) as (_ & _ & Heph & _). rewrite Heph, main_ephemeral.
  cbn [orb].
  assert (∀ w1, fork_inv main i w1 →
    match (match match reset_to main w1 with
                 | (Ok _, s) => (Ok (Finished, false), s) | (Err e, s) => (Err e, s) end with
           | (Ok a, s) => (Ok a, s)
           | (Err e, s) => if catchable e then (Ok (Finished, true), s) else (Err e, s) end) with
    | (Ok (p, failed), w') => fork_inv main i w' ∧ 
        match p with
        | Finished => (failed = false → pristine guest_state main i w') ∧
            (reset_safe → machine_resets → failed = false)
        | Serving => getenv env "DEBUG" = None → pristine guest_state main i w → pristine guest_state main i w'
        end
    | (Err e, _) => leaves_thread env e
    end) as Hreset.
  { intros w1 H1. destruct (reset_to_spec w1 H1) as (H2 & _ & Hp2).
    pose proof (reset_to_returns w1 H1) as Hret.
    destruct (reset_to main w1) as [[[]|x] w2]; cbn [fst snd] in *; [by split_and!|].
    destruct (catchable x) eqn:Hx; [|by left]. split_and!; [done..|]. intros Hs Hm.
    by specialize (Hret Hs Hm). }
  destruct (resume_loop_pristine (turn_rounds t) w Hi Hr) as [H1 Hserv].
  destruct (resume_loop (turn_rounds t) w) as [[[tr p]|e] w1]; cbn [fst snd] in *.
  - destruct p; [by apply Hreset|]. split; [done|]. intros _. by eapply Hserv.
  - destruct (catchable e) eqn:He; [|by left].
    pose proof (debug_inv (turn_debug t) env "DEBUG" Hd w1 H1) as H2.
    pose proof (debug_if_raises env (turn_debug t) w1) as Hx.
    destruct (debug_if env "DEBUG" (turn_debug t) w1) as [[p|x] w2] eqn:E; cbn [fst snd] in *;
      [|by eapply Hx].
    destruct p; [by apply Hreset|]. split; [done|]. intros Hn.
    unfold debug_if in E. by rewrite Hn in E.
Qed.

Lemma thread_loop_spec env turns w :
  fork_inv main i w → Forall turn_ok turns →
  match thread_loop env main turns w with
  | (Ok failures, w') => fork_inv main i w' ∧
      (reset_safe → machine_resets → Forall (λ b, b = false) failures) ∧
      (getenv env "DEBUG" = None →
         (last failures = Some false ∨ failures = [] ∧ pristine guest_state main i w) →
         pristine guest_state main i w')
  | (Err e, _) => leaves_thread env e
  end.
Proof using main_ephemeral TinyKVMLaws0.
  intros Hi Hok. revert w Hi.
  induction Hok as [|t turns Ht _ IH]; intros w Hi; cbn [thread_loop].
  { split_and!; [done|by intros; constructor|]. by intros _ [|[_ ?]]. }
  pose proof (thread_turn_spec env t w Hi Ht) as Hturn. run_st.
  destruct (thread_turn env main t w) as [[[[] failed]|e] w1]; [|..|done].
  - destruct Hturn as (H1 & Hp & Hf). specialize (IH w1 H1).
    destruct (thread_loop env main turns w1) as [[l|e] w2]; [|done].
    destruct IH as (H2 & Hall & Hlast). split_and!; [done|by intros; constructor; auto|].
    intros Hn [Hl|[Hl _]]; [|done]. apply Hlast; [done|].
    destruct l as [|b l]; [|by left]. right. split; [done|]. injection Hl as ->. by apply Hp.
  - destruct Hturn as (H1 & Hp). split_and!; [done|by intros; constructor|].
    intros Hn [|[_ ?]]; [done|]. by apply Hp.
Qed.

(** ** A fork whose reset fails *)

Definition stuck (c v : Z) (w : World M) : Prop := fork_inv main i w ∧ phase_of (vm w) = Busy c v.

Lemma handle_stuck c v e : event_ok e → preserves (stuck c v) (handle e).
Proof using main_ephemeral TinyKVMLaws0.
  intros He w [Hi Hph]. destruct (handle_refines e w Hi He) as [Hi' Hr]. split; [done|].
  destruct (handle e w) as [[a|x] w1]; cbn [fst snd] in *.
  - destruct Hr as [Hs _]. rewrite Hph in Hs. by inversion Hs.
  - destruct Hr as [-> _]. done.
Qed.

Lemma reset_stuck c v :
  verbose (m_config main) = true → 64 ≤ i → preserves (stuck c v) (reset_to main).
Proof using main_ephemeral TinyKVMLaws0.
  intros Hv Hlt w [Hi Hph]. destruct (reset_to_fails w Hi Hv Hlt) as (m & -> & _).
  split; [exact Hi|exact Hph].
Qed.

Lemma resume_loop_stuck c v rounds :
  verbose (m_config main) = true → 64 ≤ i → Forall round_ok rounds →
  preserves (stuck c v) (resume_loop rounds).
Proof using main_ephemeral TinyKVMLaws0.
  intros Hv Hlt. induction 1 as [|[sys res] rounds [Hs Hr] _ IH]; cbn [resume_loop]; [apply preserves_ret|].
  apply preserves_bind.
  { apply restart_preserves. eapply Forall_impl; [exact Hs|]. apply handle_stuck. }
  intros a. apply preserves_bind.
  { apply machine_run_preserves; [by intros b w|]. eapply Forall_impl; [exact Hr|]. apply handle_stuck. }
  intros b w Hw. unfold this. run_st. destruct (m_reset_needed (vm w)); [|done].
  rewrite (fork_main_vm w (proj1 Hw)).
  destruct (reset_to_fails w (proj1 Hw) Hv Hlt) as (m & -> & _).
  assert (stuck c v (on_vm (set_machine m) w)) by (destruct Hw as [Hi Hph]; split; [exact Hi|exact Hph]).
  by destruct (machine_reset_to _ _ _) as [[[]|x] m1].
Qed.

Lemma thread_turn_stuck c v env t :
  verbose (m_config main) = true → 64 ≤ i → turn_ok t → preserves (stuck c v) (thread_turn env main t).
Proof using main_ephemeral TinyKVMLaws0.
  intros Hv Hlt (Hr & Hsg & Hd). unfold thread_turn. apply preserves_bind.
  - apply preserves_try; [|intros e; apply preserves_ret].
    apply preserves_bind; [|intros x; apply preserves_ret].
    unfold resume_fork. apply preserves_bind; [apply preserves_gets|]. intros v0.
    destruct (m_ephemeral v0); [by apply resume_loop_stuck|].
    apply preserves_bind; [|intros; apply preserves_ret].
    apply machine_run_preserves; [by intros b w|]. eapply Forall_impl; [exact Hsg|]. apply handle_stuck.
  - intros [[] b]; [|apply preserves_ret]. apply preserves_bind.
    + destruct b; [|apply preserves_ret]. apply debug_if_preserves; [by intros b w|].
      eapply Forall_impl; [exact Hd|]. apply handle_stuck.
    + intros []; [|apply preserves_ret]. destruct (_ || b); [|apply preserves_ret].
      apply preserves_try; [|intros e; apply preserves_ret].
      apply preserves_bind; [by apply reset_stuck|intros; apply preserves_ret].
Qed.

Lemma thread_loop_stuck c v env turns :
  verbose (m_config main) = true → 64 ≤ i → Forall turn_ok turns →
  preserves (stuck c v) (thread_loop env main turns).
Proof using main_ephemeral TinyKVMLaws0.
  intros Hv Hlt. induction 1 as [|t turns Ht _ IH]; cbn [thread_loop]; [apply preserves_ret|].
  apply preserves_bind; [by apply thread_turn_stuck|]. intros [[] failed]; [|apply preserves_ret].
  apply preserves_bind; [done|intros; apply preserves_ret].
Qed.
End fork.

Section new_fork.
Context {M G : Type} `{!TinyKVM M} (guest_state : M → G) `{!TinyKVMLaws M G guest_state}.

Lemma new_fork_pristine (main : VirtualMachine M) i w :
  new_fork main i = Ok (vm w) → length (reset_counters w) = 64 → pristine guest_state main i w.
Proof using TinyKVMLaws0.
  intros Hw Hlen. destruct (new_fork_forked main i _ Hw) as (m & Hm & Hv).
  unfold pristine. rewrite Hv. split_and!; [|done|].
  - split_and!; rewrite ?Hv; [by repeat split|done|done|done|by left].
  - simpl. rewrite (guest_state_cwd (guest_state := guest_state)).
    by eapply (guest_state_fork (guest_state := guest_state)).
Qed.

Lemma closes_not_closed s (es : list (Event M)) l : closes s es l → ¬ not_closed s es l.
Proof using Type. intros (n & Hn & Hf & _) H1. apply (H1 n); [lia|done]. Qed.
End new_fork.

(** ** Concrete servers *)

(** A main object after [initialize]: it listens on descriptor 3 in [epoll]. *)
Definition demo_main (verbose_ : bool) (concurrency_ : Z) : VirtualMachine ToyMachine :=
  MkVM toy_machine (demo_server_config true verbose_ concurrency_ 0) "" Static 0 true false false true
    false 7 3 Epoll None None
    (MkFds AcceptNone SocketNone FreeNone WaitNone WaitNone ListenInit AddressMain AddressMain SymlinkMain
       false)
    false.

(** The guest accepts a connection, is refused a second one, writes to its memory and
    closes the connection. *)
Definition demo_request : list (Event ToyMachine) :=
  [EvAccept 3 7 0 0; EvAcceptSocket 3 7 20; EvAccept 3 7 0 0;
   EvGuest (toy_write 4096 [1; 2; 3]%Z); EvFreeFd 5; EvFreeFd 4; EvGuest id].

(** Fork [i] of the main object. *)
Definition demo_fork (main_ : VirtualMachine ToyMachine) (i : nat) : VirtualMachine ToyMachine :=
  forked main_ i toy_machine.

Definition demo_answers : list Answer :=
  [Flag true; Descriptor 4; Flag false; Done; Flag false; Flag true].

Definition demo_round : Run ToyMachine * Run ToyMachine :=
  (MkRun [] None, MkRun demo_request None).

(** A request that is cut short by an exception of the machine. *)
Definition demo_timeout : Run ToyMachine * Run ToyMachine :=
  (MkRun [] None, MkRun (take 4 demo_request) (Some (MachineError "timeout"))).

(** A request, then one that times out; then a run without a request. *)
Definition demo_turns : list (Turn ToyMachine) :=
  [MkTurn [demo_round; demo_timeout] (MkRun [] None) no_debugging;
   MkTurn [(MkRun [] None, MkRun [] None)] (MkRun [] None) no_debugging].

(** ** Claims *)

(** C8: a fork of an ephemeral server implements the abstract fork: in every
    run the answers to [accept], to new connections and to closed descriptors
    are those of [phase_step], so a fork accepts at most one connection between
    two resets, and every other one is refused with [EAGAIN]. *)
Theorem fork_refines_connection_protocol `{!TinyKVM M} {G} (gs : M → G) `{!TinyKVMLaws M G gs}
    (main : VirtualMachine M) i evs w l w' :
  m_ephemeral main = true → fork_inv main i w → Forall event_ok evs →
  run_events evs w = (Ok l, w') →
  fork_inv main i w' ∧
  phase_trace (phase_of (vm w)) (take (length l) evs) l (phase_of (vm w')) ∧
  accepted_count l + busy (phase_of (vm w)) = busy (phase_of (vm w')).
Proof.
  intros He Hi Hev Hrun. pose proof (run_events_refines gs main i He evs w Hi Hev) as [Hi' Hr].
  rewrite Hrun in *. simpl in *. destruct Hr as [Htr _].
  split_and!; [done..|by eapply phase_trace_count].
Qed.

Lemma fork_refines_witness :
  ∃ w', run_events demo_request (in_world (demo_fork (demo_main false 1) 0)) = (Ok demo_answers, w') ∧
  accepted_count demo_answers + 0 = busy (phase_of (vm w')).
Proof.
  eexists. split; [vm_compute; reflexivity|].
  eapply (fork_refines_connection_protocol toy_guest (demo_main false 1) 0 demo_request
    (in_world (demo_fork (demo_main false 1) 0)) demo_answers).
  - reflexivity.
  - split_and!; [reflexivity|reflexivity|reflexivity|reflexivity|left; auto].
  - repeat constructor; simpl; lia.
  - vm_compute. reflexivity.
Defined.

(** C20: a fork asks to be reset exactly when the guest closed the descriptor of
    its own connection, the one it had at the start of the run or was given in
    it; closing another descriptor does not.  That is the last thing the guest
    does in the run: the events after it are not executed. *)
Theorem reset_requested_iff_closed `{!TinyKVM M} {G} (gs : M → G) `{!TinyKVMLaws M G gs}
    (main : VirtualMachine M) i r w l w' :
  m_ephemeral main = true → fork_inv main i w → run_ok r → m_reset_needed (vm w) = false →
  machine_run r w = (Ok l, w') →
  (m_reset_needed (vm w') = true ↔ closes (phase_of (vm w)) (run_events_of r) l) ∧
  (m_reset_needed (vm w') = false ↔ not_closed (phase_of (vm w)) (run_events_of r) l).
Proof.
  intros He Hi Hr Hn. unfold machine_run, update, this. run_st.
  pose proof (run_events_refines gs main i He (run_events_of r) (on_vm (set_stopped false) w) Hi Hr)
    as [_ Ht].
  destruct (run_events _ _) as [[l1|x] w1]; cbn [fst snd] in *; [|done]. intros Hrun.
  assert (l1 = l ∧ w1 = w') as [-> ->] by (destruct (stopped (vm w1)), (run_exception r); by simplify_eq).
  destruct Ht as [_ [(Hc & -> & _)|(Hc & Heq & _)]].
  - split; [done|]. split; [done|]. by intros ?%closes_not_closed.
  - rewrite Heq. cbn [vm on_vm m_reset_needed set_stopped]. rewrite Hn.
    split; [|done]. split; [done|]. by intros ?%closes_not_closed.
Qed.

Lemma reset_requested_witness :
  closes Idle demo_request demo_answers.
Proof.
  assert (∃ w', machine_run (MkRun demo_request None) (in_world (demo_fork (demo_main false 1) 0)) =
    (Ok demo_answers, w') ∧ m_reset_needed (vm w') = true) as (w' & Hrun & Hn).
  { eexists. split; vm_compute; reflexivity. }
  apply (reset_requested_iff_closed toy_guest (demo_main false 1) 0 (MkRun demo_request None)
    (in_world (demo_fork (demo_main false 1) 0)) demo_answers w').
  - reflexivity.
  - split_and!; [reflexivity|reflexivity|reflexivity|reflexivity|left; auto].
  - repeat constructor; simpl; lia.
  - reflexivity.
  - exact Hrun.
  - exact Hn.
Defined.

(** C6: requests are isolated: each time an ephemeral fork comes back to the
    beginning of its loop, whatever the guests did in all the turns before, the
    guest's memory and registers are those of the main object, no connection is
    tracked and new ones are accepted again. *)
Theorem requests_isolated `{!TinyKVM M} {G} (gs : M → G) `{!TinyKVMLaws M G gs}
    (main : VirtualMachine M) i rounds w tr w' :
  m_ephemeral main = true → Forall round_ok rounds →
  new_fork main i = Ok (vm w) → length (reset_counters w) = 64 →
  resume_loop rounds w = (Ok (tr, Serving), w') →
  pristine gs main i w'.
Proof.
  intros He Hr Hw Hl Hrun. pose proof (new_fork_pristine gs main i w Hw Hl) as Hp.
  destruct (resume_loop_pristine gs main i He rounds w (proj1 Hp) Hr) as [_ H].
  rewrite Hrun in H. by eapply H.
Qed.

Lemma requests_isolated_witness :
  ∃ w', resume_loop [demo_round; demo_round] (in_world (demo_fork (demo_main true 2) 1)) =
    (Ok ([([], demo_answers); ([], demo_answers)], Serving), w') ∧
  pristine toy_guest (demo_main true 2) 1 w'.
Proof.
  eexists. split; [vm_compute; reflexivity|].
  eapply (requests_isolated toy_guest (demo_main true 2) 1 [demo_round; demo_round]
    (in_world (demo_fork (demo_main true 2) 1))).
  - reflexivity.
  - repeat constructor; simpl; lia.
  - reflexivity.
  - reflexivity.
  - vm_compute. reflexivity.
Defined.

(** C14: the thread of a fork survives its guests: time-outs, memory errors and
    other exceptions of the machine are caught and the fork is reset; after every
    turn whose reset did not fail the fork is as new, and as long as the
    machine can be reset and the counters are in order no reset fails.  What a
    failed reset leaves is still a fork that keeps the connection protocol.
    Only the debugger's server, under [DEBUG], lets an exception out of the thread. *)
Theorem fork_thread_recovers `{!TinyKVM M} {G} (gs : M → G) `{!TinyKVMLaws M G gs}
    (main : VirtualMachine M) i env turns w :
  m_ephemeral main = true → Forall turn_ok turns →
  new_fork main i = Ok (vm w) → length (reset_counters w) = 64 →
  match thread_loop env main turns w with
  | (Ok failures, w') => fork_inv main i w' ∧
      (reset_safe main i → machine_resets main → Forall (λ b, b = false) failures) ∧
      (getenv env "DEBUG" = None → last failures ≠ Some true → pristine gs main i w')
  | (Err e, _) => catchable e = false ∨ is_Some (getenv env "DEBUG")
  end.
Proof.
  intros He Ht Hw Hl. pose proof (new_fork_pristine gs main i w Hw Hl) as Hp.
  pose proof (thread_loop_spec gs main i He env turns w (proj1 Hp) Ht) as Hspec.
  destruct (thread_loop env main turns w) as [[failures|e] w']; [|done].
  destruct Hspec as (Hi & Hall & Hlast). split_and!; [done..|].
  intros Hn Hf. apply Hlast; [done|]. destruct (last failures) as [[]|] eqn:El; [done|by left|].
  right. split; [|done]. by apply last_None.
Qed.

Lemma fork_thread_recovers_witness :
  ∃ w', thread_loop [] (demo_main false 100) demo_turns (in_world (demo_fork (demo_main false 100) 99)) =
    (Ok [false; false], w') ∧
  pristine toy_guest (demo_main false 100) 99 w'.
Proof.
  assert (match thread_loop [] (demo_main false 100) demo_turns
      (in_world (demo_fork (demo_main false 100) 99)) with
    | (Ok failures, w') => fork_inv (demo_main false 100) 99 w' ∧
        (reset_safe (demo_main false 100) 99 → machine_resets (demo_main false 100) →
           Forall (λ b, b = false) failures) ∧
        (getenv [] "DEBUG" = None → last failures ≠ Some true →
           pristine toy_guest (demo_main false 100) 99 w')
    | (Err e, _) => catchable e = false ∨ is_Some (getenv [] "DEBUG")
    end) as H.
  { apply (fork_thread_recovers toy_guest (demo_main false 100) 99).
    - reflexivity.
    - repeat constructor; simpl; lia.
    - reflexivity.
    - reflexivity. }
  assert ((thread_loop [] (demo_main false 100) demo_turns
    (in_world (demo_fork (demo_main false 100) 99))).1 = Ok [false; false]) as Hr by (vm_compute; reflexivity).
  destruct (thread_loop _ _ _ _) as [r w']. cbn [fst] in Hr. subst r.
  exists w'. split; [reflexivity|]. apply H; [reflexivity|discriminate].
Defined.

(** C21: [reset_to].  When it returns, the fork is as new; it returns if the
    machine's reset does and the counters of [main] are in order.  When the machine's
    reset throws, that exception leaves [reset_to] and the connection stays
    tracked: the guest goes on from the state the reset left.  A verbose server
    with more than 64 forks is different: the counter of fork 64 and those after
    it does not exist, [at] throws, and the connection stays tracked although
    the machine has been reset. *)
Theorem reset_to_outcome `{!TinyKVM M} {G} (gs : M → G) `{!TinyKVMLaws M G gs}
    (main : VirtualMachine M) i w :
  m_ephemeral main = true → fork_inv main i w →
  let '(r, m) := machine_reset_to (reset_options main) (m_machine main) (m_machine (vm w)) in
  (∀ w', reset_to main w = (Ok tt, w') → pristine gs main i w') ∧
  (r = Ok tt → reset_safe main i → ∃ w', reset_to main w = (Ok tt, w')) ∧
  (∀ e, r = Err e → ∃ w', reset_to main w = (Err e, w') ∧ fork_inv main i w' ∧
     phase_of (vm w') = phase_of (vm w) ∧ m_machine (vm w') = m) ∧
  (r = Ok tt → verbose (m_config main) = true → 64 ≤ i →
     ∃ w', reset_to main w = (Err (OutOfRange "array::at"), w') ∧ fork_inv main i w' ∧
       phase_of (vm w') = phase_of (vm w) ∧ gs (m_machine (vm w')) = gs (m_machine main)).
Proof.
  intros He Hi. pose proof (fork_inv_fields gs main i He _ Hi) as (_ & _ & _ & Hcb & Hma & _).
  pose proof (reset_to_spec gs main i He w Hi) as (_ & _ & Hok).
  pose proof (reset_to_fails gs main i He w Hi) as Hf.
  pose proof (reset_to_machine main i w Hcb Hma) as Hr.
  destruct (machine_reset_to _ _ _) as [r m] eqn:Hm. cbn [fst snd] in *. split_and!.
  - intros w' Hw. rewrite Hw in Hok. exact Hok.
  - intros -> Hs. rewrite Hr. destruct (on_reset_safe main i (on_vm (set_machine m) w) Hs) as (cs & _ & Hcs).
    { by destruct Hi as (_ & _ & _ & ? & _). }
    unfold update. run_st. rewrite Hcs. eauto.
  - intros e ->. exists (on_vm (set_machine m) w). split_and!; [by rewrite Hr|exact Hi|done..].
  - intros -> Hv Hlt. destruct (Hf Hv Hlt) as (m1 & Hw & ->). eexists. split; [exact Hw|].
    split_and!; [exact Hi|done|]. by eapply (guest_state_reset (guest_state := gs)).
Qed.

Lemma reset_to_outcome_witness :
  ∃ w', reset_to (demo_main true 65) (in_world (demo_fork (demo_main true 65) 64)) =
    (Err (OutOfRange "array::at"), w') ∧ phase_of (vm w') = Idle.
Proof.
  destruct (reset_to_outcome toy_guest (demo_main true 65) 64
    (in_world (demo_fork (demo_main true 65) 64)) eq_refl) as (_ & _ & _ & H).
  - split_and!; [reflexivity|reflexivity|reflexivity|reflexivity|left; auto].
  - destruct (H eq_refl eq_refl) as (w' & Hr & _ & Hph & _); [lia|]. exists w'. split; [exact Hr|exact Hph].
Defined.

(** C22: in a verbose server fork 64, and every later one, serves one connection
    and then none: once it has a connection, in whatever way its thread goes on,
    it still has it, and every other one is refused. *)
Theorem verbose_fork_beyond_64_stuck `{!TinyKVM M} {G} (gs : M → G) `{!TinyKVMLaws M G gs}
    (main : VirtualMachine M) i env turns w c v :
  m_ephemeral main = true → verbose (m_config main) = true → 64 ≤ i →
  Forall turn_ok turns → fork_inv main i w → phase_of (vm w) = Busy c v →
  let w' := (thread_loop env main turns w).2 in
  phase_of (vm w') = Busy c v ∧
  (∀ vfd fd flags fdflags, (handle (EvAccept vfd fd flags fdflags) w').1 = Ok (Flag false)) ∧
  (∀ lvfd lfd fd, handle (EvAcceptSocket lvfd lfd fd) w' = (Ok (Descriptor (- EAGAIN)), w')).
Proof.
  intros He Hv Hlt Ht Hi Hph. cbv zeta.
  destruct (thread_loop_stuck gs main i He c v env turns Hv Hlt Ht w (conj Hi Hph)) as [Hi' Hph'].
  split_and!; [done| |]; intros.
  - rewrite (handle_accept gs main i He) by done. by rewrite Hph'.
  - rewrite (handle_accept_socket gs main i He) by done. by rewrite Hph'.
Qed.

(** Fork 64 served one request; the next connection is refused. *)
Lemma verbose_fork_stuck_witness :
  ∃ w, run_events (take 2 demo_request) (in_world (demo_fork (demo_main true 65) 64)) =
    (Ok [Flag true; Descriptor 4], w) ∧
  phase_of (vm (thread_loop [] (demo_main true 65)
    [MkTurn [(MkRun [] None, MkRun [EvFreeFd 4] None)] (MkRun [] None) no_debugging] w).2)
    = Busy 20 4.
Proof.
  eexists. split; [vm_compute; reflexivity|].
  eapply (verbose_fork_beyond_64_stuck toy_guest (demo_main true 65) 64).
  - reflexivity.
  - reflexivity.
  - lia.
  - repeat constructor; simpl; lia.
  - unfold fork_inv, same_object. split_and!; try reflexivity. right. split; [simpl; lia|reflexivity].
  - reflexivity.
Defined.
