(* ===== verification/Equiv.v ===== *)
(** * Requests cannot be told apart

    [Fork] proves that a reset gives the guest the main object's state back.
    This file goes on to what the server does: two machines are equivalent when
    nothing the server reads or does depends on which of them it has.  The equivalence is
    lifted to the objects and threads, every handler and every loop respects it,
    and so the answers of a fork do not depend on the requests it has served,
    nor on which fork of the server it is.  A storage machine is not reset: what the
    guest left in it is part of the equivalence. *)

From S2P Require Import Prelude CppString FsPath AllowedPaths Network Remap Config Effect Tinykvm Vm Debugger Fork.

Local Open Scope list_scope.
Local Open Scope nat_scope.

(** ** Relations on results and on effects *)

Inductive result_rel {A B} (R : A → B → Prop) : result A → result B → Prop :=
  | Ok_rel a b : R a b → result_rel R (Ok a) (Ok b)
  | Err_rel e : result_rel R (Err e) (Err e).

(** [c] and [c'] give related results and leave related states. *)
Definition st_rel {S A B} (W : relation S) (R : A → B → Prop) (c : st S A) (c' : st S B) : Prop :=
  ∀ w w', W w w' → result_rel R (c w).1 (c' w').1 ∧ W (c w).2 (c' w').2.

Section st_rel.
Context {S : Type} (W : relation S).

Lemma st_rel_ret {A B} (R : A → B → Prop) a b : R a b → st_rel W R (mret a) (mret b).
Proof. intros HR w w' Hw. by split; [constructor|]. Qed.

Lemma st_rel_raise {A B} (R : A → B → Prop) e : st_rel W R (raise e) (raise e).
Proof. intros w w' Hw. by split; [constructor|]. Qed.

Lemma st_rel_lift {A B} (R : A → B → Prop) r r' : result_rel R r r' → st_rel W R (lift r) (lift r').
Proof. intros HR w w' Hw. by split. Qed.

Lemma st_rel_gets {A B} (R : A → B → Prop) f f' :
  (∀ w w', W w w' → R (f w) (f' w')) → st_rel W R (gets f) (gets f').
Proof. intros HR w w' Hw. split; [constructor; auto|done]. Qed.

Lemma st_rel_modify f f' : (∀ w w', W w w' → W (f w) (f' w')) → st_rel W eq (modify f) (modify f').
Proof. intros HR w w' Hw. split; [by constructor|by apply HR]. Qed.

Lemma st_rel_bind {A B A' B'} (R : A → A' → Prop) (Q : B → B' → Prop) c c' f f' :
  st_rel W R c c' → (∀ a a', R a a' → st_rel W Q (f a) (f' a')) → st_rel W Q (c ≫= f) (c' ≫= f').
Proof.
  intros Hc Hf w w' Hw. destruct (Hc w w' Hw) as [Hr Hw1]. unfold mbind, st_bind.
  destruct (c w) as [r w1], (c' w') as [r' w1']; cbn [fst snd] in *.
  destruct Hr as [a b HR|e]; [by apply Hf|by split; [constructor|]].
Qed.

(** A sequence whose first part gives a value that is the same. *)
Lemma st_rel_bind_eq {A B B'} (Q : B → B' → Prop) (c c' : st S A) f f' :
  st_rel W eq c c' → (∀ a, st_rel W Q (f a) (f' a)) → st_rel W Q (c ≫= f) (c' ≫= f').
Proof. intros Hc Hf. eapply st_rel_bind; [exact Hc|]. intros a ? <-. apply Hf. Qed.
End st_rel.

#[export] Hint Resolve st_rel_ret st_rel_raise st_rel_lift : kvm.

(** ** What [tinykvm] relates

    The laws of an equivalence of machines, and of the storage machines they
    are connected to: the operations of the class respect it.  Two resets to the same
    machine that succeed give equivalent machines, whatever the machines were
    before, when the storage machines these are connected to are equivalent: a
    reset does not put a storage machine back. *)
Class MachineEquiv (M : Type) `{TinyKVM M} (meq : relation M) : Prop := {
  #[global] meq_equivalence :: Equivalence meq;
  meq_registers m m' : meq m m' → registers m = registers m';
  meq_set_registers r m m' : meq m m' → meq (set_registers r m) (set_registers r m');
  meq_cwd m m' : meq m m' → cwd m = cwd m';
  meq_epoll_fds m m' v : meq m m' → epoll_fds m v = epoll_fds m' v;
  meq_writable m m' p : meq m m' → is_writable_path m p = is_writable_path m' p;
  meq_readable m m' p : meq m m' → is_readable_path m p = is_readable_path m' p;
  meq_manage fd m m' : meq m m' →
    result_rel (λ x y, x.1 = y.1 ∧ meq x.2 y.2) (manage fd m) (manage fd m');
  meq_copy a b : st_rel meq eq (copy_to_guest a b) (copy_to_guest a b);
  meq_remote m m' : meq m m' → result_rel meq (remote m) (remote m');
  meq_set_remote r r' m m' : meq r r' → meq m m' → meq (set_remote r m) (set_remote r' m');
  meq_permanent : st_rel meq eq ipre_permanent_remote_resume_now ipre_permanent_remote_resume_now;
  meq_resume b f f' :
    st_rel meq eq f f' → st_rel meq eq (ipre_remote_resume_now b f) (ipre_remote_resume_now b f');
  meq_reset_proper o other : st_rel meq eq (machine_reset_to o other) (machine_reset_to o other);
  meq_reset o other m m' x x' :
    machine_reset_to o other m = (Ok tt, x) → machine_reset_to o other m' = (Ok tt, x') →
    result_rel meq (remote x) (remote x') → meq x x'
}.

(** ** Equivalent objects and threads

    Of an object its machine up to equivalence, and all else a handler reads; the
    number of the request, the reset callback and the host's descriptor of the
    connection are not looked at.  [P] relates whether the machine was stopped. *)
Section equivalence.
Context {M : Type} `{!TinyKVM M} (meq : relation M) `{!MachineEquiv M meq}.

Record vm_equiv (P : relation bool) (v v' : VirtualMachine M) : Prop := {
  ve_machine : meq (m_machine v) (m_machine v');
  ve_config : m_config v = m_config v';
  ve_ephemeral : m_ephemeral v = m_ephemeral v';
  ve_storage : m_is_storage v = m_is_storage v';
  ve_reset : m_reset_needed v = m_reset_needed v';
  ve_waiting : m_waiting_for_requests v = m_waiting_for_requests v';
  ve_blocking : m_blocking_connections v = m_blocking_connections v';
  ve_vfd : m_tracked_client_vfd v = m_tracked_client_vfd v';
  ve_poll : m_poll_method v = m_poll_method v';
  ve_master : m_master_instance v = m_master_instance v';
  ve_fds : fds v = fds v';
  ve_stopped : P (stopped v) (stopped v')
}.

(** Two threads of forks, that is objects with a master instance. *)
Record world_equiv (P : relation bool) (w w' : World M) : Prop := {
  we_vm : vm_equiv P (vm w) (vm w');
  we_master : is_Some (m_master_instance (vm w));
  we_freed : freed_sockets w = freed_sockets w';
  we_accepted : accepted_sockets w = accepted_sockets w'
}.

#[export] Instance vm_equiv_equivalence P : Equivalence P → Equivalence (vm_equiv P).
Proof.
  intros HP. split.
  - intros v. by split.
  - intros v v' []. by split.
  - intros v v' v'' [] []. split; etrans; eauto.
Qed.

#[export] Instance world_equiv_symmetric P : Symmetric P → Symmetric (world_equiv P).
Proof.
  intros HP w w' [[] Hm ? ?]. split; [split; done|congruence|done..].
Qed.

#[export] Instance world_equiv_transitive P : Transitive P → Transitive (world_equiv P).
Proof.
  intros HP w w' w'' [[] ? ? ?] [[] ? ? ?]. split; [split; etrans; eauto|done|congruence..].
Qed.

Abbreviation respects P := (st_rel (world_equiv P) eq).

Section handlers.
Context (P : relation bool) `{!Reflexive P}.

Lemma respects_this {B} f f' :
  (∀ v v', vm_equiv P v v' → is_Some (m_master_instance v) → st_rel (world_equiv P) (B := B) eq (f v) (f' v')) →
  respects P (this ≫= f) (this ≫= f').
Proof.
  intros Hf. apply (st_rel_bind _ (λ v v', vm_equiv P v v' ∧ is_Some (m_master_instance v))).
  - apply st_rel_gets. by intros w w' [].
  - intros v v' []. by apply Hf.
Qed.

Lemma respects_update f f' :
  (∀ v v', vm_equiv P v v' → vm_equiv P (f v) (f' v') ∧ m_master_instance (f v) = m_master_instance v) →
  respects P (update f) (update f').
Proof.
  intros Hf. apply st_rel_modify. intros w w' [Hv Hm ? ?]. destruct (Hf _ _ Hv) as [? Heq].
  split; [done|by cbn; rewrite Heq|done..].
Qed.

(** Handlers that return a value in both worlds. *)
Hint Resolve st_rel_ret st_rel_raise : respects.

Ltac update_fields := apply respects_update; intros ? ? []; split; [by split|done].

Lemma respects_set_machine m m' : meq m m' → respects P (update (set_machine m)) (update (set_machine m')).
Proof. intros Hm. apply respects_update. intros ? ? []. split; [by split|done]. Qed.

Lemma manage_fd_respects fd : respects P (manage_fd fd) (manage_fd fd).
Proof.
  apply respects_this. intros v v' Hv _.
  eapply st_rel_bind; [apply st_rel_lift, meq_manage, (ve_machine _ _ _ Hv)|].
  intros [x m] [y m'] [Hxy Hm]; cbn [fst snd] in *. subst y.
  apply st_rel_bind_eq; [by apply respects_set_machine|auto with respects].
Qed.

Lemma wait_here_respects : respects P wait_here wait_here.
Proof.
  apply st_rel_bind_eq; [update_fields|intros _].
  apply st_rel_bind_eq; [update_fields|auto with respects].
Qed.

Lemma warmup_wait_respects : respects P warmup_wait warmup_wait.
Proof.
  apply st_rel_bind_eq.
  - apply st_rel_gets. intros w w' [Hv _ Hf _]. unfold warmed_up. by rewrite Hf, (ve_config _ _ _ Hv).
  - intros []; [apply wait_here_respects|auto with respects].
Qed.

Lemma dangling_respects : respects P dangling dangling.
Proof. apply st_rel_raise. Qed.

Hint Resolve manage_fd_respects wait_here_respects warmup_wait_respects dangling_respects : respects.

Lemma main_vm_equal v v' : vm_equiv P v v' → is_Some (m_master_instance v) → main_vm v = main_vm v'.
Proof.
  intros Hv [x Hx]. unfold main_vm. pose proof (ve_master _ _ _ Hv) as Hm. rewrite Hx in Hm.
  by rewrite <-Hm, Hx.
Qed.

Lemma unix_allowed_equal m m' addr : meq m m' → unix_allowed m addr = unix_allowed m' addr.
Proof.
  intros Hm. unfold unix_allowed. rewrite (meq_writable _ _ _ Hm).
  destruct (is_writable_path m' _) as [b p]. by rewrite (meq_readable _ _ p Hm).
Qed.

Lemma bind_socket_equal v v' addr : vm_equiv P v v' → bind_socket v addr = bind_socket v' addr.
Proof. intros []. unfold bind_socket. by rewrite (unix_allowed_equal _ _ _ ve_machine0), ve_config0. Qed.

(** ** Every handler respects the equivalence *)

(** What the guest does is a function of its machine. *)
Definition event_respects (e : Event M) : Prop :=
  match e with EvGuest f => ∀ m m', meq m m' → meq (f m) (f m') | _ => True end.

Lemma on_accept_respects vfd fdflags : respects P (on_accept vfd fdflags) (on_accept vfd fdflags).
Proof using All.
  apply respects_this. intros v v' Hv _. rewrite <-(ve_fds _ _ _ Hv), <-(ve_vfd _ _ _ Hv),
    <-(ve_poll _ _ _ Hv), <-(ve_blocking _ _ _ Hv).
  destruct (accept_callback (fds v)); auto with respects.
  - case_decide; [|auto with respects]. destruct (_ =? -1)%Z; [auto with respects|].
    destruct (_ =? 0)%Z; [|auto with respects].
    apply st_rel_bind_eq; [update_fields|auto with respects].
  - case_decide; auto with respects.
  - destruct (m_blocking_connections v); [|auto with respects].
    apply st_rel_bind_eq; [|auto with respects].
    apply respects_update. intros x x' []. split; [|done]. split; try done. cbn.
    rewrite (meq_registers _ _ ve_machine0). by apply meq_set_registers.
  - case_decide; auto with respects.
Qed.

Lemma on_accept_socket_respects fd : respects P (on_accept_socket fd) (on_accept_socket fd).
Proof using All.
  apply respects_this. intros v v' Hv _. rewrite <-(ve_fds _ _ _ Hv), <-(ve_vfd _ _ _ Hv).
  destruct (accept_socket_callback (fds v)); [auto with respects|..].
  - apply st_rel_bind_eq; [auto with respects|]. intros vfd.
    apply st_rel_bind_eq; [|auto with respects]. apply st_rel_modify. intros w w' [].
    split; [done..|cbn; congruence].
  - case_decide; [auto with respects|].
    apply st_rel_bind_eq; [update_fields|intros _].
    apply st_rel_bind_eq; [auto with respects|intros vfd].
    apply st_rel_bind_eq; [update_fields|intros _].
    apply st_rel_bind_eq; [update_fields|auto with respects].
  - apply st_rel_bind_eq; auto with respects.
Qed.

Lemma on_free_fd_respects vfd : respects P (on_free_fd vfd) (on_free_fd vfd).
Proof using All.
  unfold on_free_fd. apply (st_rel_bind _ (world_equiv P)).
  { intros w w' Hw. by split; [constructor|]. }
  intros w w' [Hv _ Hf Ha]. rewrite <-(ve_fds _ _ _ Hv), <-(ve_vfd _ _ _ Hv).
  destruct (free_fd_callback (fds (vm w))); [auto with respects|..|auto with respects].
  - rewrite <-Ha. apply st_rel_bind_eq; [|auto with respects].
    case_decide; [|auto with respects]. apply st_rel_modify. intros x x' [].
    split; cbn; [done|done|congruence..].
  - case_decide; [|auto with respects].
    apply st_rel_bind_eq; [update_fields|intros _].
    apply st_rel_bind_eq; [update_fields|auto with respects].
Qed.

Lemma on_epoll_wait_respects vfd : respects P (on_epoll_wait vfd) (on_epoll_wait vfd).
Proof using All.
  apply respects_this. intros v v' Hv _. rewrite <-(ve_fds _ _ _ Hv), <-(ve_vfd _ _ _ Hv).
  destruct (epoll_wait_callback (fds v)); auto with respects.
  case_decide; [auto with respects|].
  rewrite (meq_epoll_fds _ _ vfd (ve_machine _ _ _ Hv)).
  apply st_rel_bind_eq; [apply st_rel_lift; destruct (epoll_fds _ _); by constructor|]. intros s.
  case_decide; [|auto with respects]. apply st_rel_bind_eq; [update_fields|auto with respects].
Qed.

Lemma on_poll_respects pollfds : respects P (on_poll pollfds) (on_poll pollfds).
Proof using All.
  apply respects_this. intros v v' Hv _. rewrite <-(ve_fds _ _ _ Hv), <-(ve_vfd _ _ _ Hv).
  destruct (poll_callback (fds v)); auto with respects.
  case_decide; [|auto with respects]. apply st_rel_bind_eq; [update_fields|auto with respects].
Qed.

Lemma validate_listener_respects name : respects P (validate_listener name) (validate_listener name).
Proof using All.
  destruct name as [addr|]; cbn; [|auto with respects].
  apply respects_this. intros v v' Hv _. rewrite (bind_socket_equal v v') by done. auto with respects.
Qed.

Lemma on_listen_respects vfd fd name : respects P (on_listen vfd fd name) (on_listen vfd fd name).
Proof using All.
  apply respects_this. intros v v' Hv _. rewrite <-(ve_fds _ _ _ Hv).
  pose proof (validate_listener_respects name).
  destruct (listening_socket_callback (fds v)); [auto with respects|..];
    (apply st_rel_bind_eq; [done|]); intros b; [auto with respects|].
  destruct b; [|auto with respects]. apply st_rel_bind_eq; [update_fields|auto with respects].
Qed.

Lemma on_machine_respects {A} (c c' : st M A) :
  st_rel meq eq c c' → respects P (on_machine c) (on_machine c').
Proof using Type.
  intros Hc w w' [[] ? ? ?]. destruct (Hc _ _ ve_machine0) as [Hr Hm]. unfold on_machine.
  destruct (c _) as [r m], (c' _) as [r' m']. by split; [|split; [split|..]].
Qed.

Lemma on_remote_respects {A} (c c' : st M A) : st_rel meq eq c c' → st_rel meq eq (on_remote c) (on_remote c').
Proof using All.
  intros Hc m m' Hm. unfold on_remote. destruct (meq_remote _ _ Hm) as [r r' Hr|]; [|by split; [constructor|]].
  destruct (Hc _ _ Hr) as [Ha Hr1]. destruct (c r) as [a r1], (c' r') as [a' r1'].
  split; [done|]. by apply meq_set_remote.
Qed.

Lemma set_rax_respects f f' : (∀ m m', meq m m' → f m = f' m') →
  st_rel meq eq (modify (λ m, set_registers (f m) m)) (modify (λ m, set_registers (f' m) m)).
Proof using All. intros Hf. apply st_rel_modify. intros m m' Hm. rewrite (Hf _ _ Hm). by apply meq_set_registers. Qed.

Lemma gets_registers_respects : st_rel meq eq (gets registers) (gets registers).
Proof using All. apply st_rel_gets. apply meq_registers. Qed.

Lemma permanent_resume_respects src len : st_rel meq eq (permanent_resume src len) (permanent_resume src len).
Proof using All.
  apply on_remote_respects. apply st_rel_bind_eq; [apply gets_registers_respects|]. intros regs.
  apply st_rel_bind_eq; [apply meq_copy|]. intros _.
  apply st_rel_bind_eq; [by apply set_rax_respects|]. intros _. apply meq_permanent.
Qed.

Lemma resume_with_respects src len : st_rel meq eq (resume_with src len) (resume_with src len).
Proof using All.
  apply st_rel_bind_eq; [apply gets_registers_respects|]. intros regs.
  apply st_rel_bind_eq; [apply on_remote_respects, meq_copy|]. intros _.
  apply set_rax_respects. intros m m' Hm. by rewrite (meq_registers _ _ Hm).
Qed.

Lemma remote_resume_respects : respects P remote_resume remote_resume.
Proof using All.
  apply respects_this. intros v v' [] _. rewrite <-ve_storage0, <-ve_config0.
  destruct (m_is_storage v); [auto with respects|]. rewrite (meq_registers _ _ ve_machine0).
  apply st_rel_bind_eq; [|auto with respects]. apply on_machine_respects.
  destruct (storage_ipre_permanent _); [apply permanent_resume_respects|].
  apply meq_resume, resume_with_respects.
Qed.

Hint Resolve on_accept_respects on_accept_socket_respects on_free_fd_respects on_epoll_wait_respects
  on_poll_respects on_listen_respects remote_resume_respects : respects.

Lemma handle_respects e : event_respects e → respects P (handle e) (handle e).
Proof using All.
  intros He. destruct e; cbn [handle event_respects] in *; auto with respects.
  - apply st_rel_bind_eq; [|auto with respects]. apply respects_update. intros v v' [].
    split; [|done]. split; try done. by apply He.
  - apply respects_this. intros v v' Hv Hm. rewrite <-(ve_fds _ _ _ Hv), (main_vm_equal _ _ Hv Hm).
    destruct (connect_socket_callback (fds v)); auto with respects.
  - apply respects_this. intros v v' Hv Hm. rewrite <-(ve_fds _ _ _ Hv), (main_vm_equal _ _ Hv Hm).
    destruct (bind_socket_callback (fds v)); auto with respects.
  - apply respects_this. intros v v' [] _. rewrite (meq_cwd _ _ ve_machine0), ve_config0.
    destruct (open_readable _ _ _). auto with respects.
  - apply respects_this. intros v v' [] _. rewrite (meq_cwd _ _ ve_machine0), ve_config0.
    destruct (open_writable _ _ _). auto with respects.
  - apply respects_this. intros v v' [] _. rewrite <-ve_fds0, (meq_cwd _ _ ve_machine0), ve_config0.
    destruct (resolve_symlink_callback (fds v)); [auto with respects|].
    destruct (resolve_symlink _ _ _). auto with respects.
  - unfold on_unhandled_syscall. case_decide; [auto with respects|]. case_decide; [|auto with respects].
    apply respects_this. intros v v' [] _. rewrite <-ve_storage0.
    destruct (m_is_storage v); [|auto with respects].
    apply st_rel_bind_eq; [update_fields|intros _].
    apply st_rel_bind_eq; [update_fields|auto with respects].
Qed.

Lemma handle_all_respects evs :
  Forall event_respects evs → respects P (handle_all evs) (handle_all evs).
Proof using All.
  induction 1 as [|e evs He _ IH]; cbn [handle_all]; [auto with respects|].
  apply st_rel_bind_eq; [by apply handle_respects|]. intros a.
  apply st_rel_bind_eq; auto with respects.
Qed.
End handlers.

(** ** Runs *)

Definition run_respects (r : Run M) : Prop := Forall event_respects (run_events_of r).

Lemma run_events_respects evs :
  Forall event_respects evs → respects eq (run_events evs) (run_events evs).
Proof using All.
  induction 1 as [|e evs He _ IH]; cbn [run_events]; [by apply st_rel_ret|].
  apply respects_this. intros v v' Hv _. rewrite <-(ve_stopped _ _ _ Hv).
  destruct (stopped v); [by apply st_rel_ret|].
  apply st_rel_bind_eq; [by apply handle_respects|]. intros a.
  apply st_rel_bind_eq; [done|]. intros r. by apply st_rel_ret.
Qed.

(** A run begins by forgetting that the machine was stopped. *)
Lemma machine_run_respects P r w w' :
  run_respects r → world_equiv P w w' →
  result_rel eq (machine_run r w).1 (machine_run r w').1 ∧
  world_equiv eq (machine_run r w).2 (machine_run r w').2.
Proof using All.
  intros Hr [[] Hm ? ?]. unfold machine_run, update.
  rewrite !(st_bind_ok (modify _) _ _ tt _ eq_refl).
  refine (st_rel_bind_eq _ _ _ _ _ _ (run_events_respects _ Hr) _ _ _ _).
  - intros l. apply respects_this. intros v v' Hv _. rewrite <-(ve_stopped _ _ _ Hv).
    destruct (stopped v); [by apply st_rel_ret|].
    destruct (run_exception r); [apply st_rel_raise|by apply st_rel_ret].
  - by split; [split|..].
Qed.

Lemma restart_respects P r : Reflexive P →
  run_respects r → respects P (restart_poll_syscall r) (restart_poll_syscall r).
Proof using All.
  intros HP Hr. apply respects_this. intros v v' Hv _. rewrite <-(ve_poll _ _ _ Hv).
  destruct (poll_syscall _) as [n|]; [|apply st_rel_raise].
  apply st_rel_bind_eq; [by apply handle_all_respects|]. intros l.
  destruct (run_exception r); [apply st_rel_raise|by apply st_rel_ret].
Qed.

(** The weakest relation: nothing is known about [stopped]. *)
Definition any : relation bool := λ _ _, True.

#[export] Instance any_reflexive : Reflexive any.
Proof. done. Qed.

Lemma world_equiv_any P w w' : world_equiv P w w' → world_equiv any w w'.
Proof using Type. intros [[] ? ? ?]. by split; [split|..]. Qed.
End equivalence.

(** ** Forks of one main object *)
Section forks.
Context {M G : Type} `{!TinyKVM M} (guest_state : M → G) `{!TinyKVMLaws M G guest_state}.
Context (meq : relation M) `{!MachineEquiv M meq}.
Variable main : VirtualMachine M.
Hypothesis main_ephemeral : m_ephemeral main = true.

(** A fork in a thread of its own: it has no part in a warm-up. *)
Definition fork_world (i : nat) (w : World M) : Prop :=
  fork_inv main i w ∧ freed_sockets w = 0%Z ∧ accepted_sockets w = ∅.

Lemma handle_fork_world i e : event_ok e → preserves (fork_world i) (handle e).
Proof using main_ephemeral TinyKVMLaws0.
  intros He w (Hi & Hf & Ha). split; [by apply (handle_fork_inv guest_state)|].
  assert (match e with EvAccept _ _ _ _ | EvAcceptSocket _ _ _ | EvFreeFd _ => False | _ => True end →
    freed_sockets (handle e w).2 = 0%Z ∧ accepted_sockets (handle e w).2 = ∅) as Hinert.
  { intros Hin. by destruct (handle_inert guest_state main i main_ephemeral e w Hi Hin) as (m & -> & _). }
  destruct e; try (by apply Hinert).
  - rewrite (handle_accept guest_state main i) by done. by destruct (phase_of _).
  - rewrite (handle_accept_socket guest_state main i) by done. destruct (phase_of _); [|done].
    by destruct (manage _ _).
  - rewrite (handle_free_fd guest_state main i) by done. destruct (phase_of _); [done|]. by case_decide.
Qed.

Lemma run_fork_world i r : run_ok r → preserves (fork_world i) (machine_run r).
Proof using main_ephemeral TinyKVMLaws0.
  intros Hr. apply machine_run_preserves; [by intros b w|].
  eapply Forall_impl; [exact Hr|]. apply handle_fork_world.
Qed.

Lemma restart_fork_world i r : run_ok r → preserves (fork_world i) (restart_poll_syscall r).
Proof using main_ephemeral TinyKVMLaws0.
  intros Hr. apply restart_preserves. eapply Forall_impl; [exact Hr|]. apply handle_fork_world.
Qed.

(** The state [reset_to] leaves when it returns. *)
Lemma reset_to_ok_state i w w' :
  fork_world i w → reset_to main w = (Ok tt, w') →
  fork_world i w' ∧
  ∃ m, machine_reset_to (reset_options main) (m_machine main) (m_machine (vm w)) = (Ok tt, m) ∧
    vm w' = set_blocking_connections false (set_tracked_client (-1) (-1) (set_machine m (vm w))).
Proof using main_ephemeral TinyKVMLaws0.
  intros (Hi & Hf & Ha) Hr.
  pose proof (reset_to_spec guest_state main i main_ephemeral w Hi) as (Hi' & _). rewrite Hr in Hi'.
  pose proof (fork_inv_fields guest_state main i main_ephemeral _ Hi) as (_ & _ & _ & Hcb & Hma & _).
  rewrite (reset_to_machine main i w Hcb Hma) in Hr.
  destruct (machine_reset_to _ _ _) as [r m] eqn:Hm.
  inv_bind Hr. unfold lift in Hstep. destruct r as [[]|]; [|done]. injection Hstep as _ <-.
  inv_bind Hr. destruct (on_reset_counters main i (on_vm (set_machine m) w)) as (cs & Hcs & _).
  rewrite Hstep in Hcs. cbn [snd] in Hcs. subst s.
  inv_bind Hr. injection Hstep0 as _ <-. injection Hr as <-.
  split; [by split_and!|]. by exists m.
Qed.

Lemma fork_world_equiv i j w w' m m' :
  fork_world i w → fork_world j w' → m_reset_needed (vm w) = m_reset_needed (vm w') → meq m m' →
  ∀ x x', vm x = set_blocking_connections false (set_tracked_client (-1) (-1) (set_machine m (vm w))) →
    vm x' = set_blocking_connections false (set_tracked_client (-1) (-1) (set_machine m' (vm w'))) →
    fork_world i x → fork_world j x' → world_equiv meq any x x'.
Proof using main_ephemeral TinyKVMLaws0.
  intros (Hi & _) (Hj & _) Hn Hm x x' Hx Hx' (_ & Hf & Ha) (_ & Hf' & Ha').
  pose proof (fork_inv_fields guest_state main i main_ephemeral _ Hi) as (F1 & F2 & F3 & _ & F4 & F5).
  pose proof (fork_inv_fields guest_state main j main_ephemeral _ Hj) as (E1 & E2 & E3 & _ & E4 & E5).
  destruct Hi as (_ & W1 & P1 & _), Hj as (_ & W2 & P2 & _).
  split; [|rewrite Hx; cbn; by rewrite F4|congruence..].
  rewrite Hx, Hx'. split; cbn; [exact Hm|congruence..|done].
Qed.

(** The resets of equivalent forks have the same result. *)
Lemma reset_to_related i j w w' :
  fork_world i w → fork_world j w' → reset_safe main i → reset_safe main j → world_equiv meq any w w' →
  (reset_to main w).1 = (reset_to main w').1 ∧
  (∀ x x', reset_to main w = (Ok tt, x) → reset_to main w' = (Ok tt, x') → world_equiv meq any x x').
Proof using main_ephemeral TinyKVMLaws0 MachineEquiv0.
  intros Hi Hj Si Sj [Hv _ _ _].
  destruct (meq_reset_proper (reset_options main) (m_machine main) _ _ (ve_machine _ _ _ _ Hv)) as [Hr Hm].
  split.
  - destruct Hi as (Hi & _), Hj as (Hj & _).
    pose proof (fork_inv_fields guest_state main i main_ephemeral _ Hi) as (_ & _ & _ & Ci & Mi & _).
    pose proof (fork_inv_fields guest_state main j main_ephemeral _ Hj) as (_ & _ & _ & Cj & Mj & _).
    rewrite (reset_to_machine main i w Ci Mi), (reset_to_machine main j w' Cj Mj).
    destruct (machine_reset_to _ _ (m_machine (vm w))) as [r m],
      (machine_reset_to _ _ (m_machine (vm w'))) as [r' m']; cbn [fst snd] in *.
    destruct Hr as [[] ? <-|e]; [|done].
    destruct Hi as (_ & _ & _ & Li & _), Hj as (_ & _ & _ & Lj & _).
    destruct (on_reset_safe main i (on_vm (set_machine m) w) Si Li) as (c & _ & Hc).
    destruct (on_reset_safe main j (on_vm (set_machine m') w') Sj Lj) as (c' & _ & Hc').
    unfold update. run_st. by rewrite Hc, Hc'.
  - intros x x' Hx Hx'.
    destruct (reset_to_ok_state i w x Hi Hx) as (Hi' & m & Hm1 & Hvx).
    destruct (reset_to_ok_state j w' x' Hj Hx') as (Hj' & m' & Hm2 & Hvx').
    rewrite Hm1, Hm2 in Hm. by eapply (fork_world_equiv i j w w' m m'); [..|apply Hv| | | | |].
Qed.

(** ** The loop of a fork *)

Definition round_respects (r : Run M * Run M) : Prop :=
  run_respects meq r.1 ∧ run_respects meq r.2.

(** Equivalent forks give the same answers, round after round. *)
Lemma resume_loop_related i j rounds w w' :
  fork_world i w → fork_world j w' → reset_safe main i → reset_safe main j →
  Forall round_ok rounds → Forall round_respects rounds → world_equiv meq any w w' →
  (resume_loop rounds w).1 = (resume_loop rounds w').1.
Proof using main_ephemeral TinyKVMLaws0 MachineEquiv0.
  intros Hi Hj Si Sj Hok Hrs. revert w w' Hi Hj.
  induction rounds as [|[sys res] rounds IH]; intros w w' Hi Hj Hw; cbn [resume_loop]; [done|].
  apply Forall_cons in Hok as [[Ok1 Ok2] Hok], Hrs as [[R1 R2] Hrs]. specialize (IH Hok Hrs).
  cbn [fst snd] in *. run_st.
  destruct (restart_respects meq any sys _ R1 w w' Hw) as [Ha Hw1].
  pose proof (restart_fork_world i sys Ok1 w Hi) as Hi1.
  pose proof (restart_fork_world j sys Ok1 w' Hj) as Hj1.
  destruct (restart_poll_syscall sys w) as [a w1], (restart_poll_syscall sys w') as [a' w1'].
  cbn [fst snd] in *. destruct Ha as [a ? <-|e]; [|done].
  destruct (machine_run_respects meq any res w1 w1' R2 Hw1) as [Hb Hw2].
  pose proof (run_fork_world i res Ok2 w1 Hi1) as Hi2.
  pose proof (run_fork_world j res Ok2 w1' Hj1) as Hj2.
  destruct (machine_run res w1) as [b w2], (machine_run res w1') as [b' w2'].
  cbn [fst snd] in *. destruct Hb as [b ? <-|e]; [|done].
  apply world_equiv_any in Hw2. unfold this. run_st.
  rewrite <-(ve_reset _ _ _ _ (we_vm _ _ _ _ Hw2)).
  destruct (m_reset_needed (vm w2)); [|done].
  rewrite (fork_main_vm guest_state main i main_ephemeral w2 (proj1 Hi2)),
    (fork_main_vm guest_state main j main_ephemeral w2' (proj1 Hj2)).
  destruct (reset_to_related i j w2 w2' Hi2 Hj2 Si Sj Hw2) as [Hr Hw3].
  pose proof (λ x, reset_to_ok_state i w2 x Hi2) as Hi3.
  pose proof (λ x, reset_to_ok_state j w2' x Hj2) as Hj3.
  destruct (reset_to main w2) as [[[]|e] w3], (reset_to main w2') as [[[]|e'] w3']; cbn [fst snd] in *;
    try done; [|congruence].
  specialize (Hw3 _ _ eq_refl eq_refl). unfold update. run_st.
  assert (world_equiv meq any (on_vm (set_reset_needed false) w3) (on_vm (set_reset_needed false) w3')) as Hw4.
  { destruct Hw3 as [[] ? ? ?]. by split; [split|..]. }
  assert (fork_world i (on_vm (set_reset_needed false) w3)) as A by exact (proj1 (Hi3 w3 eq_refl)).
  assert (fork_world j (on_vm (set_reset_needed false) w3')) as B by exact (proj1 (Hj3 w3' eq_refl)).
  specialize (IH _ _ A B Hw4).
  destruct (resume_loop rounds (on_vm (set_reset_needed false) w3)) as [[[t p]|e] w5],
    (resume_loop rounds (on_vm (set_reset_needed false) w3')) as [[[t' p']|e'] w5']; cbn [fst snd] in *;
    congruence.
Qed.

(** A history of at least one round ends with a reset. *)
Lemma resume_loop_ends_reset i rounds w tr w' :
  fork_world i w → Forall round_ok rounds → rounds ≠ [] →
  resume_loop rounds w = (Ok (tr, Serving), w') →
  ∃ w0 w1, fork_world i w0 ∧ reset_to main w0 = (Ok tt, w1) ∧ w' = on_vm (set_reset_needed false) w1.
Proof using main_ephemeral TinyKVMLaws0.
  intros Hi Hok. revert w tr Hi. induction Hok as [|[sys res] rounds [Ok1 Ok2] _ IH]; [done|].
  intros w tr Hi _ Hrun. cbn [resume_loop fst snd] in *.
  inv_bind Hrun. pose proof (restart_fork_world i sys Ok1 w Hi) as Hi1. rewrite Hstep in Hi1.
  inv_bind Hrun. pose proof (run_fork_world i res Ok2 s Hi1) as Hi2. rewrite Hstep0 in Hi2.
  cbn [snd] in *. inv_bind Hrun. injection Hstep1 as <- <-.
  destruct (m_reset_needed (vm s0)); [|by injection Hrun].
  rewrite (fork_main_vm guest_state main i main_ephemeral s0 (proj1 Hi2)) in Hrun.
  inv_bind Hrun. match type of Hstep1 with _ = (Ok ?x, _) => destruct x end.
  inv_bind Hrun. injection Hstep2 as _ <-. inv_bind Hrun. 
  match type of Hstep2 with _ = (Ok ?x, _) => destruct x as [tr0 p0] end. injection Hrun as _ -> <-.
  destruct rounds as [|r rounds].
  - injection Hstep2 as _ <-. by eexists s0, _.
  - eapply IH; [|done|exact Hstep2].
    exact (proj1 (reset_to_ok_state i s0 _ Hi2 Hstep1)).
Qed.

(** The storage machines two threads are connected to, if any, are equivalent. *)
Definition storage_equiv (w w' : World M) : Prop :=
  result_rel meq (remote (m_machine (vm w))) (remote (m_machine (vm w'))).

(** The forks after two histories. *)
Lemma histories_equiv i j v v' hist hist' tr tr' w w' :
  fork_world i v → fork_world j v' → hist ≠ [] → hist' ≠ [] →
  Forall round_ok hist → Forall round_ok hist' →
  resume_loop hist v = (Ok (tr, Serving), w) → resume_loop hist' v' = (Ok (tr', Serving), w') →
  storage_equiv w w' →
  fork_world i w ∧ fork_world j w' ∧ world_equiv meq any w w'.
Proof using main_ephemeral TinyKVMLaws0 MachineEquiv0.
  intros Hv Hv' Hn Hn' Ok1 Ok2 H1 H2 Hst.
  destruct (resume_loop_ends_reset i hist _ _ _ Hv Ok1 Hn H1) as (w0 & w1 & Hi & Hr & ->).
  destruct (resume_loop_ends_reset j hist' _ _ _ Hv' Ok2 Hn' H2) as (w0' & w1' & Hj & Hr' & ->).
  destruct (reset_to_ok_state i w0 w1 Hi Hr) as (Hi1 & m & Hm & Hx).
  destruct (reset_to_ok_state j w0' w1' Hj Hr') as (Hj1 & m' & Hm' & Hx').
  split_and!; [exact Hi1|exact Hj1|].
  unfold storage_equiv in Hst. cbn [vm on_vm m_machine set_reset_needed] in Hst.
  rewrite Hx, Hx' in Hst. pose proof (meq_reset _ _ _ _ _ _ Hm Hm' Hst) as Hmeq.
  destruct Hi as (Hi & _), Hj as (Hj & _), Hi1 as (_ & Hf & Ha), Hj1 as (_ & Hf' & Ha').
  pose proof (fork_inv_fields guest_state main i main_ephemeral _ Hi) as (F1 & F2 & F3 & _ & F4 & F5).
  pose proof (fork_inv_fields guest_state main j main_ephemeral _ Hj) as (E1 & E2 & E3 & _ & E4 & E5).
  destruct Hi as (_ & W1 & P1 & _), Hj as (_ & W2 & P2 & _).
  split; cbn; [|rewrite Hx; cbn; by rewrite F4|congruence..].
  rewrite Hx, Hx'. split; cbn; [exact Hmeq|congruence..|done].
Qed.
End forks.

Lemma new_fork_world {M G} `{!TinyKVM M} (gs : M → G) `{!TinyKVMLaws M G gs} (main : VirtualMachine M) i v :
  new_fork main i = Ok v → fork_world main i (in_world v).
Proof. intros Hv. split; [|done]. by apply (new_fork_pristine gs main i (in_world v)). Qed.

(** ** Servers without a storage machine *)
Section disconnected.
Context {M G : Type} `{!TinyKVM M} (guest_state : M → G) `{!TinyKVMLaws M G guest_state} `{!RemoteLaws M}.
Variables (main : VirtualMachine M) (i : nat) (err : exn).
Hypothesis main_ephemeral : m_ephemeral main = true.

(** A fork whose machine is not connected. *)
Definition unconnected (w : World M) : Prop := fork_inv main i w ∧ remote (m_machine (vm w)) = Err err.

(** A guest cannot connect its machine. *)
Definition stays_unconnected (e : Event M) : Prop :=
  match e with EvGuest f => ∀ m, remote m = Err err → remote (f m) = Err err | _ => True end.

Definition run_unconnected (r : Run M) : Prop := Forall stays_unconnected (run_events_of r).
Definition round_unconnected (r : Run M * Run M) : Prop := run_unconnected r.1 ∧ run_unconnected r.2.

Lemma resume_with_unconnected src len m : remote m = Err err → remote (resume_with src len m).2 = Err err.
Proof using Type. intros Hm. unfold resume_with. run_st. by rewrite on_remote_none with (e := err). Qed.

Lemma remote_resume_unconnected w :
  remote (m_machine (vm w)) = Err err → remote (m_machine (vm (remote_resume w).2)) = Err err.
Proof using RemoteLaws0.
  intros Hr. unfold remote_resume, this. run_st. destruct (m_is_storage (vm w)); [done|]. unfold on_machine.
  set (c := if storage_ipre_permanent _ then _ else _).
  assert (remote (c (m_machine (vm w))).2 = Err err) as Hc.
  { unfold c. destruct (storage_ipre_permanent _); [unfold permanent_resume; by rewrite on_remote_none with (e := err)|].
    apply none_resume; [|done]. apply resume_with_unconnected. }
  destruct (c (m_machine (vm w))) as [[] m]; exact Hc.
Qed.

Lemma handle_unconnected e : event_ok e → stays_unconnected e → preserves unconnected (handle e).
Proof using main_ephemeral TinyKVMLaws0 RemoteLaws0.
  intros He Hs w [Hi Hr]. split; [by apply (handle_fork_inv guest_state main i main_ephemeral e He)|].
  assert (match e with EvAccept _ _ _ _ | EvAcceptSocket _ _ _ | EvFreeFd _ | EvSyscall _ | EvGuest _ => False
    | _ => True end → remote (m_machine (vm (handle e w).2)) = Err err) as Hother.
  { destruct e; try done; intros _; cbn [handle]; unfold_handlers; run_st; by repeat case_match; simplify_eq/=. }
  destruct e; try (by apply Hother); [by apply Hs|..]; clear Hother.
  - rewrite (handle_accept guest_state main i) by done. destruct (phase_of _); [done|]. by apply none_registers.
  - rewrite (handle_accept_socket guest_state main i) by done. destruct (phase_of _); [|done].
    destruct (manage fd _) as [[vfd m]|] eqn:Hm; [|done]. by eapply none_manage.
  - rewrite (handle_free_fd guest_state main i) by done. destruct (phase_of _); [done|]. by case_decide.
  - cbn [handle]. unfold on_unhandled_syscall. case_decide; [by apply remote_resume_unconnected|].
    unfold_handlers. run_st. by repeat case_match; simplify_eq/=.
Qed.

Lemma run_unconnected_preserved r : run_ok r → run_unconnected r → preserves unconnected (machine_run r).
Proof using main_ephemeral TinyKVMLaws0 RemoteLaws0.
  intros Hr Hu. apply machine_run_preserves; [by intros b w|].
  eapply Forall_impl; [apply Forall_and; split; [exact Hr|exact Hu]|].
  intros e [??]. by apply handle_unconnected.
Qed.

Lemma restart_unconnected r : run_ok r → run_unconnected r → preserves unconnected (restart_poll_syscall r).
Proof using main_ephemeral TinyKVMLaws0 RemoteLaws0.
  intros Hr Hu. apply restart_preserves.
  eapply Forall_impl; [apply Forall_and; split; [exact Hr|exact Hu]|].
  intros e [??]. by apply handle_unconnected.
Qed.

Lemma reset_to_unconnected w : unconnected w → remote (m_machine (vm (reset_to main w).2)) = Err err.
Proof using main_ephemeral TinyKVMLaws0 RemoteLaws0.
  intros [Hi Hr].
  pose proof (fork_inv_fields guest_state main i main_ephemeral _ Hi) as (_ & _ & _ & Hcb & Hma & _).
  rewrite (reset_to_machine main i w Hcb Hma).
  pose proof (none_reset (reset_options main) (m_machine main) _ _ Hr) as Hm.
  destruct (machine_reset_to _ _ _) as [[[]|x] m]; cbn [snd] in Hm; run_st; [|done].
  destruct (on_reset_counters main i (on_vm (set_machine m) w)) as (cs & Hcs & _). unfold update. run_st.
  destruct (on_reset_closure _ _ _) as [[[]|x] w1]; cbn [snd] in *; by subst w1.
Qed.

Lemma resume_loop_unconnected rounds :
  Forall round_ok rounds → Forall round_unconnected rounds → preserves unconnected (resume_loop rounds).
Proof using main_ephemeral TinyKVMLaws0 RemoteLaws0.
  intros Hok Hu. induction Hok as [|[sys res] rounds [Ok1 Ok2] _ IH]; cbn [resume_loop]; [apply preserves_ret|].
  apply Forall_cons in Hu as [[U1 U2] Hu]. specialize (IH Hu). cbn [fst snd] in *.
  apply preserves_bind; [by apply restart_unconnected|]. intros a.
  apply preserves_bind; [by apply run_unconnected_preserved|]. intros b.
  intros w Hw. unfold this. run_st. destruct (m_reset_needed (vm w)); [|done].
  rewrite (fork_main_vm guest_state main i main_ephemeral w (proj1 Hw)).
  pose proof (reset_to_unconnected w Hw) as Hr.
  destruct (reset_to_spec guest_state main i main_ephemeral w (proj1 Hw)) as (H3 & _).
  destruct (reset_to main w) as [[[]|x] w3]; cbn [fst snd] in *; [|by split].
  unfold update. run_st. assert (unconnected (on_vm (set_reset_needed false) w3)) as H4 by (by split).
  specialize (IH _ H4). by destruct (resume_loop rounds _) as [[[tr p]|x] w5].
Qed.
End disconnected.

(** ** A model of the laws

    [ToyMachine]s are equivalent when they are equal. *)
#[export] Instance toy_equiv : MachineEquiv ToyMachine eq.
Proof.
  split; try (by intros; subst); try apply _.
  - intros fd m ? <-. by repeat constructor.
  - intros a b m ? <-. by repeat constructor.
  - intros m ? <-. cbn. by destruct (toy_remote m); constructor.
  - intros m ? <-. by repeat constructor.
  - intros o other m ? <-. by repeat constructor.
  - intros o other m m' x x' [= <-] [= <-]. cbn. intros Hr.
    by destruct (toy_remote m), (toy_remote m'); inversion Hr; subst.
Qed.

(** ** Claims *)

(** C7: a client cannot tell what a fork has served before, nor which fork it
    talks to.  Take any two histories of requests, of one fork or of
    two forks of a server, of which each has come back to the beginning of its loop;
    the guests may have done anything in them.  When the storage machines the
    two forks are connected to are equivalent by then, the same runs of the
    guest get the same answers, and the same exceptions, in every later round.  In a
    server without a storage machine that is always so, as nothing a guest does
    connects its machine to one ([round_unconnected]); a storage machine is
    not reset, and what a request left there may be seen by the next. *)
Theorem requests_indistinguishable `{!TinyKVM M} {G} (gs : M → G) `{!TinyKVMLaws M G gs} `{!RemoteLaws M}
    (meq : relation M) `{!MachineEquiv M meq} (main : VirtualMachine M)
    i j v v' hist hist' tr tr' w w' rounds :
  m_ephemeral main = true → reset_safe main i → reset_safe main j →
  fork_world main i v → fork_world main j v' → hist ≠ [] → hist' ≠ [] →
  Forall round_ok hist → Forall round_ok hist' →
  resume_loop hist v = (Ok (tr, Serving), w) → resume_loop hist' v' = (Ok (tr', Serving), w') →
  storage_equiv meq w w' ∨
    (∃ err, remote (m_machine (vm v)) = Err err ∧ remote (m_machine (vm v')) = Err err ∧
       Forall (round_unconnected err) hist ∧ Forall (round_unconnected err) hist') →
  Forall round_ok rounds → Forall (round_respects meq) rounds →
  (resume_loop rounds w).1 = (resume_loop rounds w').1.
Proof.
  intros He Si Sj Hv Hv' Hn Hn' Ok1 Ok2 H1 H2 Hst Hok Hrs.
  assert (storage_equiv meq w w') as Hse.
  { destruct Hst as [?|(err & R & R' & U & U')]; [done|].
    destruct (resume_loop_unconnected gs main i err He hist Ok1 U v (conj (proj1 Hv) R)) as [_ E1].
    destruct (resume_loop_unconnected gs main j err He hist' Ok2 U' v' (conj (proj1 Hv') R')) as [_ E2].
    rewrite H1 in E1. rewrite H2 in E2. unfold storage_equiv. cbn [snd] in *. rewrite E1, E2. constructor. }
  destruct (histories_equiv gs meq main He i j v v' hist hist' tr tr' w w') as (Hi & Hj & Hw); [done..|].
  by eapply (resume_loop_related gs meq main He i j).
Qed.

(** Fork 0 after one request and fork 1 after two, in which a guest wrote to
    its memory; there is no storage machine. *)
Lemma requests_indistinguishable_witness :
  ∃ w w', resume_loop [demo_round] (in_world (demo_fork (demo_main true 2) 0)) =
      (Ok ([([], demo_answers)], Serving), w) ∧
    resume_loop [demo_round; demo_round] (in_world (demo_fork (demo_main true 2) 1)) =
      (Ok ([([], demo_answers); ([], demo_answers)], Serving), w') ∧
    (resume_loop [demo_round] w).1 = (resume_loop [demo_round] w').1.
Proof.
  eexists _, _. split; [vm_compute; reflexivity|]. split; [vm_compute; reflexivity|].
  eapply (requests_indistinguishable toy_guest eq (demo_main true 2) 0 1
    (in_world (demo_fork (demo_main true 2) 0)) (in_world (demo_fork (demo_main true 2) 1))
    [demo_round] [demo_round; demo_round]).
  - reflexivity.
  - right. simpl. lia.
  - right. simpl. lia.
  - by apply (new_fork_world toy_guest).
  - by apply (new_fork_world toy_guest).
  - discriminate.
  - discriminate.
  - repeat constructor; simpl; lia.
  - repeat constructor; simpl; lia.
  - vm_compute. reflexivity.
  - vm_compute. reflexivity.
  - right. eexists. split_and!; [reflexivity..| |]; repeat constructor;
      intros m Hm; exact Hm.
  - repeat constructor; simpl; lia.
  - repeat constructor; by intros m ? <-.
Defined.
