(* ===== verification/Files.v ===== *)
(** * Reading binaries: [file.cpp], [mmap_file.hpp]

    [file_loader] reads a whole file with the C library, and [MmapFile] maps one.
    The answers of the system calls are inputs; what the functions do to the
    host (opening, closing, mapping) is the trace they leave. *)

From S2P Require Import Prelude CppString Effect.

Local Open Scope string_scope.
Local Open Scope list_scope.
Local Open Scope nat_scope.

(** ** [file_loader] *)

(** What [stat] reports: the size and whether the mode is that of a regular file
    or a symbolic link. *)
Record FileStat := MkStat { st_size : Z; is_reg : bool; is_lnk : bool }.

Record FileHost := MkFileHost {
  stat_answer : option FileStat;
  fopen_answer : bool;
  fseek_end : bool;              (**r [fseek(file, 0, SEEK_END) == 0] *)
  ftell_answer : Z;
  fseek_set : bool;
  fread_answer : Z → list Z      (**r the bytes [fread] delivers for a size *)
}.

Inductive FileCall := Fopen (name : string) | Fclose.

Definition call_file (c : FileCall) : st (list FileCall) unit := modify (λ t, t ++ [c]).

Definition close_and_throw {A} (e : exn) : st (list FileCall) A := call_file Fclose;; raise e.

Definition file_loader (h : FileHost) (filename : string) : st (list FileCall) (list Z) :=
  match stat_answer h with
  | None => raise (RuntimeError ("Failed to stat file: " +:+ filename))
  | Some s =>
      if (st_size s =? 0)%Z then raise (RuntimeError ("File is empty: " +:+ filename))
      else if negb (is_reg s) && negb (is_lnk s)
      then raise (RuntimeError ("File is not a regular file: " +:+ filename))
      else
        call_file (Fopen filename);;
        if negb (fopen_answer h) then raise (RuntimeError ("Failed to open file: " +:+ filename))
        else if negb (fseek_end h)
        then close_and_throw (RuntimeError ("Failed to seek to end of file: " +:+ filename))
        else if (ftell_answer h <? 0)%Z
        then close_and_throw (RuntimeError ("Failed to determine file size: " +:+ filename))
        else if negb (fseek_set h)
        then close_and_throw (RuntimeError ("Failed to seek to start of file: " +:+ filename))
        else
          let buffer := fread_answer h (ftell_answer h) in
          if negb (Z.of_nat (length buffer) =? ftell_answer h)%Z
          then close_and_throw (RuntimeError ("Failed to read file: " +:+ filename))
          else call_file Fclose;; mret buffer
  end.

(** ** [MmapFile]

    [m_mmap] is the address, [None] for a null pointer; the content is what is
    mapped there. *)
Record MmapFile := MkMmap { m_filename : string; m_mmap : option Z; m_size : Z }.

Record MmapHost := MkMmapHost {
  exists_ : bool;
  file_size : result Z;          (**r [std::filesystem::file_size], which may throw *)
  open_answer : Z;
  mmap_answer : option Z         (**r [None] is [MAP_FAILED] *)
}.

Inductive MmapCall :=
  | Open (name : string)
  | Mmap (size : Z)
  | CloseFd (fd : Z)
  | Madvise (addr size : Z)
  | Munmap (addr size : Z).

Definition call_mmap (c : MmapCall) : st (list MmapCall) unit := modify (λ t, t ++ [c]).

(** The constructor. *)
Definition mmap_open (h : MmapHost) (filename : string) : st (list MmapCall) MmapFile :=
  if decide (filename = "") then raise (InvalidArgument "Filename cannot be empty")
  else if negb (exists_ h) then raise (RuntimeError ("File does not exist: " +:+ filename))
  else
    size ← lift (file_size h);
    call_mmap (Open filename);;
    if (open_answer h <? 0)%Z then raise (RuntimeError ("Failed to open file: " +:+ filename))
    else
      call_mmap (Mmap size);;
      call_mmap (CloseFd (open_answer h));;
      match mmap_answer h with
      | None => raise (RuntimeError ("Failed to mmap file: " +:+ filename))
      | Some addr => mret (MkMmap filename (Some addr) size)
      end.

Definition not_mapped (f : MmapFile) : exn := RuntimeError ("MmapFile is not mapped: " +:+ m_filename f).

Definition mmap_data (f : MmapFile) : result Z :=
  match m_mmap f with None => throw (not_mapped f) | Some addr => Ok addr end.

Definition mmap_size (f : MmapFile) : result Z :=
  match m_mmap f with None => throw (not_mapped f) | Some _ => Ok (m_size f) end.

(** [view]: a [std::string_view] is an address and a length. *)
Definition mmap_view (f : MmapFile) : result (Z * Z) :=
  match m_mmap f with None => throw (not_mapped f) | Some addr => Ok (addr, m_size f) end.

(** [dontneed]; [advised] is whether [madvise] succeeds. *)
Definition mmap_dontneed (advised : bool) (f : MmapFile) : st (list MmapCall) MmapFile :=
  match m_mmap f with
  | None => mret f
  | Some addr =>
      call_mmap (Madvise addr (m_size f));;
      if negb advised
      then raise (RuntimeError ("Failed to advise MADV_DONTNEED on mmap: " +:+ m_filename f))
      else mret (MkMmap (m_filename f) None 0)
  end.

(** The destructor; a failing [munmap] is only reported. *)
Definition mmap_close (f : MmapFile) : st (list MmapCall) unit :=
  match m_mmap f with
  | None => mret tt
  | Some addr => call_mmap (Munmap addr (m_size f))
  end.

(** How [main] uses a binary: map it, keep the view, drop the pages, and destroy
    the object at the end. *)
Definition mmap_session (h : MmapHost) (filename : string) (advised : bool)
    : st (list MmapCall) (Z * Z) :=
  f ← mmap_open h filename;
  view ← lift (mmap_view f);
  g ← on_unwind (mmap_dontneed advised f) (mmap_close f);
  mmap_close g;; mret view.

(** ** Claims *)

(** C32: [file_loader] closes the file it opened exactly once, on every path;
    it returns exactly when the file is a non-empty regular file or link that can be
    opened and read to the end, and then the bytes it read, as many as the size
    that [ftell] reported. *)
Theorem file_loader_correct h filename :
  let r := file_loader h filename [] in
  (r.2 = [] ∨ r.2 = [Fopen filename] ∧ fopen_answer h = false ∨
   r.2 = [Fopen filename; Fclose] ∧ fopen_answer h = true) ∧
  (∀ bytes, r.1 = Ok bytes ↔
    ∃ s, stat_answer h = Some s ∧ st_size s ≠ 0%Z ∧ (is_reg s = true ∨ is_lnk s = true) ∧
      fopen_answer h = true ∧ fseek_end h = true ∧ fseek_set h = true ∧
      bytes = fread_answer h (ftell_answer h) ∧ Z.of_nat (length bytes) = ftell_answer h).
Proof.
  cbv zeta. unfold file_loader, close_and_throw, call_file. run_st.
  destruct (stat_answer h) as [s|]; [|by split; [left|naive_solver]].
  repeat (case_match; breflect; simpl); (split; [by auto|]); intros bytes; split; try done;
    try (intros (s' & [= <-] & ? & [?|?] & ? & ? & ? & -> & ?); congruence || lia).
  all: try (intros (s' & [= <-] & ? & [?|?] & ? & ? & ? & -> & ?); breflect; congruence || lia).
  - intros [= <-]. exists s. split_and!; try done.
    match goal with H : negb _ && negb _ = false |- _ =>
      apply andb_false_iff in H as [H|H]; apply negb_false_iff in H end; auto.
Qed.

(** Mapping a binary and giving its pages back.  The descriptor is closed
    whenever the file was opened.  When the session returns, the file is mapped
    and stays mapped, so the view the virtual machine keeps remains valid;
    when [madvise] fails the exception's unwinding unmaps the file, once.  An
    empty name, a missing file and a failing [open] or [mmap] throw and leave no
    mapping. *)
Lemma mmap_session_correct h filename advised :
  let r := mmap_session h filename advised [] in
  match r.1 with
  | Ok (addr, size) =>
      filename ≠ "" ∧ exists_ h = true ∧ file_size h = Ok size ∧ mmap_answer h = Some addr ∧
      advised = true ∧
      r.2 = [Open filename; Mmap size; CloseFd (open_answer h); Madvise addr size]
  | Err e =>
      (filename = "" ∧ e = InvalidArgument "Filename cannot be empty" ∧ r.2 = []) ∨
      (exists_ h = false ∧ r.2 = []) ∨
      (file_size h = Err e ∧ r.2 = []) ∨
      ((open_answer h < 0)%Z ∧ r.2 = [Open filename]) ∨
      ∃ size, file_size h = Ok size ∧
        ((mmap_answer h = None ∧ r.2 = [Open filename; Mmap size; CloseFd (open_answer h)]) ∨
         ∃ addr, mmap_answer h = Some addr ∧ advised = false ∧
           r.2 = [Open filename; Mmap size; CloseFd (open_answer h); Madvise addr size; Munmap addr size])
  end.
Proof.
  cbv zeta. unfold mmap_session, mmap_open, mmap_dontneed, mmap_close, call_mmap, mmap_view. run_st.
  case_decide; [by left; simpl|].
  destruct (exists_ h) eqn:?; simpl; [|auto 10].
  destruct (file_size h) as [size|e] eqn:?; simpl; [|auto 10].
  destruct (open_answer h <? 0)%Z eqn:?; breflect; simpl; [auto 10|].
  destruct (mmap_answer h) as [addr|] eqn:?; simpl; [|by eauto 12].
  destruct advised; simpl; [by split_and!|].
  do 4 right. exists size. split; [done|]. right. by exists addr.
Qed.
