(* ===== verification/Snapshot.v ===== *)
(** * Saving and restoring the listening socket: [vm_state.cpp]

    A guest's memory is put into the snapshot file by [tinykvm]; what the
    program adds is the state of the listening socket, which [save_state] reads
    from the kernel into the user area of the snapshot, and from which
    [load_state] makes a new socket in a later process. *)

From S2P Require Import Prelude CppString FsPath AllowedPaths Network Config Effect Tinykvm Vm.

Local Open Scope string_scope.
Local Open Scope list_scope.
Local Open Scope nat_scope.

(** ** Data *)

Record AppSnapshotState := MkSnap {
  s_poll_method : PollMethod;
  s_tracked_client_vfd : Z;
  s_backlog : Z;
  s_domain : Z;
  s_type : Z;
  s_protocol : Z;
  s_flags : Z;
  s_reuseaddr : Z;
  s_addr_len : Z;
  s_addr : sockaddr_storage
}.

(** Stores into the fields, in the groups [save_state] writes them. *)
Definition store_vm (p : PollMethod) (vfd backlog : Z) (s : AppSnapshotState) : AppSnapshotState :=
  MkSnap p vfd backlog (s_domain s) (s_type s) (s_protocol s) (s_flags s) (s_reuseaddr s)
    (s_addr_len s) (s_addr s).
Definition store_option (o : socket_option) (v : Z) (s : AppSnapshotState) : AppSnapshotState :=
  MkSnap (s_poll_method s) (s_tracked_client_vfd s) (s_backlog s)
    (match o with SO_DOMAIN => v | _ => s_domain s end)
    (match o with SO_TYPE => v | _ => s_type s end)
    (match o with SO_PROTOCOL => v | _ => s_protocol s end)
    (s_flags s)
    (match o with SO_REUSEADDR => v | _ => s_reuseaddr s end)
    (s_addr_len s) (s_addr s).
Definition store_flags (v : Z) (s : AppSnapshotState) : AppSnapshotState :=
  MkSnap (s_poll_method s) (s_tracked_client_vfd s) (s_backlog s) (s_domain s) (s_type s)
    (s_protocol s) v (s_reuseaddr s) (s_addr_len s) (s_addr s).
Definition store_addr (a : sockaddr_storage) (len : Z) (s : AppSnapshotState) : AppSnapshotState :=
  MkSnap (s_poll_method s) (s_tracked_client_vfd s) (s_backlog s) (s_domain s) (s_type s)
    (s_protocol s) (s_flags s) (s_reuseaddr s) len a.

(** What [tinykvm] offers for snapshots.  An epoll set is the list of its
    descriptors with their events; [get_epoll_entries] gives the sets by
    reference, so [set_epoll_fds] on the machine is what [erase] on an entry does. *)
Class Snapshots (M : Type) := {
  save_snapshot_state_now : M → M;
  user_area : M → option AppSnapshotState;      (**r [get_snapshot_state_user_area], [None] for null *)
  write_user_area : (AppSnapshotState → AppSnapshotState) → M → M;
  manage_as : Z → Z → M → M;                    (**r [fds().manage_as(vfd, fd, true, true)] *)
  translate : M → Z → Z;                        (**r [fds().translate(vfd)] *)
  epoll_entries : M → list Z;                   (**r the keys of [fds().get_epoll_entries()] *)
  entry_fds : M → Z → list (Z * Z);             (**r the [epoll_fds] of an entry *)
  set_entry_fds : Z → list (Z * Z) → M → M
}.

Class SnapshotLaws (M : Type) `{Snapshots M} : Prop := {
  user_area_write f m : user_area (write_user_area f m) = f <$> user_area m;
  translate_managed vfd fd m : translate (manage_as vfd fd m) vfd = fd;
  translate_entry epfd l m vfd : translate (set_entry_fds epfd l m) vfd = translate m vfd
}.

(** The host's answers to the program's socket calls: [None] or a negative number
    is a failure, whose [strerror] text is [errno_text]. *)
Record SocketHost := MkSockets {
  getsockopt_answer : Z → socket_option → option Z;
  getfl_answer : Z → Z;
  getsockname_answer : Z → option (sockaddr_storage * Z);
  socket_answer : Z → Z → Z → Z;
  call_fails : HostCall → bool;
  errno_text : string
}.

(** ** Operations *)
Section operations.
Context {M : Type} `{!TinyKVM M} `{!Snapshots M} (h : SocketHost).

Definition host_call (c : HostCall) : vm_fn M unit := modify (add_host_call c).
Definition fail_errno {A} : vm_fn M A := raise (RuntimeError (errno_text h)).
Definition write_area (f : AppSnapshotState → AppSnapshotState) : vm_fn M unit :=
  update (λ v, set_machine (write_user_area f (m_machine v)) v).

Definition save_option (fd : Z) (o : socket_option) : vm_fn M unit :=
  host_call (GetSockOpt fd o);;
  match getsockopt_answer h fd o with
  | None => fail_errno
  | Some x => write_area (store_option o x)
  end.

Definition save_state : vm_fn M unit :=
  update (λ v, set_machine (save_snapshot_state_now (m_machine v)) v);;
  v ← this;
  match user_area (m_machine v) with
  | None => raise (RuntimeError "snapshot user area is null")
  | Some _ =>
      write_area (store_vm (m_poll_method v) (m_tracked_client_vfd v) 128);;
      let fd := m_tracked_client_fd v in
      save_option fd SO_DOMAIN;;
      save_option fd SO_TYPE;;
      save_option fd SO_PROTOCOL;;
      save_option fd SO_REUSEADDR;;
      host_call (GetFl fd);;
      write_area (store_flags (getfl_answer h fd));;
      if (getfl_answer h fd <? 0)%Z then fail_errno
      else
        host_call (GetSockName fd);;
        match getsockname_answer h fd with
        | None => fail_errno
        | Some (addr, len) => write_area (store_addr addr len)
        end
  end.

(** A call that fails throws the text of [errno]. *)
Definition checked_call (c : HostCall) : vm_fn M unit :=
  host_call c;;
  if call_fails h c then fail_errno else mret tt.

(** One epoll set: the tracked descriptor is removed and added again with the
    new socket, then the descriptors that do not exist any more are erased. *)
Definition restore_epoll (fd vfd : Z) : vm_fn M unit :=
  v ← this;
  let tracked := m_tracked_client_vfd v in
  match list_find (λ e, e.1 = tracked) (entry_fds (m_machine v) vfd) with
  | Some (_, (entry_vfd, event)) =>
      let epoll_fd := translate (m_machine v) vfd in
      let old_fd := translate (m_machine v) entry_vfd in
      (if (0 <=? old_fd)%Z then host_call (EpollDel epoll_fd old_fd event) else mret tt);;
      host_call (EpollAdd epoll_fd fd event)
  | None => mret tt
  end;;
  update (λ v, set_machine (set_entry_fds vfd
    (filter (λ e, (0 ≤ translate (m_machine v) e.1)%Z) (entry_fds (m_machine v) vfd))
    (m_machine v)) v).

Fixpoint restore_epolls (fd : Z) (vfds : list Z) : vm_fn M unit :=
  match vfds with
  | [] => mret tt
  | vfd :: vfds => restore_epoll fd vfd;; restore_epolls fd vfds
  end.

Definition load_state : vm_fn M unit :=
  v ← this;
  match user_area (m_machine v) with
  | None => raise (RuntimeError "snapshot user area is null")
  | Some state =>
      let entries := epoll_entries (m_machine v) in
      update (set_poll_method (s_poll_method state));;
      host_call (NewSocket (s_domain state) (s_type state) (s_protocol state));;
      let fd := socket_answer h (s_domain state) (s_type state) (s_protocol state) in
      if (fd <? 0)%Z then fail_errno
      else
        checked_call (SetReuseAddr fd (s_reuseaddr state));;
        checked_call (SetFl fd (s_flags state));;
        checked_call (BindTo fd (s_addr state) (s_addr_len state));;
        checked_call (ListenOn fd (s_backlog state));;
        update (set_tracked_client fd (s_tracked_client_vfd state));;
        update (λ v, set_machine (manage_as (s_tracked_client_vfd state) fd (m_machine v)) v);;
        restore_epolls fd entries
  end.
End operations.

(** ** Specification

    The calls that make a socket like the one that was saved. *)
Definition socket_calls (s : AppSnapshotState) (fd : Z) : list HostCall :=
  [NewSocket (s_domain s) (s_type s) (s_protocol s); SetReuseAddr fd (s_reuseaddr s);
   SetFl fd (s_flags s); BindTo fd (s_addr s) (s_addr_len s); ListenOn fd (s_backlog s)].

(** The snapshot describes the socket [fd] of the process that saved it. *)
Definition describes_socket (h : SocketHost) (fd : Z) (s : AppSnapshotState) : Prop :=
  getsockopt_answer h fd SO_DOMAIN = Some (s_domain s) ∧
  getsockopt_answer h fd SO_TYPE = Some (s_type s) ∧
  getsockopt_answer h fd SO_PROTOCOL = Some (s_protocol s) ∧
  getsockopt_answer h fd SO_REUSEADDR = Some (s_reuseaddr s) ∧
  getfl_answer h fd = s_flags s ∧ (0 ≤ s_flags s)%Z ∧
  getsockname_answer h fd = Some (s_addr s, s_addr_len s).

(** A call on an epoll set for socket [fd]. *)
Definition epoll_call_for (fd : Z) (c : HostCall) : Prop :=
  match c with EpollDel _ f _ | EpollAdd _ f _ => f = fd | _ => False end.

Section proofs.
Context {M : Type} `{!TinyKVM M} `{!Snapshots M} `{!SnapshotLaws M}.

(** What is in the user area after a step of [save_state]. *)
Definition area (w : World M) : option AppSnapshotState := user_area (m_machine (vm w)).

Lemma write_area_ok f w a w' :
  write_area (M := M) f w = (Ok a, w') → area w' = f <$> area w.
Proof using SnapshotLaws0.
  unfold write_area, update. run_st. intros [= _ <-]. unfold area. cbn [vm on_vm m_machine set_machine].
  apply user_area_write.
Qed.

Lemma host_call_ok c w a w' : host_call (M := M) c w = (Ok a, w') → vm w' = vm w.
Proof using Type. unfold host_call. run_st. by intros [= _ <-]. Qed.

Lemma save_option_ok h fd o w a w' :
  save_option (M := M) h fd o w = (Ok a, w') →
  ∃ x, getsockopt_answer h fd o = Some x ∧ area w' = store_option o x <$> area w.
Proof using SnapshotLaws0.
  unfold save_option. intros H. inv_bind H. apply host_call_ok in Hstep.
  destruct (getsockopt_answer h fd o) as [x|]; [|done]. exists x. split; [done|].
  apply write_area_ok in H. unfold area in *. by rewrite H, Hstep.
Qed.

Lemma save_state_writes h w w' :
  save_state (M := M) h w = (Ok tt, w') →
  ∃ s, area w' = Some s ∧ describes_socket h (m_tracked_client_fd (vm w)) s ∧
    s_poll_method s = m_poll_method (vm w) ∧
    s_tracked_client_vfd s = m_tracked_client_vfd (vm w) ∧ s_backlog s = 128%Z.
Proof using SnapshotLaws0.
  unfold save_state. intros H. inv_bind H. injection Hstep as _ <-. inv_bind H. injection Hstep as <- <-.
  set (fd := m_tracked_client_fd _) in H. 
  destruct (user_area _) as [s0|] eqn:Ha; [|done].
  inv_bind H. pose proof (write_area_ok _ _ _ _ Hstep) as A1. clear Hstep.
  match type of A1 with _ = _ <$> ?x => replace x with (Some s0) in A1 by (symmetry; exact Ha) end.
  inv_bind H. apply save_option_ok in Hstep as (d & Hd & A2). rewrite A1 in A2.
  inv_bind H. apply save_option_ok in Hstep as (t & Ht & A3). rewrite A2 in A3.
  inv_bind H. apply save_option_ok in Hstep as (p & Hp & A4). rewrite A3 in A4.
  inv_bind H. apply save_option_ok in Hstep as (r & Hr & A5). rewrite A4 in A5.
  inv_bind H. pose proof (host_call_ok _ _ _ _ Hstep) as V6. clear Hstep.
  inv_bind H. pose proof (write_area_ok _ _ _ _ Hstep) as A7. clear Hstep.
  unfold area at 2 in A7. rewrite V6 in A7. fold (area s4) in A7. rewrite A5 in A7.
  destruct (_ <? 0)%Z eqn:Hf; [done|]. breflect.
  inv_bind H. pose proof (host_call_ok _ _ _ _ Hstep) as V8. clear Hstep.
  destruct (getsockname_answer h fd) as [[addr len]|] eqn:Hn; [|done].
  apply write_area_ok in H. unfold area at 2 in H. rewrite V8 in H. 
  fold (area s6) in H. rewrite A7 in H.
  eexists. split; [exact H|]. unfold describes_socket. simpl. by split_and!.
Qed.

(** [save_state] changes the machine and makes host calls, nothing else. *)
Lemma save_state_preserves (I : World M → Prop) h :
  (∀ f w, I w → I (on_vm (λ v, set_machine (f (m_machine v)) v) w)) →
  (∀ c w, I w → I (add_host_call c w)) →
  preserves I (save_state h).
Proof using Type.
  intros Hm Hc.
  assert (∀ f, preserves I (write_area f)) as Hw
    by (intros f; apply preserves_modify; intros w; by apply Hm).
  assert (∀ c, preserves I (host_call c)) as Hcall
    by (intros c; apply preserves_modify; intros w; by apply Hc).
  assert (∀ fd o, preserves I (save_option h fd o)) as Ho.
  { intros fd o. apply preserves_bind; [done|]. intros _. destruct (getsockopt_answer h fd o); auto with kvm.
    apply preserves_raise. }
  unfold save_state. apply preserves_bind; [apply preserves_modify; intros w; by apply Hm|]. intros _.
  apply preserves_bind; [apply preserves_gets|]. intros v.
  destruct (user_area _); [|apply preserves_raise].
  repeat (apply preserves_bind; [done|intros _]).
  destruct (_ <? 0)%Z; [apply preserves_raise|].
  apply preserves_bind; [done|]. intros _.
  destruct (getsockname_answer _ _) as [[addr len]|]; [done|apply preserves_raise].
Qed.

(** ** Loading *)

(** The epoll part keeps the object and only makes calls for the new socket. *)
Definition epoll_inv (fd : Z) (w0 w : World M) : Prop :=
  same_object (vm w0) (vm w) ∧ m_poll_method (vm w) = m_poll_method (vm w0) ∧
  m_waiting_for_requests (vm w) = m_waiting_for_requests (vm w0) ∧
  m_tracked_client_fd (vm w) = m_tracked_client_fd (vm w0) ∧
  m_tracked_client_vfd (vm w) = m_tracked_client_vfd (vm w0) ∧
  translate (m_machine (vm w)) (m_tracked_client_vfd (vm w)) = fd ∧
  ∃ cs, host_calls w = host_calls w0 ++ cs ∧ Forall (epoll_call_for fd) cs.

Lemma epoll_inv_call fd w0 w c :
  epoll_inv fd w0 w → epoll_call_for fd c → epoll_inv fd w0 (add_host_call c w).
Proof using Type.
  intros (? & ? & ? & ? & ? & ? & cs & Hcs & HF) Hc. split_and!; [done..|].
  exists (cs ++ [c]). cbn [host_calls add_host_call]. rewrite Hcs, app_assoc.
  split; [done|]. by apply Forall_app_2; [|constructor].
Qed.

Lemma epoll_inv_entry fd w0 w vfd l :
  epoll_inv fd w0 w → epoll_inv fd w0 (on_vm (λ v, set_machine (set_entry_fds vfd (l v) (m_machine v)) v) w).
Proof using SnapshotLaws0.
  intros (? & ? & ? & ? & ? & Ht & Hcs). split_and!; [done..| |done].
  cbn [vm on_vm m_machine set_machine m_tracked_client_vfd]. by rewrite translate_entry.
Qed.

Lemma restore_epoll_inv fd w0 vfd w :
  epoll_inv fd w0 w →
  ∃ w', restore_epoll fd vfd w = (Ok tt, w') ∧ epoll_inv fd w0 w'.
Proof using SnapshotLaws0.
  intros Hi. pose proof Hi as (_ & _ & _ & _ & _ & Ht & _).
  unfold restore_epoll, this, update, host_call. run_st.
  destruct (list_find _ _) as [[k [entry_vfd event]]|] eqn:Hl.
  - apply list_find_Some in Hl as (_ & He & _). simpl in He. subst entry_vfd. rewrite Ht.
    destruct (0 <=? fd)%Z; eexists; (split; [reflexivity|]); apply epoll_inv_entry;
      repeat (apply epoll_inv_call; [|done]); done.
  - eexists. split; [reflexivity|]. by apply epoll_inv_entry.
Qed.

Lemma restore_epolls_inv fd w0 vfds w :
  epoll_inv fd w0 w →
  ∃ w', restore_epolls fd vfds w = (Ok tt, w') ∧ epoll_inv fd w0 w'.
Proof using SnapshotLaws0.
  revert w. induction vfds as [|vfd vfds IH]; intros w Hi; cbn [restore_epolls]; [by exists w|].
  destruct (restore_epoll_inv fd w0 vfd w Hi) as (w1 & H1 & Hi1).
  rewrite (st_bind_ok _ _ _ _ _ H1). by apply IH.
Qed.

(** What [load_state] does, by the first call that fails. *)
Definition load_fails (h : SocketHost) (s : AppSnapshotState) (fd : Z) : list bool :=
  (fd <? 0)%Z :: (call_fails h <$> drop 1 (socket_calls s fd)).

Lemma load_state_spec h w s :
  area w = Some s →
  let fd := socket_answer h (s_domain s) (s_type s) (s_protocol s) in
  let w' := (load_state h w).2 in
  m_poll_method (vm w') = s_poll_method s ∧ same_object (vm w) (vm w') ∧
  m_waiting_for_requests (vm w') = m_waiting_for_requests (vm w) ∧
  match list_find (λ b, b = true) (load_fails h s fd) with
  | None => (load_state h w).1 = Ok tt ∧
      m_tracked_client_fd (vm w') = fd ∧ m_tracked_client_vfd (vm w') = s_tracked_client_vfd s ∧
      translate (m_machine (vm w')) (s_tracked_client_vfd s) = fd ∧
      ∃ cs, host_calls w' = host_calls w ++ socket_calls s fd ++ cs ∧ Forall (epoll_call_for fd) cs
  | Some (k, _) => (load_state h w).1 = Err (RuntimeError (errno_text h)) ∧
      m_tracked_client_fd (vm w') = m_tracked_client_fd (vm w) ∧
      m_tracked_client_vfd (vm w') = m_tracked_client_vfd (vm w) ∧
      host_calls w' = host_calls w ++ take (S k) (socket_calls s fd)
  end.
Proof using SnapshotLaws0.
  intros Ha. cbv zeta. unfold load_state, checked_call, fail_errno, this, area in *.
  rewrite (st_bind_ok (gets vm) _ w (vm w) w eq_refl), Ha.
  set (fd := socket_answer h _ _ _).
  unfold load_fails, socket_calls, host_call, update. cbn [drop fmap list_fmap list_find].
  run_st.
  destruct (fd <? 0)%Z; [cbn; by split_and!|].
  destruct (call_fails h (SetReuseAddr _ _));
    [cbn; rewrite <-!app_assoc; by split_and!|].
  destruct (call_fails h (SetFl _ _)); [cbn; rewrite <-!app_assoc; by split_and!|].
  destruct (call_fails h (BindTo _ _ _)); [cbn; rewrite <-!app_assoc; by split_and!|].
  destruct (call_fails h (ListenOn _ _)); [cbn; rewrite <-!app_assoc; by split_and!|].
  match goal with |- context [restore_epolls fd ?vfds ?w1] =>
    destruct (restore_epolls_inv fd w1 vfds w1) as (w2 & Hr & Hi) end.
  { split_and!; try done; [by cbn; rewrite translate_managed|]. exists []. by rewrite app_nil_r. }
  rewrite Hr. destruct Hi as (Hso & Hp & Hw & Hf & Hv & Ht & cs & Hcs & HF). cbn [fst snd].
  cbn in Hp, Hw, Hf, Hv, Hcs. rewrite Hv in Ht.
  split_and!; [done|etrans; [|exact Hso]; done|done|]. cbn.
  split_and!; [done..|]. exists cs. split; [|done]. by rewrite Hcs, <-!app_assoc.
Qed.
End proofs.

(** ** A machine with snapshots for the examples *)
Record SnapToy := MkSnapToy {
  st_base : ToyMachine; st_area : option AppSnapshotState; st_fds : list (Z * Z);
  st_epoll : list (Z * list (Z * Z))
}.

Definition assoc {A} (d : A) (l : list (Z * A)) (k : Z) : A :=
  default d (snd <$> (snd <$> list_find (λ e, e.1 = k) l)).

#[export] Instance toy_snapshots : Snapshots SnapToy := {|
  save_snapshot_state_now m := m;
  user_area := st_area;
  write_user_area f m := MkSnapToy (st_base m) (f <$> st_area m) (st_fds m) (st_epoll m);
  manage_as vfd fd m := MkSnapToy (st_base m) (st_area m) ((vfd, fd) :: st_fds m) (st_epoll m);
  translate m vfd := assoc (-1)%Z (st_fds m) vfd;
  epoll_entries m := fst <$> st_epoll m;
  entry_fds m vfd := assoc [] (st_epoll m) vfd;
  set_entry_fds vfd l m := MkSnapToy (st_base m) (st_area m) (st_fds m)
    ((λ e, if decide (e.1 = vfd) then (vfd, l) else e) <$> st_epoll m)
|}.

#[export] Instance toy_snapshot_laws : SnapshotLaws SnapToy.
Proof.
  split; [done| |done]. intros vfd fd m. cbn. unfold assoc. cbn. by rewrite decide_True.
Qed.

Definition demo_host : SocketHost := {|
  getsockopt_answer fd o := Some (match o with SO_DOMAIN => 2 | SO_TYPE => 1 | SO_PROTOCOL => 6 | SO_REUSEADDR => 1 end)%Z;
  getfl_answer _ := 0x802%Z;
  getsockname_answer _ := Some (sockaddr_in 0 (htons 8080), 16%Z);
  socket_answer _ _ _ := 9%Z;
  call_fails _ := false;
  errno_text := "Address already in use"
|}.

(** A main object that waits in [epoll] on descriptor 3; the epoll set 4 also has
    a descriptor that the new process does not have. *)
Definition demo_snap_vm (a : option AppSnapshotState) (fd vfd : Z) (p : PollMethod) : VirtualMachine SnapToy :=
  MkVM (MkSnapToy toy_machine a [(4, 5)]%Z [(4, [(3, 1); (8, 1)])]%Z)
    (demo_server_config true false 1 0) "" Static 0 true false false true false fd vfd p None None
    no_callbacks false.

Definition blank_area : AppSnapshotState := MkSnap PollUndefined 0 0 0 0 0 0 0 0 sockaddr_zero.

(** ** Claims *)

(** C16: a server restored from a snapshot listens like the one that was saved:
    the poll method and the guest's descriptor are those of the saved object,
    and the new socket is made with the domain, type, protocol, [SO_REUSEADDR],
    flags and address the kernel reported for the saved one, in an order in
    which it is bound before it listens; the guest's descriptor then stands for
    the new socket.  The calls on epoll sets that follow, those that remove the
    old socket included, all name the new one. *)
Theorem snapshot_roundtrip {M} `{!Snapshots M} `{!SnapshotLaws M} h1 h2 (w1 w1' w2 w2' : World M) :
  save_state h1 w1 = (Ok tt, w1') →
  user_area (m_machine (vm w2)) = user_area (m_machine (vm w1')) →
  load_state h2 w2 = (Ok tt, w2') →
  ∃ s, let fd := socket_answer h2 (s_domain s) (s_type s) (s_protocol s) in
    describes_socket h1 (m_tracked_client_fd (vm w1)) s ∧
    m_poll_method (vm w2') = m_poll_method (vm w1) ∧
    m_tracked_client_vfd (vm w2') = m_tracked_client_vfd (vm w1) ∧
    m_tracked_client_fd (vm w2') = fd ∧ (0 ≤ fd)%Z ∧
    translate (m_machine (vm w2')) (m_tracked_client_vfd (vm w1)) = fd ∧
    ∃ cs, host_calls w2' = host_calls w2 ++
        [NewSocket (s_domain s) (s_type s) (s_protocol s); SetReuseAddr fd (s_reuseaddr s);
         SetFl fd (s_flags s); BindTo fd (s_addr s) (s_addr_len s); ListenOn fd 128] ++ cs ∧
      Forall (epoll_call_for fd) cs.
Proof.
  intros Hs Ha Hl. destruct (save_state_writes h1 w1 w1' Hs) as (s & Hs' & Hd & Hp & Hv & Hb).
  assert (area w2 = Some s) as Ha2 by (unfold area in *; congruence).
  pose proof (load_state_spec h2 w2 s Ha2) as (H1 & _ & _ & H2). rewrite Hl in *. cbn [fst snd] in *.
  destruct (list_find _ _) as [[k b]|] eqn:Hf; [by destruct H2|].
  destruct H2 as (_ & Hfd & Hvfd & Ht & cs & Hcs & HF).
  exists s. cbv zeta. unfold socket_calls in Hcs. rewrite Hb in Hcs.
  split_and!; [done|congruence|congruence|done| |congruence|eauto].
  apply list_find_None in Hf. apply Forall_cons_1 in Hf as [Hf _].
  by destruct (_ <? 0)%Z eqn:E; breflect.
Qed.

Lemma snapshot_roundtrip_witness :
  ∃ a w2', save_state demo_host (in_world (demo_snap_vm (Some blank_area) 7 3 Epoll)) = a ∧
    load_state demo_host (in_world (demo_snap_vm (area a.2) (-1) (-1) PollUndefined)) = (Ok tt, w2') ∧
    m_poll_method (vm w2') = Epoll ∧ m_tracked_client_vfd (vm w2') = 3%Z.
Proof.
  eexists _, _. split; [reflexivity|]. split; [vm_compute; reflexivity|].
  destruct (snapshot_roundtrip demo_host demo_host
    (in_world (demo_snap_vm (Some blank_area) 7 3 Epoll))
    (save_state demo_host (in_world (demo_snap_vm (Some blank_area) 7 3 Epoll))).2
    (in_world (demo_snap_vm (area (save_state demo_host
       (in_world (demo_snap_vm (Some blank_area) 7 3 Epoll))).2) (-1) (-1) PollUndefined))
    (load_state demo_host (in_world (demo_snap_vm (area (save_state demo_host
       (in_world (demo_snap_vm (Some blank_area) 7 3 Epoll))).2) (-1) (-1) PollUndefined))).2)
    as (s & _ & Hp & Hv & _).
  - vm_compute. reflexivity.
  - reflexivity.
  - vm_compute. reflexivity.
  - split; [exact Hp|exact Hv].
Defined.

(** C23: a restore that fails.  Without a user area nothing is done.  Otherwise
    the first call that fails, in the order [socket], [setsockopt], [fcntl],
    [bind], [listen], throws its error; no later call is made and the object
    still tracks no new socket, although its poll method is already the saved
    one. *)
Theorem load_state_failure {M} `{!Snapshots M} `{!SnapshotLaws M} h (w w' : World M) e :
  load_state h w = (Err e, w') →
  m_tracked_client_fd (vm w') = m_tracked_client_fd (vm w) ∧
  m_tracked_client_vfd (vm w') = m_tracked_client_vfd (vm w) ∧
  match user_area (m_machine (vm w)) with
  | None => e = RuntimeError "snapshot user area is null" ∧ w' = w
  | Some s =>
      let fd := socket_answer h (s_domain s) (s_type s) (s_protocol s) in
      e = RuntimeError (errno_text h) ∧ m_poll_method (vm w') = s_poll_method s ∧
      ∃ k, list_find (λ b, b = true) (load_fails h s fd) = Some (k, true) ∧
        host_calls w' = host_calls w ++ take (S k) (socket_calls s fd)
  end.
Proof.
  intros Hl. destruct (user_area (m_machine (vm w))) as [s|] eqn:Ha.
  - pose proof (load_state_spec h w s Ha) as (Hp & _ & _ & H). rewrite Hl in *. cbn [fst snd] in *.
    cbv zeta. destruct (list_find _ _) as [[k b]|] eqn:Hf; [|by destruct H].
    destruct H as (He & ? & ? & Hc). apply list_find_Some in Hf as Hb. destruct Hb as (_ & -> & _).
    injection He as <-. split_and!; [done..|]. by exists k.
  - unfold load_state, this in Hl. rewrite (st_bind_ok (gets vm) _ w (vm w) w eq_refl), Ha in Hl.
    unfold raise in Hl. by injection Hl as <- <-.
Qed.

Definition demo_bind_fails : SocketHost :=
  MkSockets (getsockopt_answer demo_host) (getfl_answer demo_host) (getsockname_answer demo_host)
    (socket_answer demo_host) (λ c, match c with BindTo _ _ _ => true | _ => false end)
    "Address already in use".

Lemma load_state_failure_witness :
  let w := in_world (demo_snap_vm (Some blank_area) (-1) (-1) PollUndefined) in
  ∃ w', load_state demo_bind_fails w = (Err (RuntimeError "Address already in use"), w') ∧
    m_tracked_client_fd (vm w') = (-1)%Z.
Proof.
  cbv zeta. eexists. split; [vm_compute; reflexivity|].
  refine (proj1 (load_state_failure demo_bind_fails
    (in_world (demo_snap_vm (Some blank_area) (-1) (-1) PollUndefined)) _ _ _)).
  vm_compute. reflexivity.
Defined.
