(* ===== verification/Warmup.v ===== *)
(** * Warming up the guest: [warmup.cpp]

    Before it is forked, the main virtual machine serves a number of requests
    that a thread of the same process sends to it.  [warmup] installs callbacks
    that count the closed connections and stop the machine when there were
    enough; the thread runs [connect_and_send_requests] for each connection. *)

From S2P Require Import Prelude CppString FsPath AllowedPaths Network Config Effect Tinykvm Vm.

Local Open Scope string_scope.
Local Open Scope list_scope.
Local Open Scope nat_scope.

(** ** The client *)

Definition crlf : string := String "013" (String "010" "").

Definition warmup_request (warmup_path_ : string) (last_ : bool) : string :=
  "GET " +:+ warmup_path_ +:+ " HTTP/1.1" +:+ crlf +:+ "Host: localhost" +:+ crlf +:+
  (if last_ then "Connection: close" +:+ crlf else "") +:+ crlf.

(** How a connection goes: whether [socket] and [connect] succeed, whether each
    [send] does, and what each [recv] returns; a [recv] past the end of the list
    does not return. *)
Record Connection := MkConnection {
  socket_ok : bool; connect_ok : bool; sends : list bool; recvs : list Z
}.

(** What the client did: the requests it sent, whether it returned and what. *)
Inductive client_end := Returned (b : bool) | Blocked.

(** The [for] loop, [k] requests before its end; [bytes] is the last result of
    [recv].  The second component is what the loop leaves, unless it blocks. *)
Fixpoint request_loop (warmup_path_ : string) (k : nat) (sends : list bool) (recvs : list Z) (bytes : Z)
    : list string * option (Z * list Z) :=
  match k with
  | 0 => ([], Some (bytes, recvs))
  | S k =>
      let request := warmup_request warmup_path_ (k =? 0) in
      match sends with
      | [] => ([], None)
      | false :: _ => ([], Some (bytes, recvs))
      | true :: sends =>
          match recvs with
          | [] => ([request], None)
          | bytes :: recvs =>
              if (bytes <=? 0)%Z then ([request], Some (bytes, recvs))
              else let '(l, r) := request_loop warmup_path_ k sends recvs bytes in (request :: l, r)
          end
      end
  end.

(** [while (bytes > 0) bytes = recv(...)] *)
Fixpoint drain (recvs : list Z) (bytes : Z) : client_end :=
  if (bytes <=? 0)%Z then Returned true
  else match recvs with [] => Blocked | b :: recvs => drain recvs b end.

Definition connect_and_send_requests (config : Configuration) (c : Connection) : list string * client_end :=
  if negb (socket_ok c) then ([], Returned false)
  else if negb (connect_ok c) then ([], Returned false)
  else
    let '(sent, r) := request_loop (warmup_path config)
      (Z.to_nat (warmup_intra_connect_requests config)) (sends c) (recvs c) 0 in
    (sent, match r with None => Blocked | Some (bytes, recvs) => drain recvs bytes end).

(** The body of the thread: at most [k] more connections; [stops] is what it
    reads from [warmup_thread_stop_please] after each. *)
Fixpoint warmup_client (config : Configuration) (k : nat) (cs : list (Connection * bool))
    : list (list string) * bool :=
  match k, cs with
  | 0, _ => ([], true)
  | S _, [] => ([], false)
  | S k, (c, stop_please) :: cs =>
      match connect_and_send_requests config c with
      | (sent, Blocked) => ([sent], false)
      | (sent, Returned false) => ([sent], true)
      | (sent, Returned true) =>
          if stop_please : bool then ([sent], true)
          else let '(l, b) := warmup_client config k cs in (sent :: l, b)
      end
  end.

(** ** The server side *)
Section warmup.
Context {M : Type} `{!TinyKVM M}.

(** [name_ok] is whether [getsockname] and [getnameinfo] succeed. *)
Definition begin_warmup_client (name_ok : bool) : vm_fn M unit :=
  v ← this;
  if (warmup_connect_requests (m_config v) =? 0)%Z then mret tt
  else if (warmup_intra_connect_requests (m_config v) =? 0)%Z then mret tt
  else if negb name_ok then mret tt
  else modify (set_joinable true).

(** The threads are told to stop and joined. *)
Definition stop_warmup_client : vm_fn M unit := modify (set_joinable false).

Definition warmup_fds (f : FdCallbacks) : FdCallbacks :=
  MkFds AcceptWarmup SocketWarmup FreeWarmup WaitWarmup WaitWarmup (listening_socket_callback f)
    (connect_socket_callback f) (bind_socket_callback f) (resolve_symlink_callback f)
    (preempt_epoll_wait f).

(** An exception leaves [warmup]: the closures stay installed, their variables
    are gone. *)
Definition dangling_fds (f : FdCallbacks) : FdCallbacks :=
  MkFds AcceptDangling SocketDangling FreeDangling WaitDangling WaitDangling
    (listening_socket_callback f) (connect_socket_callback f) (bind_socket_callback f)
    (resolve_symlink_callback f) (preempt_epoll_wait f).

(** From the start of the client on; [syscall] is the repeated system call and
    [r] the run after it. *)
Definition warmup_serve (name_ok : bool) (syscall r : Run M) : vm_fn M unit :=
  begin_warmup_client name_ok;;
  restart_poll_syscall syscall;;
  machine_run r;;
  v ← this;
  if m_waiting_for_requests v then stop_warmup_client
  else raise (RuntimeError "The program did not wait for requests after warmup").

Definition warmup (name_ok : bool) (syscall r : Run M) : vm_fn M unit :=
  v ← this;
  if (warmup_connect_requests (m_config v) =? 0)%Z then mret tt
  else
    update (set_waiting_for_requests false);;
    modify (set_sockets 0 ∅);;
    update (λ v, set_fds (warmup_fds (fds v)) v);;
    on_unwind (warmup_serve name_ok syscall r) (update (λ v, set_fds (dangling_fds (fds v)) v)).
End warmup.

(** ** Lemmas about the client *)

(** The requests of a connection that is not cut short. *)
Definition all_requests (warmup_path_ : string) (n : nat) : list string :=
  match n with
  | 0 => []
  | S k => replicate k (warmup_request warmup_path_ false) ++ [warmup_request warmup_path_ true]
  end.

Lemma all_requests_S path k :
  all_requests path (S (S k)) = warmup_request path false :: all_requests path (S k).
Proof. done. Qed.

Lemma request_loop_prefix path k ss rs bytes :
  (request_loop path k ss rs bytes).1 `prefix_of` all_requests path k.
Proof.
  revert ss rs bytes. induction k as [|k IH]; intros ss rs bytes; simpl; [done|].
  destruct ss as [|[] ss]; simpl; [apply prefix_nil| |apply prefix_nil].
  assert ([warmup_request path (k =? 0)] `prefix_of`
    replicate k (warmup_request path false) ++ [warmup_request path true]) as Hone.
  { destruct k; simpl; [done|]. apply prefix_cons, prefix_nil. }
  destruct rs as [|b rs]; simpl; [done|]. destruct (b <=? 0)%Z; simpl; [done|].
  specialize (IH ss rs b). destruct (request_loop path k ss rs b) as [l r]; simpl in *.
  destruct k as [|k]; simpl in *; [by apply prefix_nil_inv in IH as ->|].
  by apply prefix_cons.
Qed.

Lemma request_loop_all path k ss rs bytes :
  k ≤ length ss → k ≤ length rs → Forall (λ b, b = true) ss → Forall (λ b, (0 < b)%Z) (take k rs) →
  (request_loop path k ss rs bytes).1 = all_requests path k.
Proof.
  revert ss rs bytes. induction k as [|k IH]; intros ss rs bytes Hs Hr Hss Hrs; [done|].
  destruct ss as [|s ss]; [simpl in *; lia|]. destruct rs as [|b rs]; [simpl in *; lia|].
  apply Forall_cons in Hss as [-> Hss]. simpl in Hrs. apply Forall_cons in Hrs as [Hb Hrs].
  cbn [request_loop]. destruct (b <=? 0)%Z eqn:E; breflect; [lia|].
  specialize (IH ss rs b). simpl in Hs, Hr.
  destruct (request_loop path k ss rs b) as [l r]; simpl in *. rewrite IH by (done || lia).
  by destruct k.
Qed.

(** ** Lemmas about the server side *)

Definition event_accepts {M} (e : Event M) : Z := match e with EvAcceptSocket _ _ _ => 1 | _ => 0 end.
Definition event_frees {M} (e : Event M) : Z := match e with EvFreeFd _ => 1 | _ => 0 end.

Definition sum_events {M} (c : Event M → Z) (evs : list (Event M)) : Z := foldr (λ e z, (c e + z)%Z) 0%Z evs.

Section lemmas.
Context {M : Type} `{!TinyKVM M}.

Lemma sum_events_nonneg (c : Event M → Z) evs : (∀ e, 0 ≤ c e)%Z → (0 ≤ sum_events c evs)%Z.
Proof using Type.
  intros Hc. induction evs as [|x evs IH]; [done|]. specialize (Hc x).
  change (sum_events c (x :: evs)) with (c x + sum_events c evs)%Z. lia.
Qed.

(** A quantity that each event raises by at most its cost. *)
Lemma run_events_bound (I : World M → Prop) (f : World M → Z) (c : Event M → Z) evs w :
  (∀ e, 0 ≤ c e)%Z →
  (∀ e w, I w → I (handle e w).2 ∧ (f (handle e w).2 ≤ f w + c e)%Z) →
  I w → I (run_events evs w).2 ∧ (f (run_events evs w).2 ≤ f w + sum_events c evs)%Z.
Proof using Type.
  intros Hc He. revert w. induction evs as [|e evs IH]; intros w Hw; cbn [run_events].
  { run_st. simpl. split; [done|lia]. }
  pose proof (sum_events_nonneg c evs Hc) as Hs. pose proof (Hc e).
  change (sum_events c (e :: evs)) with (c e + sum_events c evs)%Z. unfold this. run_st. destruct (stopped (vm w)); [simpl; split; [done|lia]|].
  destruct (He e w Hw) as [Hw1 Hf1]. destruct (handle e w) as [[a|x] w1]; cbn [fst snd] in *; [|split; [done|lia]].
  destruct (IH w1 Hw1) as [Hw2 Hf2].
  destruct (run_events evs w1) as [[l|x] w2]; cbn [fst snd] in *; (split; [done|lia]).
Qed.

Lemma handle_all_bound (I : World M → Prop) (f : World M → Z) (c : Event M → Z) evs w :
  (∀ e, 0 ≤ c e)%Z →
  (∀ e w, I w → I (handle e w).2 ∧ (f (handle e w).2 ≤ f w + c e)%Z) →
  I w → I (handle_all evs w).2 ∧ (f (handle_all evs w).2 ≤ f w + sum_events c evs)%Z.
Proof using Type.
  intros Hc He. revert w. induction evs as [|e evs IH]; intros w Hw; cbn [handle_all].
  { run_st. simpl. split; [done|lia]. }
  pose proof (sum_events_nonneg c evs Hc) as Hs.
  change (sum_events c (e :: evs)) with (c e + sum_events c evs)%Z. run_st.
  destruct (He e w Hw) as [Hw1 Hf1]. destruct (handle e w) as [[a|x] w1]; cbn [fst snd] in *; [|split; [done|lia]].
  destruct (IH w1 Hw1) as [Hw2 Hf2].
  destruct (handle_all evs w1) as [[l|x] w2]; cbn [fst snd] in *; (split; [done|lia]).
Qed.

Lemma size_insert (a : Z) (X : gset Z) : size ({[a]} ∪ X) ≤ size X + 1.
Proof using Type.
  rewrite size_union_alt, size_singleton. pose proof (subseteq_size (X ∖ {[a]}) X). set_solver by lia.
Qed.

Lemma size_remove (a : Z) (X : gset Z) : a ∈ X → size (X ∖ {[a]}) + 1 = size X.
Proof using Type.
  intros Ha. rewrite size_difference, size_singleton by set_solver.
  pose proof (subseteq_size {[a]} X ltac:(set_solver)) as H. rewrite size_singleton in H. lia.
Qed.

(** The state in which [warmup] runs the machine, and what its callbacks keep. *)
Definition warming (v0 : VirtualMachine M) (w : World M) : Prop :=
  same_object (set_fds (warmup_fds (fds v0)) v0) (vm w) ∧
  m_poll_method (vm w) = m_poll_method v0 ∧
  (m_waiting_for_requests (vm w) = true → warmed_up w = true).

Definition open_sockets (w : World M) : Z := (freed_sockets w + Z.of_nat (size (accepted_sockets w)))%Z.

Lemma handle_warming v0 e w :
  m_is_storage v0 = false → listening_socket_callback (fds v0) = ListenInit →
  warming v0 w →
  warming v0 (handle e w).2 ∧
  (freed_sockets (handle e w).2 ≤ freed_sockets w + event_frees e)%Z ∧
  (open_sockets (handle e w).2 ≤ open_sockets w + event_accepts e)%Z.
Proof using Type.
  intros Hst Hl (Hso & Hp & Hwait).
  assert (same_object (set_fds (warmup_fds (fds v0)) v0) (vm (handle e w).2)) as Hso'
    by (by apply (handle_same_object (set_fds (warmup_fds (fds v0)) v0))).
  destruct Hso as (Hc & _ & _ & _ & _ & Hs & _ & _ & Hf). cbn in Hs, Hf. rewrite Hst in Hs.
  unfold warming, warmed_up, open_sockets in *.
  destruct e; revert Hso'; unfold event_frees, event_accepts; handler_cases;
    rewrite ?Hf in *; cbn in *; try congruence; intros Hso'; try (split_and!; [done..|lia|lia]).
  - pose proof (size_insert a.1 (accepted_sockets w)). split_and!; [done..|lia|lia].
  - pose proof (size_remove vfd (accepted_sockets w) ltac:(assumption)).
    split_and!; [done|done| |lia|lia]. intros Hw. specialize (Hwait Hw). breflect. apply Z.leb_le. lia.
Qed.

(** What a run adds to the counters. *)
Lemma run_warming v0 evs w :
  m_is_storage v0 = false → listening_socket_callback (fds v0) = ListenInit → warming v0 w →
  warming v0 (run_events evs w).2 ∧
  (freed_sockets (run_events evs w).2 ≤ freed_sockets w + sum_events event_frees evs)%Z ∧
  (open_sockets (run_events evs w).2 ≤ open_sockets w + sum_events event_accepts evs)%Z.
Proof using Type.
  intros Hst Hl Hw.
  destruct (run_events_bound (warming v0) freed_sockets event_frees evs w) as [? ?];
    [by intros []|intros e w1 H1; by destruct (handle_warming v0 e w1 Hst Hl H1) as (? & ? & ?)|done|].
  destruct (run_events_bound (warming v0) open_sockets event_accepts evs w) as [? ?];
    [by intros []|intros e w1 H1; by destruct (handle_warming v0 e w1 Hst Hl H1) as (? & ? & ?)|done|].
  done.
Qed.

Lemma call_warming v0 evs w :
  m_is_storage v0 = false → listening_socket_callback (fds v0) = ListenInit → warming v0 w →
  warming v0 (handle_all evs w).2 ∧
  (freed_sockets (handle_all evs w).2 ≤ freed_sockets w + sum_events event_frees evs)%Z ∧
  (open_sockets (handle_all evs w).2 ≤ open_sockets w + sum_events event_accepts evs)%Z.
Proof using Type.
  intros Hst Hl Hw.
  destruct (handle_all_bound (warming v0) freed_sockets event_frees evs w) as [? ?];
    [by intros []|intros e w1 H1; by destruct (handle_warming v0 e w1 Hst Hl H1) as (? & ? & ?)|done|].
  destruct (handle_all_bound (warming v0) open_sockets event_accepts evs w) as [? ?];
    [by intros []|intros e w1 H1; by destruct (handle_warming v0 e w1 Hst Hl H1) as (? & ? & ?)|done|].
  done.
Qed.

(** A run that returned went through its events. *)
Lemma machine_run_state r w l w' :
  machine_run r w = (Ok l, w') → w' = (run_events (run_events_of r) (on_vm (set_stopped false) w)).2.
Proof using Type.
  unfold machine_run, this, update. run_st. destruct (run_events _ _) as [[l1|x] w1]; [|done].
  destruct (stopped (vm w1)), (run_exception r); intros; by simplify_eq.
Qed.

Lemma restart_state r w l w' :
  restart_poll_syscall r w = (Ok l, w') → w' = (handle_all (run_events_of r) w).2.
Proof using Type.
  unfold restart_poll_syscall, system_call, this. run_st. destruct (poll_syscall _); [|done].
  destruct (handle_all _ _) as [[l1|x] w1]; [|done]. destruct (run_exception r); intros; by simplify_eq.
Qed.

Lemma begin_warmup_state name_ok w a w' :
  begin_warmup_client (M := M) name_ok w = (Ok a, w') → ∃ b, w' = set_joinable b w.
Proof using Type.
  assert (w = set_joinable (warmup_joinable w) w) as Hw by by destruct w.
  unfold begin_warmup_client, this. run_st. repeat case_match; intros [= _ <-]; eauto.
Qed.

Lemma sum_events_app {c : Event M → Z} (l k : list (Event M)) :
  sum_events c (l ++ k) = (sum_events c l + sum_events c k)%Z.
Proof using Type.
  induction l as [|e l IH]; [done|].
  change (sum_events c ((e :: l) ++ k)) with (c e + sum_events c (l ++ k))%Z.
  change (sum_events c (e :: l)) with (c e + sum_events c l)%Z. lia.
Qed.

Lemma warmup_spec name_ok sys r w w' :
  m_is_storage (vm w) = false → listening_socket_callback (fds (vm w)) = ListenInit →
  warmup_connect_requests (m_config (vm w)) ≠ 0%Z →
  warmup name_ok sys r w = (Ok tt, w') →
  warming (vm w) w' ∧ m_waiting_for_requests (vm w') = true ∧ warmup_joinable w' = false ∧
  (freed_sockets w' ≤ sum_events event_frees (run_events_of sys ++ run_events_of r))%Z ∧
  (open_sockets w' ≤ sum_events event_accepts (run_events_of sys ++ run_events_of r))%Z.
Proof using Type.
  intros Hst Hl Hn. unfold warmup. intros H. inv_bind H. injection Hstep as <- <-.
  destruct (_ =? 0)%Z eqn:E; breflect; [done|].
  inv_bind H. injection Hstep as _ <-. inv_bind H. injection Hstep as _ <-. 
  inv_bind H. injection Hstep as _ <-.
  apply on_unwind_ok in H. unfold warmup_serve in H.
  match type of H with (_ ≫= _) ?x = _ => set (w0 := x) in H end.
  assert (warming (vm w) w0 ∧ freed_sockets w0 = 0%Z ∧ open_sockets w0 = 0%Z) as (Hw0 & Hf0 & Ho0).
  { split_and!; [|done|done]. split; [by repeat split|done]. }
  inv_bind H. destruct (begin_warmup_state name_ok w0 _ _ Hstep) as [b ->]. clear Hstep.
  assert (warming (vm w) (set_joinable b w0)) as Hw1 by exact Hw0.
  inv_bind H. apply restart_state in Hstep as ->.
  destruct (call_warming (vm w) (run_events_of sys) _ Hst Hl Hw1) as (Hw2 & Hf2 & Ho2).
  set (w2 := (handle_all _ _).2) in *.
  inv_bind H. apply machine_run_state in Hstep as ->.
  assert (warming (vm w) (on_vm (set_stopped false) w2)) as Hw3 by exact Hw2.
  destruct (run_warming (vm w) (run_events_of r) _ Hst Hl Hw3) as (Hw4 & Hf4 & Ho4).
  set (w4 := (run_events (run_events_of r) _).2) in *.
  inv_bind H. injection Hstep as <- <-. destruct (m_waiting_for_requests (vm w4)) eqn:Hwt; [|done].
  injection H as <-. rewrite !sum_events_app.
  change (freed_sockets (on_vm (set_stopped false) w2)) with (freed_sockets w2) in Hf4.
  change (open_sockets (on_vm (set_stopped false) w2)) with (open_sockets w2) in Ho4.
  change (freed_sockets (set_joinable b w0)) with (freed_sockets w0) in Hf2.
  change (open_sockets (set_joinable b w0)) with (open_sockets w0) in Ho2.
  change (freed_sockets (set_joinable false w4)) with (freed_sockets w4).
  change (open_sockets (set_joinable false w4)) with (open_sockets w4).
  split_and!; [exact Hw4|exact Hwt|done|lia|lia].
Qed.
End lemmas.

(** Once started, the client's threads are joined by [stop_warmup_client] only. *)
Section threads.
Context {M : Type} `{!TinyKVM M}.

Definition joinable (w : World M) : Prop := warmup_joinable w = true.

Lemma handle_joinable e : preserves joinable (handle (M := M) e).
Proof using Type. intros w Hw. destruct e; handler_cases; exact Hw. Qed.

(** With connections and requests to make, the client's threads are started. *)
Lemma begin_warmup_starts (w : World M) :
  warmup_connect_requests (m_config (vm w)) ≠ 0%Z →
  warmup_intra_connect_requests (m_config (vm w)) ≠ 0%Z →
  begin_warmup_client true w = (Ok tt, set_joinable true w).
Proof using Type.
  intros Hn Hi. unfold begin_warmup_client, this. run_st.
  by rewrite (proj2 (Z.eqb_neq _ _) Hn), (proj2 (Z.eqb_neq _ _) Hi).
Qed.

Lemma served_joinable sys r :
  spec joinable
    (restart_poll_syscall sys ≫= λ _ : list Answer, machine_run r ≫= λ _ : list Answer,
     this ≫= λ v : VirtualMachine M,
     if m_waiting_for_requests v then stop_warmup_client
     else raise (RuntimeError "The program did not wait for requests after warmup"))
    (λ res w, match res with Err _ => joinable w | Ok _ => True end).
Proof using Type.
  apply (spec_bind _ _ _ (λ _, joinable)).
  { apply (spec_conseq joinable _ _ (λ _, joinable));
      [by apply (restart_preserves joinable), Forall_true, handle_joinable|done|by intros []]. }
  intros a. apply (spec_bind _ _ _ (λ _, joinable)).
  { apply (spec_conseq joinable _ _ (λ _, joinable));
      [apply (machine_run_preserves joinable); [by intros b w|]|done|intros [] s Hs; exact Hs].
    apply Forall_true, handle_joinable. }
  intros b w Hw. unfold this. rewrite (st_bind_ok (gets vm) _ w (vm w) w eq_refl).
  by destruct (m_waiting_for_requests (vm w)).
Qed.
End threads.

(** ** Claims *)

(** C17: [warmup] returns to [initialize] only when the guest is warm: it waits for
    requests again, at least the configured number of connections was accepted
    and closed again, the client's threads are joined and the poll method the
    forks will use is unchanged.  Each connection is counted once: there were
    at least as many accepted and as many closed descriptors. *)
Theorem warmup_serves_all_connections `{!TinyKVM M} name_ok sys r (w w' : World M) :
  m_is_storage (vm w) = false → listening_socket_callback (fds (vm w)) = ListenInit →
  warmup_connect_requests (m_config (vm w)) ≠ 0%Z →
  warmup name_ok sys r w = (Ok tt, w') →
  let n := (NUM_WARMUP_THREADS * warmup_connect_requests (m_config (vm w)))%Z in
  m_waiting_for_requests (vm w') = true ∧ warmup_joinable w' = false ∧
  m_poll_method (vm w') = m_poll_method (vm w) ∧
  (n ≤ freed_sockets w')%Z ∧
  (n ≤ sum_events event_frees (run_events_of sys ++ run_events_of r))%Z ∧
  (n ≤ sum_events event_accepts (run_events_of sys ++ run_events_of r))%Z.
Proof.
  intros Hst Hl Hn H. cbv zeta.
  destruct (warmup_spec name_ok sys r w w' Hst Hl Hn H) as ((Hso & Hp & Hwm) & Hw & Hj & Hf & Ho).
  specialize (Hwm Hw). unfold warmed_up in Hwm. apply Z.leb_le in Hwm.
  destruct Hso as (Hc & _). cbn [m_config set_fds] in Hc. rewrite Hc in Hwm.
  unfold open_sockets in Ho. split_and!; [done..|lia|lia|lia].
Qed.

Definition demo_warm_vm : VirtualMachine ToyMachine :=
  MkVM toy_machine (demo_server_config true false 1 1) "" Static 0 true false false true false 7 3
    Epoll None None
    (MkFds AcceptInit SocketNone FreeNone WaitInit WaitInit ListenInit AddressMain AddressMain SymlinkMain
       true) false.

Definition demo_warm_run : Run ToyMachine :=
  MkRun [EvEpollWait 5 6 0; EvAcceptSocket 3 7 20; EvFreeFd 4; EvEpollWait 5 6 0; EvFreeFd 4] None.

Lemma warmup_serves_witness :
  ∃ w', warmup true (MkRun [] None) demo_warm_run (in_world demo_warm_vm) = (Ok tt, w') ∧
    (1 ≤ freed_sockets w')%Z.
Proof.
  eexists. split; [vm_compute; reflexivity|].
  eapply (warmup_serves_all_connections true (MkRun [] None) demo_warm_run (in_world demo_warm_vm)).
  - reflexivity.
  - reflexivity.
  - discriminate.
  - vm_compute. reflexivity.
Defined.

(** C31: what the warm-up client sends on a connection is a prefix of the
    configured number of requests, of which the last, and only the last, asks
    the server to close the connection; a server that takes and answers every
    request gets all of them. *)
Theorem client_sends_requests config c :
  let n := Z.to_nat (warmup_intra_connect_requests config) in
  let sent := (connect_and_send_requests config c).1 in
  sent `prefix_of` all_requests (warmup_path config) n ∧
  ((connect_and_send_requests config c).2 = Returned false ↔ socket_ok c = false ∨ connect_ok c = false) ∧
  (socket_ok c = true → connect_ok c = true → n ≤ length (sends c) → n ≤ length (recvs c) →
   Forall (λ b, b = true) (sends c) → Forall (λ b, (0 < b)%Z) (take n (recvs c)) →
   sent = all_requests (warmup_path config) n).
Proof.
  cbv zeta. unfold connect_and_send_requests.
  destruct (socket_ok c); cbn [negb]; [|split_and!; [apply prefix_nil|naive_solver|done]].
  destruct (connect_ok c); cbn [negb]; [|split_and!; [apply prefix_nil|naive_solver|done]].
  set (n := Z.to_nat _).
  pose proof (request_loop_prefix (warmup_path config) n (sends c) (recvs c) 0) as Hp.
  pose proof (request_loop_all (warmup_path config) n (sends c) (recvs c) 0) as Ha.
  destruct (request_loop _ _ _ _ _) as [l r]; cbn [fst snd] in *. split_and!; [done| |auto].
  split; [|by intros []].
  destruct r as [[b rs]|]; [|done]. revert b.
  induction rs as [|x rs IH]; intros b; simpl; (destruct (b <=? 0)%Z; [done|]); [done|apply IH].
Qed.

(** C30: a warm-up that fails.  Once the client's threads were started, a run that
    throws or a guest that does not wait again makes [warmup] throw, and nobody
    joins the threads: the exception reaches [main], which returns, and the
    destructor of the global [warmup_threads] terminates the process. *)
Theorem warmup_failure_leaves_threads `{!TinyKVM M} sys r (w w' : World M) e :
  warmup_connect_requests (m_config (vm w)) ≠ 0%Z → warmup_intra_connect_requests (m_config (vm w)) ≠ 0%Z →
  warmup true sys r w = (Err e, w') →
  warmup_joinable w' = true.
Proof.
  intros Hn Hi. unfold warmup, this, update.
  rewrite (st_bind_ok (gets vm) _ w (vm w) w eq_refl).
  destruct (_ =? 0)%Z eqn:E; breflect; [done|].
  rewrite !(st_bind_ok (modify _) _ _ tt _ eq_refl). intros Hrun.
  apply on_unwind_err in Hrun as (w1 & Hrun & ->). cbn [snd modify warmup_joinable on_vm].
  match type of Hrun with warmup_serve _ _ _ ?x = _ =>
    pose proof (begin_warmup_starts x Hn Hi) as Hb; pose proof (served_joinable sys r (set_joinable true x)) as Hs end.
  unfold warmup_serve in Hrun. rewrite (st_bind_ok _ _ _ _ _ Hb) in Hrun.
  specialize (Hs eq_refl). rewrite Hrun in Hs. exact Hs.
Qed.

Lemma warmup_failure_witness :
  ∃ w', warmup true (MkRun [] None) (MkRun [EvEpollWait 5 6 0] (Some (MachineError "timeout")))
    (in_world demo_warm_vm) = (Err (MachineError "timeout"), w') ∧ warmup_joinable w' = true.
Proof.
  eexists. split; [vm_compute; reflexivity|].
  eapply (warmup_failure_leaves_threads (MkRun [] None)
    (MkRun [EvEpollWait 5 6 0] (Some (MachineError "timeout"))) (in_world demo_warm_vm)).
  - discriminate.
  - discriminate.
  - vm_compute. reflexivity.
Defined.
