(* ===== verification/Initialize.v ===== *)
(** * Bringing the main virtual machine up: [initialize] of [vm.cpp]

    [initialize] runs the guest's [main] until it waits for requests, lets
    [warmup] train it, and leaves the machine in a state that can be forked; or
    it restores a snapshot.  [DEBUG], [SAMPLING] and [BENCH] in the environment
    change how the guest is run. *)

From S2P Require Import Prelude CppString FsPath AllowedPaths Network Config Effect Tinykvm Vm Debugger Snapshot Warmup.

Local Open Scope string_scope.
Local Open Scope list_scope.
Local Open Scope nat_scope.

(** How the guest of a start-up runs: its [main], given the time limit of the
    run ([None] for none); the runs between two samples; the debugger's session
    that replaces the run, and the one after an exception. *)
Record Boot (M : Type) := MkBoot {
  boot_run : option Q → Run M;
  boot_samples : list (Run M);
  boot_debug : Debugging M;
  error_debug : Debugging M
}.
Arguments MkBoot {M}.
Arguments boot_run {M}.
Arguments boot_samples {M}.
Arguments boot_debug {M}.
Arguments error_debug {M}.

(** ** Operations *)
Section operations.
Context {M : Type} `{!TinyKVM M} `{!TinyElf} `{!Snapshots M} (h : SocketHost) (env : list string).

(** [machine().prepare_copy_on_write(limit)] *)
Definition prepare_cow (limit : option Z) : vm_fn M unit :=
  v ← this;
  m ← lift (prepare_copy_on_write limit (m_machine v));
  update (set_machine m).

Definition initialize_from_file : vm_fn M unit :=
  update (set_waiting_for_requests true);;
  prepare_cow None;;
  v ← this;
  if has_snapshot_state (m_machine v) then load_state h else mret tt.

Definition elf_binary_type (e : DynamicElf) : BinaryType :=
  if has_interpreter e then Dynamic else if is_dynamic e then StaticPie else Static.

(** [name()] *)
Definition vm_name (v : VirtualMachine M) : string :=
  if m_is_storage v then storage_filename (m_config v) else main_filename (m_config v).

Definition guest_args (v : VirtualMachine M) (e : DynamicElf) : list string :=
  (if has_interpreter e then ["/lib64/ld-linux-x86-64.so.2"; vm_name v] else [vm_name v]) ++
  (if m_is_storage v then storage_arguments (m_config v) else main_arguments (m_config v)).

Definition guest_envp (v : VirtualMachine M) : list string :=
  environ (m_config v) ++ ["KVM_NAME=" +:+ vm_name v].

Definition init_fds (f : FdCallbacks) : FdCallbacks :=
  MkFds AcceptInit (accept_socket_callback f) (free_fd_callback f) WaitInit WaitInit ListenInit
    (connect_socket_callback f) (bind_socket_callback f) (resolve_symlink_callback f)
    (preempt_epoll_wait f).

(** The callbacks of the waiting guest are removed again. *)
Definition ready_fds (f : FdCallbacks) : FdCallbacks :=
  MkFds AcceptNone SocketNone FreeNone WaitNone WaitNone (listening_socket_callback f)
    (connect_socket_callback f) (bind_socket_callback f) (resolve_symlink_callback f) false.

(** The return from the system call the machine is stopped in: [SYSRET], with
    the result [-EINTR]. *)
Definition sysret (r : Registers) : Registers :=
  MkRegs (- EINTR) (rcx r) (rdi r) (rsi r) (rcx r) (r11 r) (r11 r).

(** The storage machine skips the two bytes of the [OUT] instruction; a register
    has 64 bits. *)
Definition skip_out (r : Registers) : Registers :=
  MkRegs (rax r) (rcx r) (rdi r) (rsi r) (u64 (rip r + 2)) (r11 r) (rflags r).

Definition set_regs (f : Registers → Registers) : vm_fn M unit :=
  update (λ v, set_machine (set_registers (f (registers (m_machine v))) (m_machine v)) v).

(** The guest's address space, program and arguments. *)
Definition prepare_guest : vm_fn M unit :=
  v ← this;
  prepare_cow (Some (max_main_memory (m_config v)));;
  let dyn_elf := is_dynamic_elf (m_original_binary v) in
  update (set_binary_type (elf_binary_type dyn_elf));;
  v ← this;
  m ← lift (setup_linux (guest_args v dyn_elf) (guest_envp v) (m_machine v));
  update (set_machine m).

(** A sample of the instruction pointer is counted. *)
Definition sample (rip : Z) (rip_samples : gmap Z Z) : gmap Z Z :=
  match rip_samples !! rip with
  | Some n => <[rip := u64 (n + 1)]> rip_samples
  | None => <[rip := 1%Z]> rip_samples
  end.

(** [SAMPLING]: the guest runs for a short time again and again; each time-out
    gives a sample. *)
Fixpoint sample_loop (runs : list (Run M)) (rip_samples : gmap Z Z) : vm_fn M (gmap Z Z * progress) :=
  match runs with
  | [] => mret (rip_samples, Serving)
  | r :: runs =>
      rip_samples ←
        try_catch (machine_run r;; mret rip_samples) (λ e,
          match e with
          | MachineTimeout _ => v ← this; mret (sample (rip (registers (m_machine v))) rip_samples)
          | _ => raise e
          end);
      sample_loop runs rip_samples
  end.

(** The time limit of the run: none with [BENCH] or for a single machine. *)
Definition run_limit (one : bool) (config : Configuration) : option Q :=
  match getenv env "BENCH" with
  | Some _ => None
  | None => if one then None else Some (max_boot_time config)
  end.

(** The debugger, the sampler, or the guest. *)
Definition run_guest (just_one_vm : bool) (b : Boot M) : vm_fn M progress :=
  match getenv env "DEBUG" with
  | Some _ => open_debugger (boot_debug b)
  | None =>
      match getenv env "SAMPLING" with
      | Some _ => r ← sample_loop (boot_samples b) ∅; mret r.2
      | None =>
          v ← this;
          machine_run (boot_run b (run_limit just_one_vm (m_config v)));;
          mret Finished
      end
  end.

(** The main machine of several leaves the system call it is stopped in and is
    made forkable; the storage machine goes past its [OUT]. *)
Definition leave_syscall (just_one_vm : bool) : vm_fn M unit :=
  v ← this;
  if negb just_one_vm && negb (m_is_storage v) then set_regs sysret;; prepare_cow None
  else if m_is_storage v then set_regs skip_out
  else mret tt.

(** After the run. *)
Definition finish_initialize (warmup_callback : option (vm_fn M unit)) (just_one_vm : bool)
    : vm_fn M unit :=
  v ← this;
  if negb (m_waiting_for_requests v)
  then if just_one_vm then mret tt else raise (RuntimeError "Program did not wait for requests")
  else
    match warmup_callback with Some f => f | None => mret tt end;;
    update (λ v, set_fds (ready_fds (fds v)) v);;
    leave_syscall just_one_vm;;
    v ← this;
    if negb (m_is_storage v) && has_snapshot_area (m_machine v) then save_state h else mret tt.

Definition initialize_guest (warmup_callback : option (vm_fn M unit)) (just_one_vm : bool) (b : Boot M)
    : vm_fn M progress :=
  prepare_guest;;
  update (λ v, set_fds (init_fds (fds v)) v);;
  p ← run_guest just_one_vm b;
  match p with
  | Serving => mret Serving
  | Finished => finish_initialize warmup_callback just_one_vm;; mret Finished
  end.

(** The three handlers of exceptions: the message is printed, the debugger is
    opened with [DEBUG], and the exception is thrown again. *)
Definition on_init_error (b : Boot M) (e : exn) : vm_fn M progress :=
  p ← debug_if env "DEBUG" (error_debug b);
  match p with Serving => mret Serving | Finished => raise e end.

Definition initialize (warmup_callback : option (vm_fn M unit)) (just_one_vm : bool) (b : Boot M)
    : vm_fn M progress :=
  v ← this;
  if has_snapshot_state (m_machine v) then initialize_from_file;; mret Finished
  else try_catch (initialize_guest warmup_callback just_one_vm b) (on_init_error b).
End operations.

(** The descriptors in the events of a start-up are not negative. *)
Definition boot_ok {M} (b : Boot M) : Prop :=
  (∀ limit, run_ok (boot_run b limit)) ∧ Forall run_ok (boot_samples b) ∧
  debug_ok (boot_debug b) ∧ debug_ok (error_debug b).

(** A start-up without sampling and debugging. *)
Definition plain_boot {M} (r : Run M) : Boot M := MkBoot (λ _, r) [] no_debugging no_debugging.

Lemma plain_boot_ok {M} (r : Run M) : run_ok r → boot_ok (plain_boot r).
Proof. intros Hr. split_and!; [done|constructor..]. Qed.

(** ** What a start-up keeps *)
Section preserved.
Context {M : Type} `{!TinyKVM M} (env : list string).
Variable I : World M → Prop.
Hypothesis I_stopped : ∀ b w, I w → I (on_vm (set_stopped b) w).
Hypothesis I_events : ∀ e, event_ok e → preserves I (handle e).

Lemma run_preserves r : run_ok r → preserves I (machine_run r).
Proof using I_stopped I_events.
  intros Hr. apply machine_run_preserves; [done|]. eapply Forall_impl; [exact Hr|]. apply I_events.
Qed.

Lemma debug_preserves d : debug_ok d → preserves I (open_debugger d).
Proof using I_stopped I_events.
  intros Hd. apply open_debugger_preserves; [done|]. eapply Forall_impl; [exact Hd|]. apply I_events.
Qed.

Lemma sample_loop_preserves runs samples : Forall run_ok runs → preserves I (sample_loop runs samples).
Proof using I_stopped I_events.
  intros Hr. revert samples. induction Hr as [|r runs Hr _ IH]; intros samples; cbn [sample_loop];
    [apply preserves_ret|].
  apply preserves_bind; [|intros s; apply IH].
  apply preserves_try.
  - apply preserves_bind; [by apply run_preserves|intros _; apply preserves_ret].
  - intros []; try apply preserves_raise.
    apply preserves_bind; [apply preserves_gets|intros v; apply preserves_ret].
Qed.

Lemma run_guest_preserves one b : boot_ok b → preserves I (run_guest env one b).
Proof using I_stopped I_events.
  intros (Hr & Hs & Hd & _). unfold run_guest.
  destruct (getenv env "DEBUG"); [by apply debug_preserves|].
  destruct (getenv env "SAMPLING").
  - apply preserves_bind; [by apply sample_loop_preserves|intros r; apply preserves_ret].
  - apply preserves_bind; [apply preserves_gets|]. intros v.
    apply preserves_bind; [by apply run_preserves|intros _; apply preserves_ret].
Qed.

Lemma on_init_error_preserves b e : boot_ok b → preserves I (on_init_error env b e).
Proof using I_stopped I_events.
  intros (_ & _ & _ & Hd). unfold on_init_error, debug_if. apply preserves_bind.
  - destruct (getenv env "DEBUG"); [by apply debug_preserves|apply preserves_ret].
  - intros []; [apply preserves_raise|apply preserves_ret].
Qed.
End preserved.

(** An exception that was handled was thrown again. *)
Lemma on_init_error_throws {M} `{!TinyKVM M} env b e (w w' : World M) :
  ¬ on_init_error env b e w = (Ok Finished, w').
Proof.
  unfold on_init_error. intros H. inv_bind H. by destruct a.
Qed.

(** ** The run of the guest's [main] *)
Section lemmas.
Context {M G : Type} `{!TinyKVM M} (guest_state : M → G) `{!TinyKVMLaws M G guest_state}.
Context `{!TinyElf} `{!Snapshots M} (h : SocketHost).

(** The object before [initialize]: as the main constructor made it. *)
Definition constructed (v : VirtualMachine M) : Prop :=
  m_waiting_for_requests v = false ∧ m_poll_method v = PollUndefined ∧
  m_tracked_client_vfd v = (-1)%Z ∧ accept_socket_callback (fds v) = SocketNone ∧
  free_fd_callback (fds v) = FreeNone.

(** What the callbacks of [initialize] keep: a guest that waits for requests has
    a listening descriptor and waits in a known system call. *)
Definition booting (v0 : VirtualMachine M) (w : World M) : Prop :=
  same_object (set_fds (init_fds (fds v0)) v0) (vm w) ∧
  (-1 ≤ m_tracked_client_vfd (vm w))%Z ∧
  (m_waiting_for_requests (vm w) = true →
     m_poll_method (vm w) ≠ PollUndefined ∧ m_tracked_client_vfd (vm w) ≠ (-1)%Z).

Lemma new_vm_constructed ld binary config storage_ (v : VirtualMachine M) :
  new_vm ld binary config storage_ = Ok v →
  constructed v ∧ m_is_storage v = storage_ ∧ m_config v = config ∧ m_ephemeral v = ephemeral config ∧
  m_on_reset_callback v = None ∧ m_master_instance v = None.
Proof using TinyKVMLaws0.
  unfold new_vm. destruct (detect_gigapage_from _ _) as [b|]; [|done]. simpl.
  destruct (new_machine _ _) as [m|]; [|done]. simpl. intros [= <-]. unfold constructed. simpl.
  by rewrite (initial_fds_none (guest_state := guest_state)).
Qed.

Lemma handle_booting v0 e w :
  constructed v0 → m_is_storage v0 = false → event_ok e → booting v0 w → booting v0 (handle e w).2.
Proof using Type.
  intros (_ & _ & _ & Hs & Hf) Hst He (Hso & Hv & Hw).
  assert (same_object (set_fds (init_fds (fds v0)) v0) (vm (handle e w).2)) as Hso'
    by (by apply (handle_same_object (set_fds (init_fds (fds v0)) v0))).
  destruct Hso as (_ & _ & _ & _ & _ & Hst' & _ & _ & Hfds). cbn in Hst', Hfds. rewrite Hst in Hst'.
  unfold booting. destruct e; revert Hso'; handler_cases; rewrite ?Hfds in *; cbn in *;
    try congruence; intros Hso'; unfold event_ok in *; split_and!; try done; try lia.
  all: intros; naive_solver lia.
Qed.

(** A main object whose forks can serve. *)
Definition ready (v : VirtualMachine M) : Prop :=
  m_waiting_for_requests v = true ∧ is_Some (poll_syscall (m_poll_method v)) ∧
  fds v = ready_fds (fds v).

Lemma poll_syscall_defined p : p ≠ PollUndefined → is_Some (poll_syscall p).
Proof using Type. destruct p; simpl; eauto; done. Qed.

(** The warm-up keeps what the run of [main] established. *)
Lemma warmup_booting v0 name_ok sys rw w w' :
  constructed v0 → m_is_storage v0 = false → booting v0 w → m_waiting_for_requests (vm w) = true →
  warmup name_ok sys rw w = (Ok tt, w') →
  m_waiting_for_requests (vm w') = true ∧ m_poll_method (vm w') = m_poll_method (vm w) ∧
  m_is_storage (vm w') = false.
Proof using Type.
  intros Hcon Hst (Hso & _) Hw Hrun.
  destruct Hso as (_ & _ & _ & _ & _ & Hs & _ & _ & Hf). cbn in Hs, Hf. rewrite Hst in Hs.
  destruct (decide (warmup_connect_requests (m_config (vm w)) = 0%Z)) as [E|E].
  - unfold warmup in Hrun. inv_bind Hrun. injection Hstep as <- <-. rewrite E in Hrun.
    by injection Hrun as <-.
  - destruct (warmup_spec name_ok sys rw w w' Hs) as ((Hso & Hp & _) & Hwt & _); [by rewrite Hf|done..|].
    split_and!; [done..|]. by destruct Hso as (_ & _ & _ & _ & _ & -> & _).
Qed.

Lemma prepare_cow_ok o (w w' : World M) :
  prepare_cow o w = (Ok tt, w') →
  ∃ m, prepare_copy_on_write o (m_machine (vm w)) = Ok m ∧ w' = on_vm (set_machine m) w.
Proof using Type.
  unfold prepare_cow, this, update. run_st. destruct (prepare_copy_on_write _ _) as [m|]; [|done].
  intros [= <-]. eauto.
Qed.

(** The guest that is about to run. *)
Lemma prepare_guest_ok (w w' : World M) :
  prepare_guest w = (Ok tt, w') →
  ∃ b m, vm w' = set_machine m (set_binary_type b (vm w)) ∧ warmup_joinable w' = warmup_joinable w.
Proof using Type.
  unfold prepare_guest. intros HR. inv_bind HR. injection Hstep as <- <-. inv_bind HR.
  destruct a. apply prepare_cow_ok in Hstep as (m & _ & ->). 
  inv_bind HR. injection Hstep as _ <-. inv_bind HR. injection Hstep as <- <-.
  inv_bind HR. injection Hstep as Hm <-. injection HR as <-. 
  by eexists _, _.
Qed.

(** The run of [main], with or without the debugger. *)
Lemma run_guest_booting v0 env one b w :
  constructed v0 → m_is_storage v0 = false → boot_ok b → booting v0 w →
  booting v0 (run_guest env one b w).2.
Proof using Type.
  intros Hcon Hst Hb Hw. apply run_guest_preserves; [by intros ? ?| |done|done].
  intros e He x. by apply handle_booting.
Qed.

Lemma initialize_guest_ok env cb one b (w w' : World M) :
  initialize_guest h env cb one b w = (Ok Finished, w') → constructed (vm w) → m_is_storage (vm w) = false →
  boot_ok b →
  ∃ v0 w1, constructed v0 ∧ m_is_storage v0 = false ∧ m_config v0 = m_config (vm w) ∧
    booting v0 w1 ∧ finish_initialize h cb one w1 = (Ok tt, w').
Proof using Type.
  unfold initialize_guest. intros HR Hcon Hst Hb. inv_bind HR. destruct a.
  apply prepare_guest_ok in Hstep as (bt & m & Hv & _).
  inv_bind HR. injection Hstep as _ <-. inv_bind HR. 
  destruct a0; [|done]. inv_bind HR. injection HR as <-.
  set (v0 := set_machine m (set_binary_type bt (vm w))).
  match type of Hstep with run_guest _ _ _ ?x = _ => set (w0 := x) in Hstep end.
  assert (booting v0 w0) as Hb0.
  { destruct Hcon as (Hw & _ & Hc & _). unfold booting, w0. cbn [vm on_vm]. rewrite Hv.
    split_and!; [by repeat split|cbn; rewrite Hc; lia|cbn; congruence]. }
  pose proof (run_guest_booting v0 env one b w0 Hcon Hst Hb Hb0) as Hb1. rewrite Hstep in Hb1.
  match type of Hstep0 with _ = (Ok ?x, _) => destruct x end.
  by exists v0, s0.
Qed.

(** The state in which [initialize] decides whether to save a snapshot. *)
Lemma initialize_spec env name_ok sys rw b w w' :
  has_snapshot_state (m_machine (vm w)) = false → constructed (vm w) → m_is_storage (vm w) = false →
  boot_ok b →
  initialize h env (Some (warmup name_ok sys rw)) false b w = (Ok Finished, w') →
  ∃ w1, ready (vm w1) ∧ m_is_storage (vm w1) = false ∧
    (∃ regs, registers (m_machine (vm w1)) = sysret regs) ∧
    (if has_snapshot_area (m_machine (vm w1)) then save_state h w1 = (Ok tt, w') else w' = w1).
Proof using TinyKVMLaws0.
  intros Hsnap Hcon Hst Hb. unfold initialize. intros HR. inv_bind HR. injection Hstep as <- <-.
  rewrite Hsnap in HR. apply try_catch_ok in HR as [HR|(e & w1 & _ & HR)]; [|by apply on_init_error_throws in HR].
  destruct (initialize_guest_ok env _ _ b w w' HR Hcon Hst Hb) as (v0 & s & Hcon0 & Hst0 & _ & Hbo & Hf).
  clear HR. unfold finish_initialize in Hf. inv_bind Hf. injection Hstep as <- <-.
  destruct (m_waiting_for_requests (vm s)) eqn:Hwt; cbn [negb] in Hf; [|done].
  inv_bind Hf. match type of Hstep with _ = (Ok ?x, _) => destruct x end.
  destruct (warmup_booting v0 name_ok sys rw s s0) as (Hwt1 & Hp1 & Hs1); [done..|].
  destruct Hbo as (_ & _ & Hpoll). destruct (Hpoll Hwt) as [Hpoll' _].
  inv_bind Hf. injection Hstep0 as _ <-. inv_bind Hf. unfold leave_syscall in Hstep0.
  inv_bind Hstep0. injection Hstep1 as <- <-. cbn [vm on_vm m_is_storage set_fds] in Hstep0.
  rewrite Hs1 in Hstep0. cbn [negb andb] in Hstep0. inv_bind Hstep0. injection Hstep1 as _ <-.
  match type of Hstep0 with _ = (Ok ?x, _) => destruct x end.
  apply prepare_cow_ok in Hstep0 as (m & Hm & ->). inv_bind Hf. injection Hstep0 as <- <-.
  apply (registers_cow (guest_state := guest_state)) in Hm.
  match type of Hf with (if _ then _ else _) ?x = _ => exists x end.
  split_and!.
  - split_and!; [exact Hwt1|cbn; rewrite Hp1; by apply poll_syscall_defined|done].
  - exact Hs1.
  - eexists. cbn [vm on_vm m_machine set_machine]. rewrite Hm.
    cbn [vm on_vm m_machine set_machine]. by rewrite (registers_set (guest_state := guest_state)).
  - cbn [vm on_vm m_is_storage set_machine set_fds m_machine] in *. rewrite Hs1 in Hf. cbn [negb andb] in Hf.
    destruct (has_snapshot_area m); [done|]. by injection Hf as <-.
Qed.

Lemma ready_machine m (v : VirtualMachine M) : ready v → ready (set_machine m v).
Proof using Type. done. Qed.

Lemma initialize_ready_spec env name_ok sys rw b w w' :
  has_snapshot_state (m_machine (vm w)) = false → constructed (vm w) → m_is_storage (vm w) = false →
  boot_ok b →
  initialize h env (Some (warmup name_ok sys rw)) false b w = (Ok Finished, w') →
  ready (vm w').
Proof using TinyKVMLaws0.
  intros Hsnap Hcon Hst Hb Hrun.
  destruct (initialize_spec env name_ok sys rw b w w' Hsnap Hcon Hst Hb Hrun)
    as (w1 & Hready & _ & _ & Hend).
  destruct (has_snapshot_area _); [|by subst].
  pose proof (save_state_preserves (λ w, ready (vm w)) h) as Hp.
  change w' with (Ok tt, w').2. rewrite <-Hend. apply Hp; [| |done].
  - intros f w2. apply ready_machine.
  - by intros c w2.
Qed.

(** ** Sampling *)

(** The run comes back or runs out of time. *)
Definition returns_or_times_out (r : Run M) : Prop :=
  ∀ w, match (machine_run r w).1 with Ok _ => True | Err (MachineTimeout _) => True | Err _ => False end.

(** The loop has no exit of its own. *)
Lemma sample_loop_serving runs samples w s p w' :
  sample_loop runs samples w = (Ok (s, p), w') → p = Serving.
Proof using Type.
  revert samples w. induction runs as [|r runs IH]; intros samples w; cbn [sample_loop]; [by intros [= _ <- _]|].
  intros Hr. inv_bind Hr. by eapply IH.
Qed.

(** What leaves it is an exception of a run that is not a time-out. *)
Lemma sample_loop_throws runs samples w e w' :
  sample_loop runs samples w = (Err e, w') →
  ∃ r w1 w2, r ∈ runs ∧ machine_run r w1 = (Err e, w2) ∧ ∀ t, e ≠ MachineTimeout t.
Proof using Type.
  revert samples w. induction runs as [|r runs IH]; intros samples w; cbn [sample_loop]; [done|].
  unfold this. run_st. destruct (machine_run r w) as [[l|x] w1] eqn:Hm.
  - intros (r' & ? & ? & ? & ?)%IH. exists r'. eauto using list_elem_of_further.
  - destruct x; cbn [catchable];
      try (intros [= <- _]; exists r; eauto using list_elem_of_here with congruence; fail).
    intros (r' & ? & ? & ? & ?)%IH. exists r'. eauto using list_elem_of_further.
Qed.

Lemma sample_loop_goes_on runs samples w :
  Forall returns_or_times_out runs → is_Ok (sample_loop runs samples w).1 = true.
Proof using Type.
  intros Hr. revert samples w. induction Hr as [|r runs Hr _ IH]; intros samples w; cbn [sample_loop]; [done|].
  specialize (Hr w). unfold this. run_st.
  destruct (machine_run r w) as [[l|[]] w1]; cbn [fst] in Hr; try done; apply IH.
Qed.
End lemmas.

(** ** Concrete servers *)

(** [ToyMachine] has no snapshot. *)
#[export] Instance toy_no_snapshots : Snapshots ToyMachine := {|
  save_snapshot_state_now m := m; user_area _ := None; write_user_area _ m := m;
  manage_as _ _ m := m; translate _ _ := (-1)%Z; epoll_entries _ := []; entry_fds _ _ := [];
  set_entry_fds _ _ m := m
|}.

(** The guest listens on port 8080 and waits in [epoll_wait]; [epoll] set 5 has
    its socket. *)
Definition demo_boot : Run ToyMachine :=
  MkRun [EvListen 3 7 (Some (sockaddr_in 0 (htons 8080))); EvAccept 3 7 0 0x800; EvEpollWait 5 6 (-1);
         EvGuest (λ _, toy_machine)] None.

(** ** Claims *)

(** C15: a server of several virtual machines that comes out of [initialize] is
    ready to be forked: its guest waits for requests, in a system call that
    [restart_poll_syscall] knows, so that no fork fails for want of a poll
    method; the callbacks of the start-up are gone; and (unless a snapshot was
    saved after it) the registers are those of a return from that system call
    with [-EINTR].  It holds with the debugger, too. *)
Theorem initialize_ready {M G} `{!TinyKVM M} (gs : M → G) `{!TinyKVMLaws M G gs} `{!TinyElf} `{!Snapshots M}
    h env name_ok sys rw b (w w' : World M) :
  has_snapshot_state (m_machine (vm w)) = false → constructed (vm w) → m_is_storage (vm w) = false →
  boot_ok b →
  initialize h env (Some (warmup name_ok sys rw)) false b w = (Ok Finished, w') →
  ready (vm w') ∧
  (∀ i w2 run2, fork_vm (vm w') i false = Ok (vm w2) →
     ∃ n, restart_poll_syscall run2 w2 = system_call n run2 w2) ∧
  (∃ w1, let regs := registers (m_machine (vm w1)) in
     rip regs = rcx regs ∧ rflags regs = r11 regs ∧ rax regs = (- EINTR)%Z ∧
     (w' = w1 ∨ save_state h w1 = (Ok tt, w'))).
Proof.
  intros Hsnap Hcon Hst Hb Hrun.
  pose proof (initialize_ready_spec gs h env name_ok sys rw b w w' Hsnap Hcon Hst Hb Hrun) as Hready.
  split; [done|]. split.
  - intros i w2 run2 Hw2. destruct Hready as (_ & [n Hn] & _). exists n.
    assert (m_poll_method (vm w2) = m_poll_method (vm w')) as Hp.
    { revert Hw2. unfold fork_vm. destruct (fork_machine _ _); [|done]. by intros [= <-]. }
    unfold restart_poll_syscall, this. rewrite (st_bind_ok (gets vm) _ w2 (vm w2) w2 eq_refl), Hp.
    by rewrite Hn.
  - destruct (initialize_spec gs h env name_ok sys rw b w w' Hsnap Hcon Hst Hb Hrun)
      as (w1 & _ & _ & [regs Hregs] & Hend).
    exists w1. cbv zeta. rewrite Hregs. split_and!; [done..|].
    destruct (has_snapshot_area _); auto.
Qed.

Lemma initialize_ready_witness :
  ∃ w', initialize (H := demo_elf) demo_host [] (Some (warmup true (MkRun [] None) demo_warm_run)) false
    (plain_boot demo_boot) (in_world (demo_new_vm (demo_server_config true false 4 1))) = (Ok Finished, w') ∧
  ready (vm w').
Proof.
  eexists. split; [vm_compute; reflexivity|].
  eapply (initialize_ready (H := demo_elf) toy_guest demo_host [] true (MkRun [] None) demo_warm_run
    (plain_boot demo_boot) (in_world (demo_new_vm (demo_server_config true false 4 1)))).
  - reflexivity.
  - repeat split.
  - reflexivity.
  - apply plain_boot_ok. repeat constructor; simpl; lia.
  - vm_compute. reflexivity.
Defined.

(** C24: how [initialize] starts a guest, and what it does with one that does not
    come to wait for requests.  The guest's memory is limited to
    [max_main_memory]; its arguments are the dynamic linker and the program for
    a binary with an interpreter, else the program, followed by the configured arguments; its
    environment is the configured one and [KVM_NAME]; the callbacks of the
    start-up are installed, and the run is without a time limit for a single
    machine or with [BENCH], else limited by [max_boot_time].  An exception of any of
    these steps leaves [initialize] with the changes made so far.  When the
    guest ends by itself without waiting, a server of one machine returns, and
    one of several throws. *)
Theorem initialize_not_waiting {M} `{!TinyKVM M} `{!TinyElf} `{!Snapshots M}
    h env cb one b (w : World M) :
  getenv env "DEBUG" = None → getenv env "SAMPLING" = None →
  has_snapshot_state (m_machine (vm w)) = false →
  let v := vm w in
  let config := m_config v in
  let elf := is_dynamic_elf (m_original_binary v) in
  let program := if m_is_storage v then storage_filename config else main_filename config in
  let args :=
    (if has_interpreter elf then ["/lib64/ld-linux-x86-64.so.2"; program] else [program]) ++
    (if m_is_storage v then storage_arguments config else main_arguments config) in
  let type :=
    if has_interpreter elf then Dynamic else if is_dynamic elf then StaticPie else Static in
  let callbacks := MkFds AcceptInit (accept_socket_callback (fds v)) (free_fd_callback (fds v))
    WaitInit WaitInit ListenInit (connect_socket_callback (fds v)) (bind_socket_callback (fds v))
    (resolve_symlink_callback (fds v)) (preempt_epoll_wait (fds v)) in
  let limit :=
    if decide (getenv env "BENCH" = None ∧ one = false) then Some (max_boot_time config) else None in
  match prepare_copy_on_write (Some (max_main_memory config)) (m_machine v) with
  | Err x => initialize h env cb one b w = (Err x, w)
  | Ok m1 =>
      match setup_linux args (environ config ++ ["KVM_NAME=" +:+ program]) m1 with
      | Err x => initialize h env cb one b w =
          (Err x, on_vm (λ v, set_binary_type type (set_machine m1 v)) w)
      | Ok m2 =>
          let w0 := on_vm (λ v, set_fds callbacks (set_binary_type type (set_machine m2 v))) w in
          match machine_run (boot_run b limit) w0 with
          | (Err x, w1) => initialize h env cb one b w = (Err x, w1)
          | (Ok _, w1) => m_waiting_for_requests (vm w1) = false →
              initialize h env cb one b w =
                (if one then Ok Finished else Err (RuntimeError "Program did not wait for requests"), w1)
          end
      end
  end.
Proof.
  cbv zeta. intros Hd Hs Hsnap.
  assert (∀ x w1, on_init_error env b x w1 = (Err x, w1)) as Hrethrow.
  { intros x w1. unfold on_init_error, debug_if. by rewrite Hd. }
  assert (∀ x w1, initialize_guest h env cb one b w = (Err x, w1) → initialize h env cb one b w = (Err x, w1))
    as Herr.
  { intros x w1 Hi. unfold initialize, this. rewrite (st_bind_ok (gets vm) _ w (vm w) w eq_refl), Hsnap.
    unfold try_catch. rewrite Hi. destruct (catchable x); [apply Hrethrow|done]. }
  destruct (prepare_copy_on_write _ _) as [m1|x] eqn:Hcow.
  2:{ apply Herr. unfold initialize_guest, prepare_guest, prepare_cow, this. run_st. by rewrite Hcow. }
  destruct (setup_linux _ _ _) as [m2|x] eqn:Hsetup.
  2:{ apply Herr. unfold initialize_guest, prepare_guest, prepare_cow, this, update. run_st. rewrite Hcow.
      cbn. unfold guest_args, guest_envp, vm_name. cbn. by rewrite Hsetup. }
  match goal with |- context [machine_run ?r ?x] => set (run0 := r); set (w0 := x) end.
  assert (initialize_guest h env cb one b w =
    let '(r, w1) := machine_run run0 w0 in
    match r with Ok _ => (finish_initialize h cb one;; mret Finished) w1 | Err x => (Err x, w1) end) as Hi.
  { unfold initialize_guest, prepare_guest, prepare_cow, run_guest, this, update. run_st. rewrite Hcow.
    cbn. unfold guest_args, guest_envp, vm_name. cbn. rewrite Hsetup, Hd, Hs. cbn.
    assert (boot_run b (run_limit env one (m_config (vm w))) = run0) as ->.
    { unfold run0, run_limit. f_equal. case_decide as Hl; [by destruct Hl as [-> ->]|].
      destruct (getenv env "BENCH"), one; try done. by destruct Hl. }
    match goal with |- context [machine_run run0 ?x] => change x with w0 end.
    by destruct (machine_run run0 w0) as [[]]. }
  destruct (machine_run run0 w0) as [[l|x] w1]; [|by apply Herr].
  intros Hw. unfold finish_initialize, this in Hi. revert Hi. run_st. rewrite Hw. cbn [negb]. intros Hi.
  destruct one; [|by apply Herr].
  unfold initialize, this. rewrite (st_bind_ok (gets vm) _ w (vm w) w eq_refl), Hsnap.
  unfold try_catch. by rewrite Hi.
Qed.

Lemma initialize_not_waiting_witness :
  (initialize (H := demo_elf) demo_host [] None false (plain_boot (MkRun [EvGuest id] None))
    (in_world (demo_new_vm (demo_server_config true false 4 0)))).1 =
  Err (RuntimeError "Program did not wait for requests").
Proof.
  pose proof (initialize_not_waiting (H := demo_elf) demo_host [] None false
    (plain_boot (MkRun [EvGuest id] None))
    (in_world (demo_new_vm (demo_server_config true false 4 0))) eq_refl eq_refl eq_refl) as Hi.
  specialize (Hi eq_refl). cbn iota in Hi. by rewrite Hi.
Defined.

(** C28: with [SAMPLING] set the server never comes to serve.  The loop that
    samples the guest has no way out but an exception that is not a time-out: a
    guest that reaches the point where it waits for requests is run again.  So
    [initialize] does not return normally, whatever the guest does; it goes on as long as the
    runs return or time out, and the only way out is an exception, of the preparation or of a
    run that did not time out. *)
Theorem sampling_never_serves {M} `{!TinyKVM M} `{!TinyElf} `{!Snapshots M}
    h env cb one b (w w0 : World M) :
  getenv env "DEBUG" = None → is_Some (getenv env "SAMPLING") →
  has_snapshot_state (m_machine (vm w)) = false →
  (initialize h env cb one b w).1 ≠ Ok Finished ∧
  (prepare_guest w = (Ok tt, w0) → Forall returns_or_times_out (boot_samples b) →
   (initialize h env cb one b w).1 = Ok Serving) ∧
  (∀ x, (initialize h env cb one b w).1 = Err x →
     (prepare_guest w).1 = Err x ∨
     ∃ r w1 w2, r ∈ boot_samples b ∧ machine_run r w1 = (Err x, w2) ∧ ∀ t, x ≠ MachineTimeout t).
Proof.
  intros Hd [s Hs] Hsnap. unfold initialize, this.
  rewrite (st_bind_ok (gets vm) _ w (vm w) w eq_refl), Hsnap.
  assert (∀ x w1, on_init_error env b x w1 = (Err x, w1)) as Hrethrow.
  { intros x w1. unfold on_init_error, debug_if. by rewrite Hd. }
  assert (∀ (c : vm_fn M progress), (try_catch c (on_init_error env b) w).1 = (c w).1) as ->.
  { intros c. unfold try_catch. destruct (c w) as [[a|x] w1]; [done|].
    destruct (catchable x); [by rewrite Hrethrow|done]. }
  unfold initialize_guest, run_guest. rewrite Hd, Hs. unfold update. run_st.
  destruct (prepare_guest w) as [[[]|x] w1]; [|split_and!; [done..|]; intros ? [= <-]; by left].
  set (w2 := on_vm _ w1). pose proof (sample_loop_goes_on (boot_samples b) ∅ w2) as Hgo.
  destruct (sample_loop (boot_samples b) ∅ w2) as [[[l p]|x] w3] eqn:Hl; cbn.
  - apply sample_loop_serving in Hl as ->. done.
  - split_and!; [done|by intros _ ?%Hgo|]. intros ? [= <-]. right. by eapply sample_loop_throws.
Qed.

(** A guest that waits for requests is run again, and so is one that times out. *)
Lemma sampling_witness :
  (initialize (H := demo_elf) demo_host ["SAMPLING=1"] None false
    (MkBoot (λ _, demo_boot) [demo_boot; MkRun [EvGuest id] None] no_debugging no_debugging)
    (in_world (demo_new_vm (demo_server_config true false 4 0)))).1 ≠ Ok Finished ∧
  (initialize (H := demo_elf) demo_host ["SAMPLING=1"] None false
    (MkBoot (λ _, demo_boot) [MkRun [EvGuest id] None; MkRun [] (Some (MachineTimeout "timeout"))]
       no_debugging no_debugging)
    (in_world (demo_new_vm (demo_server_config true false 4 0)))).1 = Ok Serving.
Proof.
  split.
  - refine (proj1 (sampling_never_serves (H := demo_elf) demo_host ["SAMPLING=1"] None false _ _
      (in_world (demo_new_vm (demo_server_config true false 4 0))) _ _ _)).
    + reflexivity.
    + by eexists.
    + reflexivity.
  - refine (proj1 (proj2 (sampling_never_serves (H := demo_elf) demo_host ["SAMPLING=1"] None false _
      (in_world (demo_new_vm (demo_server_config true false 4 0))) _ _ _ _)) _ _).
    + reflexivity.
    + by eexists.
    + reflexivity.
    + vm_compute. reflexivity.
    + repeat constructor; unfold returns_or_times_out, machine_run, this, update; intros w; run_st;
        by destruct (stopped (vm w)).
Defined.
