(* ===== verification/GuestLib.v ===== *)
(** * The library of the guests: [api/libkvmserverguest.c]

    Two functions with which a guest and the storage guest hand a buffer over.
    Each is a call of a few instructions: a number is loaded into [eax] and an
    [OUT] gives control to the server, which gets it as a system call.  The file
    has the instructions with their encodings, what a call does up to the
    [OUT], and, with the server's handlers of [Vm] and [Initialize], what the
    two guests see of each other. *)

From S2P Require Import Prelude CppString FsPath AllowedPaths Network Config Effect Tinykvm Vm Debugger.
From S2P Require Import Snapshot Warmup Initialize.

Local Open Scope list_scope.
Local Open Scope nat_scope.

(** ** The instructions *)

(** [mov $imm, %eax], [out %eax, $port], [wrfsbase %rdi] and [ret]. *)
Inductive instruction :=
  | MovEax (imm : Z)
  | OutEax (port : Z)
  | WrFsBaseRdi
  | Ret.

(** Their machine code. *)
Definition encode (i : instruction) : list Z :=
  match i with
  | MovEax imm => 0xB8%Z :: take 4 (le_bytes imm)
  | OutEax port => [0xE7; port]%Z
  | WrFsBaseRdi => [0xF3; 0x48; 0x0F; 0xAE; 0xD7]%Z
  | Ret => [0xC3]%Z
  end.

Definition sys_kvmserverguest_remote_resume : list instruction := [MovEax 0x10001; OutEax 0; Ret].

Definition sys_kvmserverguest_storage_wait_paused : list instruction :=
  [MovEax 0x10002; OutEax 0; WrFsBaseRdi; Ret].

(** A call: the arguments are in [rdi] and [rsi], and control is at the first
    instruction.  The C functions pass their arguments on unchanged. *)
Definition call (address arg1 arg2 : Z) (r : Registers) : Registers :=
  MkRegs (rax r) (rcx r) arg1 arg2 address (r11 r) (rflags r).

Definition kvmserverguest_remote_resume (address buffer len : Z) : Registers → Registers :=
  call address buffer len.

Definition kvmserverguest_storage_wait_paused (address req len : Z) : Registers → Registers :=
  call address req len.

(** The registers when the guest is stopped at its first [OUT], with the port
    and the instructions behind it.  A write to [eax] clears the upper half of
    [rax]. *)
Fixpoint until_out (code : list instruction) (r : Registers) : option (Registers * Z * list instruction) :=
  match code with
  | MovEax imm :: code =>
      until_out code (MkRegs (u32 imm) (rcx r) (rdi r) (rsi r) (u64 (rip r + Z.of_nat (length (encode (MovEax imm)))))
        (r11 r) (rflags r))
  | OutEax port :: code => Some (r, port, code)
  | _ => None
  end.

(** The number read back from the bytes the server wrote. *)
Definition of_le_bytes (bytes : list Z) : Z := foldr (λ b n, b + 256 * n)%Z 0%Z bytes.

(** ** Lemmas *)

Lemma of_le_bytes_prefix k z :
  of_le_bytes ((λ i, (z / 256 ^ Z.of_nat i) mod 256)%Z <$> seq 0 k) = (z mod 256 ^ Z.of_nat k)%Z.
Proof.
  revert z. induction k as [|k IH]; intros z; [by rewrite Z.mod_1_r|].
  cbn [seq]. rewrite <-fmap_S_seq. cbn [fmap list_fmap of_le_bytes foldr].
  assert ((λ i, (z / 256 ^ Z.of_nat i) mod 256)%Z <$> (S <$> seq 0 k) =
    (λ i, (z / 256 / 256 ^ Z.of_nat i) mod 256)%Z <$> seq 0 k) as ->.
  { rewrite <-list_fmap_compose. apply list_fmap_ext. intros j i _. unfold compose.
    rewrite Nat2Z.inj_succ, Z.pow_succ_r, Z.div_div by lia. done. }
  fold (of_le_bytes ((λ i, (z / 256 / 256 ^ Z.of_nat i) mod 256)%Z <$> seq 0 k)). rewrite IH.
  rewrite Z.div_1_r, Nat2Z.inj_succ, Z.pow_succ_r by lia. by rewrite Z.rem_mul_r by lia.
Qed.

(** The guest reads the address the server wrote. *)
Lemma of_le_bytes_le_bytes z : (0 ≤ z < 2 ^ 64)%Z → of_le_bytes (le_bytes z) = z.
Proof. intros Hz. unfold le_bytes. rewrite of_le_bytes_prefix. by apply Z.mod_small. Qed.

(** The server skips exactly the [OUT]. *)
Lemma skip_out_encoding : length (encode (OutEax 0)) = 2.
Proof. done. Qed.

Lemma remote_resume_until_out address buffer len r :
  until_out sys_kvmserverguest_remote_resume (kvmserverguest_remote_resume address buffer len r) =
    Some (MkRegs SYS_remote_resume2 (rcx r) buffer len (u64 (address + 5)) (r11 r) (rflags r), 0%Z, [Ret]).
Proof. done. Qed.

Lemma wait_paused_until_out address req len r :
  until_out sys_kvmserverguest_storage_wait_paused (kvmserverguest_storage_wait_paused address req len r) =
    Some (MkRegs SYS_wait_for_storage_task_paused (rcx r) req len (u64 (address + 5)) (r11 r) (rflags r), 0%Z,
          [WrFsBaseRdi; Ret]).
Proof. done. Qed.

(** ** The server's side *)
Section handshake.
Context {M : Type} `{!TinyKVM M}.

(** The storage guest waits: the server's handler records it and stops the
    machine, whose registers it leaves alone. *)
Lemma storage_waits (w : World M) :
  m_is_storage (vm w) = true →
  handle (EvSyscall SYS_wait_for_storage_task_paused) w =
    (Ok Done, on_vm (λ v, set_stopped true (set_waiting_for_requests true v)) w).
Proof.
  intros Hs. unfold handle, on_unhandled_syscall. rewrite decide_False by (intros [|]; discriminate).
  rewrite decide_True by done. unfold wait_for_storage_task_paused, this, update, stop. run_st. by rewrite Hs.
Qed.

Lemma storage_leaves_syscall one (w : World M) :
  m_is_storage (vm w) = true →
  leave_syscall one w = (Ok tt, on_vm (λ v, set_machine
    (set_registers (skip_out (registers (m_machine v))) (m_machine v)) v) w).
Proof.
  intros Hs. unfold leave_syscall, set_regs, this, update. run_st. rewrite Hs.
  by rewrite andb_false_r.
Qed.

(** The main guest resumes the storage guest. *)
Lemma main_resumes (w : World M) :
  m_is_storage (vm w) = false →
  let m := m_machine (vm w) in
  let buffer := rdi (registers m) in
  let len := rsi (registers m) in
  handle (EvSyscall SYS_remote_resume2) w =
    let '(r, m') := (if storage_ipre_permanent (m_config (vm w)) then permanent_resume buffer len
                     else ipre_remote_resume_now false (resume_with buffer len)) m in
    (const Done <$> r, on_vm (set_machine m') w).
Proof.
  intros Hs. unfold handle, on_unhandled_syscall. rewrite decide_True by (by right).
  unfold remote_resume, this, on_machine. run_st. rewrite Hs.
  match goal with |- context [(if ?b then ?x else ?y) ?m] => by destruct ((if b then x else y) m) as [[] ?] end.
Qed.

(** What the server tells the storage guest, whichever way it is resumed: the
    address of the buffer is written where its [rdi] points and the length is
    the result of its call. *)
Lemma permanent_resume_spec buffer len (m s : M) :
  remote m = Ok s →
  permanent_resume buffer len m =
    match copy_to_guest (rdi (registers s)) (le_bytes buffer) s with
    | (Err e, s1) => (Err e, set_remote s1 m)
    | (Ok _, s1) =>
        let '(r, s2) := ipre_permanent_remote_resume_now (set_registers (set_rax len (registers s)) s1) in
        (r, set_remote s2 m)
    end.
Proof. intros Hr. unfold permanent_resume, on_remote. rewrite Hr. run_st. by destruct (copy_to_guest _ _ _) as [[]]. Qed.

Lemma resume_with_spec buffer len (m s : M) :
  remote m = Ok s →
  resume_with buffer len m =
    match copy_to_guest (rdi (registers m)) (le_bytes buffer) s with
    | (Err e, s1) => (Err e, set_remote s1 m)
    | (Ok _, s1) => (Ok tt, set_registers (set_rax len (registers (set_remote s1 m))) (set_remote s1 m))
    end.
Proof. intros Hr. unfold resume_with, on_remote. run_st. rewrite Hr. by destruct (copy_to_guest _ _ _) as [[]]. Qed.
End handshake.

(** ** A concrete pair of guests

    The storage guest waits with the address of its pointer at 4096; the main
    guest hands over 100 bytes at address 8192. *)
Definition demo_regs : Registers := MkRegs 0 0 0 0 0 0 0.

Definition demo_storage (regs_ : Registers) : VirtualMachine ToyMachine :=
  let v := demo_new_vm (demo_server_config true false 1 0) in
  MkVM (set_registers regs_ toy_machine) (m_config v) "" Static 0 false true false false false (-1) (-1)
    PollUndefined None None (fds v) false.

(** The main machine, connected to a storage machine. *)
Definition demo_main_vm (regs_ : Registers) (storage_machine : ToyMachine) : VirtualMachine ToyMachine :=
  let v := demo_new_vm (demo_config true true false 1 0) in
  set_machine (set_remote storage_machine (set_registers regs_ toy_machine)) v.

(** ** Claims *)

(** C26: the handshake of a guest with the storage guest.  The storage guest
    calls [kvmserverguest_storage_wait_paused] at [address] and [initialize]
    brings it past the [OUT]: the server has seen that it waits, and the next
    instruction is the one behind the [OUT].  Then the main guest calls
    [kvmserverguest_remote_resume].  With [--ipre-permanent] the server writes the
    address of the buffer to the storage machine where that guest asked for it, and
    resumes it with the buffer's length as the result of its call.  Otherwise, the
    default, it has [tinykvm] resume it and does the same in the function it
    hands over, which is given a machine with the storage guest's registers.  If
    the pointer cannot be written or the storage guest fails, the
    exception is that of the main guest's run, and the storage machine keeps
    what was changed. *)
Theorem guest_storage_handshake {M G} `{!TinyKVM M} (gs : M → G) `{!TinyKVMLaws M G gs}
    address req ret r address' buffer len r' rs port rest rm port' rest' (ws ws1 w : World M) one :
  (0 ≤ address < 2 ^ 64 - 7)%Z → (0 ≤ buffer < 2 ^ 64)%Z →
  until_out sys_kvmserverguest_storage_wait_paused
    (kvmserverguest_storage_wait_paused address req ret r) = Some (rs, port, rest) →
  until_out sys_kvmserverguest_remote_resume
    (kvmserverguest_remote_resume address' buffer len r') = Some (rm, port', rest') →
  m_is_storage (vm ws) = true → registers (m_machine (vm ws)) = rs →
  handle (EvSyscall (rax rs)) ws = (Ok Done, ws1) →
  m_is_storage (vm w) = false → registers (m_machine (vm w)) = rm →
  m_waiting_for_requests (vm ws1) = true ∧ stopped (vm ws1) = true ∧
  ∃ ws2, leave_syscall one ws1 = (Ok tt, ws2) ∧
    rest = [WrFsBaseRdi; Ret] ∧
    rip (registers (m_machine (vm ws2))) =
      (address + Z.of_nat (length (encode (MovEax SYS_wait_for_storage_task_paused) ++ encode (OutEax port))))%Z ∧
    of_le_bytes (le_bytes buffer) = buffer ∧
    (storage_ipre_permanent (m_config (vm w)) = true →
     remote (m_machine (vm w)) = Ok (m_machine (vm ws2)) →
     handle (EvSyscall (rax rm)) w =
       match copy_to_guest req (le_bytes buffer) (m_machine (vm ws2)) with
       | (Err e, s1) => (Err e, on_vm (λ v, set_machine (set_remote s1 (m_machine v)) v) w)
       | (Ok _, s1) =>
           let '(r, s2) := ipre_permanent_remote_resume_now
                             (set_registers (set_rax len (registers (m_machine (vm ws2)))) s1) in
           (const Done <$> r, on_vm (λ v, set_machine (set_remote s2 (m_machine v)) v) w)
       end) ∧
    (storage_ipre_permanent (m_config (vm w)) = false →
     ∃ before_resume,
       handle (EvSyscall (rax rm)) w =
         (let '(r, m') := ipre_remote_resume_now false before_resume (m_machine (vm w)) in
          (const Done <$> r, on_vm (set_machine m') w)) ∧
       ∀ m s, remote m = Ok s → registers m = registers (m_machine (vm ws2)) →
         before_resume m =
           match copy_to_guest req (le_bytes buffer) s with
           | (Err e, s1) => (Err e, set_remote s1 m)
           | (Ok _, s1) =>
               (Ok tt, set_registers (set_rax len (registers (set_remote s1 m))) (set_remote s1 m))
           end).
Proof.
  intros Ha Hb. rewrite wait_paused_until_out, remote_resume_until_out.
  intros [= <- <- <-] [= <- <- <-] Hs Hrs Hw Hms Hrm. cbn [rax] in *.
  rewrite (storage_waits ws Hs) in Hw. injection Hw as <-. split; [done|]. split; [done|].
  eexists. split; [by apply storage_leaves_syscall|]. cbn [vm on_vm m_machine set_machine set_stopped
    set_waiting_for_requests]. rewrite (registers_set (guest_state := gs)), Hrs.
  split; [done|]. split; [|split; [by apply of_le_bytes_le_bytes|split]].
  - cbn. unfold wrap. rewrite (Z.mod_small (address + 5)) by lia. rewrite Z.mod_small by lia. lia.
  - intros Hp Hr. rewrite (main_resumes w Hms), Hp, Hrm. cbn [rdi rsi].
    rewrite (permanent_resume_spec _ _ _ _ Hr), (registers_set (guest_state := gs)). cbn [rdi skip_out].
    destruct (copy_to_guest _ _ _) as [[[]|e] s1]; [|done].
    by destruct (ipre_permanent_remote_resume_now _) as [r0 s2].
  - intros Hp. exists (resume_with buffer len). rewrite (main_resumes w Hms), Hp, Hrm. split; [done|].
    intros m s Hr Hregs. rewrite (resume_with_spec _ _ _ _ Hr), Hregs. done.
Qed.

Lemma guest_storage_handshake_witness :
  ∃ ws ws1 ws2 w m s,
    handle (EvSyscall SYS_wait_for_storage_task_paused) ws = (Ok Done, ws1) ∧
    leave_syscall false ws1 = (Ok tt, ws2) ∧
    handle (EvSyscall SYS_remote_resume2) w = (Ok Done, on_vm (set_machine m) w) ∧
    toy_remote m = Some s ∧ toy_memory s = [(4096%Z, [0; 32; 0; 0; 0; 0; 0; 0]%Z)] ∧ rax (toy_regs s) = 100%Z.
Proof.
  set (rs := MkRegs SYS_wait_for_storage_task_paused 0 4096 0 (u64 (1024 + 5)) 0 0).
  set (rm := MkRegs SYS_remote_resume2 0 8192 100 (u64 (1024 + 5)) 0 0).
  set (ws := in_world (demo_storage rs)).
  set (ws1 := on_vm (λ v, set_stopped true (set_waiting_for_requests true v)) ws).
  set (w := in_world (demo_main_vm rm (set_registers (skip_out rs) toy_machine))).
  destruct (guest_storage_handshake toy_guest 1024 4096 0 demo_regs 1024 8192 100 demo_regs rs 0
    [WrFsBaseRdi; Ret] rm 0 [Ret] ws ws1 w false) as (_ & _ & ws2 & Hl & _ & _ & _ & Hh & _);
    [lia|lia|reflexivity..|].
  assert (ws2 = on_vm (λ v, set_machine (set_registers (skip_out rs) (m_machine v)) v) ws1) as ->
    by (injection Hl as <-; reflexivity).
  set (s := set_registers (set_rax 100 (skip_out rs)) (toy_write 4096 (le_bytes 8192)
    (set_registers (skip_out rs) toy_machine))).
  eexists ws, ws1, _, w, (set_remote s (m_machine (vm w))), s. split; [reflexivity|]. split; [exact Hl|].
  split; [exact (Hh eq_refl eq_refl)|]. split; [reflexivity|]. split; vm_compute; reflexivity.
Defined.
