(* ===== verification/Main.v ===== *)
(** * The server process: [main.cpp]

    [main] reads the configuration, brings up the storage machine and the main
    machine, and then serves: with the main machine itself when one machine is
    enough, otherwise with one thread and one fork per request machine. *)

From S2P Require Import Prelude CppString FsPath AllowedPaths Network Config FromArgs Effect Tinykvm Vm Debugger.
From S2P Require Import Fork Files Snapshot Warmup Initialize.

Local Open Scope string_scope.
Local Open Scope list_scope.
Local Open Scope nat_scope.

(** ** What the process is given

    The command line and the host, the answers of the system calls that read
    files, and how the guests run. *)
Record MainInput (M : Type) := MkInput {
  host_env : HostEnv;
  cli_exit_code : exn → Z;
  command_line : cli_parse;
  linker_file : FileHost;             (**r the file [init_kvm] loads *)
  kvm_init : result unit;             (**r [tinykvm::Machine::init] *)
  main_mmap : MmapHost;
  storage_mmap : MmapHost;
  mapped_bytes : Z → Z → string;      (**r what is at an address of the process *)
  storage_dontneed : bool;            (**r whether [madvise] succeeds *)
  main_dontneed : bool;
  storage_boot : Boot M;
  main_boot : Boot M;
  warm_name_ok : bool;
  warm_syscall : Run M;
  warm_run : Run M;
  single_syscall : Run M;
  fork_debug : nat → Debugging M      (**r the session of fork [i] with [DEBUG_FORK] *)
}.
Arguments host_env {M}.
Arguments cli_exit_code {M}.
Arguments command_line {M}.
Arguments linker_file {M}.
Arguments kvm_init {M}.
Arguments main_mmap {M}.
Arguments storage_mmap {M}.
Arguments mapped_bytes {M}.
Arguments storage_dontneed {M}.
Arguments main_dontneed {M}.
Arguments storage_boot {M}.
Arguments main_boot {M}.
Arguments warm_name_ok {M}.
Arguments warm_syscall {M}.
Arguments warm_run {M}.
Arguments single_syscall {M}.
Arguments fork_debug {M}.

(** A thread of [main]: its fork failed to initialize and the thread ended, it is
    in the debugger, or it enters its loop. *)
Inductive thread_state (M : Type) :=
  | ThreadFailed
  | ThreadDebugging
  | ThreadReady (w : World M).
Arguments ThreadFailed {M}.
Arguments ThreadDebugging {M}.
Arguments ThreadReady {M}.

(** How [main] goes on: it returns, [std::exit] was called, it is still in
    [initialize], it serves with the main machine, or with forks. *)
Inductive outcome (M : Type) :=
  | Exit (code : Z)
  | StdExit (code : Z)
  | Initializing
  | ServeSingle (w : World M)
  | ServeForks (w : World M) (threads : list (thread_state M)).
Arguments Exit {M}.
Arguments StdExit {M}.
Arguments Initializing {M}.
Arguments ServeSingle {M}.
Arguments ServeForks {M}.

(** How the process ends: with a status, by [std::terminate] because the destructor
    of [warmup_threads] finds a thread that was not joined, or undefined; or it
    goes on. *)
Inductive process (M : Type) :=
  | Exited (code : Z)
  | Terminated
  | Crashed
  | Goes_on (o : outcome M).
Arguments Exited {M}.
Arguments Terminated {M}.
Arguments Crashed {M}.
Arguments Goes_on {M}.

(** The files of the process: the calls made for them, the two [MmapFile]
    objects of [main], and whether threads of the warm-up client are left. *)
Inductive binary := MainBinary | StorageBinary.

#[export] Instance binary_eq_dec : EqDecision binary.
Proof. solve_decision. Defined.

Record Proc := MkProc {
  file_calls : list FileCall;
  mmap_calls : list MmapCall;
  binary_file : option MmapFile;
  storage_binary_file : option MmapFile;
  joinable_threads : bool
}.

Definition proc_start : Proc := MkProc [] [] None None false.

Definition binary_of (b : binary) (p : Proc) : option MmapFile :=
  match b with MainBinary => binary_file p | StorageBinary => storage_binary_file p end.

Definition set_binary (b : binary) (f : option MmapFile) (p : Proc) : Proc :=
  match b with
  | MainBinary => MkProc (file_calls p) (mmap_calls p) f (storage_binary_file p) (joinable_threads p)
  | StorageBinary => MkProc (file_calls p) (mmap_calls p) (binary_file p) f (joinable_threads p)
  end.

Definition set_joinable_threads (j : bool) (p : Proc) : Proc :=
  MkProc (file_calls p) (mmap_calls p) (binary_file p) (storage_binary_file p) j.

(** Operations of [Files] on the traces of the process. *)
Definition on_files {A} (c : st (list FileCall) A) : st Proc A := λ p,
  let '(r, t) := c (file_calls p) in
  (r, MkProc t (mmap_calls p) (binary_file p) (storage_binary_file p) (joinable_threads p)).

Definition on_mmaps {A} (c : st (list MmapCall) A) : st Proc A := λ p,
  let '(r, t) := c (mmap_calls p) in
  (r, MkProc (file_calls p) t (binary_file p) (storage_binary_file p) (joinable_threads p)).

Definition string_of_bytes (bytes : list Z) : string :=
  string_of_list_ascii ((λ b, ascii_of_nat (Z.to_nat b)) <$> bytes).

(** The destructor of one binary. *)
Definition close_binary (b : binary) : st Proc unit :=
  p ← get;
  match binary_of b p with
  | None => mret tt
  | Some f => on_mmaps (mmap_close f);; modify (set_binary b None)
  end.

(** The destructors of [main]'s two files, in the reverse order of their making. *)
Definition close_binaries : st Proc unit := close_binary StorageBinary;; close_binary MainBinary.

Section main.
Context {M : Type} `{!TinyKVM M} `{!TinyElf} `{!Snapshots M} (h : SocketHost) (inp : MainInput M).

Let env : list string := host_environ (host_env inp).

Definition just_one_vm (config : Configuration) : bool :=
  (concurrency config =? 1)%Z && negb (ephemeral config).

(** [init_kvm]; ignoring [SIGPIPE] is left out.  The result is
    [ld_linux_x86_64_so]. *)
Definition init_kvm : st Proc string :=
  bytes ← on_files (file_loader (linker_file inp) "/lib64/ld-linux-x86-64.so.2");
  lift (kvm_init inp);;
  mret (string_of_bytes bytes).

(** Mapping a binary; the result is what its view shows. *)
Definition open_binary (b : binary) (config : Configuration) : st Proc string :=
  f ← on_mmaps (match b with
        | MainBinary => mmap_open (main_mmap inp) (main_filename config)
        | StorageBinary => mmap_open (storage_mmap inp) (storage_filename config)
        end);
  modify (set_binary b (Some f));;
  view ← lift (mmap_view f);
  mret (mapped_bytes inp view.1 view.2).

(** [dontneed()] of a binary. *)
Definition drop_pages (b : binary) : st Proc unit :=
  p ← get;
  match binary_of b p with
  | None => mret tt
  | Some f =>
      g ← on_mmaps (mmap_dontneed
            (match b with MainBinary => main_dontneed inp | StorageBinary => storage_dontneed inp end) f);
      modify (set_binary b (Some g))
  end.

(** A member function of a virtual machine, called by [main]; the warm-up's
    threads are those of the process. *)
Definition run_vm {A} (c : vm_fn M A) (w : World M) : st Proc (A * World M) :=
  let '(r, w') := c w in
  modify (set_joinable_threads (warmup_joinable w'));;
  a ← lift r;
  mret (a, w').

(** The storage machine: [main] ends here, or goes on with the machine or none. *)
Definition setup_storage (ld : string) (config : Configuration)
    : st Proc (outcome M + option (VirtualMachine M)) :=
  if negb (storage config) then mret (inr None)
  else
    bin ← open_binary StorageBinary config;
    v ← lift (new_vm ld bin config true);
    r ← run_vm (initialize h env None false (storage_boot inp)) (in_world v);
    match r with
    | (Serving, _) => mret (inl Initializing)
    | (Finished, w) =>
        if negb (m_waiting_for_requests (vm w)) then mret (inl (Exit 1))
        else drop_pages StorageBinary;; mret (inr (Some (vm w)))
    end.

(** Linking a machine to its storage machine. *)
Definition connect_storage (config : Configuration) (storage_ : VirtualMachine M) (v : VirtualMachine M)
    : VirtualMachine M :=
  set_machine
    ((if storage_ipre_permanent config then permanent_remote_connect else remote_connect)
       (m_machine v) (m_machine storage_)) v.

(** The fork of thread [i], with its own storage machine in 1-to-1 mode.
    [storage_forks] has an element for each thread then. *)
Definition thread_fork (config : Configuration) (storage_ : option (VirtualMachine M))
    (vm_ : VirtualMachine M) (i : nat) : result (VirtualMachine M) :=
  forked_vm ← fork_vm vm_ (Z.of_nat i) false;
  forked_vm ←
    match storage_ with
    | Some s =>
        if storage config && storage_1_to_1 config
        then storage_fork ← fork_vm s (Z.of_nat i) true; Ok (connect_storage config storage_fork forked_vm)
        else Ok forked_vm
    | None => Ok forked_vm
    end;
  Ok (set_on_reset_callback (Some i) forked_vm).

(** What thread [i] does before its loop; any exception ends the thread. *)
Definition thread_start (config : Configuration) (storage_ : option (VirtualMachine M))
    (vm_ : VirtualMachine M) (i : nat) : result (thread_state M) :=
  match
    match thread_fork config storage_ vm_ i with
    | Err e => Err e
    | Ok v =>
        match debug_if env "DEBUG_FORK" (fork_debug inp i) (in_world v) with
        | (Ok Finished, w) => Ok (ThreadReady w)
        | (Ok Serving, _) => Ok ThreadDebugging
        | (Err e, _) => Err e
        end
    end
  with
  | Ok t => Ok t
  | Err e => if catchable e then Ok ThreadFailed else Err e
  end.

Definition thread_ended (t : thread_state M) : bool :=
  match t with ThreadFailed => true | _ => false end.

(** The storage machine is made forkable; the code of [main] when there is none. *)
Definition prepare_storage (config : Configuration) (storage_ : option (VirtualMachine M))
    : st Proc (Z + option (VirtualMachine M)) :=
  if storage_1_to_1 config && negb (just_one_vm config) then
    match storage_ with
    | None => mret (inl 1%Z)
    | Some s =>
        m ← lift (prepare_copy_on_write None (m_machine s));
        mret (inr (Some (set_machine m s)))
    end
  else mret (inr storage_).

(** The threads are started and joined; a thread that entered its loop does not
    come back. *)
Definition serve_forks (config : Configuration) (storage_ : option (VirtualMachine M)) (w : World M)
    : st Proc (outcome M) :=
  threads ← lift (mapM (thread_start config storage_ (vm w)) (seq 0 (Z.to_nat (concurrency config))));
  mret (if forallb thread_ended threads then Exit 0 else ServeForks w threads).

(** After [initialize]: [main] returns or serves. *)
Definition start_serving (config : Configuration) (storage_ : option (VirtualMachine M)) (w : World M)
    : st Proc (outcome M) :=
  let one := just_one_vm config in
  if negb (m_waiting_for_requests (vm w)) then mret (Exit (if one then 0 else 1)%Z)
  else
    drop_pages MainBinary;;
    s ← prepare_storage config storage_;
    match s with
    | inl code => mret (Exit code)
    | inr storage_ =>
        if one then
          r ← run_vm (restart_poll_syscall (single_syscall inp)) w;
          mret (ServeSingle r.2)
        else serve_forks config storage_ w
    end.

(** From the configuration on. *)
Definition start_main (config : Configuration) : st Proc (outcome M) :=
  ld ← init_kvm;
  bin ← open_binary MainBinary config;
  s ← setup_storage ld config;
  match s with
  | inl o => mret o
  | inr storage_ =>
      v ← lift (new_vm ld bin config false);
      let v := match storage_ with Some s => connect_storage config s v | None => v end in
      r ← run_vm (initialize h env
                    (Some (warmup (warm_name_ok inp) (warm_syscall inp) (warm_run inp)))
                    (just_one_vm config) (main_boot inp)) (in_world v);
      match r with
      | (Serving, _) => mret Initializing
      | (Finished, w) => start_serving config storage_ w
      end
  end.

(** The body of the [try] of [main]. *)
Definition main_try : st Proc (outcome M) :=
  a ← lift (FromArgs (host_env inp) (cli_exit_code inp) (command_line inp));
  match a with
  | ArgsExit code => mret (StdExit code)
  | Args config => start_main config
  end.

(** The process ends with a status, when the locals of [main] are destroyed. *)
Definition end_process (code : Z) (p : Proc) : process M * Proc :=
  let p := (close_binaries p).2 in
  (if joinable_threads p then Terminated else Exited code, p).

(** Every exception is reported and [main] returns 1. *)
Definition main : process M * Proc :=
  match main_try proc_start with
  | (Ok (Exit code), p) => end_process code p
  | (Ok (StdExit code), p) => (Exited code, p)
  | (Ok o, p) => (Goes_on o, p)
  | (Err e, p) => if catchable e then end_process 1 p else (Crashed, p)
  end.
End main.

(** The loop of a server with one machine: a run that fails is reported, the
    debugger is opened with [DEBUG], and the machine is run again. *)
Fixpoint single_loop `{!TinyKVM M} (env : list string) (runs : list (Run M * Debugging M))
    : vm_fn M (list bool) :=
  match runs with
  | [] => mret []
  | (r, d) :: runs =>
      failure ← try_catch (machine_run r;; mret false) (λ _, mret true);
      p ← (if failure : bool then debug_if env "DEBUG" d else mret Finished);
      match p with
      | Serving => mret [failure]
      | Finished => l ← single_loop env runs; mret (failure :: l)
      end
  end.

(** ** What bringing up the main machine does not change *)
Section lemmas.
Context {M G : Type} `{!TinyKVM M} (guest_state : M → G) `{!TinyKVMLaws M G guest_state}.
Context `{!TinyElf} `{!Snapshots M} (h : SocketHost).

Abbreviation kept_settings := (Configuration * bool * bool * address_cb * address_cb)%type.

Definition settings (v : VirtualMachine M) : kept_settings :=
  (m_config v, m_ephemeral v, m_is_storage v,
   connect_socket_callback (fds v), bind_socket_callback (fds v)).

Definition has_settings (k : kept_settings) (w : World M) : Prop := settings (vm w) = k.

Lemma same_object_settings (v v' : VirtualMachine M) : same_object v v' → settings v' = settings v.
Proof using Type.
  intros (Hc & _ & _ & _ & He & Hs & _ & _ & Hf). unfold settings. by rewrite Hc, He, Hs, Hf.
Qed.

Lemma handle_settings k e : preserves (has_settings k) (handle e).
Proof using Type.
  intros w Hw. unfold has_settings in *. rewrite <-Hw. apply same_object_settings.
  apply (handle_same_object (vm w)). reflexivity.
Qed.

Lemma run_settings k r : preserves (has_settings k) (machine_run r).
Proof using Type.
  apply machine_run_preserves; [by intros b w|]. apply Forall_true. intros e. apply handle_settings.
Qed.

Lemma restart_settings k r : preserves (has_settings k) (restart_poll_syscall r).
Proof using Type. apply restart_preserves, Forall_true. intros e. apply handle_settings. Qed.

Lemma debug_settings k d : preserves (has_settings k) (open_debugger d).
Proof using Type.
  apply open_debugger_preserves; [by intros b w|]. apply Forall_true. intros e. apply handle_settings.
Qed.

Lemma update_settings k f :
  (∀ v, settings (f v) = settings v) → preserves (has_settings k) (update f).
Proof using Type. intros Hf. apply preserves_modify. intros w Hw. unfold has_settings. cbn. by rewrite Hf. Qed.

Lemma begin_warmup_settings k name_ok : preserves (has_settings k) (begin_warmup_client name_ok).
Proof using Type.
  intros w Hw. destruct (begin_warmup_client name_ok w) as [[a|x] w1] eqn:E; cbn [snd].
  - by destruct (begin_warmup_state _ _ _ _ E) as [b ->].
  - unfold begin_warmup_client, this in E. run_st. repeat case_match; simplify_eq.
Qed.

Lemma warmup_settings k name_ok sys r : preserves (has_settings k) (warmup name_ok sys r).
Proof using Type.
  unfold warmup. apply preserves_bind; [apply preserves_gets|]. intros v.
  destruct (_ =? 0)%Z; [apply preserves_ret|].
  apply preserves_bind; [by apply update_settings|]. intros _.
  apply preserves_bind; [by apply preserves_modify|]. intros _.
  apply preserves_bind; [by apply update_settings|]. intros _.
  apply preserves_unwind; [|by apply update_settings]. unfold warmup_serve.
  apply preserves_bind; [apply begin_warmup_settings|].
  intros _. apply preserves_bind; [apply restart_settings|]. intros _.
  apply preserves_bind; [apply run_settings|]. intros _.
  apply preserves_bind; [apply preserves_gets|]. intros v1.
  destruct (m_waiting_for_requests v1); [by apply preserves_modify|apply preserves_raise].
Qed.

Lemma save_settings k : preserves (has_settings k) (save_state h).
Proof using Type. apply save_state_preserves; by intros. Qed.

Lemma prepare_cow_settings k o : preserves (has_settings k) (prepare_cow o).
Proof using Type.
  unfold prepare_cow. apply preserves_bind; [apply preserves_gets|]. intros v.
  apply preserves_bind; [apply preserves_lift|]. intros m. by apply update_settings.
Qed.

Lemma prepare_guest_settings k : preserves (has_settings k) prepare_guest.
Proof using Type.
  unfold prepare_guest. apply preserves_bind; [apply preserves_gets|]. intros v.
  apply preserves_bind; [apply prepare_cow_settings|]. intros _.
  apply preserves_bind; [by apply update_settings|]. intros _.
  apply preserves_bind; [apply preserves_gets|]. intros v1.
  apply preserves_bind; [apply preserves_lift|]. intros m. by apply update_settings.
Qed.

Lemma run_guest_settings k env one b : preserves (has_settings k) (run_guest env one b).
Proof using Type.
  unfold run_guest. destruct (getenv env "DEBUG"); [apply debug_settings|].
  destruct (getenv env "SAMPLING").
  - apply preserves_bind; [|intros x; apply preserves_ret]. generalize (∅ : gmap Z Z).
    induction (boot_samples b) as [|r runs IH]; intros samples; cbn [sample_loop]; [apply preserves_ret|].
    apply preserves_bind; [|done]. apply preserves_try.
    + apply preserves_bind; [apply run_settings|intros _; apply preserves_ret].
    + intros []; try apply preserves_raise.
      apply preserves_bind; [apply preserves_gets|intros v; apply preserves_ret].
  - apply preserves_bind; [apply preserves_gets|]. intros v.
    apply preserves_bind; [apply run_settings|intros _; apply preserves_ret].
Qed.

Lemma finish_settings k cb one :
  (∀ f, cb = Some f → preserves (has_settings k) f) →
  preserves (has_settings k) (finish_initialize h cb one).
Proof using Type.
  intros Hcb. unfold finish_initialize. apply preserves_bind; [apply preserves_gets|]. intros v2.
  destruct (negb _); [destruct one; [apply preserves_ret|apply preserves_raise]|].
  apply preserves_bind; [destruct cb; [by apply Hcb|apply preserves_ret]|]. intros _.
  apply preserves_bind; [by apply update_settings|]. intros _.
  apply preserves_bind.
  { unfold leave_syscall. apply preserves_bind; [apply preserves_gets|]. intros v3.
    destruct (_ && _); [apply preserves_bind; [by apply update_settings|intros _; apply prepare_cow_settings]|].
    destruct (m_is_storage v3); [by apply update_settings|apply preserves_ret]. }
  intros _. apply preserves_bind; [apply preserves_gets|]. intros v3.
  destruct (_ && _); [apply save_settings|apply preserves_ret].
Qed.

Lemma initialize_settings k env cb one b :
  (∀ f, cb = Some f → preserves (has_settings k) f) →
  (∀ m : M, has_snapshot_state m = false) →
  preserves (has_settings k) (initialize h env cb one b).
Proof using Type.
  intros Hcb Hsnap. unfold initialize. apply preserves_bind; [apply preserves_gets|]. intros v.
  rewrite Hsnap. apply preserves_try.
  - unfold initialize_guest. apply preserves_bind; [apply prepare_guest_settings|]. intros _.
    apply preserves_bind; [by apply update_settings|]. intros _.
    apply preserves_bind; [apply run_guest_settings|]. intros []; [|apply preserves_ret].
    apply preserves_bind; [by apply finish_settings|intros _; apply preserves_ret].
  - intros e. unfold on_init_error, debug_if. apply preserves_bind.
    + destruct (getenv env "DEBUG"); [apply debug_settings|apply preserves_ret].
    + intros []; [apply preserves_raise|apply preserves_ret].
Qed.

Lemma run_vm_ok {A} (c : vm_fn M A) w (p p' : Proc) a w' :
  run_vm c w p = (Ok (a, w'), p') → c w = (Ok a, w').
Proof using Type. unfold run_vm. run_st. destruct (c w) as [[b|e] w1]; [|done]. by intros [= -> -> _]. Qed.

(** [main] does not serve before the storage machine is up. *)
Lemma setup_storage_stops inp ld config (p p' : Proc) o :
  setup_storage h inp ld config p = (Ok (inl o), p') → o = Exit 1 ∨ o = Initializing.
Proof using Type.
  unfold setup_storage. destruct (negb (storage config)); [done|]. intros Hs.
  inv_bind Hs. inv_bind Hs. inv_bind Hs. destruct a1 as [[] w]; [|injection Hs as <-; by right].
  destruct (negb _); [injection Hs as <-; by left|]. inv_bind Hs. by injection Hs.
Qed.

(** The main machine when [initialize] has returned, and what [main] does with it. *)
Lemma main_try_inv inp o (p : Proc) :
  main_try h inp proc_start = (Ok o, p) →
  (∃ code, FromArgs (host_env inp) (cli_exit_code inp) (command_line inp) = Ok (ArgsExit code) ∧
     o = StdExit code) ∨
  ∃ config, FromArgs (host_env inp) (cli_exit_code inp) (command_line inp) = Ok (Args config) ∧
    (o = Exit 1 ∨ o = Initializing ∨
     ∃ ld bin v st0 w p1 p2, new_vm ld bin config false = Ok v ∧
       initialize h (host_environ (host_env inp))
         (Some (warmup (warm_name_ok inp) (warm_syscall inp) (warm_run inp)))
         (just_one_vm config) (main_boot inp)
         (in_world (match st0 with Some s => connect_storage config s v | None => v end)) = (Ok Finished, w) ∧
       start_serving inp config st0 w p1 = (Ok o, p2)).
Proof using Type.
  unfold main_try. intros Hm.
  inv_bind Hm. unfold lift in Hstep. injection Hstep as Hargs <-.
  destruct a as [code|config]; [left; injection Hm as <- _; eauto|right].
  exists config. split; [done|]. unfold start_main in Hm.
  inv_bind Hm. clear Hstep. inv_bind Hm. clear Hstep. inv_bind Hm.
  destruct a1 as [o1|st0].
  { apply setup_storage_stops in Hstep. injection Hm as <- _. by destruct Hstep; auto. }
  clear Hstep. inv_bind Hm. unfold lift in Hstep. injection Hstep as Hv <-.
  inv_bind Hm. destruct a2 as [[] w]; [|injection Hm as <- _; by auto].
  apply run_vm_ok in Hstep. right. right. by exists a, a0, a1, st0, w, s2, p.
Qed.

(** [std::exit] is called before anything is mapped. *)
Lemma start_main_not_std_exit inp config (p p' : Proc) code : start_main h inp config p ≠ (Ok (StdExit code), p').
Proof using Type.
  intros Hm. unfold start_main in Hm. inv_bind Hm. inv_bind Hm. inv_bind Hm.
  destruct a1 as [o|st0]; [apply setup_storage_stops in Hstep1; injection Hm as -> _; by destruct Hstep1|].
  inv_bind Hm. inv_bind Hm. destruct a2 as [[] w]; [|done].
  unfold start_serving in Hm. destruct (negb _); [done|].
  inv_bind Hm. inv_bind Hm. destruct a3 as [c|st1]; [done|].
  destruct (just_one_vm config); inv_bind Hm; [done|]. by destruct (forallb _ _).
Qed.

Lemma main_try_std_exit inp code (p : Proc) : main_try h inp proc_start = (Ok (StdExit code), p) → p = proc_start.
Proof using Type.
  unfold main_try. intros Hm. inv_bind Hm. unfold lift in Hstep. injection Hstep as _ <-.
  destruct a as [c|config]; [by injection Hm|]. by apply start_main_not_std_exit in Hm.
Qed.

Lemma end_process_ends code p o p' : end_process (M := M) code p ≠ (Goes_on o, p').
Proof using Type. unfold end_process. by destruct (joinable_threads _). Qed.

(** What is known about the main object when [main] serves with forks. *)
Lemma main_forks_inv inp w threads p :
  (∀ m : M, has_snapshot_state m = false) → boot_ok (main_boot inp) →
  main h inp = (Goes_on (ServeForks w threads), p) →
  ∃ config storage_,
    FromArgs (host_env inp) (cli_exit_code inp) (command_line inp) = Ok (Args config) ∧
    just_one_vm config = false ∧
    settings (vm w) = (config, ephemeral config, false, AddressMain, AddressMain) ∧ ready (vm w) ∧
    mapM (thread_start inp config storage_ (vm w)) (seq 0 (Z.to_nat (concurrency config))) = Ok threads ∧
    forallb thread_ended threads = false.
Proof using TinyKVMLaws0.
  intros Hsnap Hb. unfold main. destruct (main_try h inp proc_start) as [[o|e] p0] eqn:Hmain;
    [|destruct (catchable e); [by intros ?%end_process_ends|done]].
  destruct o; try done; [by intros ?%end_process_ends|]. intros [= -> -> ->].
  apply main_try_inv in Hmain as [(code & _ & ?)|(config & Hargs & [?|[?|Hmain]])]; try done.
  destruct Hmain as (ld & bin & v & st0 & w1 & p1 & p2 & Hv & Hinit & Hs).
  destruct (new_vm_constructed guest_state ld bin config false v Hv) as (Hcon & Hst & Hcfg & Heph & _).
  set (v0 := match st0 with Some s => _ | None => v end) in Hinit.
  assert (constructed v0 ∧ settings v0 = (config, ephemeral config, false, AddressMain, AddressMain)) as [Hcon0 Hset0].
  { destruct (new_vm_asks ld bin config false v Hv) as [Hac Hab].
    assert (settings v = (config, ephemeral config, false, AddressMain, AddressMain))
      by (unfold settings; congruence).
    by destruct st0. }
  pose proof (initialize_settings (settings v0) (host_environ (host_env inp))
    (Some (warmup (warm_name_ok inp) (warm_syscall inp) (warm_run inp))) (just_one_vm config) (main_boot inp)
    ltac:(intros f [= <-]; apply warmup_settings) Hsnap (in_world v0) eq_refl) as Hset.
  rewrite Hinit in Hset. cbn [snd] in Hset. unfold has_settings in Hset.
  unfold start_serving in Hs. destruct (negb (m_waiting_for_requests (vm w1))); [done|].
  inv_bind Hs. clear Hstep. inv_bind Hs. clear Hstep. destruct a0 as [code|st1]; [done|].
  destruct (just_one_vm config) eqn:Hone; [inv_bind Hs; done|].
  unfold serve_forks in Hs. inv_bind Hs. unfold lift in Hstep. injection Hstep as Hth <-.
  destruct (forallb thread_ended a0) eqn:Hf; [done|]. injection Hs as -> -> _.
  exists config, st1. split_and!; [done|done|by rewrite <-Hset0| |done|done].
  refine (initialize_ready_spec guest_state h _ _ _ _ _ (in_world v0) _ (Hsnap _) Hcon0 _ Hb Hinit).
  unfold settings in Hset0. simpl. congruence.
Qed.

(** ** The forks of the threads *)

(** A fork is a copy of the main object with a machine of its own, in which the
    guest is where the main object's guest is. *)
Lemma thread_fork_spec config storage_ (main_ : VirtualMachine M) i v :
  thread_fork config storage_ main_ i = Ok v →
  ∃ m, v = set_machine m (forked main_ i (m_machine main_)) ∧
    guest_state m = guest_state (m_machine main_).
Proof using TinyKVMLaws0.
  unfold thread_fork. destruct (fork_vm main_ _ _) as [f0|] eqn:Hm; cbn [mbind result_bind]; [|done].
  apply fork_vm_ok in Hm as (m & Hm & ->). apply (guest_state_fork (guest_state := guest_state)) in Hm.
  set (f := fork_object main_ (Z.of_nat i) false m).
  assert (guest_state (m_machine f) = guest_state (m_machine main_)) as Hf.
  { cbn. by rewrite (guest_state_cwd (guest_state := guest_state)). }
  assert (∀ m', set_on_reset_callback (Some i) (set_machine m' f) =
    set_machine m' (forked main_ i (m_machine main_))) as Hobj by done.
  assert (set_machine (m_machine f) f = f) as Hself by done.
  intros Hv. assert (∃ m', v = set_on_reset_callback (Some i) (set_machine m' f) ∧
    guest_state m' = guest_state (m_machine f)) as (m' & -> & Hg).
  { destruct storage_ as [s|]; [destruct (storage config && storage_1_to_1 config)|];
      cbn [mbind result_bind] in Hv.
    - destruct (fork_vm s (Z.of_nat i) true) as [sf|]; [|done]. injection Hv as <-.
      unfold connect_storage. eexists. split; [done|].
      destruct (storage_ipre_permanent config);
        [apply (guest_state_permanent (guest_state := guest_state))
        |apply (guest_state_connect (guest_state := guest_state))].
    - injection Hv as <-. exists (m_machine f). by rewrite Hself.
    - injection Hv as <-. exists (m_machine f). by rewrite Hself. }
  exists m'. split; [apply Hobj|]. by rewrite Hg.
Qed.

Lemma thread_fork_pristine config storage_ (main_ : VirtualMachine M) i v w :
  thread_fork config storage_ main_ i = Ok v → vm w = v → length (reset_counters w) = 64 →
  pristine guest_state main_ i w.
Proof using TinyKVMLaws0.
  intros Hv Hw Hlen. destruct (thread_fork_spec _ _ _ _ _ Hv) as (m & -> & Hg).
  unfold pristine, fork_inv. rewrite Hw.
  split_and!; [by repeat split|done|done|done|by left|done|exact Hg].
Qed.

Lemma thread_start_ready inp config storage_ (main_ : VirtualMachine M) i w :
  thread_start inp config storage_ main_ i = Ok (ThreadReady w) →
  ∃ v, thread_fork config storage_ main_ i = Ok v ∧ same_object v (vm w) ∧
    (getenv (host_environ (host_env inp)) "DEBUG_FORK" = None → w = in_world v).
Proof using Type.
  unfold thread_start. destruct (thread_fork _ _ _ _) as [v|e]; [|by destruct (catchable e)].
  destruct (debug_if _ _ _ _) as [[[]|e] w1] eqn:Hd; [| |by destruct (catchable e)]; [|done].
  intros [= <-]. exists v. split; [done|]. split.
  - pose proof (debug_if_preserves (λ w, same_object v (vm w)) ltac:(by intros b x)
      (host_environ (host_env inp)) "DEBUG_FORK" (fork_debug inp i)
      (Forall_true _ _ (handle_same_object v)) (in_world v)) as Hp.
    rewrite Hd in Hp. apply Hp. reflexivity.
  - intros Hn. unfold debug_if in Hd. rewrite Hn in Hd. by injection Hd.
Qed.

Lemma threads_lookup inp config storage_ (main_ : VirtualMachine M) n threads i t :
  mapM (thread_start inp config storage_ main_) (seq 0 n) = Ok threads → threads !! i = Some t →
  thread_start inp config storage_ main_ i = Ok t.
Proof using Type.
  intros Hm Ht.
  assert (∀ k l, mapM (thread_start inp config storage_ main_) (seq k n) = Ok l →
    ∀ i t, l !! i = Some t → thread_start inp config storage_ main_ (k + i) = Ok t) as Hgen.
  { clear. induction n as [|n IH]; intros k l; cbn [seq mapM]; [by intros [= <-]|].
    destruct (thread_start inp config storage_ main_ k) as [t0|] eqn:Hk; [|done]. cbn [mbind result_bind].
    destruct (mapM _ (seq (S k) n)) as [l0|] eqn:Hl; [|done]. cbn [mbind result_bind].
    intros [= <-] [|i] t; cbn [lookup list_lookup].
    - intros [= <-]. by rewrite Nat.add_0_r.
    - intros Ht. rewrite Nat.add_succ_r. by apply (IH (S k) l0). }
  by apply (Hgen 0 threads).
Qed.

Lemma threads_length inp config storage_ (main_ : VirtualMachine M) l threads :
  mapM (thread_start inp config storage_ main_) l = Ok threads → length threads = length l.
Proof using Type.
  revert threads. induction l as [|i l IH]; intros threads; cbn [mapM]; [by intros [= <-]|].
  destruct (thread_start _ _ _ _ _); [|done]. cbn [mbind result_bind].
  destruct (mapM _ l) as [k|]; [|done]. intros [= <-]. simpl. f_equal. by apply IH.
Qed.
(** The forks of a process that serves. *)
Lemma main_ready_fork inp w threads p i wf :
  (∀ m : M, has_snapshot_state m = false) → boot_ok (main_boot inp) →
  main h inp = (Goes_on (ServeForks w threads), p) → threads !! i = Some (ThreadReady wf) →
  getenv (host_environ (host_env inp)) "DEBUG_FORK" = None →
  settings (vm wf) = settings (vm w) ∧ is_Some (poll_syscall (m_poll_method (vm wf))) ∧
  m_on_reset_callback (vm wf) = Some i ∧ m_master_instance (vm wf) = Some (vm w) ∧
  reset_counters wf = replicate 64 0%Z ∧ pristine guest_state (vm w) i wf.
Proof using TinyKVMLaws0.
  intros Hsnap Hb Hmain Hi Hn.
  destruct (main_forks_inv inp w threads p Hsnap Hb Hmain) as (config & st & _ & _ & Hset & (_ & Hp & _) & Hm & _).
  pose proof (threads_lookup _ _ _ _ _ _ _ _ Hm Hi) as Ht.
  apply thread_start_ready in Ht as (v & Hv & _ & Hw'). specialize (Hw' Hn). subst wf.
  destruct (thread_fork_spec _ _ _ _ _ Hv) as (m & Heq & _). split_and!.
  - cbn [vm in_world]. rewrite Heq. unfold settings in *. injection Hset as Hc He Hst Hac Hab. cbn. by rewrite Hst.
  - cbn [vm in_world]. by rewrite Heq.
  - cbn [vm in_world]. by rewrite Heq.
  - cbn [vm in_world]. by rewrite Heq.
  - done.
  - by eapply thread_fork_pristine.
Qed.
End lemmas.

(** ** The mappings of the process *)
Section mappings.
Context {M : Type} `{!TinyKVM M} `{!TinyElf} `{!Snapshots M} (h : SocketHost) (inp : MainInput M).

Definition unmaps (c : MmapCall) : bool := match c with Munmap _ _ => true | _ => false end.

Definition mmap_host (b : binary) : MmapHost :=
  match b with MainBinary => main_mmap inp | StorageBinary => storage_mmap inp end.

(** Nothing was unmapped yet, and the objects hold mappings that were made. *)
Definition mapped (p : Proc) : Prop :=
  Forall (λ c, unmaps c = false) (mmap_calls p) ∧
  ∀ b f addr, binary_of b p = Some f → m_mmap f = Some addr →
    Mmap (m_size f) ∈ mmap_calls p ∧ mmap_answer (mmap_host b) = Some addr ∧
    file_size (mmap_host b) = Ok (m_size f).

(** Calls at the end that unmap nothing. *)
Lemma mapped_more calls p :
  mapped p → Forall (λ c, unmaps c = false) calls →
  mapped (MkProc (file_calls p) (mmap_calls p ++ calls) (binary_file p) (storage_binary_file p)
            (joinable_threads p)).
Proof using Type.
  intros [Hf Hb] Hc. split; cbn; [by apply Forall_app_2|]. intros b f addr Hbf Ha.
  destruct (Hb b f addr) as [Hin ?]; [by destruct b|done|]. split; [|done].
  apply elem_of_app. by left.
Qed.

Lemma mmap_open_spec mh filename t :
  ∃ calls, (mmap_open mh filename t).2 = t ++ calls ∧ Forall (λ c, unmaps c = false) calls ∧
  ∀ f, (mmap_open mh filename t).1 = Ok f → 
    ∃ addr, m_mmap f = Some addr ∧ mmap_answer mh = Some addr ∧ Mmap (m_size f) ∈ calls ∧
      file_size mh = Ok (m_size f).
Proof using Type.
  unfold mmap_open, call_mmap. run_st.
  case_decide; [exists []; by rewrite app_nil_r|].
  destruct (exists_ mh); cbn [negb]; [|exists []; by rewrite app_nil_r].
  destruct (file_size mh) as [size|e]; cbn; [|exists []; by rewrite app_nil_r].
  destruct (_ <? 0)%Z; [eexists; split; [done|]; split; [by repeat constructor|done]|].
  rewrite <-!app_assoc. destruct (mmap_answer mh) as [addr|]; eexists; (split; [reflexivity|]);
    (split; [by repeat constructor|]); [|done].
  intros f [= <-]. exists addr. split_and!; [done..| |done]. cbn. right. left.
Qed.

Lemma open_binary_mapped b config : preserves mapped (open_binary inp b config).
Proof using Type.
  intros p Hp. unfold open_binary, on_mmaps. run_st.
  assert (∀ mh name, mh = mmap_host b → mapped
    ((let '(a, s) := let '(r, t) := mmap_open mh name (mmap_calls p) in
       (r, MkProc (file_calls p) t (binary_file p) (storage_binary_file p) (joinable_threads p)) in
     match a with
     | Ok f => let '(a0, s0) := (mmap_view f, set_binary b (Some f) s) in
         match a0 with Ok view => (Ok (mapped_bytes inp view.1 view.2), s0) | Err e => (Err e, s0) end
     | Err e => (Err e, s)
     end).2)) as Hgen.
  { intros mh name ->. destruct (mmap_open_spec (mmap_host b) name (mmap_calls p)) as (calls & Ht & Hc & Hf).
    destruct (mmap_open _ _ _) as [[f|e] t]; cbn [fst snd] in *; subst t; [|by apply mapped_more].
    destruct (Hf f eq_refl) as (addr & Ha & Hm & Hin & Hsize).
    destruct (mapped_more calls p Hp Hc) as [H1 H2].
    assert (mapped (set_binary b (Some f) (MkProc (file_calls p) (mmap_calls p ++ calls) (binary_file p)
      (storage_binary_file p) (joinable_threads p)))) as Hres.
    { split; [by destruct b|]. intros b' f' addr' Hb' Ha'.
      destruct (decide (b = b')) as [<-|Hne].
      - assert (f' = f) as -> by (destruct b; cbn in Hb'; congruence). split_and!; [|congruence|done].
        destruct b; cbn; apply elem_of_app; by right.
      - destruct (H2 b' f' addr') as [Hi ?]; [by destruct b, b'|done|]. split; [|done]. by destruct b. }
    by destruct (mmap_view f). }
  destruct b; by eapply Hgen.
Qed.

Lemma drop_pages_mapped b : preserves mapped (drop_pages inp b).
Proof using Type.
  intros p Hp. unfold drop_pages, on_mmaps. run_st. destruct (binary_of b p) as [f|] eqn:Hf; [|done].
  unfold mmap_dontneed, call_mmap. run_st. destruct (m_mmap f) as [addr|] eqn:Ha.
  - destruct (mapped_more [Madvise addr (m_size f)] p Hp) as [H1 H2]; [by repeat constructor|].
    destruct (negb _); cbn [snd]; [by split|]. split; [by destruct b|].
    intros b' f' addr' Hb' Ha'. destruct (decide (b = b')) as [<-|Hne].
    + exfalso. destruct b; cbn in Hb'; injection Hb' as <-; done.
    + destruct (H2 b' f' addr') as [Hi ?]; [by destruct b, b'|done|]. split; [|done]. by destruct b.
  - assert (set_binary b (Some f) (MkProc (file_calls p) (mmap_calls p) (binary_file p)
      (storage_binary_file p) (joinable_threads p)) = p) as ->; [|done].
    destruct p, b; cbn in *; congruence.
Qed.

Lemma run_vm_mapped {A} (c : vm_fn M A) w : preserves mapped (run_vm c w).
Proof using Type.
  unfold run_vm. destruct (c w) as [r w'].
  apply preserves_bind; [by apply preserves_modify|]. intros _.
  apply preserves_bind; [apply preserves_lift|intros a; apply preserves_ret].
Qed.

Lemma init_kvm_mapped : preserves mapped (init_kvm inp).
Proof using Type.
  unfold init_kvm. apply preserves_bind.
  - intros p Hp. unfold on_files. by destruct (file_loader _ _ _).
  - intros bytes. apply preserves_bind; [apply preserves_lift|intros _; apply preserves_ret].
Qed.

Hint Resolve preserves_ret preserves_raise preserves_lift preserves_get open_binary_mapped
  drop_pages_mapped run_vm_mapped init_kvm_mapped : mapped.

Lemma setup_storage_mapped ld config : preserves mapped (setup_storage h inp ld config).
Proof using Type.
  unfold setup_storage. destruct (negb _); [auto with mapped|].
  apply preserves_bind; [auto with mapped|]. intros bin.
  apply preserves_bind; [auto with mapped|]. intros v.
  apply preserves_bind; [auto with mapped|]. intros [[] w]; [|auto with mapped].
  destruct (negb _); [auto with mapped|]. apply preserves_bind; auto with mapped.
Qed.

Lemma start_serving_mapped config storage_ w : preserves mapped (start_serving inp config storage_ w).
Proof using Type.
  unfold start_serving. destruct (negb _); [auto with mapped|].
  apply preserves_bind; [auto with mapped|]. intros _. apply preserves_bind.
  - unfold prepare_storage. destruct (_ && _); [|auto with mapped].
    destruct storage_ as [st|]; [|auto with mapped].
    apply preserves_bind; auto with mapped.
  - intros [code|st]; [auto with mapped|]. destruct (just_one_vm config).
    + apply preserves_bind; auto with mapped.
    + unfold serve_forks. apply preserves_bind; auto with mapped.
Qed.

Lemma main_try_mapped : preserves mapped (main_try h inp).
Proof using Type.
  unfold main_try. apply preserves_bind; [auto with mapped|]. intros [code|config]; [auto with mapped|].
  unfold start_main. apply preserves_bind; [auto with mapped|]. intros ld.
  apply preserves_bind; [auto with mapped|]. intros bin.
  apply preserves_bind; [apply setup_storage_mapped|]. intros [o|st0]; [auto with mapped|].
  apply preserves_bind; [auto with mapped|]. intros v.
  apply preserves_bind; [auto with mapped|]. intros [[] w]; [|auto with mapped].
  apply start_serving_mapped.
Qed.

(** The call the destructor of a binary makes. *)
Definition unmap_of (b : binary) (p : Proc) : list MmapCall :=
  match binary_of b p with
  | Some f => match m_mmap f with Some addr => [Munmap addr (m_size f)] | None => [] end
  | None => []
  end.

Lemma close_binary_calls b p :
  mmap_calls (close_binary b p).2 = mmap_calls p ++ unmap_of b p ∧
  (∀ b', b' ≠ b → binary_of b' (close_binary b p).2 = binary_of b' p).
Proof using Type.
  unfold close_binary, unmap_of, on_mmaps, mmap_close, call_mmap. run_st.
  destruct (binary_of b p) as [f|]; [|by rewrite app_nil_r].
  destruct (m_mmap f) as [addr|]; cbn; (split; [destruct b; cbn; by rewrite ?app_nil_r|]);
    intros b' Hne; by destruct b, b'.
Qed.

Lemma close_binaries_calls p :
  mmap_calls (close_binaries p).2 = mmap_calls p ++ unmap_of StorageBinary p ++ unmap_of MainBinary p.
Proof using Type.
  unfold close_binaries.
  destruct (close_binary_calls StorageBinary p) as [H1 H2].
  assert ((close_binary StorageBinary p).1 = Ok tt) as Hok.
  { unfold close_binary, on_mmaps, mmap_close, call_mmap. run_st.
    destruct (binary_of StorageBinary p) as [f|]; [by destruct (m_mmap f)|done]. }
  destruct (close_binary StorageBinary p) as [r p1] eqn:E. cbn [fst snd] in *. subst r.
  rewrite (st_bind_ok _ _ _ _ _ E). destruct (close_binary_calls MainBinary p1) as [-> _].
  rewrite H1, <-app_assoc. do 2 f_equal. unfold unmap_of. by rewrite (H2 MainBinary).
Qed.

(** The binary's object holds a mapping. *)
Definition holds_mapping (b : binary) (p : Proc) : Prop :=
  ∃ f addr, binary_of b p = Some f ∧ m_mmap f = Some addr.

#[export] Instance holds_mapping_dec b p : Decision (holds_mapping b p).
Proof.
  unfold holds_mapping. destruct (binary_of b p) as [f|] eqn:Hb; [|right; by intros (f & a & ? & _)].
  destruct (m_mmap f) as [addr|] eqn:Ha; [left; by exists f, addr|right].
  intros (f' & a & [= <-] & ?). congruence.
Defined.

(** The call unmaps the binary [b]: the address is the one its own [mmap] gave and
    the size is that of its own file, with which it was mapped. *)
Definition unmaps_binary (calls : list MmapCall) (b : binary) (c : MmapCall) : Prop :=
  ∃ addr size, c = Munmap addr size ∧ mmap_answer (mmap_host b) = Some addr ∧
    file_size (mmap_host b) = Ok size ∧ Mmap size ∈ calls.

(** The binaries to unmap, in the order of the destructors. *)
Definition mapped_binaries (p : Proc) : list binary :=
  filter (λ b, holds_mapping b p) [StorageBinary; MainBinary].

Lemma unmap_of_mapped b p : mapped p →
  Forall2 (unmaps_binary (mmap_calls p)) (filter (λ b, holds_mapping b p) [b]) (unmap_of b p).
Proof using Type.
  intros [_ Hp]. rewrite filter_cons, filter_nil. unfold unmap_of. case_decide as Hd.
  - destruct Hd as (f & addr & Hb & Ha). rewrite Hb, Ha. constructor; [|constructor].
    destruct (Hp b f addr Hb Ha) as (? & ? & ?). by exists addr, (m_size f).
  - destruct (binary_of b p) as [f|] eqn:Hb; [|constructor].
    destruct (m_mmap f) as [addr|] eqn:Ha; [|constructor]. destruct Hd. by exists f, addr.
Qed.

Lemma mapped_binaries_closed p : mapped p →
  Forall2 (unmaps_binary (mmap_calls p)) (mapped_binaries p) (unmap_of StorageBinary p ++ unmap_of MainBinary p).
Proof using Type.
  intros Hp. unfold mapped_binaries. change [StorageBinary; MainBinary] with ([StorageBinary] ++ [MainBinary]).
  rewrite filter_app. by apply Forall2_app; apply unmap_of_mapped.
Qed.

Lemma mapped_binaries_nodup p : NoDup (mapped_binaries p).
Proof using Type.
  apply NoDup_filter. apply NoDup_cons. split; [|apply NoDup_singleton]. by intros ?%list_elem_of_singleton.
Qed.

Lemma elem_of_mapped_binaries b p : b ∈ mapped_binaries p ↔ holds_mapping b p.
Proof using Type.
  unfold mapped_binaries. rewrite list_elem_of_filter. split; [by intros []|]. intros Hb. split; [done|].
  destruct b; set_solver.
Qed.
End mappings.

(** ** Concrete processes *)

(** A header of zeros: the entry point is 0. *)
Definition demo_binary : string := String.concat "" (replicate 128 (String "000" "")).

Definition demo_file : FileHost :=
  MkFileHost (Some (MkStat 128 true false)) true true 128 true (λ n, replicate (Z.to_nat n) 0%Z).

Definition demo_mmap : MmapHost := MkMmapHost true (Ok 128%Z) 5 (Some 0x7f0000000000%Z).

Definition demo_input (o : Options) (r warm : Run ToyMachine) : MainInput ToyMachine :=
  MkInput ToyMachine demo_env demo_exit_code (CliOptions o) demo_file (Ok tt) demo_mmap demo_mmap
    (λ _ _, demo_binary) true true (plain_boot (MkRun [] None)) (plain_boot r) true (MkRun [] None) warm
    (MkRun [] None) (λ _, no_debugging).

(** The guest makes its epoll set, listens on the address of the command line
    and waits. *)
Definition demo_main_run : Run ToyMachine :=
  MkRun [EvGuest (λ _, toy_machine); EvListen 3 7 (Some (sockaddr_in 0x0100000A 443));
         EvAccept 3 7 0 0x800; EvEpollWait 5 6 (-1)] None.

(** One machine that is not ephemeral. *)
Definition demo_single : Options :=
  let o := demo_options in
  MkCliOptions (opt_cwd o) (opt_env o) (Some 1%Z) (Some false) (opt_warmup o) (opt_snapshot_file o)
    (opt_verbose o) (opt_verbose_syscalls o) (opt_verbose_mmap_syscalls o) (opt_verbose_thread_syscalls o)
    (opt_verbose_pagetables o) (opt_allow_all o) (opt_permissions o) (opt_max_boot_time o)
    (opt_max_request_time o) (opt_max_main_memory o) (opt_max_address_space o) (opt_max_request_memory o)
    (opt_limit_request_memory o) (opt_shared_memory o) (opt_heap_hint o) (opt_hugepage_arena_size o)
    (opt_hugepage_requests_arena o) (opt_no_executable_heap o) (opt_no_mmap_backed_files o)
    (opt_use_hugepages o) (opt_no_split_hugepages o) (opt_transparent_hugepages o)
    (opt_no_ephemeral_keep_working_memory o) (run_program o) (run_args o) (run_dylink_hint o)
    (run_remapping o) (storage_program o) (storage_args o) (storage_1_to_1_flag o)
    (storage_ipre_permanent_flag o) (storage_dylink_hint o) (storage_remapping o) (subcommands o)
    (print_config o).

(** ** Claims *)

(** C9: when [main] serves with forks, the guest waits for requests, there is one
    thread for each configured request machine, every fork knows the system call
    it repeats, and in an ephemeral server each starts as new: the guest's
    memory and registers of the main machine, no connection, its own index for
    the reset counters. *)
Theorem main_serves_with_ready_forks {M G} `{!TinyKVM M} (gs : M → G) `{!TinyKVMLaws M G gs}
    `{!TinyElf} `{!Snapshots M} h (inp : MainInput M) w threads p :
  (∀ m : M, has_snapshot_state m = false) → boot_ok (main_boot inp) →
  main h inp = (Goes_on (ServeForks w threads), p) →
  ∃ config, FromArgs (host_env inp) (cli_exit_code inp) (command_line inp) = Ok (Args config) ∧
    m_waiting_for_requests (vm w) = true ∧
    length threads = Z.to_nat (concurrency config) ∧ (∃ t, t ∈ threads ∧ t ≠ ThreadFailed) ∧
    ∀ i wf, threads !! i = Some (ThreadReady wf) →
      getenv (host_environ (host_env inp)) "DEBUG_FORK" = None →
      m_config (vm wf) = config ∧ m_ephemeral (vm wf) = ephemeral config ∧
      is_Some (poll_syscall (m_poll_method (vm wf))) ∧ (ephemeral config = true → pristine gs (vm w) i wf).
Proof.
  intros Hsnap Hb Hmain.
  destruct (main_forks_inv gs h inp w threads p Hsnap Hb Hmain) as (config & st & Hc & _ & Hset & Hr & Hm & Hf).
  exists config. destruct Hr as (Hw & Hp & _). unfold settings in Hset. injection Hset as Hcfg Heph _ _ _.
  split_and!; [done|done|by rewrite (threads_length _ _ _ _ _ _ Hm), length_seq| |].
  - apply forallb_false in Hf as (t & Hin & Ht). exists t. split; [done|]. by intros ->.
  - intros i wf Hi Hn.
    destruct (main_ready_fork gs h inp w threads p i wf Hsnap Hb Hmain Hi Hn) as (Hs & Hk & _ & _ & _ & Hpr).
    unfold settings in Hs. injection Hs as Hs1 Hs2 _ _ _. split_and!; [congruence..|done|by intros _].
Qed.

(** The command line of [demo_options] on the host [demo_env]: four forks. *)
Lemma main_serves_witness :
  ∃ w threads p, main (H := demo_elf) demo_host
    (demo_input demo_options demo_main_run (MkRun [] None)) = (Goes_on (ServeForks w threads), p) ∧
  length threads = 4.
Proof.
  eexists _, _, _. split; [vm_compute; reflexivity|].
  edestruct (main_serves_with_ready_forks (H := demo_elf) toy_guest demo_host
    (demo_input demo_options demo_main_run (MkRun [] None))) as (c & Hc & _ & Hl & _).
  - reflexivity.
  - apply plain_boot_ok. repeat constructor; simpl; lia.
  - vm_compute. reflexivity.
  - vm_compute in Hc. injection Hc as <-. exact Hl.
Defined.

(** C29: the exit status.  When the process ends with a status, it is the one
    CLI11 gives to a command line that was not accepted (or 0 for
    [--print-config]), or 1, or 0 in two cases: a server of one machine whose guest
    ended without waiting for requests, and a server of several none of whose
    forks could be made: every thread reported its failure and returned. *)
Theorem main_exit_status {M} `{!TinyKVM M} `{!TinyElf} `{!Snapshots M} h (inp : MainInput M) code p :
  main h inp = (Exited code, p) →
  FromArgs (host_env inp) (cli_exit_code inp) (command_line inp) = Ok (ArgsExit code) ∨
  code = 1%Z ∨
  code = 0%Z ∧ ∃ config v w,
    FromArgs (host_env inp) (cli_exit_code inp) (command_line inp) = Ok (Args config) ∧
    initialize h (host_environ (host_env inp))
      (Some (warmup (warm_name_ok inp) (warm_syscall inp) (warm_run inp)))
      (just_one_vm config) (main_boot inp) (in_world v) = (Ok Finished, w) ∧
    (just_one_vm config = true ∧ m_waiting_for_requests (vm w) = false ∨
     just_one_vm config = false ∧ m_waiting_for_requests (vm w) = true ∧
     ∃ st threads, mapM (thread_start inp config st (vm w)) (seq 0 (Z.to_nat (concurrency config))) =
         Ok threads ∧ ∀ t, t ∈ threads → t = ThreadFailed).
Proof.
  unfold main, end_process. destruct (main_try h inp proc_start) as [[o|e] p0] eqn:Hmain.
  2:{ destruct (catchable e); [|done]. destruct (joinable_threads _); [done|]. intros [= <- _]. auto. }
  destruct o as [c|c| | |]; try done.
  2:{ intros [= <- _]. apply main_try_inv in Hmain as [(c' & Hc & [= ->])|(config & _ & [?|[?|Hm]])]; try done.
      - by left.
      - destruct Hm as (ld & bin & v & st0 & w & p1 & p2 & _ & _ & Hs).
        unfold start_serving in Hs. destruct (negb _); [done|].
        inv_bind Hs. clear Hstep. inv_bind Hs. destruct a0 as [c'|st1]; [done|].
        destruct (just_one_vm config); [inv_bind Hs; done|]. unfold serve_forks in Hs.
        inv_bind Hs. by destruct (forallb _ _). }
  destruct (joinable_threads _); [done|]. intros [= <- _].
  apply main_try_inv in Hmain as [(c' & _ & ?)|(config & Hc & [[= ->]|[?|Hm]])]; [done|by auto|done|].
  destruct Hm as (ld & bin & v & st0 & w & p1 & p2 & _ & Hi & Hs).
  set (v0 := match st0 with Some s => _ | None => v end) in Hi. unfold start_serving in Hs.
  destruct (m_waiting_for_requests (vm w)) eqn:Hw; cbn [negb] in Hs.
  - inv_bind Hs. clear Hstep. inv_bind Hs. destruct a0 as [c'|st1].
    { injection Hs as -> _. revert Hstep. unfold prepare_storage. destruct (_ && _); [|done].
      destruct st0; [|intros [= <- _]; by auto]. intros Hp. by inv_bind Hp. }
    destruct (just_one_vm config) eqn:Hone; [inv_bind Hs; done|]. unfold serve_forks in Hs.
    inv_bind Hs. unfold lift in Hstep0. injection Hstep0 as Hth <-.
    destruct (forallb thread_ended a0) eqn:Hf; [|done]. injection Hs as <- _.
    right. right. split; [done|]. exists config, v0, w. split_and!; [done|by rewrite Hone|].
    right. split_and!; [done|done|]. exists st1, a0. split; [done|].
    intros t Ht. rewrite forallb_forall in Hf. specialize (Hf t (proj1 (list_elem_of_In _ _) Ht)).
    by destruct t.
  - injection Hs as <- _. destruct (just_one_vm config) eqn:Hone; [|by auto].
    right. right. split; [done|]. exists config, v0, w. rewrite Hone. auto.
Qed.

Lemma main_exit_witness :
  ∃ p, main (H := demo_elf) demo_host
    (demo_input demo_single (MkRun [EvGuest id] None) (MkRun [] None)) = (Exited 0, p) ∧
  ∃ config, FromArgs demo_env demo_exit_code (CliOptions demo_single) = Ok (Args config) ∧
    just_one_vm config = true.
Proof.
  eexists. split; [vm_compute; reflexivity|].
  edestruct (main_exit_status (H := demo_elf) demo_host
    (demo_input demo_single (MkRun [EvGuest id] None) (MkRun [] None)) 0) as [He|[He|[_ He]]].
  - vm_compute. reflexivity.
  - vm_compute in He. discriminate.
  - discriminate.
  - destruct He as (c & v & w & Hc & _ & Hone). exists c. split; [exact Hc|].
    vm_compute in Hc. injection Hc as <-. vm_compute. reflexivity.
Defined.

(** C27: the binaries the virtual machines refer to stay mapped while a guest can
    run: as long as [main] goes on, nothing is unmapped.  When it returns, its
    destructors come last and unmap exactly the binaries whose objects still
    hold a mapping, each once, at the address its own [mmap] gave and with the size of its own
    file.  A binary whose pages were given back with [dontneed] is left mapped. *)
Theorem main_binaries_stay_mapped {M} `{!TinyKVM M} `{!TinyElf} `{!Snapshots M} h (inp : MainInput M) r p :
  main h inp = (r, p) →
  ∃ before after bs, mmap_calls p = before ++ after ∧
    Forall (λ c, unmaps c = false) before ∧
    NoDup bs ∧ Forall2 (unmaps_binary inp before) bs after ∧
    ((∃ o, r = Goes_on o) → bs = []) ∧
    ((r = Terminated ∨ ∃ code, r = Exited code) →
       ∀ b, b ∈ bs ↔ holds_mapping b (main_try h inp proc_start).2).
Proof.
  assert (mapped inp proc_start) as H0 by (split; [constructor|]; intros []; done).
  pose proof (main_try_mapped h inp proc_start H0) as Hp. unfold main.
  destruct (main_try h inp proc_start) as [[o|e] p0] eqn:Hmain; cbn [snd] in *.
  all: assert (∀ code, end_process (M := M) code p0 = (r, p) →
    ∃ before after bs, mmap_calls p = before ++ after ∧
      Forall (λ c, unmaps c = false) before ∧ NoDup bs ∧ Forall2 (unmaps_binary inp before) bs after ∧
      ((∃ o, r = Goes_on o) → bs = []) ∧
      ((r = Terminated ∨ ∃ code, r = Exited code) → ∀ b, b ∈ bs ↔ holds_mapping b p0)) as Hend
    by (intros code He; assert (p = (close_binaries p0).2) as -> by (by injection He);
        rewrite close_binaries_calls; eexists _, _, (mapped_binaries p0); split; [reflexivity|];
        split; [apply Hp|]; split; [apply mapped_binaries_nodup|];
        split; [by apply mapped_binaries_closed|]; split;
          [intros [o' ->]; by apply end_process_ends in He|intros _ b; apply elem_of_mapped_binaries]).
  all: assert (∀ r' : process M, (r' = Terminated ∨ (∃ code, r' = Exited code) → p0 = proc_start) → (r', p0) = (r, p) →
    ∃ before after bs, mmap_calls p = before ++ after ∧
      Forall (λ c, unmaps c = false) before ∧ NoDup bs ∧ Forall2 (unmaps_binary inp before) bs after ∧
      ((∃ o, r = Goes_on o) → bs = []) ∧
      ((r = Terminated ∨ ∃ code, r = Exited code) → ∀ b, b ∈ bs ↔ holds_mapping b p0)) as Hno
    by (intros r' Hr [= <- <-]; exists (mmap_calls p0), [], []; split; [by rewrite app_nil_r|];
        split; [apply Hp|]; split; [constructor|]; split; [constructor|]; split; [done|];
        intros Hx%Hr; subst p0; intros b; split; [by intros ?%elem_of_nil|intros (f & a & Hb & _); by destruct b]).
  - destruct o; try (by apply Hend); apply Hno; try (intros [?|[]]; done).
    intros _. by apply main_try_std_exit in Hmain.
  - destruct (catchable e); [by apply Hend|]. apply Hno. intros [?|[]]; done.
Qed.

(** [main] fails after it mapped the binary, and unmaps it. *)
Lemma main_mapped_witness :
  ∃ p before after, main (H := demo_elf) demo_host
    (demo_input demo_options (MkRun [EvGuest id] None) (MkRun [] None)) = (Exited 1, p) ∧
  mmap_calls p = before ++ after ∧
  Forall2 (unmaps_binary (demo_input demo_options (MkRun [EvGuest id] None) (MkRun [] None)) before)
    [MainBinary] after.
Proof.
  destruct (main (H := demo_elf) demo_host
    (demo_input demo_options (MkRun [EvGuest id] None) (MkRun [] None))) as [r p] eqn:E.
  destruct (main_binaries_stay_mapped (H := demo_elf) demo_host
    (demo_input demo_options (MkRun [EvGuest id] None) (MkRun [] None)) r p E)
    as (before & after & bs & Hc & Hb & Hn & Ha & _ & Hbs).
  vm_compute in E. injection E as <- <-. eexists _, before, after. split; [reflexivity|].
  split; [exact Hc|]. specialize (Hbs (or_intror (ex_intro _ 1%Z eq_refl))).
  assert (bs = [MainBinary]) as <-; [|exact Ha].
  assert (MainBinary ∈ bs) as Hm by (apply Hbs; eexists _, _; split; vm_compute; reflexivity).
  assert (StorageBinary ∉ bs) as Hs by (rewrite Hbs; intros (f & a & Hf & _); vm_compute in Hf; discriminate).
  destruct bs as [|[] [|b bs]]; [by apply elem_of_nil in Hm|reflexivity|exfalso|set_solver|set_solver].
  apply NoDup_cons in Hn as [Hn1 Hn2]. destruct b; set_solver.
Defined.
