(* ===== verification/Threads.v ===== *)
(** * The threads of a server with forks, interleaved: [main.cpp]

    [Fork] has the loop of one thread of [main] as a function.  Here the loop is
    cut into the steps between which the threads of a server can be interleaved, and a
    server is the map of its threads with what they share: the main object, which none of
    them changes, [reset_counters], and, without [--1-to-1], the storage machine
    that the main object was connected to.  A schedule is a list of steps, each with
    its thread and what happens to the thread's guest.  The debugger that a thread opens
    after a failure with [DEBUG] in the environment is not among the steps: this
    is a server without it. *)

From S2P Require Import Prelude CppString FsPath AllowedPaths Network Config Effect Tinykvm Vm Debugger Fork Equiv.

Local Open Scope list_scope.
Local Open Scope nat_scope.

(** ** Steps of a thread *)

(** Where a thread is: at the head of the loop, [failed] if the reset it comes
    from failed; in the repeated system call; in [vmresume]; behind it; in the three
    parts of [reset_to], [own] when it was called by [resume_fork] and not by the
    thread; and gone with the process. *)
Inductive place :=
  | AtTurn (failed : bool)
  | InSyscall
  | Running
  | Returned
  | Resetting (own : bool)
  | Calling (own : bool)
  | Clearing (own : bool)
  | Gone.

#[export] Instance place_eq_dec : EqDecision place.
Proof. solve_decision. Defined.

(** What a step is given: a callback for an event of the guest, an exception of
    [tinykvm], or nothing. *)
Inductive input (M : Type) := Deliver (e : Event M) | Throw (e : exn) | Proceed.
Arguments Deliver {M}.
Arguments Throw {M}.
Arguments Proceed {M}.

(** What can be seen of a step. *)
Inductive seen := Answered (a : Answer) | Threw (e : exn) | Counted | Silent.

Definition is_counted (o : seen) : bool := match o with Counted => true | _ => false end.

Section steps.
Context {M : Type} `{!TinyKVM M} (main : VirtualMachine M).

(** An exception in [resume_fork] makes the thread reset the fork; one in the
    thread's own reset is reported and the loop goes on. *)
Definition caught (own : bool) (e : exn) : place :=
  if negb (catchable e) then Gone else if own then Resetting false else AtTurn true.

(** A part of the thread's function that goes on at [next] when it returns. *)
Definition part {A} (c : vm_fn M A) (own : bool) (o : A → seen) (next : place) (w : World M)
    : seen * place * World M :=
  match c w with
  | (Ok a, w) => (o a, next, w)
  | (Err e, w) => (Threw e, caught own e, w)
  end.

(** [reset_to] in three parts: the machine, the callback, the fields. *)
Definition reset_machine (own : bool) : vm_fn M unit :=
  v ← this;
  let other := if own then main_vm v else main in
  on_machine (machine_reset_to (reset_options other) (m_machine other)).

Definition call_on_reset : vm_fn M unit :=
  v ← this;
  match m_on_reset_callback v with
  | Some i => on_reset_closure (m_config (main_vm v)) i
  | None => mret tt
  end.

Definition clear_connection (own : bool) : vm_fn M unit :=
  update (set_tracked_client (-1) (-1));;
  update (set_blocking_connections false);;
  if own then update (set_reset_needed false) else mret tt.

Definition thread_step (s : place) (x : input M) (w : World M) : option (seen * place * World M) :=
  match s, x with
  | AtTurn _, Proceed =>
      Some (if m_ephemeral (vm w)
            then match poll_syscall (m_poll_method (vm w)) with
                 | Some _ => (Silent, InSyscall, w)
                 | None => (Threw (RuntimeError "VM does not have a known polling method"), Resetting false, w)
                 end
            else (Silent, Running, on_vm (set_stopped false) w))
  | InSyscall, Deliver e => Some (part (handle e) true Answered InSyscall w)
  | InSyscall, Throw e => Some (part (raise e) true Answered InSyscall w)
  | InSyscall, Proceed => Some (Silent, Running, on_vm (set_stopped false) w)
  | Running, Deliver e => if stopped (vm w) then None else Some (part (handle e) true Answered Running w)
  | Running, Throw e => if stopped (vm w) then None else Some (part (raise e) true Answered Running w)
  | Running, Proceed => Some (Silent, Returned, w)
  | Returned, Proceed =>
      Some (Silent,
            if m_ephemeral (vm w) && m_reset_needed (vm w) then Resetting true
            else if m_ephemeral main then Resetting false else AtTurn false, w)
  | Resetting own, Proceed => Some (part (reset_machine own) own (λ _, Silent) (Calling own) w)
  | Calling own, Proceed => Some (part call_on_reset own (λ _, Counted) (Clearing own) w)
  | Clearing own, Proceed => Some (part (clear_connection own) own (λ _, Silent) (AtTurn false) w)
  | _, _ => None
  end.

(** The steps of a thread on its own. *)
Fixpoint run_thread (xs : list (input M)) (s : place) (w : World M)
    : option (list seen * (place * World M)) :=
  match xs with
  | [] => Some ([], (s, w))
  | x :: xs =>
      '(o, s, w) ← thread_step s x w;
      '(l, r) ← run_thread xs s w;
      Some (o :: l, r)
  end.

(** ** The server *)

(** Its threads by their number, the counters they share, and the storage machine
    they share when there is one. *)
Record System := MkSystem {
  counters : list Z; shared : option M; threads : gmap nat (place * World M)
}.

Definition crashed (sys : System) : Prop := map_Exists (λ _ t, t.1 = Gone) (threads sys).

#[export] Instance crashed_dec sys : Decision (crashed sys).
Proof.
  unfold crashed. apply _.
Defined.

(** The forks share the storage machine the main object is connected to, unless
    [main] gave each a storage machine of its own. *)
Definition shared_storage : option M :=
  if storage (m_config main) && negb (storage_1_to_1 (m_config main))
  then match remote (m_machine main) with Ok s => Some s | Err _ => None end
  else None.

(** A thread whose machine is connected finds the shared storage machine as the
    others left it. *)
Definition attach (storage_ : option M) (w : World M) : World M :=
  match storage_, remote (m_machine (vm w)) with
  | Some s, Ok _ => on_vm (λ v, set_machine (set_remote s (m_machine v)) v) w
  | _, _ => w
  end.

(** What a step leaves in the shared storage machine: only the guest, and the
    server's callbacks for it, use it.  A callback that resumes the storage machine is
    one step, as [remote_serializer] keeps the others out meanwhile. *)
Definition publish (storage_ : option M) (x : input M) (w : World M) : option M :=
  match storage_, x, remote (m_machine (vm w)) with
  | Some _, Deliver _, Ok s => Some s
  | _, _, _ => storage_
  end.

(** Thread [i] makes a step: it sees the counters and the storage machine as the
    other threads left them.  Undefined behaviour of one thread ends the process. *)
Definition system_step (i : nat) (x : input M) (sys : System) : option (seen * System) :=
  if decide (crashed sys) then None
  else
    '(s, w) ← threads sys !! i;
    '(o, s, w) ← thread_step s x (attach (shared sys) (set_counters (counters sys) w));
    Some (o, MkSystem (reset_counters w) (publish (shared sys) x w) (<[i := (s, w)]> (threads sys))).

Fixpoint run_system (sched : list (nat * input M)) (sys : System) : option (list (nat * seen) * System) :=
  match sched with
  | [] => Some ([], sys)
  | (i, x) :: sched =>
      '(o, sys) ← system_step i x sys;
      '(l, sys) ← run_system sched sys;
      Some ((i, o) :: l, sys)
  end.

(** The part of a schedule or of a trace that is thread [i]'s. *)
Definition of_thread {A} (i : nat) (l : list (nat * A)) : list A := (filter (λ x, x.1 = i) l).*2.

(** The server at the moment its threads enter their loops. *)
Definition start_system (ready : gmap nat (World M)) : System :=
  MkSystem (replicate 64 0%Z) shared_storage ((λ w, (AtTurn false, w)) <$> ready).
End steps.
Arguments System M : clear implicits.
Arguments MkSystem {M}.
Arguments counters {M}.
Arguments shared {M}.
Arguments threads {M}.

(** ** The counters of other threads

    Two worlds of thread [i] that differ in the other threads' counters only. *)
Section counters.
Context {M : Type} `{!TinyKVM M}.

Record same_thread (i : nat) (w w' : World M) : Prop := {
  st_world : w' = set_counters (reset_counters w') w;
  st_counter : reset_counters w' !! i = reset_counters w !! i;
  st_length : length (reset_counters w') = length (reset_counters w);
  st_callback : m_on_reset_callback (vm w) = Some i
}.

(** No handler looks at the counters. *)
Lemma handle_counters (e : Event M) c w :
  handle e (set_counters c w) = ((handle e w).1, set_counters c (handle e w).2).
Proof.
  destruct w as [v fs ac rc wj hc]. unfold set_counters. destruct e; unfold_handlers; unfold warmed_up; run_st; cbn;
    repeat case_match; simplify_eq/=; congruence.
Qed.

Lemma handle_same_thread i (e : Event M) : st_rel (same_thread i) eq (handle e) (handle e).
Proof.
  intros w w' [Hw Hc Hl Hcb]. rewrite Hw, handle_counters. cbn [fst snd].
  assert (reset_counters (handle e w).2 = reset_counters w) as He.
  { assert (w = set_counters (reset_counters w) w) as Hw1 by by destruct w.
    rewrite Hw1 at 1. by rewrite handle_counters. }
  split; [by destruct (handle e w).1; constructor|].
  split; cbn; [done|by rewrite He|by rewrite He|].
  destruct (handle_same_object (vm w) e w (reflexivity _)) as (_ & _ & _ & _ & _ & _ & -> & _). done.
Qed.

Lemma same_thread_vm i (w w' : World M) : same_thread i w w' → vm w' = vm w.
Proof. by intros [-> _ _ _]. Qed.

(** The closure only uses the counter of its own fork. *)
Lemma closure_same_thread i config :
  st_rel (same_thread i) eq (on_reset_closure config i) (on_reset_closure config i).
Proof.
  unfold on_reset_closure. destruct (negb (verbose config)); [by apply st_rel_ret|].
  intros w w' Hs. destruct (Hs) as [Hw Hc Hl Hcb]. run_st. rewrite Hc, Hl.
  destruct (reset_counters w !! i) as [n|] eqn:E; cbn [fst snd]; [|by split; [constructor|]].
  apply lookup_lt_Some in E.
  assert (same_thread i (set_counters (<[i:=u64 (n + 1)]> (reset_counters w)) w)
    (set_counters (<[i:=u64 (n + 1)]> (reset_counters w')) w')) as Hsame.
  { split; cbn; [by rewrite Hw|by rewrite !list_lookup_insert_eq by lia|by rewrite !length_insert, Hl|done]. }
  by case_decide; (split; [constructor|]).
Qed.

Lemma update_same_thread i (f : VirtualMachine M → VirtualMachine M) :
  (∀ v, m_on_reset_callback (f v) = m_on_reset_callback v) → st_rel (same_thread i) eq (update f) (update f).
Proof.
  intros Hf. apply st_rel_modify. intros w w' [Hw Hc Hl Hcb].
  split; cbn; [by rewrite Hw|done|done|by rewrite Hf].
Qed.

Context (main : VirtualMachine M).

Lemma reset_machine_same_thread i own :
  st_rel (same_thread i) eq (reset_machine main own) (reset_machine main own).
Proof.
  intros w w' Hs. pose proof (same_thread_vm _ _ _ Hs) as Hv. destruct Hs as [Hw Hc Hl Hcb].
  unfold reset_machine, this, on_machine. run_st. rewrite Hv.
  destruct (machine_reset_to _ _ _) as [r m]. cbn [fst snd].
  split; [by destruct r; constructor|]. split; cbn; [by rewrite Hw|done..].
Qed.

Lemma call_on_reset_same_thread i : st_rel (same_thread i) eq call_on_reset call_on_reset.
Proof.
  intros w w' Hs. pose proof (same_thread_vm _ _ _ Hs) as Hv. pose proof (st_callback _ _ _ Hs) as Hcb.
  unfold call_on_reset, this. run_st. rewrite Hv, Hcb. by apply closure_same_thread.
Qed.

Lemma clear_same_thread i own : st_rel (same_thread i) eq (clear_connection own) (clear_connection own).
Proof.
  unfold clear_connection. apply st_rel_bind_eq; [by apply update_same_thread|]. intros [].
  apply st_rel_bind_eq; [by apply update_same_thread|]. intros [].
  destruct own; [by apply update_same_thread|by apply st_rel_ret].
Qed.

Lemma part_same_thread {A} i (c : vm_fn M A) own o next w w' r :
  st_rel (same_thread i) eq c c → same_thread i w w' → part c own o next w = r →
  ∃ w1', part c own o next w' = (r.1, w1') ∧ same_thread i r.2 w1'.
Proof.
  intros Hc Hs <-. destruct (Hc w w' Hs) as [Hr Hs']. unfold part.
  destruct (c w) as [a w1], (c w') as [a' w1']. cbn [fst snd] in *.
  destruct Hr as [a ? <-|e]; eauto.
Qed.

(** A step of a thread does not depend on the counters of the others. *)
Lemma thread_step_same_thread i s x w w' r :
  same_thread i w w' → thread_step main s x w = Some r →
  ∃ w1', thread_step main s x w' = Some (r.1, w1') ∧ same_thread i r.2 w1'.
Proof.
  intros Hs. pose proof (same_thread_vm _ _ _ Hs) as Hv.
  assert (same_thread i (on_vm (set_stopped false) w) (on_vm (set_stopped false) w')) as Hst.
  { by apply (update_same_thread i (set_stopped false)). }
  assert (∀ e, st_rel (same_thread i) eq (raise (A := Answer) e) (raise e)) as Hraise.
  { intros e. apply st_rel_raise. }
  destruct s, x; cbn [thread_step]; rewrite ?Hv; try done; intros Hr;
    try (destruct (stopped (vm w)); [done|]); injection Hr as Hr;
    try (eapply part_same_thread in Hr as (w1 & -> & H1);
         [by eauto|auto using handle_same_thread, reset_machine_same_thread, call_on_reset_same_thread,
            clear_same_thread..]; fail).
  all: try (subst r; by eauto).
  subst r. destruct (m_ephemeral (vm w)); [destruct (poll_syscall _)|]; eauto.
Qed.
End counters.

(** ** A schedule and its threads *)
Section system.
Context {M : Type} `{!TinyKVM M} (main : VirtualMachine M).

(** Thread [i] has a fork of the main object, whose reset callback captured [i]. *)
Definition fork_of (i : nat) (w : World M) : Prop :=
  m_on_reset_callback (vm w) = Some i ∧ m_master_instance (vm w) = Some main.

Definition numbered (sys : System M) : Prop :=
  ∀ i s w, threads sys !! i = Some (s, w) → fork_of i w.

Lemma same_thread_refl i (w : World M) : m_on_reset_callback (vm w) = Some i → same_thread i w w.
Proof. intros Hc. split; [by destruct w|done..]. Qed.

Lemma set_counters_own (w : World M) : set_counters (reset_counters w) w = w.
Proof. by destruct w. Qed.

Lemma part_object {A} v (c : vm_fn M A) own o next w :
  preserves (is_object v) c → is_object v w → is_object v (part c own o next w).2.
Proof. intros Hc Hw. unfold part. specialize (Hc w Hw). by destruct (c w) as [[] w1]. Qed.

(** A thread keeps its object. *)
Lemma thread_step_object v s x w r :
  is_object v w → thread_step main s x w = Some r → is_object v r.2.
Proof.
  intros Hw. destruct s, x; cbn [thread_step]; try done; intros Hr;
    try (destruct (stopped (vm w)); [done|]); injection Hr as <-; try exact Hw;
    try (apply part_object; [|done]); try (apply preserves_raise); try (apply handle_same_object).
  - destruct (m_ephemeral (vm w)); [destruct (poll_syscall _)|]; exact Hw.
  - intros w1 H1. unfold reset_machine, this, on_machine. run_st. by destruct (machine_reset_to _ _ _).
  - unfold call_on_reset. apply preserves_bind; [apply preserves_gets|]. intros v1.
    destruct (m_on_reset_callback v1); [apply reset_closure_object|apply preserves_ret].
  - unfold clear_connection. apply preserves_bind; [by apply update_object|]. intros _.
    apply preserves_bind; [by apply update_object|]. intros _.
    destruct own; [by apply update_object|apply preserves_ret].
Qed.

Lemma thread_step_fork_of i s x w r : fork_of i w → thread_step main s x w = Some r → fork_of i r.2.
Proof.
  intros [Hc Hm] Hr. destruct (thread_step_object (vm w) s x w r) as (_ & _ & _ & _ & _ & _ & H1 & H2 & _);
    [by unfold is_object|done|]. split; congruence.
Qed.

(** The storage machine is no part of a thread's object or counters. *)
Lemma attach_counters st (w : World M) : reset_counters (attach st w) = reset_counters w.
Proof. unfold attach. by repeat case_match. Qed.

Lemma attach_fork_of i st w : fork_of i w → fork_of i (attach st w).
Proof. unfold attach. by repeat case_match. Qed.

Lemma publish_none x (w : World M) : publish None x w = None.
Proof. done. Qed.

Lemma system_step_inv i x (sys : System M) o sys' :
  system_step main i x sys = Some (o, sys') →
  ∃ s w s' w', threads sys !! i = Some (s, w) ∧ ¬ crashed sys ∧
    thread_step main s x (attach (shared sys) (set_counters (counters sys) w)) = Some (o, s', w') ∧
    sys' = MkSystem (reset_counters w') (publish (shared sys) x w') (<[i := (s', w')]> (threads sys)).
Proof.
  unfold system_step. destruct (decide (crashed sys)) as [|Hc]; [done|].
  destruct (threads sys !! i) as [[s w]|] eqn:Hi; [|done]. cbn.
  destruct (thread_step main s x _) as [[[o1 s'] w']|] eqn:Ht; [|done]. cbn. intros [= -> <-].
  by exists s, w, s', w'.
Qed.

(** What a step does to the counters: it adds one to the thread's own when the
    callback is called in a verbose server. *)
Definition counted (o : seen) (n : Z) : Z :=
  if verbose (m_config main) && is_counted o then u64 (n + 1) else n.

Definition counts_own (i : nat) (w : World M) (r : seen * place * World M) : Prop :=
  (∀ j, j ≠ i → reset_counters r.2 !! j = reset_counters w !! j) ∧
  length (reset_counters r.2) = length (reset_counters w) ∧
  (r.1.2 ≠ Gone → reset_counters r.2 !! i = counted r.1.1 <$> reset_counters w !! i).

Lemma counts_own_same i w o s w1 :
  is_counted o = false → reset_counters w1 = reset_counters w → counts_own i w (o, s, w1).
Proof.
  intros Ho Hw. unfold counts_own, counted. cbn. rewrite Hw, Ho, andb_false_r.
  split_and!; [done..|]. intros _. by destruct (reset_counters w !! i).
Qed.

Lemma part_counts_own {A} i (c : vm_fn M A) own o next w :
  (∀ a, is_counted (o a) = false) → reset_counters (c w).2 = reset_counters w →
  counts_own i w (part c own o next w).
Proof.
  intros Ho Hc. unfold part. destruct (c w) as [[a|e] w1]; by apply counts_own_same.
Qed.

Lemma handle_keeps_counters (e : Event M) w : reset_counters (handle e w).2 = reset_counters w.
Proof. rewrite <-(set_counters_own w) at 1. by rewrite handle_counters. Qed.

Lemma call_on_reset_counts_own i own w :
  fork_of i w →
  counts_own i w (part call_on_reset own (λ _, Counted) (Clearing own) w).
Proof.
  intros [Hcb Hm]. assert (main_vm (vm w) = main) as Hv by (unfold main_vm; by rewrite Hm).
  unfold call_on_reset, this, part, on_reset_closure, counts_own, counted. run_st. rewrite Hcb, Hv. destruct (verbose (m_config main)); cbn [negb andb].
  2:{ cbn. split_and!; [done..|]. by destruct (reset_counters w !! i). }
  destruct (reset_counters w !! i) as [n|] eqn:E; cbn [fst snd]; [|by rewrite E; split_and!].
  pose proof (lookup_lt_Some _ _ _ E).
  case_decide; cbn; (split_and!; [intros j Hj; by apply list_lookup_insert_ne|by rewrite length_insert|]).
  - done.
  - intros _. by rewrite list_lookup_insert_eq.
Qed.

Lemma thread_step_counts_own i s x w r :
  fork_of i w → thread_step main s x w = Some r → counts_own i w r.
Proof.
  intros Hf. destruct s, x; cbn [thread_step]; try done; intros Hr;
    try (destruct (stopped (vm w)); [done|]); injection Hr as <-;
    try (by apply counts_own_same); try (apply part_counts_own; [done|]).
  - destruct (m_ephemeral (vm w)); [destruct (poll_syscall _)|]; by apply counts_own_same.
  - apply handle_keeps_counters.
  - apply handle_keeps_counters.
  - unfold reset_machine, this, on_machine. run_st. by destruct (machine_reset_to _ _ _).
  - by apply call_on_reset_counts_own.
  - unfold clear_connection, update. run_st. by destruct own.
Qed.

(** The counters another thread changed are not this thread's. *)
Lemma same_thread_other i c c' (w w0 : World M) :
  same_thread i (set_counters c w) w0 → c' !! i = c !! i → length c' = length c →
  same_thread i (set_counters c' w) w0.
Proof. intros [Hw Hi Hl Hcb] E1 E2. split; cbn in *; [done|congruence..]. Qed.

Lemma system_step_numbered i x sys o sys' :
  numbered sys → system_step main i x sys = Some (o, sys') → numbered sys'.
Proof.
  intros Hn (s & w & s' & w' & Hi & _ & Ht & ->)%system_step_inv j sj wj. cbn.
  intros [[-> [= <- <-]]|[_ Hj]]%lookup_insert_Some; [|by eapply Hn].
  eapply thread_step_fork_of in Ht; [exact Ht|]. apply attach_fork_of. exact (Hn _ _ _ Hi).
Qed.

Lemma of_thread_cons {A} i j (a : A) l :
  of_thread i ((j, a) :: l) = if decide (j = i) then a :: of_thread i l else of_thread i l.
Proof. unfold of_thread. rewrite filter_cons. cbn. by case_decide. Qed.

(** What a thread does in a server it does on its own, whatever the other
    threads do. *)
Lemma run_system_projects i sched sys tr sys' s w w0 :
  shared sys = None → numbered sys → run_system main sched sys = Some (tr, sys') →
  threads sys !! i = Some (s, w) → same_thread i (set_counters (counters sys) w) w0 →
  ∃ s' w' w0', threads sys' !! i = Some (s', w') ∧
    run_thread main (of_thread i sched) s w0 = Some (of_thread i tr, (s', w0')) ∧
    same_thread i (set_counters (counters sys') w') w0'.
Proof.
  revert sys tr s w w0. induction sched as [|[j x] sched IH]; intros sys tr s w w0 Hno Hn Hrun Hi Hs; cbn in Hrun.
  { injection Hrun as <- <-. by exists s, w, w0. }
  destruct (system_step main j x sys) as [[o sys1]|] eqn:Hstep; [|done]. cbn in Hrun.
  destruct (run_system main sched sys1) as [[l sys2]|] eqn:Hrest; [|done]. cbn in Hrun.
  injection Hrun as <- <-. pose proof (system_step_numbered _ _ _ _ _ Hn Hstep) as Hn1.
  apply system_step_inv in Hstep as (sj & wj & sj' & wj' & Hj & _ & Ht & ->).
  rewrite Hno in *. cbn [attach publish] in *. rewrite !of_thread_cons. case_decide as E.
  - subst j. rewrite Hi in Hj. injection Hj as <- <-.
    destruct (thread_step_same_thread main _ _ _ _ w0 _ Hs Ht) as (w1 & Ht1 & Hs1). cbn [fst snd] in *.
    edestruct (IH (MkSystem (reset_counters wj') None (<[i:=(sj', wj')]> (threads sys)))) as (s' & w' & w0' & ? & Hr & ?);
      [done..|cbn; apply lookup_insert_eq|cbn; by rewrite set_counters_own|].
    exists s', w', w0'. split_and!; [done| |done]. cbn. rewrite Ht1. cbn. by rewrite Hr.
  - pose proof (Hn _ _ _ Hj) as Hf. change (fork_of j (set_counters (counters sys) wj)) in Hf.
    destruct (thread_step_counts_own _ _ _ _ _ Hf Ht) as (Hne & Hlen & _).
    refine (IH _ _ _ _ _ _ Hn1 Hrest _ _); [done|cbn; by rewrite lookup_insert_ne|].
    cbn. eapply same_thread_other; [exact Hs|by apply Hne|done].
Qed.

(** Conversely, what the threads can do on their own they can do in any order. *)
Lemma same_thread_sym i (w w' : World M) : same_thread i w w' → same_thread i w' w.
Proof.
  intros [Hw Hi Hl Hcb]. split; [|done|done|by rewrite Hw].
  rewrite Hw. by destruct w.
Qed.

Lemma run_thread_gone xs (w : World M) l s w' : run_thread main xs Gone w = Some (l, (s, w')) → s = Gone.
Proof. destruct xs; cbn; [by intros [= _ <- _]|done]. Qed.

Definition can_run (i : nat) (sched : list (nat * input M)) (c : list Z) (s : place) (w : World M) : Prop :=
  ∃ w0 l s' w', same_thread i (set_counters c w) w0 ∧
    run_thread main (of_thread i sched) s w0 = Some (l, (s', w')) ∧ s' ≠ Gone.

Lemma run_system_completes sched sys :
  shared sys = None → numbered sys → ¬ crashed sys → (∀ i x, (i, x) ∈ sched → is_Some (threads sys !! i)) →
  (∀ i s w, threads sys !! i = Some (s, w) → can_run i sched (counters sys) s w) →
  ∃ tr sys', run_system main sched sys = Some (tr, sys').
Proof.
  revert sys. induction sched as [|[j x] sched IH]; intros sys Hno Hn Hc Hin Hrun; [by eexists _, _|].
  destruct (Hin j x) as [[s w] Hj]; [by left|].
  destruct (Hrun j s w Hj) as (w0 & l & s' & w' & Hs & Hr & Hs').
  rewrite of_thread_cons, decide_True in Hr by done. cbn in Hr.
  destruct (thread_step main s x w0) as [[[o s1] w1]|] eqn:Ht; [|done]. cbn in Hr.
  destruct (run_thread main (of_thread j sched) s1 w1) as [[l1 [s2 w2]]|] eqn:Hr1; [|done].
  injection Hr as _ -> ->.
  destruct (thread_step_same_thread main _ _ _ _ _ _ (same_thread_sym _ _ _ Hs) Ht) as (w1' & Ht' & Hs1).
  cbn [fst snd] in *.
  assert (system_step main j x sys = Some (o, MkSystem (reset_counters w1') None (<[j:=(s1, w1')]> (threads sys))))
    as Hstep.
  { unfold system_step. rewrite decide_False by done. rewrite Hj, Hno. cbn. by rewrite Ht'. }
  pose proof (system_step_numbered _ _ _ _ _ Hn Hstep) as Hn1.
  destruct (IH (MkSystem (reset_counters w1') None (<[j:=(s1, w1')]> (threads sys)))) as (tr & sys' & Hsys); [done|done|..].
  - intros (i & [si wi] & Hi & Hg). cbn in Hi.
    apply lookup_insert_Some in Hi as [[-> [= <- <-]]|[_ Hi]].
    + cbn in Hg. subst s1. by apply run_thread_gone in Hr1.
    + apply Hc. by exists i, (si, wi).
  - intros i y Hy. cbn. destruct (decide (i = j)) as [->|]; [by rewrite lookup_insert_eq|].
    rewrite lookup_insert_ne by done. eapply Hin. by right.
  - pose proof (Hn _ _ _ Hj) as Hf. change (fork_of j (set_counters (counters sys) w)) in Hf.
    destruct (thread_step_counts_own _ _ _ _ _ Hf Ht') as (Hne & Hlen & _). cbn [fst snd] in *.
    intros i si wi Hi. cbn in Hi. apply lookup_insert_Some in Hi as [[<- [= <- <-]]|[Hij Hi]].
    + exists w1, l1, s', w'. cbn. rewrite set_counters_own. split_and!; [by apply same_thread_sym|done..].
    + destruct (Hrun i si wi Hi) as (v0 & k & t & v & Hv & Hk & Ht1).
      rewrite of_thread_cons, decide_False in Hk by done. exists v0, k, t, v. split_and!; [|done..].
      cbn. eapply same_thread_other; [exact Hv|by apply Hne|done].
  - exists ((j, o) :: tr), sys'. cbn. rewrite Hstep. cbn. by rewrite Hsys.
Qed.

(** ** The counters *)

Lemma run_system_crashed sched sys tr sys' :
  crashed sys → run_system main sched sys = Some (tr, sys') → sys' = sys.
Proof.
  destruct sched as [|[j x] sched]; cbn; [by intros _ [= _ <-]|]. intros Hc.
  unfold system_step. by rewrite decide_True.
Qed.

Lemma run_system_counts i sched sys tr sys' :
  numbered sys → run_system main sched sys = Some (tr, sys') → ¬ crashed sys' →
  counters sys' !! i = (λ n, foldl (λ n o, counted o n) n (of_thread i tr)) <$> counters sys !! i.
Proof.
  revert sys tr. induction sched as [|[j x] sched IH]; intros sys tr Hn Hrun Hc; cbn in Hrun.
  { injection Hrun as <- <-. cbn. by destruct (counters sys !! i). }
  destruct (system_step main j x sys) as [[o sys1]|] eqn:Hstep; [|done]. cbn in Hrun.
  destruct (run_system main sched sys1) as [[l sys2]|] eqn:Hrest; [|done]. cbn in Hrun.
  injection Hrun as <- <-. pose proof (system_step_numbered _ _ _ _ _ Hn Hstep) as Hn1.
  rewrite (IH sys1 l Hn1 Hrest Hc), of_thread_cons.
  apply system_step_inv in Hstep as (s & w & s' & w' & Hj & _ & Ht & ->). cbn.
  pose proof (Hn _ _ _ Hj) as Hf. change (fork_of j (set_counters (counters sys) w)) in Hf.
  apply (attach_fork_of _ (shared sys)) in Hf.
  destruct (thread_step_counts_own _ _ _ _ _ Hf Ht) as (Hne & _ & Ho). rewrite attach_counters in Hne, Ho.
  cbn [fst snd reset_counters set_counters] in *. case_decide as E; [subst j|by rewrite Hne by done].
  rewrite Ho; [by cbn; destruct (counters sys !! i)|]. intros ->. apply Hc.
  assert (crashed (MkSystem (reset_counters w') (publish (shared sys) x w') (<[i:=(Gone, w')]> (threads sys)))) as Hg.
  { exists i, (Gone, w'). split; [apply lookup_insert_eq|done]. }
  by rewrite (run_system_crashed _ _ _ _ Hg Hrest).
Qed.
End system.

(** ** What every thread keeps *)
Section isolation.
Context {M G : Type} `{!TinyKVM M} (guest_state : M → G) `{!TinyKVMLaws M G guest_state}.
Variable main : VirtualMachine M.
Hypothesis main_ephemeral : m_ephemeral main = true.

(** The fork is as new at the head of the loop unless its reset failed; in the
    middle of a reset its machine is. *)
Definition thread_inv (i : nat) (s : place) (w : World M) : Prop :=
  fork_inv main i w ∧
  match s with
  | AtTurn false => pristine guest_state main i w
  | Calling _ | Clearing _ => guest_state (m_machine (vm w)) = guest_state (m_machine main)
  | _ => True
  end.

Definition input_ok (x : input M) : Prop := match x with Deliver e => event_ok e | _ => True end.

Lemma caught_inv i own e w : fork_inv main i w → thread_inv i (caught own e) w.
Proof using Type. unfold caught. intros Hi. split; [done|]. by destruct (negb _), own. Qed.

Lemma handle_part_inv i e own next w :
  fork_inv main i w → event_ok e → (next = InSyscall ∨ next = Running) →
  thread_inv i (part (handle e) own Answered next w).1.2 (part (handle e) own Answered next w).2.
Proof using main_ephemeral TinyKVMLaws0.
  intros Hi He Hn. pose proof (handle_fork_inv guest_state main i main_ephemeral e He w Hi) as H1.
  unfold part. destruct (handle e w) as [[a|x] w1]; cbn [fst snd] in *; [|by apply caught_inv].
  split; [done|]. by destruct Hn as [-> | ->].
Qed.

Lemma reset_machine_inv i own w :
  fork_inv main i w →
  thread_inv i (part (reset_machine main own) own (λ _, Silent) (Calling own) w).1.2
    (part (reset_machine main own) own (λ _, Silent) (Calling own) w).2.
Proof using main_ephemeral TinyKVMLaws0.
  intros Hi. unfold part, reset_machine, this, on_machine. run_st.
  rewrite (fork_main_vm guest_state main i main_ephemeral w Hi).
  assert ((if own then main else main) = main) as -> by by destruct own.
  destruct (machine_reset_to _ _ _) as [[[]|x] m] eqn:Hm; cbn [fst snd].
  - split; [exact Hi|]. by eapply (guest_state_reset (guest_state := guest_state)).
  - apply caught_inv. exact Hi.
Qed.

Lemma call_inv i own w :
  fork_inv main i w → guest_state (m_machine (vm w)) = guest_state (m_machine main) →
  thread_inv i (part call_on_reset own (λ _, Counted) (Clearing own) w).1.2
    (part call_on_reset own (λ _, Counted) (Clearing own) w).2.
Proof using main_ephemeral TinyKVMLaws0.
  intros Hi Hg. pose proof (fork_inv_fields guest_state main i main_ephemeral w Hi) as (_ & _ & _ & Hcb & Hma & _).
  assert (main_vm (vm w) = main) as Hv by (unfold main_vm; by rewrite Hma).
  unfold part, call_on_reset, this. run_st. rewrite Hcb, Hv.
  destruct (on_reset_counters main i w) as (cs & Hcs & Hlen).
  destruct (on_reset_closure _ _ _) as [r w1]; cbn [fst snd] in *. subst w1.
  assert (fork_inv main i (set_counters cs w)) as Hi'.
  { destruct Hi as (? & ? & ? & ? & ?). split_and!; try done. cbn. congruence. }
  destruct r; cbn [fst snd]; [by split|by apply caught_inv].
Qed.

Lemma thread_step_inv i s x w r :
  thread_inv i s w → input_ok x → thread_step main s x w = Some r → thread_inv i r.1.2 r.2.
Proof using main_ephemeral TinyKVMLaws0.
  intros [Hi Hs] Hx. pose proof (fork_inv_fields guest_state main i main_ephemeral w Hi) as (_ & _ & Heph & _).
  destruct s, x; cbn [thread_step]; try done; intros Hr;
    try (destruct (stopped (vm w)); [done|]); injection Hr as <-; cbn in Hs, Hx.
  - rewrite Heph. destruct (poll_syscall _); by split.
  - apply handle_part_inv; auto.
  - by apply (caught_inv i true).
  - by split.
  - apply handle_part_inv; auto.
  - by apply (caught_inv i true).
  - by split.
  - rewrite main_ephemeral. by destruct (_ && _).
  - by apply reset_machine_inv.
  - by apply call_inv.
  - assert (pristine guest_state main i (clear_connection own w).2) as Hp.
    { destruct Hi as (Hso & Hw & Hp & Hl & _). unfold clear_connection, update. run_st.
      destruct own; (split_and!; [|done|exact Hs]); (split_and!; [exact Hso|done|done|done|by left]). }
    unfold part, clear_connection, update in *. run_st. destruct own; (split; [exact (proj1 Hp)|exact Hp]).
Qed.

Definition system_inv (sys : System M) : Prop :=
  length (counters sys) = 64 ∧
  ∀ i s w, threads sys !! i = Some (s, w) → thread_inv i s (set_counters (counters sys) w).

Lemma thread_inv_counters i s w c :
  thread_inv i s w → length c = 64 → thread_inv i s (set_counters c w).
Proof using Type.
  intros [Hi Hs] Hc. assert (fork_inv main i (set_counters c w)) as Hi'.
  { destruct Hi as (? & ? & ? & ? & ?). by split_and!. }
  split; [done|]. destruct s as [[]| | | | | | |]; try done. destruct Hs as (_ & ? & ?). by split_and!.
Qed.

(** The guest of a fork is not its storage machine. *)
Lemma attach_inv i s st w : thread_inv i s w → thread_inv i s (attach st w).
Proof using TinyKVMLaws0.
  unfold attach. destruct st as [r|]; [|done]. destruct (remote _) as [r0|]; [|done].
  intros [Hi Hs]. split; [exact Hi|].
  destruct s as [[]| | | | | | |]; try done; cbn [vm on_vm m_machine set_machine].
  - destruct Hs as (_ & Hp & Hg). split_and!; [exact Hi|exact Hp|].
    cbn. by rewrite (guest_state_set_remote (guest_state := guest_state)).
  - cbn in Hs |- *. by rewrite (guest_state_set_remote (guest_state := guest_state)).
  - cbn in Hs |- *. by rewrite (guest_state_set_remote (guest_state := guest_state)).
Qed.

Lemma run_system_inv sched sys tr sys' :
  system_inv sys → Forall (λ x, input_ok x.2) sched → run_system main sched sys = Some (tr, sys') →
  system_inv sys'.
Proof using main_ephemeral TinyKVMLaws0.
  intros Hs Hok. revert sys tr Hs. induction Hok as [|[j x] sched Hx _ IH]; intros sys tr [Hl Ht] Hrun; cbn in Hrun.
  { by injection Hrun as _ <-. }
  destruct (system_step main j x sys) as [[o sys1]|] eqn:Hstep; [|done]. cbn in Hrun.
  destruct (run_system main sched sys1) as [[l sys2]|] eqn:Hrest; [|done]. cbn in Hrun.
  injection Hrun as _ <-. eapply IH; [|exact Hrest].
  apply system_step_inv in Hstep as (s & w & s' & w' & Hj & _ & Hst & ->).
  pose proof (thread_step_inv _ _ _ _ _ (attach_inv _ _ (shared sys) _ (Ht _ _ _ Hj)) Hx Hst) as H1.
  cbn [fst snd] in H1.
  pose proof H1 as ((_ & _ & _ & Hl1 & _) & _). split; [done|].
  intros i si wi Hi. cbn in Hi. apply lookup_insert_Some in Hi as [[<- [= <- <-]]|[_ Hi]]; cbn.
  - by rewrite set_counters_own.
  - change (set_counters (reset_counters w') wi)
      with (set_counters (reset_counters w') (set_counters (counters sys) wi)).
    apply thread_inv_counters; [by apply Ht|done].
Qed.
End isolation.

(** ** The loop of a thread takes these steps *)
Section refinement.
Context {M : Type} `{!TinyKVM M} (main : VirtualMachine M).

Definition reaches (s : place) (w : World M) (s' : place) (w' : World M) : Prop :=
  ∃ xs l, run_thread main xs s w = Some (l, (s', w')).

Lemma reaches_refl s w : reaches s w s w.
Proof. by exists [], []. Qed.

Lemma reaches_step s x w o s1 w1 s' w' :
  thread_step main s x w = Some (o, s1, w1) → reaches s1 w1 s' w' → reaches s w s' w'.
Proof. intros Ht (xs & l & Hr). exists (x :: xs), (o :: l). cbn. rewrite Ht. cbn. by rewrite Hr. Qed.

Lemma reaches_trans s w s1 w1 s' w' : reaches s w s1 w1 → reaches s1 w1 s' w' → reaches s w s' w'.
Proof.
  intros (xs & l & Hr) H. revert s w l Hr. induction xs as [|x xs IH]; intros s w l Hr; cbn in Hr.
  { by injection Hr as <- <- <-. }
  destruct (thread_step main s x w) as [[[o s2] w2]|] eqn:Ht; [|done]. cbn in Hr.
  destruct (run_thread main xs s2 w2) as [[l1 [s3 w3]]|] eqn:Hr2; [|done]. injection Hr as _ -> ->.
  eapply reaches_step; [exact Ht|]. by eapply IH.
Qed.

Lemma reaches_one s x w o s' w' : thread_step main s x w = Some (o, s', w') → reaches s w s' w'.
Proof. intros Ht. eapply reaches_step; [exact Ht|apply reaches_refl]. Qed.

(** Where a function that ended with [r] leaves the thread. *)
Definition goes_on {A} (r : result A) (own : bool) (next : place) : place :=
  match r with Ok _ => next | Err e => caught own e end.

Lemma part_reaches {A} (c : vm_fn M A) own o next s x w :
  thread_step main s x w = Some (part c own o next w) →
  reaches s w (goes_on (c w).1 own next) (c w).2.
Proof. unfold part. destruct (c w) as [[a|e] w1]; intros Ht; by eapply reaches_one. Qed.

Lemma handle_all_reaches evs w :
  reaches InSyscall w (goes_on (handle_all evs w).1 true InSyscall) (handle_all evs w).2.
Proof.
  revert w. induction evs as [|e evs IH]; intros w; cbn [handle_all]; [apply reaches_refl|].
  pose proof (part_reaches (handle e) true Answered InSyscall InSyscall (Deliver e) w eq_refl) as H1.
  run_st. destruct (handle e w) as [[a|x] w1]; cbn [fst snd goes_on] in *; [|done].
  specialize (IH w1). destruct (handle_all evs w1) as [[l|x] w2]; by eapply reaches_trans.
Qed.

Lemma restart_reaches r w b :
  m_ephemeral (vm w) = true →
  reaches (AtTurn b) w (goes_on (restart_poll_syscall r w).1 true InSyscall) (restart_poll_syscall r w).2.
Proof.
  intros He. unfold restart_poll_syscall, this, system_call. run_st.
  assert (thread_step main (AtTurn b) Proceed w = Some (match poll_syscall (m_poll_method (vm w)) with
      | Some _ => (Silent, InSyscall, w)
      | None => (Threw (RuntimeError "VM does not have a known polling method"), Resetting false, w)
      end)) as Ht by (cbn; by rewrite He).
  destruct (poll_syscall (m_poll_method (vm w))) as [n|]; [|by eapply reaches_one].
  eapply reaches_step; [exact Ht|]. pose proof (handle_all_reaches (run_events_of r) w) as H1.
  destruct (handle_all (run_events_of r) w) as [[l|x] w1]; cbn [fst snd goes_on] in *; [|done].
  destruct (run_exception r) as [x|]; [|done]. eapply reaches_trans; [exact H1|].
  by apply (part_reaches (raise (A := Answer) x) true Answered InSyscall InSyscall (Throw x)).
Qed.

Lemma run_events_reaches evs w :
  reaches Running w (goes_on (run_events evs w).1 true Running) (run_events evs w).2.
Proof.
  revert w. induction evs as [|e evs IH]; intros w; cbn [run_events]; [apply reaches_refl|].
  unfold this. run_st. destruct (stopped (vm w)) eqn:Hs; [apply reaches_refl|].
  assert (thread_step main Running (Deliver e) w = Some (part (handle e) true Answered Running w)) as Ht
    by (cbn; by rewrite Hs).
  pose proof (part_reaches (handle e) true Answered Running Running (Deliver e) w Ht) as H1.
  destruct (handle e w) as [[a|x] w1]; cbn [fst snd goes_on] in *; [|done].
  specialize (IH w1). destruct (run_events evs w1) as [[l|x] w2]; by eapply reaches_trans.
Qed.

(** [vmresume], from the place before it. *)
Lemma machine_run_reaches r w s :
  thread_step main s Proceed w = Some (Silent, Running, on_vm (set_stopped false) w) →
  reaches s w (goes_on (machine_run r w).1 true Returned) (machine_run r w).2.
Proof.
  intros Ht. unfold machine_run, update, this. run_st.
  eapply reaches_step; [exact Ht|].
  pose proof (run_events_reaches (run_events_of r) (on_vm (set_stopped false) w)) as H1.
  destruct (run_events _ _) as [[l|x] w1]; cbn [fst snd goes_on] in *; [|done].
  assert (reaches Running w1 Returned w1) as H2 by by apply (reaches_one Running Proceed w1 Silent).
  destruct (stopped (vm w1)) eqn:Hs; [by eapply reaches_trans|].
  destruct (run_exception r) as [x|]; [|by eapply reaches_trans].
  eapply reaches_trans; [exact H1|].
  apply (part_reaches (raise (A := Answer) x) true Answered Running Running (Throw x)).
  cbn. by rewrite Hs.
Qed.

(** [reset_to] takes its three steps. *)
Lemma reset_to_reaches own w :
  (own = true → main_vm (vm w) = main) →
  let w' := (reset_to main w).2 in
  reaches (Resetting own) w (goes_on (reset_to main w).1 own (AtTurn false))
    (match (reset_to main w).1 with
     | Ok _ => if own then on_vm (set_reset_needed false) w' else w'
     | Err _ => w'
     end).
Proof.
  intros Hm. pose proof (part_reaches (reset_machine main own) own (λ _, Silent) (Calling own)
    (Resetting own) Proceed w eq_refl) as H1.
  assert (reset_machine main own w = on_machine (machine_reset_to (reset_options main) (m_machine main)) w) as E.
  { unfold reset_machine, this. run_st. destruct own; [by rewrite Hm|done]. }
  rewrite E in H1. unfold reset_to, this. run_st. 
  destruct (on_machine _ w) as [[[]|x] w1]; cbn [fst snd goes_on] in *; [|done].
  pose proof (part_reaches call_on_reset own (λ _, Counted) (Clearing own) (Calling own) Proceed w1 eq_refl) as H2.
  change (match m_on_reset_callback (vm w1) with
    | Some i => on_reset_closure (m_config (main_vm (vm w1))) i
    | None => λ s, (Ok (), s) end w1) with (call_on_reset w1).
  destruct (call_on_reset w1) as [[[]|x] w2]; cbn [fst snd goes_on] in *; [|by eapply reaches_trans].
  eapply reaches_trans; [exact H1|]. eapply reaches_trans; [exact H2|].
  pose proof (part_reaches (clear_connection own) own (λ _, Silent) (AtTurn false) (Clearing own) Proceed w2
    eq_refl) as H3.
  unfold clear_connection, update in *. run_st. destruct own; exact H3.
Qed.
(** The object of the fork. *)
Variable v : VirtualMachine M.
Hypothesis v_ephemeral : m_ephemeral v = m_ephemeral main.
Hypothesis v_master : m_master_instance v = Some main.

Lemma object_ephemeral w : is_object v w → m_ephemeral (vm w) = m_ephemeral main.
Proof using v_ephemeral. intros (_ & _ & _ & _ & -> & _). exact v_ephemeral. Qed.

Lemma object_main w : is_object v w → main_vm (vm w) = main.
Proof using v_master. unfold main_vm. intros (_ & _ & _ & _ & _ & _ & _ & -> & _). by rewrite v_master. Qed.

Lemma resume_loop_reaches rounds w b :
  m_ephemeral main = true → is_object v w →
  let w' := (resume_loop rounds w).2 in
  match (resume_loop rounds w).1 with
  | Ok (_, Serving) => ∃ b', reaches (AtTurn b) w (AtTurn b') w'
  | Ok (_, Finished) => reaches (AtTurn b) w (Resetting false) w'
  | Err e => reaches (AtTurn b) w (caught true e) w'
  end.
Proof using v_ephemeral v_master.
  intros He. revert w b. induction rounds as [|[sys res] rounds IH]; intros w b Hw; cbn [resume_loop].
  { exists b. apply reaches_refl. }
  pose proof (restart_reaches sys w b (eq_trans (object_ephemeral w Hw) He)) as H1.
  pose proof (restart_object v sys w Hw) as O1. run_st.
  destruct (restart_poll_syscall sys w) as [[a|x] w1]; cbn [fst snd goes_on] in *; [|done].
  pose proof (machine_run_reaches res w1 InSyscall eq_refl) as H2.
  pose proof (machine_run_object v res w1 O1) as O2.
  destruct (machine_run res w1) as [[a2|x] w2]; cbn [fst snd goes_on] in *; [|by eapply reaches_trans].
  unfold this. run_st. pose proof (object_ephemeral w2 O2) as He2. rewrite He in He2.
  assert (thread_step main Returned Proceed w2 = Some (Silent,
    if m_reset_needed (vm w2) then Resetting true else Resetting false, w2)) as Ht
    by (cbn; by rewrite He2, He).
  pose proof (reaches_trans _ _ _ _ _ _ H1 H2) as H12.
  destruct (m_reset_needed (vm w2)); [|eapply reaches_trans; [exact H12|by eapply reaches_one]].
  pose proof (reset_to_reaches true w2 (λ _, object_main w2 O2)) as H3. cbv zeta in H3.
  pose proof (reset_to_object v main w2 O2) as O3. rewrite (object_main w2 O2).
  assert (reaches (AtTurn b) w (Resetting true) w2) as H.
  { eapply reaches_trans; [exact H12|by eapply reaches_one]. }
  destruct (reset_to main w2) as [[[]|x] w3]; cbn [fst snd goes_on] in *; [|by eapply reaches_trans].
  unfold update. run_st. specialize (IH (on_vm (set_reset_needed false) w3) false O3). cbv zeta in IH.
  destruct (resume_loop rounds _) as [[[tr []]|x] w5]; cbn [fst snd] in *.
  1, 3: eapply reaches_trans; [exact H|by eapply reaches_trans].
  destruct IH as [b' H5]. exists b'. eapply reaches_trans; [exact H|by eapply reaches_trans].
Qed.

Lemma thread_turn_reaches env t w b :
  getenv env "DEBUG" = None → is_object v w →
  let w' := (thread_turn env main t w).2 in
  match (thread_turn env main t w).1 with
  | Ok (Serving, _) => ∃ b', reaches (AtTurn b) w (AtTurn b') w'
  | Ok (Finished, failed) => reaches (AtTurn b) w (AtTurn failed) w'
  | Err _ => reaches (AtTurn b) w Gone w'
  end.
Proof using v_ephemeral v_master.
  intros Hd Hw.
  assert (∀ w1, reaches (AtTurn b) w (Resetting false) w1 →
    let c := try_catch (reset_to main;; mret (Finished, false)) (λ _, mret (Finished, true)) in
    match (c w1).1 with
    | Ok (Serving, _) => ∃ b', reaches (AtTurn b) w (AtTurn b') (c w1).2
    | Ok (Finished, failed) => reaches (AtTurn b) w (AtTurn failed) (c w1).2
    | Err _ => reaches (AtTurn b) w Gone (c w1).2
    end) as Hreset.
  { intros w1 H1. pose proof (reset_to_reaches false w1 ltac:(done)) as H2. run_st.
    destruct (reset_to main w1) as [[[]|x] w2]; cbn [fst snd goes_on] in *; [by eapply reaches_trans|].
    unfold caught in H2. destruct (catchable x); by eapply reaches_trans. }
  pose proof (object_ephemeral w Hw) as Hew. pose proof (object_ephemeral) as Heph.
  pose proof (λ He, resume_loop_reaches (turn_rounds t) w b He Hw) as Hloop.
  unfold thread_turn, resume_fork, debug_if, this. rewrite Hd. run_st.
  rewrite Hew. destruct (m_ephemeral main) eqn:He.
  - specialize (Hloop eq_refl).
    destruct (resume_loop (turn_rounds t) w) as [[[tr []]|x] w1]; cbn [fst snd orb] in *; [by apply Hreset|done|].
    unfold caught in Hloop. by destruct (catchable x); [apply Hreset|].
  - pose proof (machine_run_reaches (turn_single t) w (AtTurn b)) as H1.
    pose proof (machine_run_object v (turn_single t) w Hw) as O1.
    assert (thread_step main (AtTurn b) Proceed w = Some (Silent, Running, on_vm (set_stopped false) w)) as Ht
      by (cbn; by rewrite Hew).
    specialize (H1 Ht).
    destruct (machine_run (turn_single t) w) as [[l|x] w1]; cbn [fst snd goes_on orb] in *.
    + eapply reaches_trans; [exact H1|]. eapply (reaches_one _ Proceed). cbn. by rewrite (Heph w1 O1), He.
    + unfold caught in H1. by destruct (catchable x); [apply Hreset|].
Qed.

Lemma thread_turn_object env t : preserves (is_object v) (thread_turn env main t).
Proof using Type.
  intros w Hw. pose proof (thread_loop_object v env main [t] w Hw) as H. revert H. cbn [thread_loop]. run_st.
  by destruct (thread_turn env main t w) as [[[[] b]|e] w1].
Qed.

Lemma thread_loop_reaches env turns w b :
  getenv env "DEBUG" = None → is_object v w →
  match (thread_loop env main turns w).1 with
  | Ok _ => ∃ b', reaches (AtTurn b) w (AtTurn b') (thread_loop env main turns w).2
  | Err _ => reaches (AtTurn b) w Gone (thread_loop env main turns w).2
  end.
Proof using v_ephemeral v_master.
  intros Hd. revert w b. induction turns as [|t turns IH]; intros w b Hw; cbn [thread_loop].
  { exists b. apply reaches_refl. }
  pose proof (thread_turn_reaches env t w b Hd Hw) as H1. pose proof (thread_turn_object env t w Hw) as O1.
  cbv zeta in H1. run_st.
  destruct (thread_turn env main t w) as [[[[] failed]|x] w1]; cbn [fst snd] in *; [|done..].
  specialize (IH w1 failed O1). destruct (thread_loop env main turns w1) as [[l|x] w2]; cbn [fst snd] in *.
  - destruct IH as [b' H2]. exists b'. by eapply reaches_trans.
  - by eapply reaches_trans.
Qed.
End refinement.

(** ** Totals *)

(** The resets a thread counted. *)
Definition resets (l : list seen) : nat := length (filter (λ o, is_counted o = true) l).

Lemma counted_total {M} (main : VirtualMachine M) l :
  foldl (λ n o, counted main o n) 0%Z l =
    if verbose (m_config main) then u64 (Z.of_nat (resets l)) else 0%Z.
Proof.
  unfold counted, resets. destruct (verbose (m_config main)); cbn [andb].
  - induction l as [|o l IH] using rev_ind; [done|].
    rewrite foldl_snoc, IH, filter_app, length_app, filter_cons. destruct (is_counted o).
    + rewrite decide_True by done. cbn. unfold wrap. rewrite Zplus_mod_idemp_l. f_equal. lia.
    + rewrite decide_False by done. cbn. by rewrite Nat.add_0_r.
  - induction l as [|o l IH] using rev_ind; [done|]. by rewrite foldl_snoc.
Qed.

Lemma start_lookup `{!TinyKVM M} (main : VirtualMachine M) ready i s w :
  threads (start_system main ready) !! i = Some (s, w) ↔ s = AtTurn false ∧ ready !! i = Some w.
Proof. cbn. rewrite lookup_fmap, fmap_Some. split; [intros (? & ? & [= -> ->])|intros [-> ?]]; eauto. Qed.

Lemma start_numbered `{!TinyKVM M} (main : VirtualMachine M) ready :
  (∀ i w, ready !! i = Some w → fork_of main i w) → numbered main (start_system main ready).
Proof. intros Hr i s w [_ Hi]%start_lookup. by apply Hr. Qed.

(** ** A concrete server *)

(** Two forks of a verbose server, and the steps of one that serves a request
    and is reset. *)
Definition demo_ready : gmap nat (World ToyMachine) :=
  {[ 0 := in_world (demo_fork (demo_main true 2) 0); 1 := in_world (demo_fork (demo_main true 2) 1) ]}.

Definition demo_steps : list (input ToyMachine) :=
  [Proceed; Proceed] ++ (Deliver <$> take 6 demo_request) ++ replicate 5 Proceed.

(** The two threads take turns, and thread 1 is about to reset when the schedule ends. *)
Definition demo_schedule : list (nat * input ToyMachine) :=
  mjoin ((λ x, [(0, x); (1, x)]) <$> take 10 demo_steps) ++ ((λ x, (0, x)) <$> drop 10 demo_steps).

Lemma demo_ready_spec i w : demo_ready !! i = Some w →
  fork_of (demo_main true 2) i w ∧ reset_counters w = replicate 64 0%Z ∧
  pristine toy_guest (demo_main true 2) i w.
Proof.
  unfold demo_ready. intros [[<- <-]|[_ [<- <-]%lookup_singleton_Some]]%lookup_insert_Some;
    (split; [split; reflexivity|split; [reflexivity|]]);
    (apply (new_fork_pristine toy_guest); reflexivity).
Qed.

(** What the schedule comes to, without the states of the machines. *)
Lemma demo_schedule_runs :
  ∃ tr sys, run_system (demo_main true 2) demo_schedule (start_system (demo_main true 2) demo_ready) = Some (tr, sys) ∧
    ¬ crashed sys ∧ resets (of_thread 0 tr) = 1.
Proof.
  assert ((λ r, (bool_decide (crashed r.2), resets (of_thread 0 r.1))) <$>
    run_system (demo_main true 2) demo_schedule (start_system (demo_main true 2) demo_ready) = Some (false, 1)) as H
    by (vm_compute; reflexivity).
  destruct (run_system (demo_main true 2) demo_schedule (start_system (demo_main true 2) demo_ready)) as [[tr sys]|]; [|done].
  injection H as H1 H2. exists tr, sys. split_and!; [done| |done]. by apply bool_decide_eq_false in H1.
Qed.

(** *** A storage machine that is shared *)

(** A guest that writes to the storage machine. *)
Definition demo_remote_write : Event ToyMachine :=
  EvGuest (λ m, match toy_remote m with
                | Some r => toy_connect (toy_write 4096 [1; 2; 3]%Z r) m
                | None => m
                end).

(** Two forks of a main object that is connected to a storage machine. *)
Definition storage_main (one_to_one : bool) : VirtualMachine ToyMachine :=
  let v := demo_main true 2 in
  let c := demo_config true true true 2 0 in
  MkVM (toy_connect toy_machine toy_machine)
    (MkConfig (main_filename c) (storage_filename c) (snapshot_filename c) (concurrency c)
       (warmup_connect_requests c) (warmup_intra_connect_requests c) (warmup_path c) (max_boot_time c)
       (max_req_time c) (max_address_space c) (max_main_memory c) (max_req_mem c) (limit_req_mem c)
       (shared_memory c) (dylink_address_hint c) (heap_address_hint c) (storage_dylink_address_hint c)
       (hugepage_arena_size c) (hugepage_requests_arena c) (storage c) one_to_one (storage_ipre_permanent c)
       (executable_heap c) (mmap_backed_files c) (hugepages c) (split_hugepages c) (transparent_hugepages c)
       (ephemeral c) (ephemeral_keep_working_memory c) (verbose c) (verbose_syscalls c)
       (verbose_mmap_syscalls c) (verbose_thread_syscalls c) (verbose_pagetable c) (environ c)
       (main_arguments c) (storage_arguments c) (vmem_remappings c) (storage_remappings c) (allowed_paths c)
       (current_working_directory c) (allowed_connect_ipv4 c) (allowed_listen_ipv4 c)
       (allowed_connect_ipv6 c) (allowed_listen_ipv6 c))
    (m_original_binary v) (m_binary_type v) (m_reqid v) true false false true false 7 3 Epoll None None (fds v) false.

Definition storage_ready (one_to_one : bool) : gmap nat (World ToyMachine) :=
  let main_ := storage_main one_to_one in
  {[ 0 := in_world (forked main_ 0 (m_machine main_)); 1 := in_world (forked main_ 1 (m_machine main_)) ]}.

(** What thread 1 sees in its storage machine when it has begun to run, after
    thread 0 wrote to its own. *)
Definition storage_seen (one_to_one : bool) : option (option (list (Z * list Z))) :=
  r ← run_system (storage_main one_to_one)
        [(0, Proceed); (0, Proceed); (0, Deliver demo_remote_write); (1, Proceed)]
        (start_system (storage_main one_to_one) (storage_ready one_to_one));
  t ← threads r.2 !! 1;
  Some (toy_memory <$> toy_remote (m_machine (vm t.2))).

(** The condition of the next theorem is needed: forks that share the storage
    machine see each other's writes, forks with their own do not. *)
Lemma shared_storage_interferes :
  storage_seen false = Some (Some [(4096, [1; 2; 3])%Z]) ∧ storage_seen true = Some (Some []).
Proof. split; vm_compute; reflexivity. Qed.

(** ** Claims *)

(** C3: the threads of a server do not interfere, unless they share a storage
    machine: in a server without one, or in which each fork has its own
    ([--1-to-1]), however the steps of the threads are interleaved, each
    thread's steps, answers, exceptions and state are those it has on its own; only the
    counters of other threads differ.  And what the threads can do on their own they
    can do in every interleaving.  (What a fork leaves in a shared storage
    machine the others see: [shared_storage_interferes].) *)
Theorem threads_do_not_interfere `{!TinyKVM M} (main : VirtualMachine M) ready sched :
  storage (m_config main) = false ∨ storage_1_to_1 (m_config main) = true →
  (∀ i w, ready !! i = Some w → fork_of main i w ∧ reset_counters w = replicate 64 0%Z) →
  (∀ tr sys i w, run_system main sched (start_system main ready) = Some (tr, sys) → ready !! i = Some w →
     ∃ s w1 c, threads sys !! i = Some (s, w1) ∧
       run_thread main (of_thread i sched) (AtTurn false) w = Some (of_thread i tr, (s, set_counters c w1)) ∧
       c !! i = counters sys !! i) ∧
  ((∀ i x, (i, x) ∈ sched → is_Some (ready !! i)) →
   (∀ i w, ready !! i = Some w → ∃ l s w1,
      run_thread main (of_thread i sched) (AtTurn false) w = Some (l, (s, w1)) ∧ s ≠ Gone) →
   ∃ tr sys, run_system main sched (start_system main ready) = Some (tr, sys)).
Proof.
  intros Hst Hr.
  assert (shared (start_system main ready) = None) as Hno.
  { cbn. unfold shared_storage. destruct Hst as [-> | ->]; [done|]. by rewrite andb_false_r. }
  assert (numbered main (start_system main ready)) as Hn.
  { apply start_numbered. intros i w Hi. by apply Hr. }
  assert (∀ i w, ready !! i = Some w → same_thread i (set_counters (replicate 64 0%Z) w) w) as Hs.
  { intros i w Hi. destruct (Hr i w Hi) as [[Hcb _] Hc]. split; cbn; [by destruct w|by rewrite Hc..|done]. }
  split.
  - intros tr sys i w Hrun Hi.
    destruct (run_system_projects main i sched _ tr sys (AtTurn false) w w Hno Hn Hrun) as (s & w1 & w0 & H1 & H2 & H3).
    { by apply start_lookup. }
    { by apply Hs. }
    exists s, w1, (reset_counters w0). destruct H3 as [Hw Hc _ _]. cbn in *.
    split_and!; [done| |done]. rewrite H2. by rewrite Hw at 1.
  - intros Hin Hrun. apply run_system_completes; [done|done|..].
    + intros (i & [s w] & [-> _]%start_lookup & Hg). done.
    + intros i x Hx. cbn. rewrite lookup_fmap, fmap_is_Some. by eapply Hin.
    + intros i s w [-> Hi]%start_lookup.
      destruct (Hrun i w Hi) as (l & s & w1 & H1 & H2). exists w, l, s, w1. split_and!; [by apply Hs|done..].
Qed.

(** Thread 1 is in the middle of its reset when thread 0 is back: it has done what it
    does alone. *)
Lemma threads_do_not_interfere_witness :
  ∃ tr sys s w c, run_system (demo_main true 2) demo_schedule (start_system (demo_main true 2) demo_ready) = Some (tr, sys) ∧
    threads sys !! 1 = Some (s, w) ∧
    run_thread (demo_main true 2) (of_thread 1 demo_schedule) (AtTurn false)
      (in_world (demo_fork (demo_main true 2) 1)) = Some (of_thread 1 tr, (s, set_counters c w)).
Proof.
  destruct (threads_do_not_interfere (demo_main true 2) demo_ready demo_schedule) as [H _].
  - left. reflexivity.
  - intros i w Hi. by apply demo_ready_spec in Hi as (? & ? & _).
  - destruct demo_schedule_runs as (tr & sys & E & _ & _).
    destruct (H tr sys 1 (in_world (demo_fork (demo_main true 2) 1)) E eq_refl) as (s & w & c & H1 & H2 & _).
    exists tr, sys, s, w, c. split; [exact E|split; [exact H1|exact H2]].
Defined.

(** C25: the counters are exact: no reset is lost or counted twice however the threads
    are interleaved.  As long as no thread ran into undefined behaviour, the
    counter of each fork is the number of times its reset callback returned,
    modulo 2^64, in a verbose server, and zero otherwise. *)
Theorem reset_counters_exact `{!TinyKVM M} (main : VirtualMachine M) ready sched tr sys i :
  (∀ i w, ready !! i = Some w → fork_of main i w) →
  run_system main sched (start_system main ready) = Some (tr, sys) → ¬ crashed sys → i < 64 →
  counters sys !! i =
    Some (if verbose (m_config main) then u64 (Z.of_nat (resets (of_thread i tr))) else 0%Z).
Proof.
  intros Hr Hrun Hc Hi.
  assert (numbered main (start_system main ready)) as Hn by by apply start_numbered.
  rewrite (run_system_counts main i sched _ tr sys Hn Hrun Hc).
  unfold start_system. cbn [counters]. rewrite lookup_replicate_2 by done. cbn [fmap option_fmap option_map].
  f_equal. apply counted_total.
Qed.

(** In the middle of the reset of thread 1 both have been counted. *)
Lemma reset_counters_exact_witness :
  ∃ tr sys, run_system (demo_main true 2) demo_schedule (start_system (demo_main true 2) demo_ready) = Some (tr, sys) ∧
    counters sys !! 0 = Some 1%Z.
Proof.
  destruct demo_schedule_runs as (tr & sys & E & Hc & Hn). exists tr, sys. split; [exact E|].
  rewrite (reset_counters_exact (demo_main true 2) demo_ready demo_schedule tr sys 0).
  - rewrite Hn. reflexivity.
  - intros i w Hi. by apply demo_ready_spec in Hi as (? & _).
  - exact E.
  - exact Hc.
  - lia.
Defined.

(** The loop of a thread, as [Fork] has it, takes the steps of this file: the
    thread starts at the head of the loop with the fork that was made, and every
    execution of the loop that did not meet undefined behaviour is a sequence of
    steps back to the head, with the same state. *)
Lemma thread_loop_takes_steps `{!TinyKVM M} (main : VirtualMachine M) i env turns w failures w' :
  getenv env "DEBUG" = None → new_fork main i = Ok (vm w) →
  thread_loop env main turns w = (Ok failures, w') →
  ∃ xs l failed, run_thread main xs (AtTurn false) w = Some (l, (AtTurn failed, w')).
Proof.
  intros Hd Hv Hrun. apply new_fork_forked in Hv as (m & _ & Hv).
  pose proof (thread_loop_reaches main (vm w)) as H. rewrite Hv in H at 1 2.
  specialize (H eq_refl eq_refl env turns w false Hd (reflexivity _)). rewrite Hrun in H.
  destruct H as (b & xs & l & H). eauto.
Qed.

(** Two turns of fork 99: a request, one that times out, and a run without a request. *)
Lemma thread_loop_takes_steps_witness :
  ∃ w' xs l failed,
    thread_loop [] (demo_main false 100) demo_turns (in_world (demo_fork (demo_main false 100) 99)) =
      (Ok [false; false], w') ∧
    run_thread (demo_main false 100) xs (AtTurn false) (in_world (demo_fork (demo_main false 100) 99)) =
      Some (l, (AtTurn failed, w')).
Proof.
  eexists. 
  destruct (thread_loop_takes_steps (demo_main false 100) 99 [] demo_turns
    (in_world (demo_fork (demo_main false 100) 99)) [false; false]
    (thread_loop [] (demo_main false 100) demo_turns (in_world (demo_fork (demo_main false 100) 99))).2)
    as (xs & l & failed & H).
  - reflexivity.
  - reflexivity.
  - vm_compute. reflexivity.
  - exists xs, l, failed. split; [|exact H]. vm_compute. reflexivity.
Defined.
