(* ===== verification/Server.v ===== *)
(** * The server as a whole

    From the command line to the guests: the theorems of the components are put
    together for a process that [main] of [main.cpp] started. *)

From S2P Require Import Prelude CppString OrdMap FsPath AllowedPaths Network Remap Config FromArgs Effect Tinykvm.
From S2P Require Import Vm Debugger Fork Files Snapshot Warmup Initialize Main Equiv Threads.

Local Open Scope string_scope.
Local Open Scope list_scope.
Local Open Scope nat_scope.

(** ** The policy of a command line

    What a fork's answers to a guest must be, by the options and the network
    entries they stand for; [dir] is the guest's working directory and [main]
    the main machine, in whose descriptor table the paths of Unix sockets are
    looked up.  A fork has no callback for [listen] and for links. *)
Definition policy_allows {M} `{!TinyKVM M} (host : HostEnv) (o : Options) (program : string)
    (nets : net_config) (dir : string) (main : M) (e : Event M) (a : Answer) : Prop :=
  match e with
  | EvOpenReadable p => ∃ b out, a = Pathname b out ∧
      (b = true ↔ ∃ s, s ∈ readable_roots (permissions o) program ∧
                       covers (root_of host s) (guest_path dir p) = true)
  | EvOpenWritable p => ∃ b out, a = Pathname b out ∧
      (b = true ↔ ∃ s, s ∈ writable_roots (permissions o) ∧
                       covers (root_of host s) (guest_path dir p) = true)
  | EvConnect _ addr => ∃ b, a = Flag b ∧
      (b = true ↔ address_granted main (allowed_connect nets).1 (allowed_connect nets).2 addr)
  | EvBind _ addr => ∃ b, a = Flag b ∧
      (b = true ↔ address_granted main (allowed_listen nets).1 (allowed_listen nets).2 addr)
  | EvListen _ _ _ | EvResolveSymlink _ => a = NotInstalled
  | _ => True
  end.

Lemma options_readable {M} `{!TinyKVM M} host o program nets dir (main : M) p out :
  policy_allows host o program nets dir main (EvOpenReadable p) (Pathname true out) →
  ∃ s, s ∈ readable_roots (permissions o) program ∧ covers (root_of host s) (guest_path dir p) = true.
Proof. intros (b & out' & [= <- _] & Hb). by apply Hb. Qed.

(** The network options of a command line are IPv4 rules [address:port]. *)
Definition ipv4_options (host : HostEnv) (o : Options) (net connect listen : list ipv4_rule) : Prop :=
  Forall (rule_ok (inet_pton4 host)) net ∧ Forall (rule_ok (inet_pton4 host)) connect ∧
  Forall (rule_ok (inet_pton4 host)) listen ∧
  allow_net (permissions o) = rule_value <$> net ∧
  allow_connect (permissions o) = rule_value <$> connect ∧
  allow_listen (permissions o) = rule_value <$> listen.

Lemma ipv4_options_nets host o net connect listen nets :
  ipv4_options host o net connect listen →
  network_config (inet_pton4 host) (inet_pton6 host) (getaddrinfo host)
    (allow_net (permissions o)) (allow_connect (permissions o)) (allow_listen (permissions o)) = Ok nets →
  ∀ addr,
    (listed (allowed_connect nets).1 (allowed_connect nets).2 addr ↔
       ∃ r, r ∈ net ++ connect ∧ rule_names r addr) ∧
    (listed (allowed_listen nets).1 (allowed_listen nets).2 addr ↔
       ∃ r, r ∈ net ++ listen ∧ rule_names r addr).
Proof.
  intros (Hn & Hc & Hl & -> & -> & ->). rewrite network_config_rules by done. intros [= <-] addr.
  split; apply (listed_rules (inet_pton4 host)); by apply Forall_app.
Qed.

Section policy.
Context {M : Type} `{!TinyKVM M}.

(** A fork with the configuration of the command line answers by its policy. *)
Lemma handle_policy host exit_code o c :
  host_ok host → FromArgs host exit_code (CliOptions o) = Ok (Args c) →
  ∃ nets, network_config (inet_pton4 host) (inet_pton6 host) (getaddrinfo host)
      (allow_net (permissions o)) (allow_connect (permissions o)) (allow_listen (permissions o)) = Ok nets ∧
  ∀ (e : Event M) w a w', m_config (vm w) = c → m_config (main_vm (vm w)) = c →
    asks_addresses (vm w) → listening_socket_callback (fds (vm w)) = ListenNone →
    resolve_symlink_callback (fds (vm w)) = SymlinkNone →
    absolute_dir (cwd (m_machine (vm w))) → handle e w = (Ok a, w') →
    policy_allows host o (main_filename c) nets (cwd (m_machine (vm w))) (m_machine (main_vm (vm w))) e a.
Proof.
  intros Hh (o' & rm & sm & p & files & [= <-] & _ & _ & _ & _ & Ha)%FromArgs_inv.
  destruct (app_callback_paths _ _ _ (parsed_config host o p rm sm) _ _ Hh eq_refl Ha) as [_ Hok].
  pose proof (λ q, app_callback_policy _ _ _ (parsed_config host o p rm sm) _ _ q Hh eq_refl Ha) as Hpol.
  apply app_callback_inv in Ha as (paths & genv & nets & _ & _ & Hnet & Hc).
  exists nets. split; [exact Hnet|]. intros e w a w' Hw Hm Hask Hlis Hsym Hdir He.
  assert (main_filename (parsed_config host o p rm sm) = main_filename c) as Hmain by by rewrite Hc.
  rewrite Hmain in Hpol.
  pose proof (handle_permitted e w a w' ltac:(by rewrite Hw) Hask He) as Hperm.
  destruct e; cbn [policy_allows answer_permitted] in *; try done.
  - by rewrite Hlis in Hperm.
  - rewrite Hm, Hc in Hperm. exact Hperm.
  - rewrite Hm, Hc in Hperm. exact Hperm.
  - destruct Hperm as (b & out & -> & _). exists b, out. split; [done|].
    revert He. unfold handle, on_open_readable, this. run_st.
    rewrite Hw. destruct (open_readable _ _ pathinout) as [b' out'] eqn:Ho. intros [= -> -> _].
    destruct (Hpol (guest_path (cwd (m_machine (vm w))) pathinout)) as [<- _].
    rewrite <-(lookup_permitted (allowed_paths c) readable _ _ Hok Hdir).
    unfold open_readable in Ho. by rewrite Ho.
  - destruct Hperm as (b & out & -> & _). exists b, out. split; [done|].
    revert He. unfold handle, on_open_writable, this. run_st.
    rewrite Hw. destruct (open_writable _ _ pathinout) as [b' out'] eqn:Ho. intros [= -> -> _].
    destruct (Hpol (guest_path (cwd (m_machine (vm w))) pathinout)) as [_ <-].
    rewrite <-(lookup_permitted (allowed_paths c) writable _ _ Hok Hdir).
    unfold open_writable in Ho. by rewrite Ho.
  - by rewrite Hsym in Hperm.
Qed.
End policy.

(** ** The threads of the process *)

(** The threads that are about to enter their loops. *)
Definition ready_threads {M} (threads_ : list (thread_state M)) : gmap nat (World M) :=
  omap (λ t, match t with ThreadReady w => Some w | _ => None end) (map_seq 0 threads_).

Lemma ready_threads_lookup {M} (threads_ : list (thread_state M)) i w :
  ready_threads threads_ !! i = Some w ↔ threads_ !! i = Some (ThreadReady w).
Proof.
  unfold ready_threads. rewrite lookup_omap, lookup_map_seq_0.
  destruct (threads_ !! i) as [[]|]; cbn; naive_solver.
Qed.

(** ** Claims *)

(** C1: the server confines its guests to the command line.  In a process that
    serves with forks, whatever the guest of a fork has done and whatever its
    thread went through, the fork is still the object it was made as, and its
    answers are these.  A path can be opened for reading or for writing
    exactly when a path the options grant covers it.  Every [connect] and
    [bind] is asked about, and allowed exactly when it is a Unix socket whose
    path may be written and read, or its address and port are named by an entry
    that [parse_addresses] made of the network options of that direction.  When those
    options are IPv4 rules [address:port] (or there are none) the entries are just
    these rules, of [--allow-net] and of the direction's own option.  (What
    other values become, with the port-only value that opens IPv6, is in
    [Network].)  A fork has no callback for [listen] and for symbolic links: what
    tinykvm does with them then is its own.  Accepting and closing connections is
    the protocol of [Fork]. *)
Theorem server_confines_guest {M G} `{!TinyKVM M} (gs : M → G) `{!TinyKVMLaws M G gs}
    `{!TinyElf} `{!Snapshots M} h (inp : MainInput M) o w threads p i wf :
  (∀ m : M, has_snapshot_state m = false) → boot_ok (main_boot inp) → host_ok (host_env inp) →
  command_line inp = CliOptions o →
  main h inp = (Goes_on (ServeForks w threads), p) → threads !! i = Some (ThreadReady wf) →
  ∃ c nets,
    FromArgs (host_env inp) (cli_exit_code inp) (CliOptions o) = Ok (Args c) ∧
    network_config (inet_pton4 (host_env inp)) (inet_pton6 (host_env inp)) (getaddrinfo (host_env inp))
      (allow_net (permissions o)) (allow_connect (permissions o)) (allow_listen (permissions o)) = Ok nets ∧
    (∀ net connect listen, ipv4_options (host_env inp) o net connect listen → ∀ addr,
       (listed (allowed_connect nets).1 (allowed_connect nets).2 addr ↔
          ∃ r, r ∈ net ++ connect ∧ rule_names r addr) ∧
       (listed (allowed_listen nets).1 (allowed_listen nets).2 addr ↔
          ∃ r, r ∈ net ++ listen ∧ rule_names r addr)) ∧
    (∀ env turns, is_object (vm wf) (thread_loop env (vm w) turns wf).2) ∧
    (∀ evs w1, is_object (vm wf) w1 → is_object (vm wf) (run_events evs w1).2) ∧
    ∀ e w1 a w2, is_object (vm wf) w1 → absolute_dir (cwd (m_machine (vm w1))) →
      handle e w1 = (Ok a, w2) →
      policy_allows (host_env inp) o (main_filename c) nets (cwd (m_machine (vm w1))) (m_machine (vm w)) e a.
Proof.
  intros Hsnap Hb Hh Hcl Hmain Hi.
  destruct (main_forks_inv gs h inp w threads p Hsnap Hb Hmain) as (c & st & Hc & _ & Hset & _ & Hm & _).
  rewrite Hcl in Hc. destruct (handle_policy (M := M) _ _ _ _ Hh Hc) as (nets & Hn & Hpol).
  pose proof (threads_lookup _ _ _ _ _ _ _ _ Hm Hi) as Ht.
  apply thread_start_ready in Ht as (v & Hv & Hso & _).
  destruct (thread_fork_spec gs _ _ _ _ _ Hv) as (m & -> & _).
  unfold settings in Hset. injection Hset as Hcfg _ _ Hac Hab.
  exists c, nets. split_and!; [done|done| | | |].
  - intros net connect listen Hipv4. by eapply ipv4_options_nets.
  - intros env turns. apply thread_loop_object. by unfold is_object.
  - intros evs. apply run_events_same_object.
  - intros e w1 a w2 H1 Hdir He. unfold is_object in H1. rewrite <-Hso in H1.
    destruct H1 as (Hc1 & _ & _ & _ & _ & _ & _ & Hma & Hf).
    assert (main_vm (vm w1) = vm w) as Hmv by (unfold main_vm; by rewrite Hma).
    rewrite <-Hmv. eapply Hpol; [| | | | |done|done].
    + by rewrite Hc1.
    + by rewrite Hmv.
    + unfold asks_addresses. rewrite Hf. by split.
    + rewrite Hf. cbn. by rewrite (forked_fds_none (guest_state := gs)).
    + rewrite Hf. cbn. by rewrite (forked_fds_none (guest_state := gs)).
Qed.

(** The rule of [demo_options]: [--allow-listen=10.0.0.1:443]. *)
Lemma demo_ipv4_options : ipv4_options demo_env demo_options [] [] [demo_rule].
Proof.
  unfold ipv4_options. split_and!; [constructor|constructor| |reflexivity..].
  apply Forall_singleton. unfold rule_ok. simpl. split_and!; try done; lia.
Qed.

(** Fork 2 of the server that [demo_options] start opens a file for reading:
    there is an option that grants it.  It may not bind the port 80: the rule names 443. *)
Lemma server_confines_witness :
  ∃ w threads p wf w2 out,
    main (H := demo_elf) demo_host (demo_input demo_options demo_main_run (MkRun [] None)) =
      (Goes_on (ServeForks w threads), p) ∧
    threads !! 2 = Some (ThreadReady wf) ∧
    handle (EvOpenReadable "/srv/www/index.html") wf = (Ok (Pathname true out), w2) ∧
    (∃ s, s ∈ readable_roots (permissions demo_options) "/bin/app" ∧
      covers (root_of demo_env s) (guest_path "/srv" "/srv/www/index.html") = true) ∧
    ∀ nets, network_config demo_pton4 demo_pton6 demo_gai [] [] ["10.0.0.1:443"] = Ok nets →
      ¬ listed (allowed_listen nets).1 (allowed_listen nets).2 (sockaddr_in 0x0100000A 80).
Proof.
  eexists _, _, _, _, _, _. split; [vm_compute; reflexivity|]. split; [vm_compute; reflexivity|].
  match goal with |- handle _ ?x = _ ∧ _ => set (wf := x) end.
  split; [vm_compute; reflexivity|].
  edestruct (server_confines_guest (H := demo_elf) toy_guest demo_host
    (demo_input demo_options demo_main_run (MkRun [] None)) demo_options)
    as (c & nets & Hc & Hnets & Hrules & _ & _ & Hpol).
  - reflexivity.
  - apply plain_boot_ok. repeat constructor; simpl; lia.
  - exact demo_host_ok.
  - reflexivity.
  - vm_compute. reflexivity.
  - instantiate (2 := 2). vm_compute. reflexivity.
  - assert (main_filename c = "/bin/app") as <- by (vm_compute in Hc; by injection Hc as <-).
    split.
    + eapply options_readable, (Hpol _ wf (Pathname true _)).
      * unfold is_object. reflexivity.
      * reflexivity.
      * vm_compute. reflexivity.
    + intros nets' Hn'. change (network_config demo_pton4 demo_pton6 demo_gai [] [] ["10.0.0.1:443"] = Ok nets) in Hnets.
      assert (nets' = nets) as -> by congruence.
      destruct (Hrules [] [] [demo_rule] demo_ipv4_options (sockaddr_in 0x0100000A 80)) as [_ ->].
      intros (r & Hr & _ & _ & Hport). apply list_elem_of_singleton in Hr as ->. vm_compute in Hport.
      destruct Hport; discriminate.
Defined.

(** C2: the server isolates its requests.  In a process that serves with forks of an
    ephemeral server, let the guests do anything and let the threads be interleaved in any
    way: every fork keeps to its own object and tracks at most one connection,
    which blocks all others, and each time a thread is back at the head of its
    loop after a reset that did not fail, its guest's memory and registers are
    those of the main machine and it has no connection. *)
Theorem server_isolates_requests {M G} `{!TinyKVM M} (gs : M → G) `{!TinyKVMLaws M G gs}
    `{!TinyElf} `{!Snapshots M} h (inp : MainInput M) w threads_ p sched tr sys :
  (∀ m : M, has_snapshot_state m = false) → boot_ok (main_boot inp) →
  getenv (host_environ (host_env inp)) "DEBUG_FORK" = None → m_ephemeral (vm w) = true →
  main h inp = (Goes_on (ServeForks w threads_), p) →
  Forall (λ x, input_ok x.2) sched →
  run_system (vm w) sched (start_system (vm w) (ready_threads threads_)) = Some (tr, sys) →
  ∀ i s wf, threads sys !! i = Some (s, wf) →
    (m_tracked_client_vfd (vm wf) = -1 ∧ m_blocking_connections (vm wf) = false ∨
     0 ≤ m_tracked_client_vfd (vm wf) ∧ m_blocking_connections (vm wf) = true)%Z ∧
    m_config (vm wf) = m_config (vm w) ∧ m_on_reset_callback (vm wf) = Some i ∧
    m_master_instance (vm wf) = Some (vm w) ∧
    (s = AtTurn false →
       gs (m_machine (vm wf)) = gs (m_machine (vm w)) ∧ m_tracked_client_vfd (vm wf) = (-1)%Z).
Proof.
  intros Hsnap Hb Hn He Hmain Hok Hrun i s wf Hi.
  assert (system_inv gs (vm w) (start_system (vm w) (ready_threads threads_))) as Hinv.
  { split; [done|]. intros j sj wj [-> Hj%ready_threads_lookup]%start_lookup.
    destruct (main_ready_fork gs h inp w threads_ p j wj Hsnap Hb Hmain Hj Hn) as (_ & _ & _ & _ & Hc & Hp).
    cbn [counters start_system]. rewrite <-Hc, set_counters_own. split; [apply Hp|exact Hp]. }
  destruct (run_system_inv gs (vm w) He sched _ tr sys Hinv Hok Hrun) as [_ Hsys].
  destruct (Hsys i s wf Hi) as [Hf Hs].
  destruct (fork_inv_fields gs (vm w) i He _ Hf) as (_ & _ & _ & Hcb & Hma & Hcfg).
  pose proof Hf as (_ & _ & _ & _ & Hconn). split_and!; [exact Hconn|done..|].
  intros ->. destruct Hs as (_ & Hph & Hg). split; [exact Hg|].
  cbn in Hph. unfold phase_of in Hph. by case_decide.
Qed.

(** Two of the four forks of [demo_options] serve a request at the same time. *)
Lemma demo_server_runs :
  ∃ w threads_ p tr sys wf,
    main (H := demo_elf) demo_host (demo_input demo_options demo_main_run (MkRun [] None)) =
      (Goes_on (ServeForks w threads_), p) ∧ m_ephemeral (vm w) = true ∧
    run_system (vm w) demo_schedule (start_system (vm w) (ready_threads threads_)) = Some (tr, sys) ∧
    threads sys !! 0 = Some (AtTurn false, wf).
Proof.
  assert (match main (H := demo_elf) demo_host (demo_input demo_options demo_main_run (MkRun [] None)) with
    | (Goes_on (ServeForks w threads_), _) =>
        r ← run_system (vm w) demo_schedule (start_system (vm w) (ready_threads threads_));
        t ← threads r.2 !! 0;
        Some (m_ephemeral (vm w), t.1)
    | _ => None
    end = Some (true, AtTurn false)) as H by (vm_compute; reflexivity).
  destruct (main demo_host (demo_input demo_options demo_main_run (MkRun [] None))) as [r p].
  destruct r as [| | |[| | | |w threads_]]; try discriminate.
  destruct (run_system _ _ _) as [[tr sys]|] eqn:Hrun; [|discriminate]. cbn [mbind option_bind snd] in H.
  destruct (threads sys !! 0) as [[s wf]|] eqn:Hi; [|discriminate]. injection H as He Hs.
  exists w, threads_, p, tr, sys, wf. split; [reflexivity|]. split; [exact He|]. split; [exact Hrun|].
  rewrite Hi. by rewrite Hs.
Qed.

Lemma server_isolates_witness :
  ∃ w threads_ p tr sys wf,
    main (H := demo_elf) demo_host (demo_input demo_options demo_main_run (MkRun [] None)) =
      (Goes_on (ServeForks w threads_), p) ∧
    run_system (vm w) demo_schedule (start_system (vm w) (ready_threads threads_)) = Some (tr, sys) ∧
    threads sys !! 0 = Some (AtTurn false, wf) ∧
    toy_guest (m_machine (vm wf)) = toy_guest (m_machine (vm w)).
Proof.
  destruct demo_server_runs as (w & threads_ & p & tr & sys & wf & Hm & He & Hrun & Hi).
  exists w, threads_, p, tr, sys, wf. split; [exact Hm|]. split; [exact Hrun|]. split; [exact Hi|].
  eapply (server_isolates_requests (H := demo_elf) toy_guest demo_host
    (demo_input demo_options demo_main_run (MkRun [] None)) w threads_ p demo_schedule tr sys).
  - reflexivity.
  - apply plain_boot_ok. repeat constructor; simpl; lia.
  - reflexivity.
  - exact He.
  - exact Hm.
  - repeat constructor; simpl; lia.
  - exact Hrun.
  - exact Hi.
  - reflexivity.
Defined.
